(** * Cinespace .csp LUT codec: [read_LUT_Cinespace] and [write_LUT_Cinespace]

    A shallow embedding of [colour/io/luts/cinespace_csp.py].

    - Text is a list of characters with the codes 0 to 255; [str.strip],
      [str.split], [readlines] of a file opened in text mode, [int] and
      [float] are written out below, as Python 3 has them.
    - Numbers are IEEE binary64 values (Rocq's primitive floats, the same
      format as Python's [float] and numpy's [float64]); the fixed-point
      format [{:.df}] and the conversion of a decimal literal are computed
      exactly over [Z] and rounded half-to-even.
    - A numpy array is its shape and its elements in row-major order; an
      array of integers holds [int64] values, whose arithmetic wraps around.
    - The caller's LUT objects live in a heap of Python objects, files in a
      file system; the writer is a state transformer over both. *)

From Stdlib Require Import String Ascii ZArith NArith Bool Lia Arith List.
From Stdlib Require Import Floats.PrimFloat Floats.SpecFloat Floats.FloatOps.
From Stdlib Require Import Floats.FloatAxioms.
Import ListNotations.

Set Implicit Arguments.

(** ** Errors

    The source signals failures with [assert] and [raise]; the names of the
    specification's taxonomy are attached to them by their messages.  What
    Python raises by itself (an index out of range, a malformed number, a
    missing file, an unbound local) keeps Python's name. *)

Inductive error : Type :=
| EmptyFileError              (* assert len(lines) > 0, 'LUT file empty!' *)
| InvalidHeaderError          (* assert header == 'CSPLUTV100' *)
| InvalidKindError            (* assert kind in ('1D', '3D') *)
| TableSizeMismatchError      (* assert np.product(size) == len(table) *)
| InvalidLUTTypeError         (* raise ValueError('LUT must be 1D, ...') *)
| InvalidSequenceShapeError   (* assert ..., 'LUTSequence must be 1D+3D or 3x1D+3D!' *)
| ShaperSizeOutOfRangeError   (* assert 2 <= LUT[0].size <= 65536 *)
| CubeSizeOutOfRangeError     (* assert 2 <= LUT[1].size <= 256 *)
| AssertionError              (* an assertion of the LUT classes *)
| IndexError
| ValueError
| OverflowError
| TypeError
| UnboundLocalError
| IOError.

Inductive result (A : Type) : Type :=
| Ok (a : A)
| Err (e : error).

Arguments Ok {A} a.
Arguments Err {A} e.

Definition rbind {A B} (r : result A) (k : A -> result B) : result B :=
  match r with
  | Ok a => k a
  | Err e => Err e
  end.

Definition rassert (b : bool) (e : error) : result unit :=
  if b then Ok tt else Err e.

Definition of_option {A} (o : option A) (e : error) : result A :=
  match o with
  | Some a => Ok a
  | None => Err e
  end.

Declare Scope result_scope.
Delimit Scope result_scope with result.
Notation "x <- r ;; k" := (rbind r (fun x => k))
  (at level 61, r at next level, right associativity) : result_scope.
Notation "' p <- r ;; k" := (rbind r (fun x => let p := x in k))
  (at level 61, p pattern, r at next level, right associativity) : result_scope.

Fixpoint rmap {A B} (f : A -> result B) (l : list A) : result (list B) :=
  match l with
  | [] => Ok []
  | a :: l' =>
      match f a with
      | Ok b => match rmap f l' with
                | Ok bs => Ok (b :: bs)
                | Err e => Err e
                end
      | Err e => Err e
      end
  end.

(** ** Python text *)

Module Py.

Definition str := list ascii.

Definition txt (s : string) : str := list_ascii_of_string s.

Definition LF : ascii := ascii_of_nat 10.

Definition CR : ascii := ascii_of_nat 13.

Definition str_eqb (a b : str) : bool :=
  if list_eq_dec ascii_dec a b then true else false.

(** [str.isspace] on one character: TAB, LF, VT, FF, CR, the four
    separators FS GS RS US, the space, and beyond ASCII the next-line
    character U+0085 and the no-break space U+00A0. *)
Definition is_space (c : ascii) : bool :=
  let n := nat_of_ascii c in
  ((9 <=? n) && (n <=? 13) || (28 <=? n) && (n <=? 31) || (n =? 32)
   || (n =? 133) || (n =? 160))%nat.

Fixpoint lstrip (s : str) : str :=
  match s with
  | [] => []
  | c :: r => if is_space c then lstrip r else s
  end.

Definition rstrip (s : str) : str := rev (lstrip (rev s)).

(** [s.strip()] *)
Definition strip (s : str) : str := rstrip (lstrip s).

(** [s.split()]: the maximal runs of characters that are not white space.
    [cur] holds the run being read, last character first. *)
Fixpoint split_from (cur : str) (s : str) : list str :=
  match s with
  | [] => match cur with [] => [] | _ => [rev cur] end
  | c :: r =>
      if is_space c
      then match cur with
           | [] => split_from [] r
           | _ => rev cur :: split_from [] r
           end
      else split_from (c :: cur) r
  end.

Definition split (s : str) : list str := split_from [] s.

(** What a file opened for reading in text mode hands over: the line ends
    CR LF and CR of the content are turned into LF (universal newlines). *)
Fixpoint universal_newlines (s : str) : str :=
  match s with
  | [] => []
  | c :: r =>
      if Ascii.eqb c CR
      then LF :: match r with
                 | c' :: r' =>
                     if Ascii.eqb c' LF then universal_newlines r'
                     else universal_newlines r
                 | [] => []
                 end
      else c :: universal_newlines r
  end.

(** The text cut after every line feed, the line feed kept; a last line
    without one is kept too. *)
Fixpoint readlines_from (cur : str) (s : str) : list str :=
  match s with
  | [] => match cur with [] => [] | _ => [rev cur] end
  | c :: r =>
      if Ascii.eqb c LF
      then rev (c :: cur) :: readlines_from [] r
      else readlines_from (c :: cur) r
  end.

(** [open(path).readlines()] on a file of content [content]. *)
Definition readlines (content : str) : list str :=
  readlines_from [] (universal_newlines content).

(** Decimal digits. *)
Definition is_digit (c : ascii) : bool :=
  let n := nat_of_ascii c in ((48 <=? n) && (n <=? 57))%nat.

Definition digit_val (c : ascii) : N := N_of_ascii c - 48.

Definition digit_char (n : N) : ascii := ascii_of_N (48 + n).

Definition N_of_digits (ds : str) : N :=
  fold_left (fun acc c => (acc * 10 + digit_val c)%N) ds 0%N.

(** The digits of [n], most significant first; [fuel] bounds their number. *)
Fixpoint digits_of (fuel : nat) (n : N) : str :=
  match fuel with
  | O => []
  | S f =>
      if (n <? 10)%N then [digit_char n]
      else digits_of f (n / 10)%N ++ [digit_char (n mod 10)%N]
  end.

(** [str(n)] for a natural number. *)
Definition str_of_N (n : N) : str := digits_of (S (N.to_nat (N.log2 n))) n.

(** The last [w] digits of [n], zero padded. *)
Fixpoint digits_w (w : nat) (n : N) : str :=
  match w with
  | O => []
  | S w' => digits_w w' (n / 10)%N ++ [digit_char (n mod 10)%N]
  end.

(** The digits at the head of a literal, and what follows them: a digit,
    then digits that may each have one underscore in front ([1_000]).  The
    underscores are left out of the digits returned. *)
Fixpoint span_digits (s : str) : str * str :=
  match s with
  | [] => ([], [])
  | c :: r =>
      if is_digit c
      then let '(ds, rest) :=
             match r with
             | u :: r' =>
                 match r' with
                 | c' :: _ =>
                     if Ascii.eqb u "_"%char && is_digit c'
                     then span_digits r'
                     else span_digits r
                 | [] => span_digits r
                 end
             | [] => span_digits r
             end in
           (c :: ds, rest)
      else ([], s)
  end.

(** An optional sign in front of a literal. *)
Definition take_sign (s : str) : bool * str :=
  match s with
  | c :: r =>
      if Ascii.eqb c "-"%char then (true, r)
      else if Ascii.eqb c "+"%char then (false, r)
      else (false, s)
  | [] => (false, [])
  end.

(** [int(s)] on a decimal literal: white space around it is ignored, a sign
    is optional, digits follow (single underscores between them allowed)
    and nothing else. *)
Definition int_of_str (s : str) : option Z :=
  let '(neg, ds) := take_sign (strip s) in
  match span_digits ds with
  | ((_ :: _) as d, []) =>
      let v := Z.of_N (N_of_digits d) in Some (if neg then (- v)%Z else v)
  | _ => None
  end.

(** ** binary64 numbers: the format [{:.df}] and [float(s)] *)

Definition lower (c : ascii) : ascii :=
  let n := nat_of_ascii c in
  if ((65 <=? n) && (n <=? 90))%nat then ascii_of_nat (n + 32) else c.

(** [p / q] rounded to the nearest integer, a tie to the even one
    ([0 <= p], [0 < q]). *)
Definition round_half_even (p q : Z) : Z :=
  let a := (p / q)%Z in
  let r := (p mod q)%Z in
  match (2 * r ?= q)%Z with
  | Lt => a
  | Gt => (a + 1)%Z
  | Eq => if Z.even a then a else (a + 1)%Z
  end.

Definition sign_str (s : bool) : str := if s then ["-"%char] else [].

(** [n / 10^d] written with [d] digits after the point; no point at all
    when [d = 0]. *)
Definition fixed (d : nat) (n : N) : str :=
  str_of_N (n / 10 ^ N.of_nat d)%N ++
  match d with
  | O => []
  | S _ => "."%char :: digits_w d n
  end.

(** [m * 2^e * 10^d] rounded to an integer. *)
Definition scaled (d : nat) (m : positive) (e : Z) : N :=
  Z.to_N (if (0 <=? e)%Z
          then (Z.pos m * 2 ^ e * 10 ^ Z.of_nat d)%Z
          else round_half_even (Z.pos m * 10 ^ Z.of_nat d) (2 ^ (- e))).

(** ['{:.{d}f}'.format(x)] *)
Definition format_f (d : nat) (x : float) : str :=
  match Prim2SF x with
  | S754_nan => txt "nan"
  | S754_infinity s => sign_str s ++ txt "inf"
  | S754_zero s => sign_str s ++ fixed d 0
  | S754_finite s m e => sign_str s ++ fixed d (scaled d m e)
  end.

(** The binary64 value nearest to [p / q], with sign [s] ([0 <= p],
    [0 < q]).  The quotient is taken with 64 extra bits and a sticky bit, so
    that the one rounding of [binary_normalize] is the correct one. *)
Definition of_ratio (s : bool) (p q : Z) : float :=
  if (p =? 0)%Z then (if s then neg_zero else zero)
  else
    let g := Z.gcd p q in
    let p := (p / g)%Z in
    let q := (q / g)%Z in
    let sf :=
      if (q =? 1)%Z then binary_normalize prec emax p 0 false
      else
        let k := (Z.log2 q + 64)%Z in
        let n := (p * 2 ^ k)%Z in
        let sticky := if (n mod q =? 0)%Z then 0%Z else 1%Z in
        binary_normalize prec emax (2 * (n / q) + sticky) (- k - 1) false in
    let f := SF2Prim sf in
    if s then (- f)%float else f.

(** The exponent part of a literal: nothing, or [e] and a signed integer. *)
Definition exponent_of (s : str) : option Z :=
  match s with
  | [] => Some 0%Z
  | c :: r =>
      if Ascii.eqb (lower c) "e"%char
      then
        let '(neg, ds) := take_sign r in
        match span_digits ds with
        | ((_ :: _) as d, []) =>
            let v := Z.of_N (N_of_digits d) in Some (if neg then (- v)%Z else v)
        | _ => None
        end
      else None
  end.

(** The digits of an unsigned decimal literal and its power of ten. *)
Definition decimal_of (s : str) : option (N * Z) :=
  let '(ip, r1) := span_digits s in
  let '(fp, r2) :=
    match r1 with
    | c :: r => if Ascii.eqb c "."%char then span_digits r else ([], r1)
    | [] => ([], r1)
    end in
  match ip ++ fp with
  | [] => None
  | ds =>
      match exponent_of r2 with
      | Some ex => Some (N_of_digits ds, (ex - Z.of_nat (List.length fp))%Z)
      | None => None
      end
  end.

(** [float(s)]: white space around the literal is ignored; [nan], [inf] and
    [infinity] in any case; otherwise a decimal literal, single underscores
    allowed between its digits. [None] stands for [ValueError]. *)
Definition float_of_str (s : str) : option float :=
  let '(neg, rest) := take_sign (strip s) in
  let low := map lower rest in
  if str_eqb low (txt "nan") then Some nan
  else if str_eqb low (txt "inf") || str_eqb low (txt "infinity")
  then Some (if neg then neg_infinity else infinity)
  else
    match decimal_of rest with
    | Some (n, e10) =>
        Some (if (0 <=? e10)%Z
              then of_ratio neg (Z.of_N n * 10 ^ e10) 1
              else of_ratio neg (Z.of_N n) (10 ^ (- e10)))
    | None => None
    end.

(** What a number becomes when it is written with [d] decimals and read
    back. *)
Definition reread (d : nat) (x : float) : float :=
  match float_of_str (format_f d x) with
  | Some y => y
  | None => nan
  end.

End Py.

(** ** numpy arrays *)

Module Np.

Import Py.

(** An array: its shape, and its elements in row-major (C) order. *)
Record ndarray : Type := mk_ndarray { shape : list nat; data : list float }.

Definition size_of (s : list nat) : nat := fold_right Nat.mul 1%nat s.

Definition shape_eqb (s t : list nat) : bool :=
  if list_eq_dec Nat.eq_dec s t then true else false.

(** A one-dimensional array. *)
Definition array1 (xs : list float) : ndarray :=
  {| shape := [List.length xs]; data := xs |}.

(** [len(a)]: the first dimension. *)
Definition len (a : ndarray) : nat := hd 0%nat (shape a).

(** [as_float_array] on a list of tokens. *)
Definition as_float_array (toks : list str) : result ndarray :=
  (xs <- rmap (fun t => of_option (float_of_str t) ValueError) toks ;;
   Ok (array1 xs))%result.

(** [as_float_array] on a list of token lists: a two-dimensional array when
    the rows have one length, the empty one-dimensional array when there is
    no row, an error when the rows are ragged. *)
Definition as_float_array2 (rows : list (list str)) : result ndarray :=
  match rows with
  | [] => Ok (array1 [])
  | r0 :: _ =>
      if forallb (fun r => (List.length r =? List.length r0)%nat) rows
      then
        (xs <- rmap (fun t => of_option (float_of_str t) ValueError)
                    (concat rows) ;;
         Ok {| shape := [List.length rows; List.length r0]; data := xs |})%result
      else Err ValueError
  end.

(** The integers of numpy's [int64], and the one a result of 64-bit
    arithmetic is cut down to. *)
Definition int64_min : Z := (- 2 ^ 63)%Z.
Definition int64_max : Z := (2 ^ 63 - 1)%Z.

Definition in_int64 (z : Z) : bool :=
  ((int64_min <=? z) && (z <=? int64_max))%Z.

Definition wrap64 (z : Z) : Z := ((z - int64_min) mod 2 ^ 64 + int64_min)%Z.

(** [as_int_array] on a list of tokens: each is read as [int] does and has
    to fit 64 bits. *)
Definition as_int_array (toks : list str) : result (list Z) :=
  rmap (fun t => (z <- of_option (int_of_str t) ValueError ;;
                  _ <- rassert (in_int64 z) OverflowError ;;
                  Ok z)%result) toks.

(** [np.product] of an [int64] array: the product in 64-bit arithmetic,
    which wraps around. *)
Definition product (size : list Z) : Z :=
  fold_right (fun z acc => wrap64 (z * acc)) 1%Z size.

(** Positions along the axes and positions in memory, first axis fastest
    (Fortran order) and last axis fastest (C order). *)
Fixpoint ravel_F (shp idx : list nat) : nat :=
  match shp, idx with
  | s :: shp', i :: idx' => i + s * ravel_F shp' idx'
  | _, _ => 0
  end.

Fixpoint unravel_F (shp : list nat) (k : nat) : list nat :=
  match shp with
  | [] => []
  | s :: shp' => (k mod s) :: unravel_F shp' (k / s)
  end.

Definition ravel_C (shp idx : list nat) : nat := ravel_F (rev shp) (rev idx).

Definition unravel_C (shp : list nat) (k : nat) : list nat :=
  rev (unravel_F (rev shp) k).

(** [a.reshape(new)], C order: the elements stay where they are. *)
Definition reshape (a : ndarray) (new : list nat) : result ndarray :=
  if (size_of new =? List.length (data a))%nat
  then Ok {| shape := new; data := data a |}
  else Err ValueError.

(** [a.reshape(new, order='F')]: the element at Fortran position [k] of [a]
    is the element at Fortran position [k] of the result. *)
Definition reshape_F (a : ndarray) (new : list nat) : result ndarray :=
  if (size_of new =? List.length (data a))%nat
  then Ok {| shape := new;
             data := map (fun c =>
                            nth (ravel_C (shape a)
                                   (unravel_F (shape a)
                                      (ravel_F new (unravel_C new c))))
                                (data a) nan)
                         (seq 0 (size_of new)) |}
  else Err ValueError.

(** [a.reshape([-1, 3], order='F')] *)
Definition reshape_F_rows3 (a : ndarray) : result ndarray :=
  let n := List.length (data a) in
  if (n mod 3 =? 0)%nat then reshape_F a [n / 3; 3]%nat else Err ValueError.

(** [a.transpose()]: the axes reversed. *)
Definition transpose (a : ndarray) : ndarray :=
  {| shape := rev (shape a);
     data := map (fun c =>
                    nth (ravel_C (shape a) (rev (unravel_C (rev (shape a)) c)))
                        (data a) nan)
                 (seq 0 (size_of (shape a))) |}.

(** [a[lo:hi]] along the first axis. *)
Definition slice (a : ndarray) (lo hi : nat) : ndarray :=
  match shape a with
  | [] => a
  | n :: rest =>
      let hi := Nat.min hi n in
      let w := size_of rest in
      {| shape := (hi - lo)%nat :: rest;
         data := firstn ((hi - lo) * w) (skipn (lo * w) (data a)) |}
  end.

(** [a[k]] along the first axis. *)
Definition row (a : ndarray) (k : nat) : result ndarray :=
  match shape a with
  | [] => Err IndexError
  | n :: rest =>
      if (k <? n)%nat
      then let w := size_of rest in
           Ok {| shape := rest; data := firstn w (skipn (k * w) (data a)) |}
      else Err IndexError
  end.

(** The rows of [a], as [for row in a] meets them. *)
Definition rows (a : ndarray) : result (list ndarray) :=
  match shape a with
  | [] => Err TypeError
  | n :: _ => rmap (row a) (seq 0 n)
  end.

(** [a[j][i]] where a number is expected. *)
Definition get2 (a : ndarray) (j i : nat) : result float :=
  match shape a with
  | [r; c] =>
      if ((j <? r) && (i <? c))%nat
      then of_option (nth_error (data a) (j * c + i)) IndexError
      else Err IndexError
  | [] | [_] => Err IndexError
  | _ => Err TypeError
  end.

(** [a[i][j][l][c]] of a four-dimensional array. *)
Definition get4 (a : ndarray) (i j l c : nat) : option float :=
  match shape a with
  | [n0; n1; n2; n3] =>
      if ((i <? n0) && (j <? n1) && (l <? n2) && (c <? n3))%nat
      then nth_error (data a) (ravel_C (shape a) [i; j; l; c])
      else None
  | _ => None
  end.

Fixpoint forallb2 {A} (f : A -> A -> bool) (l l' : list A) : bool :=
  match l, l' with
  | [], [] => true
  | x :: r, y :: r' => f x y && forallb2 f r r'
  | _, _ => false
  end.

(** [np.array_equal(a, b)]: the same shape, and [==] on every element. *)
Definition array_equal (a b : ndarray) : bool :=
  shape_eqb (shape a) (shape b) && forallb2 PrimFloat.eqb (data a) (data b).

Fixpoint interleave3 (a b c : list float) : list float :=
  match a, b, c with
  | x :: a', y :: b', z :: c' => x :: y :: z :: interleave3 a' b' c'
  | _, _, _ => []
  end.

(** [tstack((a, b, c))]: three arrays of one shape stacked along a new last
    axis. *)
Definition tstack (a b c : ndarray) : result ndarray :=
  if shape_eqb (shape a) (shape b) && shape_eqb (shape b) (shape c)
  then Ok {| shape := shape a ++ [3%nat];
             data := interleave3 (data a) (data b) (data c) |}
  else Err ValueError.

(** [tsplit(a)]: the arrays [a[..., x]] for [x] along the last axis. *)
Definition tsplit (a : ndarray) : result (list ndarray) :=
  match rev (shape a) with
  | [] => Err IndexError
  | k :: front =>
      Ok (map (fun x =>
                 {| shape := rev front;
                    data := map (fun j => nth (j * k + x) (data a) nan)
                                (seq 0 (size_of front)) |})
              (seq 0 k))
  end.

(** [np.sum(np.isnan(a))] *)
Definition count_nan (a : ndarray) : nat :=
  List.length (filter PrimFloat.is_nan (data a)).

(** [np.nanmin(a)] and [np.nanmax(a)]: the least and the greatest element
    that is not NaN; NaN when there is none. *)
Definition nan_fold (better : float -> float -> bool) (a : ndarray) : float :=
  match fold_left (fun acc x =>
                     if PrimFloat.is_nan x then acc
                     else match acc with
                          | None => Some x
                          | Some m => Some (if better x m then x else m)
                          end)
                  (data a) None with
  | Some m => m
  | None => nan
  end.

Definition nanmin : ndarray -> float := nan_fold PrimFloat.ltb.
Definition nanmax : ndarray -> float := nan_fold (fun x m => PrimFloat.ltb m x).

(** [a op v] where [v] is broadcast along the last axis of [a]. *)
Definition broadcast (op : float -> float -> float) (a v : ndarray)
  : result ndarray :=
  match rev (shape a), shape v with
  | k :: _, [k'] =>
      if (k =? k')%nat
      then Ok {| shape := shape a;
                 data := map (fun '(c, x) => op x (nth (c mod k) (data v) nan))
                             (combine (seq 0 (List.length (data a))) (data a)) |}
      else Err ValueError
  | _, _ => Err ValueError
  end.

End Np.

(** ** LUT values *)

Import Py Np.

(** Modelled from the spec: the three LUT classes of [colour.io.luts] (their
    module is not among the sources).  A LUT has a table, a name, a domain
    and an ordered list of comments; the class is kept as a tag. *)
Inductive LUTclass : Type := LUT1D | LUT3x1D | LUT3D.

Record LUT : Type := mk_LUT {
  class_of : LUTclass;
  table : ndarray;
  name : str;
  domain : ndarray;
  comments : list str
}.

Definition LUTclass_eqb (a b : LUTclass) : bool :=
  match a, b with
  | LUT1D, LUT1D | LUT3x1D, LUT3x1D | LUT3D, LUT3D => true
  | _, _ => false
  end.

(** [isinstance(l, cls)] *)
Definition isinstance (l : LUT) (cls : LUTclass) : bool :=
  LUTclass_eqb (class_of l) cls.

(** Modelled from the spec: [LUT.size], the number of samples along the
    first axis of the table. *)
Definition size (l : LUT) : nat := len (table l).

(** Modelled from the spec: [LUT.is_domain_explicit()].  The domain is either
    the min/max pair (two numbers for a [LUT1D], a 2x3 matrix otherwise) or
    an explicitly stored list of samples. *)
Definition is_domain_explicit (l : LUT) : bool :=
  match class_of l with
  | LUT1D => negb (len (domain l) =? 2)%nat
  | _ => negb (shape_eqb (shape (domain l)) [2; 3]%nat)
  end.

(** What the sources use of [colour.io.luts] without defining it: the LUT a
    constructor builds when it is called without arguments (it also gives the
    value of an argument left out), and the conversion [LUT.as_LUT(cls)]. *)
Record LUTlib : Type := mk_LUTlib {
  LUT_default : LUTclass -> LUT;
  as_LUT : LUT -> LUTclass -> LUT
}.

(** Modelled from the spec: the number of axes of the table of a LUT, one
    for a [LUT1D], two for a [LUT3x1D] (samples by channels), four for a
    [LUT3D] (a grid of triples). *)
Definition table_axes (cls : LUTclass) : nat :=
  match cls with
  | LUT1D => 1
  | LUT3x1D => 2
  | LUT3D => 4
  end.

(** Modelled from the spec: a constructor called with a table,
    [LUT3x1D(table, name, domain, comments)] and [LUT3D(...)].  The class
    asserts that the table has the axes of the class ('The table must be a
    2D array!').  The domains the reader hands over have two axes and three
    columns, or are those of the class itself; nothing is asked of them
    here. *)
Definition new_LUT (cls : LUTclass) (table : ndarray) (name : str)
  (domain : ndarray) (comments : list str) : result LUT :=
  (_ <- rassert (List.length (shape table) =? table_axes cls)%nat
                AssertionError ;;
   Ok (mk_LUT cls table name domain comments))%result.

(** What the reader returns: a single LUT, or [LUTSequence(LUT_A, LUT_B)]. *)
Inductive csp_value : Type :=
| Single (l : LUT)
| LUTSequence (stages : list LUT).

(** ** The reader *)

Definition unity_range : ndarray :=
  {| shape := [2; 3]%nat; data := [0; 0; 0; 1; 1; 1]%float |}.

Definition _parse_metadata_section (metadata : list str) : str * list str :=
  match metadata with
  | t :: c => (t, c)
  | [] => ([], [])
  end.

Definition max_list (l : list Z) : result Z :=
  match l with
  | [] => Err ValueError
  | x :: r => Ok (fold_left Z.max r x)
  end.

(** One row of the pre-LUT brought to the common width; [np.pad] refuses a
    negative width. *)
Definition pad_row (width : Z) (r : ndarray) : result (list float) :=
  let n := Z.of_nat (List.length (data r)) in
  if (n =? width)%Z then Ok (data r)
  else if (n <? width)%Z
       then Ok (data r ++ repeat nan (Z.to_nat (width - n)))
       else Err ValueError.

Definition line_at (lines : list str) (i : nat) : result str :=
  of_option (nth_error lines i) IndexError.

Definition _parse_domain_section (lines : list str) : result ndarray :=
  (sizes <- rmap (fun i => l <- line_at lines i ;;
                           of_option (int_of_str l) ValueError)
                 [0; 3; 6]%nat ;;
   pre_LUT_size <- max_list sizes ;;
   pre_LUT <- rmap (fun i => l <- line_at lines i ;; as_float_array (split l))
                   [1; 2; 4; 5; 7; 8]%nat ;;
   pre_LUT_padded <- rmap (pad_row pre_LUT_size) pre_LUT ;;
   Ok {| shape := [List.length pre_LUT_padded; Z.to_nat pre_LUT_size];
         data := concat pre_LUT_padded |})%result.

Definition _parse_table_section (lines : list str)
  : result (list Z * ndarray) :=
  (l0 <- line_at lines 0 ;;
   size <- as_int_array (split l0) ;;
   table <- as_float_array2 (map split (tl lines)) ;;
   Ok (size, table))%result.

(** The loop over [lines[2:]] that collects the metadata: the result is what
    is added to [seek], and the collected lines. *)
Fixpoint scan_metadata (lines : list str) (i : nat) (is_metadata : bool)
  (metadata : list str) : nat * list str :=
  match lines with
  | [] => (0%nat, metadata)
  | line :: rest =>
      let line := strip line in
      if str_eqb line (txt "BEGIN METADATA")
      then scan_metadata rest (S i) true metadata
      else if str_eqb line (txt "END METADATA")
      then (i, metadata)
      else scan_metadata rest (S i) is_metadata
             (if is_metadata then metadata ++ [line] else metadata)
  end.

(** The sections of a file, as the reader holds them before it checks the
    table size and assembles a LUT. *)
Record sections : Type := mk_sections {
  is_3D : bool;
  title : str;
  meta_comments : list str;
  pre_LUT : ndarray;
  table_size : list Z;
  flat_table : ndarray
}.

Definition read_sections (content : str) : result sections :=
  (let lines := readlines content in
   _ <- rassert (0 <? List.length lines)%nat EmptyFileError ;;
   let lines := map strip (filter (fun line => negb (str_eqb (strip line) []))
                                  lines) in
   header <- line_at lines 0 ;;
   _ <- rassert (str_eqb header (txt "CSPLUTV100")) InvalidHeaderError ;;
   kind <- line_at lines 1 ;;
   _ <- rassert (str_eqb kind (txt "1D") || str_eqb kind (txt "3D"))
                InvalidKindError ;;
   let is_3D := str_eqb kind (txt "3D") in
   let seek := 2%nat in
   let '(i, metadata) := scan_metadata (skipn 2 lines) 0 false [] in
   let seek := (seek + i)%nat in
   let '(title, comments) := _parse_metadata_section metadata in
   let seek := (seek + 1)%nat in
   pre_LUT <- _parse_domain_section (firstn 9 (skipn seek lines)) ;;
   let seek := (seek + 9)%nat in
   ' (size, table) <- _parse_table_section (skipn seek lines) ;;
   Ok (mk_sections is_3D title comments pre_LUT size table))%result.

(** [pre_LUT.shape == (6, 2) and np.array_equal(
      pre_LUT.reshape(3, 4).transpose()[2:4], unity_range)] *)
Definition trivial_shaper (pre_LUT : ndarray) : bool :=
  shape_eqb (shape pre_LUT) [6; 2]%nat &&
  match reshape pre_LUT [3; 4]%nat with
  | Ok r => array_equal (slice (transpose r) 2 4) unity_range
  | Err _ => false
  end.

(** The product of the dimensions of [new] that are given, the negative
    ones left out; [None] when it leaves the range of an index. *)
Fixpoint known_size (new : list Z) (acc : Z) : option Z :=
  match new with
  | [] => Some acc
  | d :: r =>
      if (d <? 0)%Z then known_size r acc
      else if (acc * d <=? int64_max)%Z then known_size r (acc * d)%Z
           else None
  end.

(** The shape [reshape] works with when it is asked for [new] on an array
    of [total] elements.  A negative entry ([-1] in numpy's words) is the
    one dimension to infer; [ValueError] when there are two of them, when
    the product of the others is zero or does not divide [total], and when
    a shape given in full is not of [total] elements. *)
Definition infer_shape (new : list Z) (total : nat) : result (list nat) :=
  if (1 <? List.length (filter (fun d => d <? 0)%Z new))%nat
  then Err ValueError
  else
    match known_size new 1 with
    | None => Err ValueError
    | Some k =>
        if existsb (fun d => d <? 0)%Z new
        then
          if ((k =? 0) || negb (Z.of_nat total mod k =? 0))%Z
          then Err ValueError
          else Ok (map (fun d => if (d <? 0)%Z
                                 then Z.to_nat (Z.of_nat total / k)
                                 else Z.to_nat d) new)
        else if (k =? Z.of_nat total)%Z then Ok (map Z.to_nat new)
             else Err ValueError
    end.

(** [table.reshape([size[0], size[1], size[2], 3], order='F')] *)
Definition unflatten (size : list Z) (table : ndarray) : result ndarray :=
  (s0 <- of_option (nth_error size 0) IndexError ;;
   s1 <- of_option (nth_error size 1) IndexError ;;
   s2 <- of_option (nth_error size 2) IndexError ;;
   new <- infer_shape [s0; s1; s2; 3%Z] (List.length (data table)) ;;
   reshape_F table new)%result.

(** [pre_LUT.reshape(3, 4).transpose()[0:2]] *)
Definition shaper_bounds (pre_LUT : ndarray) : result ndarray :=
  (r <- reshape pre_LUT [3; 4]%nat ;; Ok (slice (transpose r) 0 2))%result.

(** [tstack((pre_LUT[i], pre_LUT[j], pre_LUT[k]))] *)
Definition stack_rows (pre_LUT : ndarray) (i j k : nat) : result ndarray :=
  (a <- row pre_LUT i ;; b <- row pre_LUT j ;; c <- row pre_LUT k ;;
   tstack a b c)%result.

Section Reader.

Variable lib : LUTlib.

(** The file has a shaper of its own: a shaper and a cube (kind 3D), a
    shaper with the rescale of a two-row table folded in, or a shaper and a
    table (kind 1D). *)
Definition assemble_shaped (s : sections) : result csp_value :=
  (if is_3D s
   then
     pre_domain <- stack_rows (pre_LUT s) 0 2 4 ;;
     pre_table <- stack_rows (pre_LUT s) 1 3 5 ;;
     let shaper_name := title s ++ txt " - Shaper" in
     let cube_name := title s ++ txt " - Cube" in
     table <- unflatten (table_size s) (flat_table s) ;;
     LUT_A <- new_LUT LUT3x1D pre_table shaper_name pre_domain
                (comments (LUT_default lib LUT3x1D)) ;;
     LUT_B <- new_LUT LUT3D table cube_name
                (domain (LUT_default lib LUT3D)) (meta_comments s) ;;
     Ok (LUTSequence [LUT_A; LUT_B])
   else
     pre_domain <- stack_rows (pre_LUT s) 0 2 4 ;;
     pre_table <- stack_rows (pre_LUT s) 1 3 5 ;;
     if shape_eqb (shape (flat_table s)) [2; 3]%nat
     then
       table_max <- row (flat_table s) 1 ;;
       table_min <- row (flat_table s) 0 ;;
       scale <- broadcast PrimFloat.sub table_max table_min ;;
       pre_table <- broadcast PrimFloat.mul pre_table scale ;;
       pre_table <- broadcast PrimFloat.add pre_table table_min ;;
       l <- new_LUT LUT3x1D pre_table (title s) pre_domain
              (meta_comments s) ;;
       Ok (Single l)
     else
       let pre_name := title s ++ txt " - PreLUT" in
       let table_name := title s ++ txt " - Table" in
       LUT_A <- new_LUT LUT3x1D pre_table pre_name pre_domain
                  (comments (LUT_default lib LUT3x1D)) ;;
       LUT_B <- new_LUT LUT3x1D (flat_table s) table_name
                  (domain (LUT_default lib LUT3x1D)) (meta_comments s) ;;
       Ok (LUTSequence [LUT_A; LUT_B]))%result.

(** The four ways a file becomes a LUT (the code after the size check):
    the two collapses of a trivial shaper first. *)
Definition assemble (s : sections) : result csp_value :=
  (if is_3D s && trivial_shaper (pre_LUT s)
   then
     table <- unflatten (table_size s) (flat_table s) ;;
     dom <- shaper_bounds (pre_LUT s) ;;
     l <- new_LUT LUT3D table (title s) dom (meta_comments s) ;;
     Ok (Single l)
   else if negb (is_3D s) && trivial_shaper (pre_LUT s)
   then
     dom <- shaper_bounds (pre_LUT s) ;;
     l <- new_LUT LUT3x1D (flat_table s) (title s) dom (meta_comments s) ;;
     Ok (Single l)
   else assemble_shaped s)%result.

(** Files: a path has a content or does not exist.  The content is the
    text of the file; a line feed written is a line feed of the content, as
    on a POSIX system, and a file read may hold any of the line ends. *)
Definition filesystem := str -> option str.

Definition read_LUT_Cinespace (fs : filesystem) (path : str)
  : result csp_value :=
  (content <- of_option (fs path) IOError ;;
   s <- read_sections content ;;
   _ <- rassert (product (table_size s) =? Z.of_nat (len (flat_table s)))%Z
                TableSizeMismatchError ;;
   assemble s)%result.

End Reader.

(** ** The caller's objects and the files *)

Definition loc := nat.

(** A Python object the writer may be handed: a LUT, a [LUTSequence] (a
    mutable list of references to its stages), or anything else. *)
Inductive pyobj : Type :=
| ObjLUT (l : LUT)
| ObjLUTSequence (stages : list loc)
| ObjOther.

Definition heap := list pyobj.

Definition deref (h : heap) (p : loc) : option pyobj := nth_error h p.

(** A new object: the heap grows by one cell. *)
Definition alloc (h : heap) (o : pyobj) : heap * loc :=
  (h ++ [o], List.length h).

(** Assignment into an existing object. *)
Fixpoint store (h : heap) (p : loc) (o : pyobj) : heap :=
  match h, p with
  | [], _ => []
  | _ :: h', O => o :: h'
  | x :: h', S p' => x :: store h' p' o
  end.

Definition fs_write (fs : filesystem) (path content : str) : filesystem :=
  fun p => if str_eqb p path then Some content else fs p.

(** ** Writing to the open file: a buffer and a possible exception *)

Definition W (A : Type) : Type := str -> str * result A.

Definition wret {A} (a : A) : W A := fun buf => (buf, Ok a).

Definition wbind {A B} (m : W A) (k : A -> W B) : W B :=
  fun buf =>
    match m buf with
    | (buf', Ok a) => k a buf'
    | (buf', Err e) => (buf', Err e)
    end.

(** [csp_file.write(s)] *)
Definition write (s : str) : W unit := fun buf => (buf ++ s, Ok tt).

Definition wlift {A} (r : result A) : W A := fun buf => (buf, r).

Fixpoint for_each {A} (l : list A) (body : A -> W unit) : W unit :=
  match l with
  | [] => wret tt
  | x :: r => wbind (body x) (fun _ => for_each r body)
  end.

Declare Scope writer_scope.
Delimit Scope writer_scope with writer.
Notation "x <- m ;; k" := (wbind m (fun x => k))
  (at level 61, m at next level, right associativity) : writer_scope.
Notation "m ;;; k" := (wbind m (fun _ => k))
  (at level 61, right associativity) : writer_scope.

(** ** The writer *)

Definition str_of_Z (z : Z) : str :=
  if (z <? 0)%Z then "-"%char :: str_of_N (Z.to_N (- z)) else str_of_N (Z.to_N z).

Definition str_of_nat (n : nat) : str := str_of_N (N.of_nat n).

(** A Python integer used as a number in float arithmetic. *)
Definition of_int (n : nat) : float := of_ratio false (Z.of_nat n) 1.

(** The flags of the writer, the name it writes, and the two-stage sequence
    it serialises. *)
Record canonical : Type := mk_canonical {
  has_3D : bool;
  has_3x1D : bool;
  non_uniform : bool;
  lut_name : str;
  LUT_ref : loc
}.

Definition lut_at (h : heap) (p : loc) : option LUT :=
  match deref h p with
  | Some (ObjLUT l) => Some l
  | _ => None
  end.

Definition stage_isinstance (h : heap) (p : loc) (cls : LUTclass) : bool :=
  match lut_at h p with
  | Some l => isinstance l cls
  | None => false
  end.

(** [LUT[k]] for a [LUTSequence] at [p]. *)
Definition stage (h : heap) (p : loc) (k : nat) : result LUT :=
  match deref h p with
  | Some (ObjLUTSequence stages) =>
      match nth_error stages k with
      | Some q => of_option (lut_at h q) TypeError
      | None => Err IndexError
      end
  | _ => Err TypeError
  end.

Section Writer.

Variable lib : LUTlib.

(** The dispatch on the type of [LUT]: the flags are set and the local
    variable [LUT] is bound to a two-stage sequence.  A lone LUT is put in
    a new sequence; a stage of a sequence handed in by the caller is
    assigned in that sequence. *)
Definition normalise (h : heap) (LUT : loc) : heap * result canonical :=
  match deref h LUT with
  | Some (ObjLUTSequence stages) =>
      match stages with
      | [p0; p1] =>
          if (stage_isinstance h p0 LUT1D || stage_isinstance h p0 LUT3x1D)
             && stage_isinstance h p1 LUT3D
          then
            match lut_at h p0, lut_at h p1 with
            | Some l0, Some l1 =>
                if isinstance l0 LUT1D
                then
                  let '(h1, q) := alloc h (ObjLUT (as_LUT lib l0 LUT3x1D)) in
                  (store h1 LUT (ObjLUTSequence [q; p1]),
                   Ok (mk_canonical true true (is_domain_explicit l0)
                         (name l1) LUT))
                else (h, Ok (mk_canonical true true false (name l1) LUT))
            | _, _ => (h, Err InvalidSequenceShapeError)
            end
          else (h, Err InvalidSequenceShapeError)
      | _ => (h, Err InvalidSequenceShapeError)
      end
  | Some (ObjLUT l) =>
      match class_of l with
      | LUT1D =>
          let '(h1, q0) := alloc h (ObjLUT (as_LUT lib l LUT3x1D)) in
          let '(h2, q1) := alloc h1 (ObjLUT (LUT_default lib LUT3D)) in
          let '(h3, s) := alloc h2 (ObjLUTSequence [q0; q1]) in
          (h3, Ok (mk_canonical false true (is_domain_explicit l) (name l) s))
      | LUT3x1D =>
          let '(h1, q1) := alloc h (ObjLUT (LUT_default lib LUT3D)) in
          let '(h2, s) := alloc h1 (ObjLUTSequence [LUT; q1]) in
          (h2, Ok (mk_canonical false true (is_domain_explicit l) (name l) s))
      | LUT3D =>
          let '(h1, q0) := alloc h (ObjLUT (LUT_default lib LUT3x1D)) in
          let '(h2, s) := alloc h1 (ObjLUTSequence [q0; LUT]) in
          (h2, Ok (mk_canonical true false false (name l) s))
      end
  | Some ObjOther => (h, Err InvalidLUTTypeError)
  | None => (h, Err TypeError)
  end.

(** The two size assertions. *)
Definition validate (c : canonical) (l0 l1 : LUT) : result unit :=
  (_ <- (if has_3x1D c
         then rassert ((2 <=? Z.of_nat (size l0))
                       && (Z.of_nat (size l0) <=? 65536))%Z
                      ShaperSizeOutOfRangeError
         else Ok tt) ;;
   if has_3D c
   then rassert ((2 <=? Z.of_nat (size l1))
                 && (Z.of_nat (size l1) <=? 256))%Z
                CubeSizeOutOfRangeError
   else Ok tt)%result.

Definition last_dim (a : ndarray) : result nat :=
  match rev (shape a) with
  | k :: _ => Ok k
  | [] => Err IndexError
  end.

(** [_ragged_size(table)]: per channel, the samples that are not NaN. *)
Definition _ragged_size (a : ndarray) : result (list Z) :=
  (cols <- tsplit a ;;
   match cols with
   | [R; G; B] =>
       r <- last_dim R ;; g <- last_dim G ;; b <- last_dim B ;;
       Ok [ (Z.of_nat r - Z.of_nat (count_nan R))%Z;
            (Z.of_nat g - Z.of_nat (count_nan G))%Z;
            (Z.of_nat b - Z.of_nat (count_nan B))%Z ]
   | _ => Err ValueError
   end)%result.

Section Serialise.

Variable decimals : nat.

(** [_format_array(array)]: the first three numbers of a row. *)
Definition _format_array (a : ndarray) : result str :=
  match shape a with
  | [k] =>
      match data a with
      | x :: y :: z :: _ =>
          Ok (format_f decimals x ++ txt " " ++ format_f decimals y
              ++ txt " " ++ format_f decimals z)
      | _ => Err IndexError
      end
  | _ => Err TypeError
  end.

(** [_format_tuple([a, b])] *)
Definition _format_tuple (a b : float) : str :=
  format_f decimals a ++ txt " " ++ format_f decimals b.

Definition nl : str := [LF].

(** The three two-sample groups written for a LUT without a shaper block of
    its own: the bounds of the domain, then [second]. *)
Definition write_bounds (dom : ndarray) (second : str) : W unit :=
  for_each (seq 0 3) (fun i =>
    (write (txt "2" ++ nl) ;;;
     lo <- wlift (get2 dom 0 i) ;;
     hi <- wlift (get2 dom 1 i) ;;
     write (_format_tuple lo hi ++ nl) ;;;
     write second)%writer).

(** One row per line. *)
Definition write_rows (a : ndarray) : W unit :=
  (rs <- wlift (rows a) ;;
   for_each rs (fun r =>
     line <- wlift (_format_array r) ;; write (line ++ nl)))%writer.

(** The shaper block of [l0]: for each channel its size, its domain samples
    and its table samples. *)
Definition write_shaper (non_uniform : bool) (l0 : LUT)
  (bounds : option (float * float)) : W unit :=
  for_each (seq 0 3) (fun i =>
    (size_i <- wlift (if is_domain_explicit l0
                      then (sizes <- _ragged_size (domain l0) ;;
                            of_option (nth_error sizes i) IndexError)%result
                      else Ok (Z.of_nat (size l0))) ;;
     write (str_of_Z size_i ++ nl) ;;;
     for_each (seq 0 (Z.to_nat size_i)) (fun j =>
       entry <- wlift (if is_domain_explicit l0
                       then get2 (domain l0) j i
                       else (d0 <- get2 (domain l0) 0 i ;;
                             d1 <- get2 (domain l0) 1 i ;;
                             d0' <- get2 (domain l0) 0 i ;;
                             Ok (d0 + of_int j * (d1 - d0')
                                      / of_int (size l0 - 1))%float)%result) ;;
       write (format_f decimals entry ++ txt " ")) ;;;
     write nl ;;;
     for_each (seq 0 (Z.to_nat size_i)) (fun j =>
       entry <- wlift (get2 (table l0) j i) ;;
       entry <- wlift (if non_uniform
                       then match bounds with
                            | Some (table_min, table_max) =>
                                Ok ((entry - table_min)
                                    / (table_max - table_min))%float
                            | None => Err UnboundLocalError
                            end
                       else Ok entry) ;;
       write (format_f decimals entry ++ txt " ")) ;;;
     write nl)%writer).

(** Everything written between [open] and the end of the [with] block. *)
Definition serialise (c : canonical) (l0 l1 : LUT) : W unit :=
  (write (txt "CSPLUTV100" ++ nl) ;;;
   (if has_3D c then write (txt "3D" ++ nl ++ nl)
    else write (txt "1D" ++ nl ++ nl)) ;;;
   write (txt "BEGIN METADATA" ++ nl) ;;;
   write (lut_name c ++ nl) ;;;
   for_each (comments l0) (fun comment => write (comment ++ nl)) ;;;
   for_each (comments l1) (fun comment => write (comment ++ nl)) ;;;
   write (txt "END METADATA" ++ nl ++ nl) ;;;
   if has_3D c || non_uniform c
   then
     let bounds :=
       if has_3x1D c && is_domain_explicit l0
       then Some (nanmin (table l0), nanmax (table l0))
       else None in
     (if has_3x1D c
      then write_shaper (non_uniform c) l0 bounds
      else write_bounds (domain l1)
             (format_f decimals (of_int 0) ++ txt " "
              ++ format_f decimals (of_int 1) ++ nl)) ;;;
     if non_uniform c
     then
       write (nl ++ str_of_nat 2 ++ nl) ;;;
       b <- wlift (of_option bounds UnboundLocalError) ;;
       let '(table_min, table_max) := b in
       line <- wlift (_format_array (array1 [table_min; table_min; table_min])) ;;
       write (line ++ nl) ;;;
       line <- wlift (_format_array (array1 [table_max; table_max; table_max])) ;;
       write (line ++ nl)
     else
       n0 <- wlift (of_option (nth_error (shape (table l1)) 0) IndexError) ;;
       n1 <- wlift (of_option (nth_error (shape (table l1)) 1) IndexError) ;;
       n2 <- wlift (of_option (nth_error (shape (table l1)) 2) IndexError) ;;
       write (nl ++ str_of_nat n0 ++ txt " " ++ str_of_nat n1 ++ txt " "
              ++ str_of_nat n2 ++ nl) ;;;
       table <- wlift (reshape_F_rows3 (table l1)) ;;
       write_rows table
   else
     write_bounds (domain l0) (txt "0.0 1.0" ++ nl) ;;;
     write (nl ++ str_of_nat (size l0) ++ nl) ;;;
     write_rows (table l0))%writer.

End Serialise.

(** [write_LUT_Cinespace(LUT, path, decimals)] as a transformer of the heap
    and of the file system.  The file is opened, and so created or emptied,
    only after the dispatch and the size assertions. *)
Definition write_LUT_Cinespace (LUT : loc) (path : str) (decimals : nat)
  (st : heap * filesystem) : (heap * filesystem) * result bool :=
  let '(h, fs) := st in
  let '(h1, r) := normalise h LUT in
  match (c <- r ;;
         l0 <- stage h1 (LUT_ref c) 0 ;;
         l1 <- stage h1 (LUT_ref c) 1 ;;
         _ <- validate c l0 l1 ;;
         Ok (c, l0, l1))%result with
  | Err e => ((h1, fs), Err e)
  | Ok (c, l0, l1) =>
      let '(content, r) := serialise decimals c l0 l1 [] in
      ((h1, fs_write fs path content),
       match r with
       | Ok _ => Ok true
       | Err e => Err e
       end)
  end.

End Writer.

(** * Properties of the text primitives *)

Unset Implicit Arguments.

Module PyFacts.

Import Py.

(** A token: not empty, no white space in it. *)
Definition nospace (t : str) : bool := forallb (fun c => negb (is_space c)) t.

Definition token (t : str) : Prop := t <> [] /\ nospace t = true.

(** Tokens separated by one space. *)
Fixpoint join_sp (ts : list str) : str :=
  match ts with
  | [] => []
  | [t] => t
  | t :: ts' => t ++ " "%char :: join_sp ts'
  end.

(** A character that ends a line of a file read in text mode. *)
Definition is_break (c : ascii) : bool := Ascii.eqb c LF || Ascii.eqb c CR.

(** A text without a line end in it. *)
Definition unbroken (l : str) : bool := forallb (fun c => negb (is_break c)) l.

(** The lines of a file, each ended by a line feed. *)
Definition unlines (ls : list str) : str :=
  concat (map (fun l => l ++ [LF]) ls).

(** A line that [strip] leaves alone and the reader keeps: it is not
    empty, has no white space at its ends and no line end in it. *)
Definition plain_line (l : str) : Prop :=
  l <> [] /\ strip l = l /\ unbroken l = true.

Ltac ascii_cases c :=
  destruct c as [[] [] [] [] [] [] [] []].

Lemma digit_not_space c : is_digit c = true -> is_space c = false.
Proof. ascii_cases c; vm_compute; congruence. Qed.

Lemma digit_not_sign c :
  is_digit c = true ->
  Ascii.eqb c "-"%char = false /\ Ascii.eqb c "+"%char = false
  /\ Ascii.eqb c "."%char = false.
Proof. ascii_cases c; vm_compute; intuition congruence. Qed.

Lemma digit_lower c : is_digit c = true -> lower c = c.
Proof. ascii_cases c; vm_compute; congruence. Qed.

Lemma break_is_space c : is_break c = true -> is_space c = true.
Proof. ascii_cases c; vm_compute; congruence. Qed.

Lemma not_break c :
  is_break c = false -> Ascii.eqb c LF = false /\ Ascii.eqb c CR = false.
Proof. unfold is_break. intros H. apply orb_false_elim in H. exact H. Qed.

Lemma digit_chars_checked :
  forallb (fun k => is_digit (digit_char (N.of_nat k))
                    && (digit_val (digit_char (N.of_nat k)) =? N.of_nat k)%N)
          (seq 0 10) = true.
Proof. reflexivity. Qed.

Lemma digit_char_spec n :
  (n < 10)%N -> is_digit (digit_char n) = true /\ digit_val (digit_char n) = n.
Proof.
  intros H.
  pose proof (proj1 (forallb_forall _ _) digit_chars_checked (N.to_nat n)) as C.
  cbv beta in C. rewrite N2Nat.id in C.
  destruct (andb_prop _ _ (C ltac:(apply in_seq; lia))) as [C1 C2].
  split; [exact C1 | apply N.eqb_eq; exact C2].
Qed.

Lemma digit_char_is_digit n : (n < 10)%N -> is_digit (digit_char n) = true.
Proof. intros H. apply digit_char_spec, H. Qed.

Lemma digit_val_char n : (n < 10)%N -> digit_val (digit_char n) = n.
Proof. intros H. apply digit_char_spec, H. Qed.

Lemma str_eqb_eq a b : str_eqb a b = true <-> a = b.
Proof.
  unfold str_eqb; destruct (list_eq_dec ascii_dec a b); split; congruence.
Qed.

Lemma str_eqb_refl a : str_eqb a a = true.
Proof. apply str_eqb_eq; reflexivity. Qed.

Lemma str_eqb_neq a b : a <> b -> str_eqb a b = false.
Proof.
  unfold str_eqb; destruct (list_eq_dec ascii_dec a b); congruence.
Qed.

(** ** [strip] *)

Lemma lstrip_nospace_head c s :
  is_space c = false -> lstrip (c :: s) = c :: s.
Proof. intros H; simpl; rewrite H; reflexivity. Qed.

Lemma strip_snoc_space s c :
  is_space c = true -> strip (s ++ [c]) = strip s.
Proof.
  intros Hc; unfold strip.
  induction s as [|a s IH]; simpl.
  - rewrite Hc; reflexivity.
  - destruct (is_space a) eqn:Ha; [exact IH|].
    unfold rstrip.
    change (a :: s ++ [c]) with ((a :: s) ++ [c]).
    rewrite rev_app_distr; simpl rev at 1; simpl app at 1.
    simpl lstrip at 1. rewrite Hc. reflexivity.
Qed.

Lemma rstrip_snoc_nospace s c :
  is_space c = false -> rstrip (s ++ [c]) = s ++ [c].
Proof.
  intros Hc; unfold rstrip.
  rewrite rev_app_distr; simpl.
  rewrite Hc. simpl. rewrite rev_involutive. reflexivity.
Qed.

Lemma nospace_app a b : nospace (a ++ b) = nospace a && nospace b.
Proof. unfold nospace; apply forallb_app. Qed.

Lemma token_last t : token t -> exists s c, t = s ++ [c] /\ is_space c = false.
Proof.
  intros [Hne Hns].
  destruct (exists_last (l := t) Hne) as (s & c & ->).
  exists s, c; split; [reflexivity|].
  rewrite nospace_app in Hns; apply andb_prop in Hns as [_ Hc].
  simpl in Hc. rewrite andb_true_r in Hc.
  destruct (is_space c); [discriminate | reflexivity].
Qed.

Lemma token_head t :
  token t -> exists c s, t = c :: s /\ is_space c = false.
Proof.
  intros [Hne Hns]; destruct t as [|c s]; [congruence|].
  exists c, s; split; [reflexivity|].
  simpl in Hns; apply andb_prop in Hns as [Hc _].
  destruct (is_space c); [discriminate | reflexivity].
Qed.

(** A text that begins and ends with a character that is not white space
    is left alone by [strip]. *)
Lemma strip_tight c m d :
  is_space c = false -> is_space d = false ->
  strip ((c :: m) ++ [d]) = (c :: m) ++ [d].
Proof.
  intros Hc Hd; unfold strip.
  simpl app. rewrite lstrip_nospace_head by assumption.
  change (c :: m ++ [d]) with ((c :: m) ++ [d]).
  apply rstrip_snoc_nospace; assumption.
Qed.

Lemma strip_single c : is_space c = false -> strip [c] = [c].
Proof.
  intros Hc; unfold strip, rstrip; simpl; rewrite Hc; simpl; rewrite Hc.
  reflexivity.
Qed.

Lemma strip_ends a b :
  token a -> token b -> forall m, strip (a ++ m ++ b) = a ++ m ++ b.
Proof.
  intros Ha Hb m.
  destruct (token_head _ Ha) as (c & s & -> & Hc).
  destruct (token_last _ Hb) as (s' & d & -> & Hd).
  replace ((c :: s) ++ m ++ s' ++ [d]) with ((c :: s ++ m ++ s') ++ [d])
    by (simpl; rewrite <- !app_assoc; reflexivity).
  apply strip_tight; assumption.
Qed.

Lemma strip_token t : token t -> strip t = t.
Proof.
  intros Ht.
  destruct (token_head _ Ht) as (c & s & -> & Hc).
  destruct (exists_last (l := c :: s) ltac:(congruence)) as (s' & d & E).
  destruct (token_last _ Ht) as (s'' & d' & E' & Hd).
  rewrite E' in *.
  destruct s'' as [|c' m].
  - simpl in *. apply strip_single; assumption.
  - simpl app. injection E' as -> ->.
    change (c' :: m ++ [d']) with ((c' :: m) ++ [d']).
    apply strip_tight; assumption.
Qed.

Lemma join_sp_cons t ts :
  ts <> [] -> join_sp (t :: ts) = t ++ " "%char :: join_sp ts.
Proof. destruct ts; [congruence | reflexivity]. Qed.

Lemma join_sp_last ts tl : exists m, join_sp (ts ++ [tl]) = m ++ tl.
Proof.
  induction ts as [|t ts [m IH]].
  - exists []; reflexivity.
  - exists (t ++ " "%char :: m).
    simpl app. rewrite join_sp_cons by (destruct ts; discriminate).
    rewrite IH, <- app_assoc. reflexivity.
Qed.

Lemma strip_join_sp ts :
  Forall token ts -> strip (join_sp ts) = join_sp ts.
Proof.
  intros H.
  destruct ts as [|t ts]; [reflexivity|].
  destruct ts as [|t' ts]; [apply strip_token; inversion H; assumption|].
  inversion H as [|? ? Ht H']; subst.
  destruct (exists_last (l := t' :: ts) ltac:(congruence)) as (front & tl & E).
  assert (token tl) as Htl.
  { rewrite E in H'. apply Forall_app in H' as [_ H'].
    inversion H'; assumption. }
  rewrite join_sp_cons by congruence. rewrite E.
  destruct (join_sp_last front tl) as [m ->].
  change (t ++ " "%char :: m ++ tl) with (t ++ (" "%char :: m) ++ tl).
  apply strip_ends; assumption.
Qed.

(** ** [split] *)

Lemma split_from_nospace t cur rest :
  nospace t = true ->
  split_from cur (t ++ rest) = split_from (rev t ++ cur) rest.
Proof.
  revert cur; induction t as [|c t IH]; intros cur H; [reflexivity|].
  simpl in H; apply andb_prop in H as [Hc Ht].
  simpl. destruct (is_space c); [discriminate|].
  rewrite IH by assumption. rewrite <- app_assoc. reflexivity.
Qed.

Lemma split_from_space cur rest :
  cur <> [] ->
  split_from cur (" "%char :: rest) = rev cur :: split_from [] rest.
Proof. destruct cur; [congruence | reflexivity]. Qed.

Lemma split_from_end cur : cur <> [] -> split_from cur [] = [rev cur].
Proof. destruct cur; [congruence | reflexivity]. Qed.

Lemma split_join_sp ts :
  Forall token ts -> split (join_sp ts) = ts.
Proof.
  unfold split.
  induction ts as [|t ts IH]; intros H; [reflexivity|].
  inversion H as [|? ? [Hne Hns] H']; subst.
  assert (rev t <> []) as Hr.
  { intros E. apply (f_equal (@rev _)) in E; rewrite rev_involutive in E.
    simpl in E; congruence. }
  destruct ts as [|t' ts].
  - simpl join_sp. rewrite <- (app_nil_r t) at 1.
    rewrite split_from_nospace by assumption.
    rewrite app_nil_r, split_from_end, rev_involutive by assumption.
    reflexivity.
  - rewrite join_sp_cons by congruence.
    rewrite split_from_nospace by assumption.
    rewrite app_nil_r, split_from_space, rev_involutive by assumption.
    rewrite IH by assumption. reflexivity.
Qed.

(** ** [readlines] *)

Lemma readlines_from_line l cur rest :
  unbroken l = true ->
  readlines_from cur (l ++ LF :: rest)
  = (rev cur ++ l ++ [LF]) :: readlines_from [] rest.
Proof.
  revert cur; induction l as [|c l IH]; intros cur H.
  - reflexivity.
  - simpl in H; apply andb_prop in H as [Hc Hl].
    apply negb_true_iff, not_break in Hc as [Hc _].
    simpl. rewrite Hc.
    rewrite IH by assumption. simpl. rewrite <- app_assoc. reflexivity.
Qed.

(** A line written with LF at its end and no other line end in it is handed
    over as it is. *)
Lemma universal_newlines_line l rest :
  unbroken l = true ->
  universal_newlines (l ++ LF :: rest) = l ++ LF :: universal_newlines rest.
Proof.
  induction l as [|c l IH]; intros H.
  - reflexivity.
  - simpl in H; apply andb_prop in H as [Hc Hl].
    apply negb_true_iff, not_break in Hc as [_ Hc].
    simpl. rewrite Hc, IH by assumption. reflexivity.
Qed.

Lemma universal_newlines_unlines ls :
  Forall (fun l => unbroken l = true) ls ->
  universal_newlines (unlines ls) = unlines ls.
Proof.
  unfold unlines.
  induction ls as [|l ls IH]; intros H; [reflexivity|].
  inversion H; subst. simpl.
  rewrite <- app_assoc. simpl.
  rewrite universal_newlines_line, IH by assumption. reflexivity.
Qed.

Lemma readlines_unlines ls :
  Forall (fun l => unbroken l = true) ls ->
  readlines (unlines ls) = map (fun l => l ++ [LF]) ls.
Proof.
  intros H0. unfold readlines.
  rewrite universal_newlines_unlines by exact H0.
  revert H0. unfold unlines.
  induction ls as [|l ls IH]; intros H; [reflexivity|].
  inversion H; subst. simpl.
  rewrite <- app_assoc. simpl.
  rewrite readlines_from_line by assumption.
  rewrite IH by assumption. reflexivity.
Qed.

Lemma unlines_app a b : unlines (a ++ b) = unlines a ++ unlines b.
Proof. unfold unlines; rewrite map_app, concat_app; reflexivity. Qed.

(** The normalisation of the reader: every line stripped, blank lines
    dropped. *)
Definition normalise_lines (lines : list str) : list str :=
  map strip (filter (fun line => negb (str_eqb (strip line) [])) lines).

(** A line of the file as the writer leaves it: empty, or plain. *)
Definition written_line (l : str) : Prop := l = [] \/ plain_line l.

Lemma normalise_written ls :
  Forall written_line ls ->
  normalise_lines (readlines (unlines ls))
  = filter (fun l => negb (str_eqb l [])) ls.
Proof.
  intros H.
  rewrite readlines_unlines.
  2:{ eapply Forall_impl; [|exact H].
      intros l [-> | (_ & _ & Hl)]; [reflexivity | assumption]. }
  unfold normalise_lines.
  induction H as [|l ls Hl H IH]; [reflexivity|].
  simpl.
  assert (is_space LF = true) as HLF by reflexivity.
  rewrite strip_snoc_space by exact HLF.
  destruct Hl as [-> | (Hne & Hs & _)].
  - simpl. exact IH.
  - rewrite Hs. rewrite str_eqb_neq by exact Hne. simpl.
    rewrite strip_snoc_space by exact HLF. rewrite Hs, IH. reflexivity.
Qed.

Lemma unbroken_nospace t : nospace t = true -> unbroken t = true.
Proof.
  unfold nospace, unbroken. intros H.
  rewrite forallb_forall in *. intros c Hc.
  specialize (H c Hc).
  destruct (is_break c) eqn:E; [|reflexivity].
  apply break_is_space in E. rewrite E in H. discriminate.
Qed.

Lemma unbroken_app a b : unbroken (a ++ b) = unbroken a && unbroken b.
Proof. unfold unbroken; apply forallb_app. Qed.

Lemma unbroken_join_sp ts :
  Forall token ts -> unbroken (join_sp ts) = true.
Proof.
  induction ts as [|t ts IH]; intros H; [reflexivity|].
  inversion H as [|? ? [_ Ht] H']; subst.
  destruct ts as [|t' ts]; [apply unbroken_nospace; assumption|].
  rewrite join_sp_cons by congruence.
  rewrite unbroken_app. rewrite unbroken_nospace by exact Ht. simpl.
  apply IH; assumption.
Qed.

Lemma join_sp_nonempty ts :
  ts <> [] -> Forall token ts -> join_sp ts <> [].
Proof.
  destruct ts as [|t ts]; [congruence|].
  intros _ H. inversion H as [|? ? [Hne _] _]; subst.
  destruct ts; simpl; [assumption|].
  destruct t; [congruence | discriminate].
Qed.

(** A line of tokens is a plain line. *)
Lemma plain_join_sp ts :
  ts <> [] -> Forall token ts -> plain_line (join_sp ts).
Proof.
  intros Hne H; repeat split.
  - apply join_sp_nonempty; assumption.
  - apply strip_join_sp; assumption.
  - apply unbroken_join_sp; assumption.
Qed.

End PyFacts.

(** * Properties of the numbers as they are written and read *)

Module NumFacts.

Import Py PyFacts.

Definition all_digits (s : str) : bool := forallb is_digit s.

Lemma N_of_digits_snoc a c :
  N_of_digits (a ++ [c]) = (N_of_digits a * 10 + digit_val c)%N.
Proof. unfold N_of_digits; rewrite fold_left_app; reflexivity. Qed.

Lemma digits_of_value fuel : forall n,
  (n < 2 ^ N.of_nat fuel)%N -> N_of_digits (digits_of fuel n) = n.
Proof.
  induction fuel as [|f IH]; intros n Hn.
  - simpl in Hn. assert (n = 0%N) by lia. subst; reflexivity.
  - cbn [digits_of].
    destruct (n <? 10)%N eqn:E.
    + apply N.ltb_lt in E.
      unfold N_of_digits; simpl. rewrite digit_val_char by assumption. lia.
    + apply N.ltb_ge in E.
      rewrite N_of_digits_snoc.
      rewrite digit_val_char by (apply N.mod_lt; lia).
      rewrite IH.
      * pose proof (N.div_mod n 10 ltac:(lia)). lia.
      * rewrite Nat2N.inj_succ, N.pow_succ_r' in Hn.
        apply N.Div0.div_lt_upper_bound. lia.
Qed.

Lemma str_of_N_value n : N_of_digits (str_of_N n) = n.
Proof.
  unfold str_of_N. apply digits_of_value.
  rewrite Nat2N.inj_succ, N2Nat.id.
  destruct n as [|p]; [reflexivity|].
  apply N.log2_spec. lia.
Qed.

Lemma digits_of_all_digits fuel : forall n,
  all_digits (digits_of fuel n) = true.
Proof.
  induction fuel as [|f IH]; intros n; [reflexivity|].
  cbn [digits_of]. destruct (n <? 10)%N eqn:E.
  - apply N.ltb_lt in E. unfold all_digits; simpl.
    rewrite digit_char_is_digit by assumption. reflexivity.
  - unfold all_digits. rewrite forallb_app. fold (all_digits (digits_of f (n / 10))).
    rewrite IH. simpl.
    rewrite digit_char_is_digit by (apply N.mod_lt; lia). reflexivity.
Qed.

Lemma digits_of_nonempty fuel n : digits_of (S fuel) n <> [].
Proof.
  cbn [digits_of]. destruct (n <? 10)%N; [discriminate|].
  destruct (digits_of fuel (n / 10)); discriminate.
Qed.

Lemma str_of_N_all_digits n : all_digits (str_of_N n) = true.
Proof. apply digits_of_all_digits. Qed.

Lemma str_of_N_nonempty n : str_of_N n <> [].
Proof. apply digits_of_nonempty. Qed.

Lemma digits_w_all_digits w : forall n, all_digits (digits_w w n) = true.
Proof.
  induction w as [|w IH]; intros n; [reflexivity|].
  cbn [digits_w]. unfold all_digits. rewrite forallb_app.
  fold (all_digits (digits_w w (n / 10))). rewrite IH. simpl.
  rewrite digit_char_is_digit by (apply N.mod_lt; lia). reflexivity.
Qed.

Lemma digits_w_length w : forall n, List.length (digits_w w n) = w.
Proof.
  induction w as [|w IH]; intros n; [reflexivity|].
  cbn [digits_w]. rewrite length_app, IH. simpl. lia.
Qed.

Lemma N_of_digits_w w : forall a n,
  N_of_digits (a ++ digits_w w n)
  = (N_of_digits a * 10 ^ N.of_nat w + n mod 10 ^ N.of_nat w)%N.
Proof.
  induction w as [|w IH]; intros a n.
  - simpl. rewrite app_nil_r, N.mod_1_r. lia.
  - cbn [digits_w]. rewrite app_assoc, N_of_digits_snoc, IH.
    rewrite digit_val_char by (apply N.mod_lt; lia).
    rewrite Nat2N.inj_succ, N.pow_succ_r'.
    rewrite (N.Div0.mod_mul_r n 10 (10 ^ N.of_nat w)).
    lia.
Qed.

Lemma all_digits_nospace s : all_digits s = true -> nospace s = true.
Proof.
  unfold all_digits, nospace; rewrite !forallb_forall.
  intros H c Hc. rewrite digit_not_space by (apply H; assumption).
  reflexivity.
Qed.

Lemma token_digits s : s <> [] -> all_digits s = true -> token s.
Proof. intros; split; [assumption | apply all_digits_nospace; assumption]. Qed.

Lemma token_str_of_N n : token (str_of_N n).
Proof.
  apply token_digits; [apply str_of_N_nonempty | apply str_of_N_all_digits].
Qed.

Lemma digit_not_underscore c :
  is_digit c = true -> Ascii.eqb c "_"%char = false.
Proof. ascii_cases c; vm_compute; congruence. Qed.

(** After a digit the digits go on, unless an underscore comes next. *)
Lemma span_digits_step c r :
  is_digit c = true ->
  match r with [] => True | u :: _ => Ascii.eqb u "_"%char = false end ->
  span_digits (c :: r)
  = (c :: fst (span_digits r), snd (span_digits r)).
Proof.
  intros Hc Hu. cbn [span_digits]. rewrite Hc.
  destruct r as [|u [|c' r']].
  - reflexivity.
  - destruct (span_digits [u]); reflexivity.
  - rewrite Hu. cbn [andb].
    destruct (span_digits (u :: c' :: r')); reflexivity.
Qed.

(** A text of digits only is read to its end, when what follows is neither
    a digit nor an underscore. *)
Lemma span_digits_all ds rest :
  all_digits ds = true ->
  match rest with
  | [] => True
  | c :: _ => is_digit c = false /\ Ascii.eqb c "_"%char = false
  end ->
  span_digits (ds ++ rest) = (ds, rest).
Proof.
  intros Hd Hr. induction ds as [|c ds IH].
  - destruct rest as [|c r]; [reflexivity|]. simpl.
    rewrite (proj1 Hr). reflexivity.
  - simpl in Hd. apply andb_prop in Hd as [Hc Hd].
    simpl app. rewrite span_digits_step.
    + rewrite IH by assumption. reflexivity.
    + exact Hc.
    + destruct ds as [|u ds].
      * destruct rest; [exact I | apply Hr].
      * simpl in Hd. apply andb_prop in Hd as [Hu _].
        apply digit_not_underscore, Hu.
Qed.

Lemma take_sign_digits s :
  match s with [] => False | c :: _ => is_digit c = true end ->
  take_sign s = (false, s).
Proof.
  destruct s as [|c r]; [tauto|]. intros H.
  destruct (digit_not_sign c H) as (E1 & E2 & _).
  unfold take_sign. rewrite E1, E2. reflexivity.
Qed.

Lemma digits_head s :
  s <> [] -> all_digits s = true ->
  match s with [] => False | c :: _ => is_digit c = true end.
Proof.
  destruct s as [|c r]; [congruence|]. simpl.
  intros _ H. apply andb_prop in H as [H _]. exact H.
Qed.

(** [int(str(n)) == n] *)
Lemma int_of_str_of_N n : int_of_str (str_of_N n) = Some (Z.of_N n).
Proof.
  unfold int_of_str.
  rewrite strip_token by apply token_str_of_N.
  rewrite take_sign_digits
    by (apply digits_head; [apply str_of_N_nonempty | apply str_of_N_all_digits]).
  rewrite <- (app_nil_r (str_of_N n)) at 1.
  rewrite span_digits_all by (auto using str_of_N_all_digits).
  pose proof (str_of_N_nonempty n) as Hne.
  destruct (str_of_N n) eqn:E; [congruence|].
  rewrite <- E, str_of_N_value. reflexivity.
Qed.

(** ** The fixed-point format *)

Lemma fixed_shape d n :
  exists ip tail,
    fixed d n = ip ++ tail /\ ip <> [] /\ all_digits ip = true
    /\ ((d = 0%nat /\ tail = [])
        \/ (exists fp, tail = "."%char :: fp /\ all_digits fp = true
                       /\ List.length fp = d /\ d <> 0%nat))
    /\ N_of_digits (ip ++ match tail with [] => [] | _ :: fp => fp end) = n.
Proof.
  unfold fixed.
  exists (str_of_N (n / 10 ^ N.of_nat d)).
  destruct d as [|d].
  - exists []. repeat split; auto using str_of_N_nonempty, str_of_N_all_digits.
    rewrite app_nil_r, str_of_N_value. simpl. apply N.div_1_r.
  - exists ("."%char :: digits_w (S d) n).
    repeat split; auto using str_of_N_nonempty, str_of_N_all_digits.
    + right. exists (digits_w (S d) n).
      repeat split; auto using digits_w_all_digits, digits_w_length.
    + rewrite N_of_digits_w, str_of_N_value.
      pose proof (N.div_mod n (10 ^ N.of_nat (S d))
                    ltac:(apply N.pow_nonzero; lia)).
      lia.
Qed.

Lemma token_fixed s d n : token (sign_str s ++ fixed d n).
Proof.
  destruct (fixed_shape d n) as (ip & tail & -> & Hne & Hip & Htail & _).
  split.
  - destruct s; [discriminate|]. simpl. destruct ip; [congruence | discriminate].
  - rewrite !nospace_app.
    rewrite (all_digits_nospace _ Hip).
    assert (nospace (sign_str s) = true) as -> by (destruct s; reflexivity).
    destruct Htail as [[_ ->] | (fp & -> & Hfp & _)]; [reflexivity|].
    simpl. apply all_digits_nospace; assumption.
Qed.

(** ['{:.{d}f}'.format(x)] is one token. *)
Lemma token_format_f d x : token (format_f d x).
Proof.
  unfold format_f. destruct (Prim2SF x) as [s | s | | s m e].
  - apply token_fixed.
  - destruct s; split; (discriminate || reflexivity).
  - split; (discriminate || reflexivity).
  - apply token_fixed.
Qed.

(** The value of a literal with digits [n] and [d] of them after the
    point, as [float_of_str] computes it. *)
Definition decimal_value (neg : bool) (n : N) (d : nat) : float :=
  if (0 <=? 0 - Z.of_nat d)%Z
  then of_ratio neg (Z.of_N n * 10 ^ (0 - Z.of_nat d)) 1
  else of_ratio neg (Z.of_N n) (10 ^ (- (0 - Z.of_nat d))).

Lemma not_special body :
  match body with [] => False | c :: _ => is_digit c = true end ->
  str_eqb (map lower body) (txt "nan") = false
  /\ str_eqb (map lower body) (txt "inf") = false
  /\ str_eqb (map lower body) (txt "infinity") = false.
Proof.
  destruct body as [|c r]; [tauto|]. intros H.
  simpl map. rewrite (digit_lower c H).
  repeat split; apply str_eqb_neq; intros E; injection E as -> _;
    discriminate.
Qed.

Lemma decimal_of_fixed d n :
  decimal_of (fixed d n) = Some (n, (0 - Z.of_nat d)%Z).
Proof.
  destruct (fixed_shape d n) as (ip & tail & -> & Hne & Hip & Htail & Hv).
  unfold decimal_of.
  destruct Htail as [[-> ->] | (fp & -> & Hfp & Hlen & Hd)].
  - rewrite span_digits_all by (simpl; auto).
    rewrite app_nil_r in Hv. cbv iota. rewrite app_nil_r.
    destruct ip eqn:E; [congruence|].
    cbv beta iota zeta. simpl exponent_of. cbv beta iota.
    rewrite Hv. reflexivity.
  - rewrite span_digits_all by (simpl; auto).
    change (Ascii.eqb "."%char "."%char) with true. cbv iota.
    rewrite <- (app_nil_r fp) at 1.
    rewrite span_digits_all by (simpl; auto).
    simpl in Hv.
    destruct (ip ++ fp) eqn:E; [destruct ip; simpl in E; congruence|].
    cbv beta iota zeta. simpl exponent_of. cbv beta iota.
    rewrite Hv, Hlen. reflexivity.
Qed.

Lemma float_of_str_fixed s d n :
  float_of_str (sign_str s ++ fixed d n) = Some (decimal_value s n d).
Proof.
  unfold float_of_str.
  rewrite strip_token by apply token_fixed.
  assert (match fixed d n with [] => False | c :: _ => is_digit c = true end)
    as Hhead.
  { destruct (fixed_shape d n) as (ip & tail & -> & Hne & Hip & _).
    destruct ip as [|c ip]; [congruence|].
    simpl in *. apply andb_prop in Hip as [Hc _]. exact Hc. }
  assert (take_sign (sign_str s ++ fixed d n) = (s, fixed d n)) as ->.
  { destruct s; [reflexivity|]. simpl. apply take_sign_digits; assumption. }
  destruct (not_special _ Hhead) as (-> & -> & ->). simpl orb. cbv iota.
  rewrite decimal_of_fixed. reflexivity.
Qed.

(** What a number becomes when it is written and read back, case by case:
    a finite number becomes the binary64 value nearest to its rounding at
    [d] decimals. *)
Lemma float_of_str_format_f d x :
  float_of_str (format_f d x) = Some (reread d x).
Proof.
  unfold reread.
  assert (exists y, float_of_str (format_f d x) = Some y) as [y ->];
    [|reflexivity].
  unfold format_f. destruct (Prim2SF x) as [s | s | | s m e].
  - eexists; apply float_of_str_fixed.
  - destruct s; eexists; reflexivity.
  - eexists; reflexivity.
  - eexists; apply float_of_str_fixed.
Qed.

Lemma reread_finite d x s m e :
  Prim2SF x = S754_finite s m e ->
  reread d x = decimal_value s (scaled d m e) d.
Proof.
  intros H. unfold reread, format_f. rewrite H. cbv beta iota.
  rewrite float_of_str_fixed. reflexivity.
Qed.

Lemma reread_zero d : reread d zero = zero.
Proof.
  unfold reread, format_f.
  change (Prim2SF zero) with (S754_zero false). cbv beta iota.
  rewrite float_of_str_fixed.
  unfold decimal_value, of_ratio. simpl Z.of_N. rewrite Z.mul_0_l.
  destruct (0 <=? 0 - Z.of_nat d)%Z; reflexivity.
Qed.

Lemma reread_one d : reread d one = one.
Proof.
  assert (Prim2SF one = S754_finite false 4503599627370496 (-52)) as H
    by reflexivity.
  rewrite (reread_finite d _ _ _ _ H).
  assert (10 ^ Z.of_nat d > 0)%Z as Hp
    by (apply Z.lt_gt, Z.pow_pos_nonneg; lia).
  assert (scaled d 4503599627370496 (-52) = Z.to_N (10 ^ Z.of_nat d)) as ->.
  { unfold scaled. f_equal.
    change (0 <=? -52)%Z with false. cbv iota.
    unfold round_half_even.
    change (2 ^ (- -52))%Z with 4503599627370496%Z.
    cbv zeta.
    replace (4503599627370496 * 10 ^ Z.of_nat d)%Z
      with (10 ^ Z.of_nat d * 4503599627370496)%Z by lia.
    rewrite Z.div_mul, Z.mod_mul by lia.
    reflexivity. }
  unfold decimal_value.
  rewrite Z2N.id by lia.
  destruct d as [|d].
  - reflexivity.
  - replace (0 <=? 0 - Z.of_nat (S d))%Z with false
      by (symmetry; apply Z.leb_gt; lia).
    replace (- (0 - Z.of_nat (S d)))%Z with (Z.of_nat (S d)) by lia.
    unfold of_ratio.
    replace (10 ^ Z.of_nat (S d) =? 0)%Z with false
      by (symmetry; apply Z.eqb_neq; lia).
    rewrite Z.gcd_diag, Z.abs_eq by lia.
    rewrite Z.div_same by lia.
    reflexivity.
Qed.

End NumFacts.

(** * Properties of the array operations *)

Module NpFacts.

Import Np.

(** An array is well formed when it has as many elements as its shape
    says. *)
Definition wf (a : ndarray) : Prop := List.length (data a) = size_of (shape a).

(** Positions within the bounds of a shape. *)
Definition in_bounds (idx shp : list nat) : Prop := Forall2 lt idx shp.

Lemma size_of_app s t : size_of (s ++ t) = size_of s * size_of t.
Proof.
  induction s as [|x s IH]; simpl; [lia|]. rewrite IH. lia.
Qed.

Lemma size_of_rev s : size_of (rev s) = size_of s.
Proof.
  induction s as [|x s IH]; [reflexivity|].
  simpl. rewrite size_of_app, IH. simpl. lia.
Qed.

Lemma in_bounds_rev idx shp :
  in_bounds idx shp -> in_bounds (rev idx) (rev shp).
Proof.
  unfold in_bounds. induction 1 as [|i s idx shp Hi H IH]; [constructor|].
  simpl. apply Forall2_app; [assumption | repeat constructor; assumption].
Qed.

Lemma ravel_F_bound shp : forall idx,
  in_bounds idx shp -> ravel_F shp idx < size_of shp.
Proof.
  induction shp as [|s shp IH]; intros idx H; inversion H; subst; simpl.
  - lia.
  - specialize (IH _ ltac:(eassumption)). nia.
Qed.

Lemma unravel_ravel_F shp : forall idx,
  in_bounds idx shp -> unravel_F shp (ravel_F shp idx) = idx.
Proof.
  induction shp as [|s shp IH]; intros idx H; inversion H; subst; simpl.
  - reflexivity.
  - rewrite (Nat.mul_comm s), Nat.Div0.mod_add, Nat.div_add by lia.
    rewrite Nat.mod_small, Nat.div_small by assumption.
    simpl. rewrite IH by assumption. reflexivity.
Qed.

Lemma unravel_F_in_bounds shp : forall k,
  k < size_of shp -> in_bounds (unravel_F shp k) shp.
Proof.
  induction shp as [|s shp IH]; intros k H; simpl in *.
  - constructor.
  - assert (s <> 0) by (intros ->; simpl in H; lia).
    constructor.
    + apply Nat.mod_upper_bound; assumption.
    + apply IH. apply Nat.Div0.div_lt_upper_bound. assumption.
Qed.

Lemma ravel_unravel_F shp : forall k,
  k < size_of shp -> ravel_F shp (unravel_F shp k) = k.
Proof.
  induction shp as [|s shp IH]; intros k H; simpl in *.
  - lia.
  - assert (s <> 0) by (intros ->; simpl in H; lia).
    rewrite IH by (apply Nat.Div0.div_lt_upper_bound; assumption).
    pose proof (Nat.div_mod_eq k s). lia.
Qed.

Lemma ravel_C_bound shp idx :
  in_bounds idx shp -> ravel_C shp idx < size_of shp.
Proof.
  intros H. unfold ravel_C. rewrite <- size_of_rev.
  apply ravel_F_bound, in_bounds_rev; assumption.
Qed.

Lemma unravel_ravel_C shp idx :
  in_bounds idx shp -> unravel_C shp (ravel_C shp idx) = idx.
Proof.
  intros H. unfold unravel_C, ravel_C.
  rewrite unravel_ravel_F by (apply in_bounds_rev; assumption).
  apply rev_involutive.
Qed.

Lemma unravel_C_in_bounds shp k :
  k < size_of shp -> in_bounds (unravel_C shp k) shp.
Proof.
  intros H. unfold unravel_C.
  rewrite <- (rev_involutive shp) at 2.
  apply in_bounds_rev, unravel_F_in_bounds.
  rewrite size_of_rev; assumption.
Qed.

Lemma ravel_unravel_C shp k :
  k < size_of shp -> ravel_C shp (unravel_C shp k) = k.
Proof.
  intros H. unfold unravel_C, ravel_C. rewrite rev_involutive.
  apply ravel_unravel_F. rewrite size_of_rev; assumption.
Qed.

Lemma nth_map_seq {A} (f : nat -> A) n i d :
  i < n -> nth i (map f (seq 0 n)) d = f i.
Proof.
  intros H.
  rewrite (nth_indep _ d (f 0)) by (rewrite length_map, length_seq; exact H).
  rewrite (map_nth f (seq 0 n) 0 i), seq_nth by exact H. reflexivity.
Qed.

Lemma nth_error_map_seq {A} (f : nat -> A) n i :
  i < n -> nth_error (map f (seq 0 n)) i = Some (f i).
Proof.
  intros H. rewrite nth_error_map, nth_error_seq.
  apply Nat.ltb_lt in H. rewrite H. reflexivity.
Qed.

Lemma map_nth_seq {A} (l : list A) d :
  map (fun i => nth i l d) (seq 0 (List.length l)) = l.
Proof.
  apply (nth_ext _ _ d d).
  - rewrite length_map, length_seq; reflexivity.
  - intros i Hi. rewrite length_map, length_seq in Hi.
    exact (@nth_map_seq _ (fun i => nth i l d) _ _ d Hi).
Qed.

(** The cell of the result that a cell of the source moves to and back. *)
Lemma there_and_back s t c :
  size_of t = size_of s -> c < size_of s ->
  let x := ravel_F s (unravel_C s c) in
  x < size_of t
  /\ ravel_C t (unravel_F t x) < size_of t
  /\ ravel_F t (unravel_C t (ravel_C t (unravel_F t x))) = x
  /\ ravel_C s (unravel_F s x) = c.
Proof.
  intros E Hc x.
  assert (x < size_of s) as Hx
    by (apply ravel_F_bound, unravel_C_in_bounds; assumption).
  repeat split.
  - lia.
  - apply ravel_C_bound, unravel_F_in_bounds; lia.
  - rewrite unravel_ravel_C by (apply unravel_F_in_bounds; lia).
    apply ravel_unravel_F; lia.
  - unfold x. rewrite unravel_ravel_F by (apply unravel_C_in_bounds; assumption).
    apply ravel_unravel_C; assumption.
Qed.

(** Reshaping in Fortran order and back gives the array again. *)
Lemma reshape_F_back a t b :
  wf a -> reshape_F a t = Ok b -> reshape_F b (shape a) = Ok a.
Proof.
  unfold wf, reshape_F. intros Hwf H.
  destruct (size_of t =? List.length (data a)) eqn:E; [|discriminate].
  apply Nat.eqb_eq in E. injection H as <-. simpl.
  rewrite length_map, length_seq.
  replace (size_of (shape a) =? size_of t) with true
    by (symmetry; apply Nat.eqb_eq; lia).
  f_equal. destruct a as [s d]; simpl in *. f_equal.
  transitivity (map (fun i => nth i d nan) (seq 0 (List.length d)));
    [|apply map_nth_seq].
  rewrite <- Hwf. apply map_ext_in. intros c Hc.
  apply in_seq in Hc.
  destruct (there_and_back s t c ltac:(lia) ltac:(lia)) as (H1 & H2 & H3 & H4).
  rewrite nth_map_seq by assumption.
  rewrite H3, H4. reflexivity.
Qed.

Lemma reshape_F_shape a t b : reshape_F a t = Ok b -> shape b = t.
Proof.
  unfold reshape_F. destruct (_ =? _); [|discriminate].
  intros H; injection H as <-; reflexivity.
Qed.

Lemma reshape_F_data a t b :
  reshape_F a t = Ok b ->
  data b = map (fun c =>
                  nth (ravel_C (shape a)
                         (unravel_F (shape a) (ravel_F t (unravel_C t c))))
                      (data a) nan)
               (seq 0 (size_of t)).
Proof.
  unfold reshape_F. destruct (_ =? _); [|discriminate].
  intros H; injection H as <-; reflexivity.
Qed.

Lemma reshape_F_wf a t b : reshape_F a t = Ok b -> wf b.
Proof.
  unfold reshape_F, wf. destruct (_ =? _); [|discriminate].
  intros H; injection H as <-; simpl.
  rewrite length_map, length_seq; reflexivity.
Qed.

Lemma reshape_F_ok a t :
  size_of t = List.length (data a) -> exists b, reshape_F a t = Ok b.
Proof.
  intros H. unfold reshape_F. apply Nat.eqb_eq in H. rewrite H.
  eexists; reflexivity.
Qed.

(** Where a row of a flat table goes when the table is unflattened in
    Fortran order: row [k] is the cell
    [(k mod n0, (k / n0) mod n1, k / (n0 * n1))] of the grid. *)
Lemma reshape_F_grid a n n0 n1 n2 g :
  shape a = [n; 3] -> wf a -> n = n0 * n1 * n2 ->
  reshape_F a [n0; n1; n2; 3] = Ok g ->
  forall k c, k < n -> c < 3 ->
    get4 g (k mod n0) ((k / n0) mod n1) (k / (n0 * n1)) c
    = nth_error (data a) (k * 3 + c).
Proof.
  intros Hs Hwf Hn H k c Hk Hc.
  assert (n0 <> 0 /\ n1 <> 0 /\ n2 <> 0) as (P0 & P1 & P2) by nia.
  pose proof (Nat.mod_upper_bound k n0 P0) as B0.
  pose proof (Nat.mod_upper_bound (k / n0) n1 P1) as B1.
  assert (k / (n0 * n1) < n2) as B2
    by (apply Nat.Div0.div_lt_upper_bound; nia).
  assert (k mod n0 + n0 * ((k / n0) mod n1) + n0 * n1 * (k / (n0 * n1)) = k)
    as Hdec.
  { pose proof (Nat.div_mod_eq k n0).
    pose proof (Nat.div_mod_eq (k / n0) n1).
    rewrite <- Nat.Div0.div_div. nia. }
  pose proof (reshape_F_shape _ _ _ H) as Hsg.
  pose proof (reshape_F_data _ _ _ H) as Hdg.
  unfold wf in Hwf. rewrite Hs in Hwf, Hdg. simpl size_of in Hwf.
  unfold get4. rewrite Hsg, Hdg.
  apply Nat.ltb_lt in B0, B1, B2. apply Nat.ltb_lt in Hc as Hc'.
  rewrite B0, B1, B2, Hc'. change (true && true && true && true) with true.
  cbv iota.
  apply Nat.ltb_lt in B0, B1, B2.
  set (idx := [k mod n0; (k / n0) mod n1; k / (n0 * n1); c]).
  assert (in_bounds idx [n0; n1; n2; 3]) as Hb
    by (unfold in_bounds, idx;
        repeat (apply Forall2_cons; [assumption|]); apply Forall2_nil).
  rewrite nth_error_map_seq by (apply ravel_C_bound; exact Hb).
  rewrite unravel_ravel_C by exact Hb.
  assert (ravel_F [n0; n1; n2; 3] idx = k + n * c) as -> by (simpl; nia).
  assert (unravel_F [n; 3] (k + n * c) = [k; c]) as ->.
  { cbn [unravel_F].
    rewrite (Nat.mul_comm n c), Nat.Div0.mod_add, Nat.div_add by lia.
    rewrite (Nat.mod_small k n), (Nat.div_small k n) by assumption.
    rewrite Nat.mod_small by lia. reflexivity. }
  assert (ravel_C [n; 3] [k; c] = k * 3 + c) as -> by (cbn; lia).
  symmetry. apply nth_error_nth'. lia.
Qed.

(** The other direction, as the writer flattens a grid. *)
Lemma reshape_F_rows a n0 n1 n2 t :
  shape a = [n0; n1; n2; 3] -> wf a ->
  reshape_F_rows3 a = Ok t ->
  shape t = [n0 * n1 * n2; 3]
  /\ forall k c, k < n0 * n1 * n2 -> c < 3 ->
       nth_error (data t) (k * 3 + c)
       = get4 a (k mod n0) ((k / n0) mod n1) (k / (n0 * n1)) c.
Proof.
  intros Hs Hwf H.
  assert (List.length (data a) = n0 * n1 * n2 * 3) as Hlen
    by (unfold wf in Hwf; rewrite Hs in Hwf; simpl size_of in Hwf; lia).
  unfold reshape_F_rows3 in H.
  assert (List.length (data a) / 3 = n0 * n1 * n2) as Hq
    by (rewrite Hlen; apply Nat.div_mul; lia).
  rewrite Hq in H.
  destruct (_ mod 3 =? 0); [|discriminate].
  pose proof (reshape_F_shape _ _ _ H) as Hst.
  split; [exact Hst|].
  intros k c Hk Hc.
  pose proof (reshape_F_back _ _ _ Hwf H) as Hback.
  rewrite Hs in Hback.
  rewrite (reshape_F_grid _ (n0 * n1 * n2) _ _ _ _ Hst (reshape_F_wf _ _ _ H)
             eq_refl Hback _ _ Hk Hc).
  reflexivity.
Qed.

(** ** 64-bit integers *)

Lemma wrap64_small z : in_int64 z = true -> wrap64 z = z.
Proof.
  unfold in_int64, wrap64, int64_min, int64_max. intros H.
  apply andb_prop in H as [H1 H2]. apply Z.leb_le in H1, H2.
  rewrite Z.mod_small by lia. lia.
Qed.

Lemma wrap64_in z : in_int64 (wrap64 z) = true.
Proof.
  unfold in_int64, wrap64, int64_min, int64_max.
  pose proof (Z.mod_pos_bound (z - - 2 ^ 63) (2 ^ 64) ltac:(lia)).
  apply andb_true_intro. split; apply Z.leb_le; lia.
Qed.

(** Wrapping a factor first does not change the wrapped product. *)
Lemma wrap64_mul_r z a : wrap64 (z * wrap64 a) = wrap64 (z * a).
Proof.
  unfold wrap64. f_equal.
  set (m := (2 ^ 64)%Z). set (lo := int64_min).
  pose proof (Z.div_mod (a - lo) m ltac:(subst m; lia)) as E.
  replace (z * ((a - lo) mod m + lo) - lo)%Z
    with (z * a - lo + (- z * ((a - lo) / m)) * m)%Z by lia.
  apply Z.mod_add. subst m; lia.
Qed.

(** [np.product] is the product of the integers cut down to 64 bits. *)
Lemma product_wraps l : product l = wrap64 (fold_right Z.mul 1%Z l).
Proof.
  induction l as [|z l IH]; [reflexivity|].
  cbn [product fold_right]. fold (product l).
  rewrite IH, wrap64_mul_r. reflexivity.
Qed.

Lemma product_small l :
  in_int64 (fold_right Z.mul 1%Z l) = true ->
  product l = fold_right Z.mul 1%Z l.
Proof. intros H. rewrite product_wraps. apply wrap64_small, H. Qed.

Lemma product_nat3 n0 n1 n2 :
  (Z.of_nat (n0 * n1 * n2) <= int64_max)%Z ->
  product [Z.of_nat n0; Z.of_nat n1; Z.of_nat n2] = Z.of_nat (n0 * n1 * n2).
Proof.
  intros H. rewrite product_small; cbn [fold_right].
  - lia.
  - unfold in_int64, int64_min. apply andb_true_intro.
    split; apply Z.leb_le; lia.
Qed.

Lemma product_nat1 n :
  (Z.of_nat n <= int64_max)%Z -> product [Z.of_nat n] = Z.of_nat n.
Proof.
  intros H. rewrite product_small; cbn [fold_right].
  - lia.
  - unfold in_int64, int64_min. apply andb_true_intro.
    split; apply Z.leb_le; lia.
Qed.

(** ** The shape asked of [reshape] *)

(** The elements of a shape can be counted in 64 bits, dimension after
    dimension. *)
Definition index_sized (ns : list nat) : Prop :=
  known_size (map Z.of_nat ns) 1 <> None.

Lemma known_size_given ns : forall acc k,
  (0 <= acc)%Z ->
  known_size (map Z.of_nat ns) acc = Some k ->
  k = (acc * Z.of_nat (size_of ns))%Z.
Proof.
  induction ns as [|n ns IH]; intros acc k Hacc H; cbn [map known_size] in H.
  - injection H as <-. simpl. lia.
  - replace (Z.of_nat n <? 0)%Z with false in H
      by (symmetry; apply Z.ltb_ge; lia).
    destruct (acc * Z.of_nat n <=? int64_max)%Z; [|discriminate].
    apply IH in H; [|lia]. cbn [size_of fold_right]. fold (size_of ns). nia.
Qed.

Lemma given_dimensions ns :
  filter (fun d => d <? 0)%Z (map Z.of_nat ns) = []
  /\ existsb (fun d => d <? 0)%Z (map Z.of_nat ns) = false.
Proof.
  induction ns as [|n ns [IH1 IH2]]; [split; reflexivity|].
  cbn [map filter existsb].
  replace (Z.of_nat n <? 0)%Z with false by (symmetry; apply Z.ltb_ge; lia).
  split; assumption.
Qed.

(** A shape given in full, of as many elements as the array: it is the
    shape [reshape] works with. *)
Lemma infer_shape_given ns total :
  index_sized ns -> size_of ns = total ->
  infer_shape (map Z.of_nat ns) total = Ok ns.
Proof.
  unfold index_sized, infer_shape. intros Hk Hsize.
  destruct (given_dimensions ns) as [-> ->]. cbn [List.length Nat.ltb Nat.leb].
  destruct (known_size (map Z.of_nat ns) 1) as [k|] eqn:E; [|congruence].
  apply known_size_given in E; [|lia]. subst k total.
  rewrite Z.mul_1_l, Z.eqb_refl.
  rewrite map_map. f_equal.
  rewrite <- (map_id ns) at 2. apply map_ext. intros n. apply Nat2Z.id.
Qed.

Lemma known_size_positive ns : forall acc,
  (0 < acc)%Z -> Forall (fun n => 0 < n) ns ->
  (acc * Z.of_nat (size_of ns) <= int64_max)%Z ->
  known_size (map Z.of_nat ns) acc <> None.
Proof.
  induction ns as [|n ns IH]; intros acc Hacc Hpos Hmax;
    cbn [map known_size]; [discriminate|].
  inversion Hpos as [|? ? Hn Hpos']; subst.
  replace (Z.of_nat n <? 0)%Z with false by (symmetry; apply Z.ltb_ge; lia).
  cbn [size_of fold_right] in Hmax. fold (size_of ns) in Hmax.
  assert (0 < size_of ns) as Hs.
  { clear - Hpos'. induction Hpos' as [|m ms Hm _ IHm]; simpl; [lia|nia]. }
  replace (acc * Z.of_nat n <=? int64_max)%Z with true
    by (symmetry; apply Z.leb_le; nia).
  apply IH; [nia | assumption | nia].
Qed.

(** A shape without a zero, of fewer than [2^63] elements. *)
Lemma index_sized_positive ns :
  Forall (fun n => 0 < n) ns ->
  (Z.of_nat (size_of ns) <= int64_max)%Z ->
  index_sized ns.
Proof.
  intros Hpos Hmax. apply known_size_positive; [lia | assumption | lia].
Qed.

Lemma unflatten_given n0 n1 n2 a :
  index_sized [n0; n1; n2; 3] ->
  unflatten [Z.of_nat n0; Z.of_nat n1; Z.of_nat n2] a
  = reshape_F a [n0; n1; n2; 3].
Proof.
  intros Hk. unfold unflatten. cbn [nth_error of_option rbind].
  destruct (Nat.eq_dec (size_of [n0; n1; n2; 3]) (List.length (data a)))
    as [E | E].
  - change [Z.of_nat n0; Z.of_nat n1; Z.of_nat n2; 3%Z]
      with (map Z.of_nat [n0; n1; n2; 3]).
    rewrite (infer_shape_given _ _ Hk E). reflexivity.
  - assert (reshape_F a [n0; n1; n2; 3] = Err ValueError) as ->.
    { unfold reshape_F. apply Nat.eqb_neq in E. rewrite E. reflexivity. }
    change [Z.of_nat n0; Z.of_nat n1; Z.of_nat n2; 3%Z]
      with (map Z.of_nat [n0; n1; n2; 3]).
    unfold infer_shape.
    destruct (given_dimensions [n0; n1; n2; 3]) as [-> ->].
    cbn [List.length Nat.ltb Nat.leb].
    unfold index_sized in Hk.
    destruct (known_size (map Z.of_nat [n0; n1; n2; 3]) 1) as [k|] eqn:Ek;
      [|congruence].
    apply known_size_given in Ek; [|lia]. subst k.
    rewrite Z.mul_1_l.
    replace (Z.of_nat (size_of [n0; n1; n2; 3%nat])
             =? Z.of_nat (List.length (data a)))%Z with false
      by (symmetry; apply Z.eqb_neq; lia).
    reflexivity.
Qed.

End NpFacts.

(** * The writer's dispatch: types, sizes, and the caller's objects *)

(** An instance of the library, for the examples: a lone stage is paired
    with a two-sample identity LUT without comments, and a [LUT1D] is
    converted to a [LUT3x1D] by stacking its table and its domain three
    times, the conversion written into the name.  The other conversions,
    which the codec never asks for, keep the LUT and change its class. *)
Definition sample_default (cls : LUTclass) : LUT :=
  match cls with
  | LUT3D =>
      mk_LUT LUT3D
        {| shape := [2; 2; 2; 3];
           data := [0; 0; 0;  0; 0; 1;  0; 1; 0;  0; 1; 1;
                    1; 0; 0;  1; 0; 1;  1; 1; 0;  1; 1; 1]%float |}
        (txt "Unity 2") unity_range []
  | LUT3x1D =>
      mk_LUT LUT3x1D unity_range (txt "Unity 2") unity_range []
  | LUT1D =>
      mk_LUT LUT1D (array1 [0; 1]%float) (txt "Unity 2")
        (array1 [0; 1]%float) []
  end.

Definition sample_as_LUT (l : LUT) (cls : LUTclass) : LUT :=
  match class_of l, cls with
  | LUT1D, LUT3x1D =>
      mk_LUT LUT3x1D
        {| shape := shape (table l) ++ [3];
           data := interleave3 (data (table l)) (data (table l))
                     (data (table l)) |}
        (name l ++ txt " - Converted 1D to 3x1D")
        {| shape := shape (domain l) ++ [3];
           data := interleave3 (data (domain l)) (data (domain l))
                     (data (domain l)) |}
        (comments l)
  | _, _ => mk_LUT cls (table l) (name l) (domain l) (comments l)
  end.

Definition sample_lib : LUTlib := mk_LUTlib sample_default sample_as_LUT.

Definition no_files : filesystem := fun _ => None.

(** The sequence of the claim: two stages, a [LUT1D] or a [LUT3x1D] and
    then a [LUT3D]. *)
Definition sequence_shape_ok (h : heap) (stages : list loc) : Prop :=
  exists p0 p1 l0 l1,
    stages = [p0; p1]
    /\ lut_at h p0 = Some l0 /\ lut_at h p1 = Some l1
    /\ (class_of l0 = LUT1D \/ class_of l0 = LUT3x1D)
    /\ class_of l1 = LUT3D.

(** The shaper stage the writer checks and serialises, when there is one:
    a lone [LUT3x1D], the conversion of a lone [LUT1D], or the first stage
    of a sequence (converted when it is a [LUT1D]). *)
Definition shaper_stage (lib : LUTlib) (h : heap) (ref : loc) : option LUT :=
  match deref h ref with
  | Some (ObjLUT l) =>
      match class_of l with
      | LUT1D => Some (as_LUT lib l LUT3x1D)
      | LUT3x1D => Some l
      | LUT3D => None
      end
  | Some (ObjLUTSequence [p0; _]) =>
      match lut_at h p0 with
      | Some l0 =>
          Some (if isinstance l0 LUT1D then as_LUT lib l0 LUT3x1D else l0)
      | None => None
      end
  | _ => None
  end.

(** The cube stage, when there is one. *)
Definition cube_stage (h : heap) (ref : loc) : option LUT :=
  match deref h ref with
  | Some (ObjLUT l) =>
      match class_of l with
      | LUT3D => Some l
      | _ => None
      end
  | Some (ObjLUTSequence [_; p1]) => lut_at h p1
  | _ => None
  end.

(** An input the dispatch accepts. *)
Definition accepted (h : heap) (ref : loc) : Prop :=
  (exists l, deref h ref = Some (ObjLUT l))
  \/ (exists stages, deref h ref = Some (ObjLUTSequence stages)
                     /\ sequence_shape_ok h stages).

Definition shaper_size_ok (l : LUT) : Prop :=
  (2 <= Z.of_nat (size l) <= 65536)%Z.

Definition cube_size_ok (l : LUT) : Prop :=
  (2 <= Z.of_nat (size l) <= 256)%Z.

(** Example objects. *)
Definition one_row_shaper : LUT :=
  mk_LUT LUT3x1D {| shape := [1; 3]; data := [0; 0; 0]%float |}
    (txt "shaper") unity_range [].

Definition one_cell_cube : LUT :=
  mk_LUT LUT3D {| shape := [1; 1; 1; 3]; data := [0; 0; 0]%float |}
    (txt "cube") unity_range [].

Definition ramp_1D : LUT :=
  mk_LUT LUT1D (array1 [0; 0.5; 1]%float) (txt "ramp")
    (array1 [0; 1]%float) [].

Module Dispatch.

Import Py Np.

(** ** The heap *)

Lemma deref_alloc_old h o p x :
  deref h p = Some x -> deref (fst (alloc h o)) p = Some x.
Proof.
  unfold deref, alloc; simpl. intros H.
  rewrite nth_error_app1; [assumption|].
  apply nth_error_Some; congruence.
Qed.

Lemma deref_app_old h more p x :
  deref h p = Some x -> deref (h ++ more) p = Some x.
Proof.
  unfold deref. intros H.
  rewrite nth_error_app1; [assumption|].
  apply nth_error_Some; congruence.
Qed.

Lemma deref_app_frame h more p :
  p < List.length h -> deref (h ++ more) p = deref h p.
Proof. unfold deref. intros H. apply nth_error_app1; assumption. Qed.

Lemma deref_app_new h o more :
  deref (h ++ o :: more) (List.length h) = Some o.
Proof.
  unfold deref. rewrite nth_error_app2 by lia.
  rewrite Nat.sub_diag. reflexivity.
Qed.

Lemma lut_at_app_old h more p l :
  lut_at h p = Some l -> lut_at (h ++ more) p = Some l.
Proof.
  unfold lut_at. destruct (deref h p) as [[l'| |]|] eqn:E; try discriminate.
  intros H. rewrite (deref_app_old _ more _ _ E). exact H.
Qed.

Lemma deref_store_same h p o x :
  deref h p = Some x -> deref (store h p o) p = Some o.
Proof.
  unfold deref. revert p; induction h as [|y h IH]; intros [|p] H;
    simpl in *; try discriminate; auto.
Qed.

Lemma deref_store_other h p o q :
  q <> p -> deref (store h p o) q = deref h q.
Proof.
  unfold deref. revert p q; induction h as [|y h IH]; intros [|p] [|q] H;
    simpl in *; try reflexivity; try congruence.
  apply IH; congruence.
Qed.

Lemma lut_at_store_seq h p stages q :
  q <> p -> lut_at (store h p (ObjLUTSequence stages)) q = lut_at h q.
Proof.
  intros H. unfold lut_at. rewrite deref_store_other by assumption.
  reflexivity.
Qed.

Lemma deref_lt h p x : deref h p = Some x -> p < List.length h.
Proof. unfold deref. intros H. apply nth_error_Some. congruence. Qed.

Lemma lut_at_deref h p l : lut_at h p = Some l -> deref h p = Some (ObjLUT l).
Proof.
  unfold lut_at. destruct (deref h p) as [[l'| |]|]; congruence.
Qed.

Lemma lut_at_lt h p l : lut_at h p = Some l -> p < List.length h.
Proof. intros H. eapply deref_lt, lut_at_deref, H. Qed.

Lemma isinstance_class l cls : isinstance l cls = true <-> class_of l = cls.
Proof.
  unfold isinstance. destruct (class_of l), cls; simpl; split;
    congruence.
Qed.

(** ** The dispatch, input by input *)

Section Cases.

Variable lib : LUTlib.
Variables (h : heap) (ref : loc).

Lemma normalise_other :
  deref h ref = Some ObjOther ->
  normalise lib h ref = (h, Err InvalidLUTTypeError).
Proof. unfold normalise. intros ->. reflexivity. Qed.

Lemma normalise_bad_sequence stages :
  deref h ref = Some (ObjLUTSequence stages) ->
  ~ sequence_shape_ok h stages ->
  normalise lib h ref = (h, Err InvalidSequenceShapeError).
Proof.
  unfold normalise. intros -> Hbad.
  destruct stages as [|p0 [|p1 [|? ?]]]; try reflexivity.
  unfold stage_isinstance.
  destruct (lut_at h p0) as [l0|] eqn:E0; [|reflexivity].
  destruct (lut_at h p1) as [l1|] eqn:E1;
    [|rewrite andb_false_r; reflexivity].
  destruct ((isinstance l0 LUT1D || isinstance l0 LUT3x1D)
            && isinstance l1 LUT3D) eqn:E; [|reflexivity].
  exfalso. apply Hbad.
  apply andb_prop in E as [Ea Eb]. apply orb_prop in Ea.
  exists p0, p1, l0, l1. repeat split; try assumption.
  - destruct Ea as [Ea | Ea]; apply isinstance_class in Ea; auto.
  - apply isinstance_class; assumption.
Qed.

Lemma normalise_lone_3x1D l :
  deref h ref = Some (ObjLUT l) -> class_of l = LUT3x1D ->
  let h1 := h ++ [ObjLUT (LUT_default lib LUT3D);
                  ObjLUTSequence [ref; List.length h]] in
  normalise lib h ref
  = (h1, Ok (mk_canonical false true (is_domain_explicit l) (name l)
               (S (List.length h))))
  /\ stage h1 (S (List.length h)) 0 = Ok l
  /\ stage h1 (S (List.length h)) 1 = Ok (LUT_default lib LUT3D).
Proof.
  intros Hd Hc h1. unfold normalise. rewrite Hd, Hc.
  unfold alloc. rewrite length_app, <- app_assoc. simpl.
  rewrite !Nat.add_1_r.
  split; [reflexivity|].
  assert (deref h1 (S (List.length h))
          = Some (ObjLUTSequence [ref; List.length h])) as Hs.
  { unfold h1. change (h ++ [?a; ?b]) with (h ++ [a] ++ [b]).
    rewrite app_assoc.
    replace (S (List.length h)) with (List.length (h ++ [ObjLUT (LUT_default lib LUT3D)]))
      by (rewrite length_app; simpl; lia).
    apply deref_app_new. }
  unfold stage. rewrite Hs. simpl nth_error.
  unfold lut_at. unfold h1.
  rewrite (deref_app_old _ _ _ _ Hd), deref_app_new. split; reflexivity.
Qed.

Lemma normalise_lone_3D l :
  deref h ref = Some (ObjLUT l) -> class_of l = LUT3D ->
  let h1 := h ++ [ObjLUT (LUT_default lib LUT3x1D);
                  ObjLUTSequence [List.length h; ref]] in
  normalise lib h ref
  = (h1, Ok (mk_canonical true false false (name l) (S (List.length h))))
  /\ stage h1 (S (List.length h)) 0 = Ok (LUT_default lib LUT3x1D)
  /\ stage h1 (S (List.length h)) 1 = Ok l.
Proof.
  intros Hd Hc h1. unfold normalise. rewrite Hd, Hc.
  unfold alloc. rewrite length_app, <- app_assoc. simpl.
  rewrite !Nat.add_1_r.
  split; [reflexivity|].
  assert (deref h1 (S (List.length h))
          = Some (ObjLUTSequence [List.length h; ref])) as Hs.
  { unfold h1. change (h ++ [?a; ?b]) with (h ++ [a] ++ [b]).
    rewrite app_assoc.
    replace (S (List.length h)) with (List.length (h ++ [ObjLUT (LUT_default lib LUT3x1D)]))
      by (rewrite length_app; simpl; lia).
    apply deref_app_new. }
  unfold stage. rewrite Hs. simpl nth_error.
  unfold lut_at. unfold h1.
  rewrite (deref_app_old _ _ _ _ Hd), deref_app_new. split; reflexivity.
Qed.

Lemma normalise_lone_1D l :
  deref h ref = Some (ObjLUT l) -> class_of l = LUT1D ->
  let n := List.length h in
  let h1 := h ++ [ObjLUT (as_LUT lib l LUT3x1D);
                  ObjLUT (LUT_default lib LUT3D);
                  ObjLUTSequence [n; S n]] in
  normalise lib h ref
  = (h1, Ok (mk_canonical false true (is_domain_explicit l) (name l)
               (S (S n))))
  /\ stage h1 (S (S n)) 0 = Ok (as_LUT lib l LUT3x1D)
  /\ stage h1 (S (S n)) 1 = Ok (LUT_default lib LUT3D).
Proof.
  intros Hd Hc n h1. unfold normalise. rewrite Hd, Hc.
  unfold alloc. rewrite !length_app, <- !app_assoc. simpl.
  rewrite !Nat.add_1_r. fold n.
  split; [reflexivity|].
  assert (forall a b c, deref (h ++ [a; b; c]) (S (S n)) = Some c) as H2.
  { intros a b c. change (h ++ [a; b; c]) with (h ++ [a; b] ++ [c]).
    rewrite app_assoc.
    replace (S (S n)) with (List.length (h ++ [a; b]))
      by (rewrite length_app; simpl; unfold n; lia).
    apply deref_app_new. }
  assert (forall a b c, deref (h ++ [a; b; c]) (S n) = Some b) as H1.
  { intros a b c. change (h ++ [a; b; c]) with (h ++ [a] ++ b :: [c]).
    rewrite app_assoc.
    replace (S n) with (List.length (h ++ [a]))
      by (rewrite length_app; simpl; unfold n; lia).
    apply deref_app_new. }
  unfold stage, h1. rewrite H2. simpl nth_error.
  unfold lut_at. rewrite H1. unfold n. rewrite deref_app_new.
  split; reflexivity.
Qed.

Lemma normalise_sequence p0 p1 l0 l1 :
  deref h ref = Some (ObjLUTSequence [p0; p1]) ->
  lut_at h p0 = Some l0 -> lut_at h p1 = Some l1 ->
  class_of l0 = LUT1D \/ class_of l0 = LUT3x1D -> class_of l1 = LUT3D ->
  let l0' := if isinstance l0 LUT1D then as_LUT lib l0 LUT3x1D else l0 in
  let h1 := if isinstance l0 LUT1D
            then store (h ++ [ObjLUT l0']) ref
                   (ObjLUTSequence [List.length h; p1])
            else h in
  normalise lib h ref
  = (h1, Ok (mk_canonical true true
               (isinstance l0 LUT1D && is_domain_explicit l0) (name l1) ref))
  /\ stage h1 ref 0 = Ok l0'
  /\ stage h1 ref 1 = Ok l1.
Proof.
  intros Hd H0 H1 Hc0 Hc1 l0' h1.
  pose proof (deref_lt _ _ _ Hd) as HltL.
  pose proof (lut_at_lt _ _ _ H1) as Hlt1.
  unfold normalise. rewrite Hd.
  unfold stage_isinstance. rewrite H0, H1.
  assert (isinstance l1 LUT3D = true) as -> by (apply isinstance_class; exact Hc1).
  assert (isinstance l0 LUT1D || isinstance l0 LUT3x1D = true) as ->.
  { destruct Hc0 as [E | E]; apply isinstance_class in E; rewrite E;
      auto using orb_true_r. }
  simpl andb. cbv iota.
  unfold h1, l0'. destruct (isinstance l0 LUT1D) eqn:E1.
  - unfold alloc. split; [reflexivity|].
    assert (deref (store (h ++ [ObjLUT (as_LUT lib l0 LUT3x1D)]) ref
                     (ObjLUTSequence [List.length h; p1])) ref
            = Some (ObjLUTSequence [List.length h; p1])) as Hs.
    { eapply deref_store_same, deref_app_old, Hd. }
    unfold stage. rewrite Hs. simpl nth_error. cbv beta iota.
    assert (p1 <> ref) as Hne
      by (intros ->; apply lut_at_deref in H1; congruence).
    rewrite !lut_at_store_seq by (assumption || lia).
    split.
    + unfold lut_at. rewrite deref_app_new. reflexivity.
    + rewrite (lut_at_app_old _ _ _ _ H1). reflexivity.
  - split; [reflexivity|].
    unfold stage. rewrite Hd. simpl nth_error. cbv beta iota.
    rewrite H0, H1. split; reflexivity.
Qed.

End Cases.

End Dispatch.

(** * Claims on the writer's dispatch *)

Module WriterClaims.

Import Py Np Dispatch.

Section Steps.

Variable lib : LUTlib.
Variables (h : heap) (fs : filesystem) (ref : loc) (path : str)
  (decimals : nat).

Lemma write_rejected h1 e :
  normalise lib h ref = (h1, Err e) ->
  write_LUT_Cinespace lib ref path decimals (h, fs) = ((h1, fs), Err e).
Proof. unfold write_LUT_Cinespace. intros ->. reflexivity. Qed.

Lemma write_invalid h1 c l0 l1 e :
  normalise lib h ref = (h1, Ok c) ->
  stage h1 (LUT_ref c) 0 = Ok l0 -> stage h1 (LUT_ref c) 1 = Ok l1 ->
  validate c l0 l1 = Err e ->
  write_LUT_Cinespace lib ref path decimals (h, fs) = ((h1, fs), Err e).
Proof.
  unfold write_LUT_Cinespace. intros -> H0 H1 Hv.
  simpl rbind. rewrite H0. simpl rbind. rewrite H1. simpl rbind.
  rewrite Hv. reflexivity.
Qed.

Lemma write_valid h1 c l0 l1 :
  normalise lib h ref = (h1, Ok c) ->
  stage h1 (LUT_ref c) 0 = Ok l0 -> stage h1 (LUT_ref c) 1 = Ok l1 ->
  validate c l0 l1 = Ok tt ->
  write_LUT_Cinespace lib ref path decimals (h, fs)
  = ((h1, fs_write fs path (fst (serialise decimals c l0 l1 []))),
     match snd (serialise decimals c l0 l1 []) with
     | Ok _ => Ok true
     | Err e => Err e
     end).
Proof.
  unfold write_LUT_Cinespace. intros -> H0 H1 Hv.
  simpl rbind. rewrite H0. simpl rbind. rewrite H1. simpl rbind.
  rewrite Hv. simpl rbind. cbv beta iota.
  destruct (serialise decimals c l0 l1 []) as [content r]. reflexivity.
Qed.

(** An accepted input gives the writer its two stages; the flags say which
    of them come from the caller. *)
Lemma dispatch_accepted :
  accepted h ref ->
  exists h1 c l0 l1,
    normalise lib h ref = (h1, Ok c)
    /\ stage h1 (LUT_ref c) 0 = Ok l0 /\ stage h1 (LUT_ref c) 1 = Ok l1
    /\ shaper_stage lib h ref = (if has_3x1D c then Some l0 else None)
    /\ cube_stage h ref = (if has_3D c then Some l1 else None).
Proof.
  intros [[l Hd] | (stages & Hd & p0 & p1 & l0 & l1 & -> & H0 & H1 & Hc0 & Hc1)].
  - destruct (class_of l) eqn:Hc.
    + destruct (normalise_lone_1D lib h ref l Hd Hc) as (Hn & Hs0 & Hs1).
      do 4 eexists. split; [exact Hn|]. split; [exact Hs0|].
      split; [exact Hs1|].
      unfold shaper_stage, cube_stage. rewrite Hd, Hc. split; reflexivity.
    + destruct (normalise_lone_3x1D lib h ref l Hd Hc) as (Hn & Hs0 & Hs1).
      do 4 eexists. split; [exact Hn|]. split; [exact Hs0|].
      split; [exact Hs1|].
      unfold shaper_stage, cube_stage. rewrite Hd, Hc. split; reflexivity.
    + destruct (normalise_lone_3D lib h ref l Hd Hc) as (Hn & Hs0 & Hs1).
      do 4 eexists. split; [exact Hn|]. split; [exact Hs0|].
      split; [exact Hs1|].
      unfold shaper_stage, cube_stage. rewrite Hd, Hc. split; reflexivity.
  - destruct (normalise_sequence lib h ref p0 p1 l0 l1 Hd H0 H1 Hc0 Hc1)
      as (Hn & Hs0 & Hs1).
    do 4 eexists. split; [exact Hn|]. split; [exact Hs0|].
    split; [exact Hs1|].
    unfold shaper_stage, cube_stage. rewrite Hd, H0, H1. split; reflexivity.
Qed.

End Steps.

Lemma validate_shaper c l0 l1 :
  has_3x1D c = true -> ~ shaper_size_ok l0 ->
  validate c l0 l1 = Err ShaperSizeOutOfRangeError.
Proof.
  unfold validate, shaper_size_ok. intros -> H.
  destruct ((2 <=? Z.of_nat (size l0)) && (Z.of_nat (size l0) <=? 65536))%Z
    eqn:E; [|reflexivity].
  apply andb_prop in E as [E1 E2].
  apply Z.leb_le in E1, E2. lia.
Qed.

Lemma validate_cube c l0 l1 :
  has_3D c = true -> ~ cube_size_ok l1 ->
  (has_3x1D c = true -> shaper_size_ok l0) ->
  validate c l0 l1 = Err CubeSizeOutOfRangeError.
Proof.
  unfold validate, shaper_size_ok, cube_size_ok. intros -> H H0.
  assert ((if has_3x1D c
           then rassert ((2 <=? Z.of_nat (size l0))
                         && (Z.of_nat (size l0) <=? 65536))%Z
                  ShaperSizeOutOfRangeError
           else Ok tt) = Ok tt) as ->.
  { destruct (has_3x1D c); [|reflexivity].
    specialize (H0 eq_refl).
    replace ((2 <=? Z.of_nat (size l0)) && (Z.of_nat (size l0) <=? 65536))%Z
      with true; [reflexivity|].
    symmetry. apply andb_true_intro. split; apply Z.leb_le; lia. }
  simpl rbind.
  destruct ((2 <=? Z.of_nat (size l1)) && (Z.of_nat (size l1) <=? 256))%Z
    eqn:E; [|reflexivity].
  apply andb_prop in E as [E1 E2].
  apply Z.leb_le in E1, E2. lia.
Qed.

(** ** C9 *)

(** C9.  An input that is no LUT and no sequence is refused with
    [InvalidLUTTypeError]; a sequence that is not a [LUT1D] or [LUT3x1D]
    followed by a [LUT3D] is refused with [InvalidSequenceShapeError].  In
    both cases the heap and the file system are left as they were: no file
    is created or written. *)
Theorem C9_invalid_inputs_refused
  (lib : LUTlib) (h : heap) (fs : filesystem) (ref : loc) (path : str)
  (decimals : nat) :
  (deref h ref = Some ObjOther ->
   write_LUT_Cinespace lib ref path decimals (h, fs)
   = ((h, fs), Err InvalidLUTTypeError))
  /\ (forall stages,
        deref h ref = Some (ObjLUTSequence stages) ->
        ~ sequence_shape_ok h stages ->
        write_LUT_Cinespace lib ref path decimals (h, fs)
        = ((h, fs), Err InvalidSequenceShapeError)).
Proof.
  split.
  - intros H. apply write_rejected, normalise_other, H.
  - intros stages H Hbad.
    apply write_rejected. eapply normalise_bad_sequence; eassumption.
Qed.

Lemma C9_witness :
  write_LUT_Cinespace sample_lib 0 (txt "out.csp") 7 ([ObjOther], no_files)
  = (([ObjOther], no_files), Err InvalidLUTTypeError)
  /\ write_LUT_Cinespace sample_lib 1 (txt "out.csp") 7
       ([ObjLUT one_cell_cube; ObjLUTSequence [0; 0]], no_files)
     = (([ObjLUT one_cell_cube; ObjLUTSequence [0; 0]], no_files),
        Err InvalidSequenceShapeError).
Proof.
  split.
  - apply (proj1 (C9_invalid_inputs_refused sample_lib [ObjOther] no_files 0
                    (txt "out.csp") 7)).
    reflexivity.
  - apply (proj2 (C9_invalid_inputs_refused sample_lib
                    [ObjLUT one_cell_cube; ObjLUTSequence [0; 0]] no_files 1
                    (txt "out.csp") 7) [0; 0]).
    + reflexivity.
    + intros (p0 & p1 & l0 & l1 & E & H0 & H1 & [Hc | Hc] & _);
        injection E as <- <-; vm_compute in H0; injection H0 as <-;
        discriminate Hc.
Defined.

(** ** C6 *)

(** C6, counterexample.  A sequence whose shaper has one row and whose cube
    has size 1: the cube size is outside [2, 256], and the call fails with
    [ShaperSizeOutOfRangeError], not with [CubeSizeOutOfRangeError]. *)
Lemma C6_counterexample :
  let h := [ObjLUT one_row_shaper; ObjLUT one_cell_cube;
            ObjLUTSequence [0; 1]] in
  cube_stage h 2 = Some one_cell_cube
  /\ size one_cell_cube = 1
  /\ snd (write_LUT_Cinespace sample_lib 2 (txt "out.csp") 7 (h, no_files))
     = Err ShaperSizeOutOfRangeError.
Proof. repeat split. Qed.

(** C6, as amended.  For an input the dispatch accepts: when there is a
    shaper stage and its size is outside [2, 65536] the call fails with
    [ShaperSizeOutOfRangeError]; when there is a cube stage and its size is
    outside [2, 256], and the shaper stage (if any) passed its check, the
    call fails with [CubeSizeOutOfRangeError].  No file is created or
    written in either case.  So a lone [LUT3x1D] of size 1 or 70000 fails
    with the former, a lone [LUT3D] of size 300 with the latter. *)
Theorem C6_size_bounds
  (lib : LUTlib) (h : heap) (fs : filesystem) (ref : loc) (path : str)
  (decimals : nat) :
  accepted h ref ->
  let out := write_LUT_Cinespace lib ref path decimals (h, fs) in
  (forall l0, shaper_stage lib h ref = Some l0 -> ~ shaper_size_ok l0 ->
     snd out = Err ShaperSizeOutOfRangeError /\ snd (fst out) = fs)
  /\ (forall l1, cube_stage h ref = Some l1 -> ~ cube_size_ok l1 ->
        (forall l0, shaper_stage lib h ref = Some l0 -> shaper_size_ok l0) ->
        snd out = Err CubeSizeOutOfRangeError /\ snd (fst out) = fs)
  /\ (forall l, deref h ref = Some (ObjLUT l) -> class_of l = LUT3x1D ->
        Z.of_nat (size l) = 1%Z \/ Z.of_nat (size l) = 70000%Z ->
        snd out = Err ShaperSizeOutOfRangeError /\ snd (fst out) = fs)
  /\ (forall l, deref h ref = Some (ObjLUT l) -> class_of l = LUT3D ->
        Z.of_nat (size l) = 300%Z ->
        snd out = Err CubeSizeOutOfRangeError /\ snd (fst out) = fs).
Proof.
  intros Hacc out.
  destruct (dispatch_accepted lib h ref Hacc)
    as (h1 & c & l0 & l1 & Hn & Hs0 & Hs1 & Hsh & Hcu).
  assert (forall l0', shaper_stage lib h ref = Some l0' -> ~ shaper_size_ok l0' ->
            snd out = Err ShaperSizeOutOfRangeError /\ snd (fst out) = fs) as A.
  { intros l0' E Hbad. rewrite Hsh in E.
    destruct (has_3x1D c) eqn:F; [|discriminate]. injection E as <-.
    unfold out.
    rewrite (write_invalid lib h fs ref path decimals h1 c l0 l1 _ Hn Hs0 Hs1
               (validate_shaper c l0 l1 F Hbad)).
    split; reflexivity. }
  assert (forall l1', cube_stage h ref = Some l1' -> ~ cube_size_ok l1' ->
            (forall l0', shaper_stage lib h ref = Some l0' -> shaper_size_ok l0') ->
            snd out = Err CubeSizeOutOfRangeError /\ snd (fst out) = fs) as B.
  { intros l1' E Hbad Hok. rewrite Hcu in E.
    destruct (has_3D c) eqn:F; [|discriminate]. injection E as <-.
    unfold out.
    rewrite (write_invalid lib h fs ref path decimals h1 c l0 l1 _ Hn Hs0 Hs1
               (validate_cube c l0 l1 F Hbad
                  ltac:(intros F'; apply Hok; rewrite Hsh, F'; reflexivity))).
    split; reflexivity. }
  split; [exact A|]. split; [exact B|]. split.
  - intros l Hd Hc Hsz. apply (A l).
    + unfold shaper_stage. rewrite Hd, Hc. reflexivity.
    + unfold shaper_size_ok. lia.
  - intros l Hd Hc Hsz. apply (B l).
    + unfold cube_stage. rewrite Hd, Hc. reflexivity.
    + unfold cube_size_ok. lia.
    + intros l0'. unfold shaper_stage. rewrite Hd, Hc. discriminate.
Qed.

Lemma C6_witness :
  snd (write_LUT_Cinespace sample_lib 0 (txt "out.csp") 7
         ([ObjLUT one_row_shaper], no_files))
  = Err ShaperSizeOutOfRangeError
  /\ snd (fst (write_LUT_Cinespace sample_lib 0 (txt "out.csp") 7
                 ([ObjLUT one_row_shaper], no_files)))
     = no_files.
Proof.
  assert (accepted [ObjLUT one_row_shaper] 0) as Hacc
    by (left; exists one_row_shaper; reflexivity).
  apply (proj1 (C6_size_bounds sample_lib [ObjLUT one_row_shaper] no_files 0
                  (txt "out.csp") 7 Hacc) one_row_shaper).
  - reflexivity.
  - unfold shaper_size_ok. vm_compute. intros [H _]. apply H. reflexivity.
Defined.

(** ** C5 *)

(** C5.  What the code does to a sequence handed in by the caller whose
    first stage is a [LUT1D]: when the call returns, stage 0 of the caller's
    sequence refers to a new object, the [LUT3x1D] conversion; it is no
    longer the caller's [LUT1D].  This holds whatever the rest of the call
    does.  For every other accepted input the cells of the caller's heap
    are what they were. *)
Theorem C5_sequence_stage_replaced
  (lib : LUTlib) (h : heap) (fs : filesystem) (ref : loc) (path : str)
  (decimals : nat) :
  let h' := fst (fst (write_LUT_Cinespace lib ref path decimals (h, fs))) in
  (forall p0 p1 l0 l1,
     deref h ref = Some (ObjLUTSequence [p0; p1]) ->
     lut_at h p0 = Some l0 -> class_of l0 = LUT1D ->
     lut_at h p1 = Some l1 -> class_of l1 = LUT3D ->
     deref h' ref = Some (ObjLUTSequence [List.length h; p1])
     /\ lut_at h' (List.length h) = Some (as_LUT lib l0 LUT3x1D)
     /\ p0 <> List.length h)
  /\ (accepted h ref ->
      (forall p0 p1 l0, deref h ref = Some (ObjLUTSequence [p0; p1]) ->
                        lut_at h p0 = Some l0 -> class_of l0 <> LUT1D) ->
      forall p, p < List.length h -> deref h' p = deref h p).
Proof.
  intros h'. split.
  - intros p0 p1 l0 l1 Hd H0 Hc0 H1 Hc1.
    destruct (normalise_sequence lib h ref p0 p1 l0 l1 Hd H0 H1
                (or_introl Hc0) Hc1) as (Hn & _ & _).
    apply isinstance_class in Hc0. rewrite Hc0 in Hn.
    assert (h' = store (h ++ [ObjLUT (as_LUT lib l0 LUT3x1D)]) ref
                   (ObjLUTSequence [List.length h; p1])) as ->.
    { unfold h', write_LUT_Cinespace. rewrite Hn.
      destruct (rbind _ _) as [[[c a] b]|e]; [|reflexivity].
      destruct (serialise _ _ _ _ _); reflexivity. }
    pose proof (deref_lt _ _ _ Hd) as Hlt.
    pose proof (lut_at_lt _ _ _ H0) as Hlt0.
    repeat split.
    + eapply deref_store_same, deref_app_old, Hd.
    + rewrite lut_at_store_seq by lia.
      unfold lut_at. rewrite deref_app_new. reflexivity.
    + lia.
  - intros Hacc Hnot p Hp.
    assert (exists more, h' = h ++ more) as [more ->];
      [|apply deref_app_frame; exact Hp].
    assert (exists more c, normalise lib h ref = (h ++ more, Ok c))
      as (more & c & Hn).
    { destruct Hacc as [[l Hd] | (stages & Hd & p0 & p1 & l0 & l1 & -> & H0
                                  & H1 & Hc0 & Hc1)].
      - destruct (class_of l) eqn:Hc.
        + destruct (normalise_lone_1D lib h ref l Hd Hc) as (Hn & _).
          do 2 eexists; exact Hn.
        + destruct (normalise_lone_3x1D lib h ref l Hd Hc) as (Hn & _).
          do 2 eexists; exact Hn.
        + destruct (normalise_lone_3D lib h ref l Hd Hc) as (Hn & _).
          do 2 eexists; exact Hn.
      - destruct (normalise_sequence lib h ref p0 p1 l0 l1 Hd H0 H1 Hc0 Hc1)
          as (Hn & _).
        assert (isinstance l0 LUT1D = false) as E.
        { destruct (isinstance l0 LUT1D) eqn:E; [|reflexivity].
          apply isinstance_class in E.
          exfalso. exact (Hnot p0 p1 l0 Hd H0 E). }
        rewrite E in Hn. exists [].
        rewrite app_nil_r. eexists; exact Hn. }
    exists more. unfold h', write_LUT_Cinespace. rewrite Hn.
    destruct (rbind _ _) as [[[c' a] b]|e]; [|reflexivity].
    destruct (serialise _ _ _ _ _); reflexivity.
Qed.

Lemma C5_witness :
  let h := [ObjLUT ramp_1D; ObjLUT one_cell_cube; ObjLUTSequence [0; 1]] in
  let h' := fst (fst (write_LUT_Cinespace sample_lib 2 (txt "out.csp") 7
                        (h, no_files))) in
  deref h 2 = Some (ObjLUTSequence [0; 1])
  /\ deref h' 2 = Some (ObjLUTSequence [3; 1])
  /\ lut_at h' 3 = Some (sample_as_LUT ramp_1D LUT3x1D)
  /\ 0 <> 3.
Proof.
  split; [reflexivity|].
  apply (proj1 (C5_sequence_stage_replaced sample_lib
                  [ObjLUT ramp_1D; ObjLUT one_cell_cube; ObjLUTSequence [0; 1]]
                  no_files 2 (txt "out.csp") 7)
           0 1 ramp_1D one_cell_cube);
    reflexivity.
Defined.

End WriterClaims.

(** * Claims on the reader's checks *)

Module ReaderChecks.

Import Py Np PyFacts NpFacts.

(** The errors Python, numpy and the LUT classes raise by themselves. *)
Definition python_error (e : error) : Prop :=
  e = IndexError \/ e = ValueError \/ e = TypeError \/ e = AssertionError
  \/ e = OverflowError.

Ltac err_cases :=
  repeat match goal with
    | H : Err _ = Err _ |- _ => injection H as <-
    | H : Ok _ = Err _ |- _ => discriminate H
    | H : rbind ?r _ = Err _ |- _ =>
        let E := fresh "E" in destruct r eqn:E; simpl rbind in H
    | H : of_option ?o _ = Err _ |- _ =>
        let E := fresh "E" in destruct o eqn:E; simpl of_option in H
    | H : rassert ?b _ = Err _ |- _ =>
        let E := fresh "E" in destruct b eqn:E; simpl rassert in H
    | H : (if ?b then _ else _) = Err _ |- _ =>
        let E := fresh "E" in destruct b eqn:E
    end.

Lemma reshape_error a t e : reshape a t = Err e -> python_error e.
Proof. unfold reshape, python_error. intros H. err_cases. auto. Qed.

Lemma reshape_F_error a t e : reshape_F a t = Err e -> python_error e.
Proof. unfold reshape_F, python_error. intros H. err_cases. auto. Qed.

Lemma infer_shape_error new total e :
  infer_shape new total = Err e -> python_error e.
Proof.
  unfold infer_shape, python_error. intros H.
  destruct (known_size new 1); err_cases; auto.
Qed.

Lemma unflatten_error sz a e : unflatten sz a = Err e -> python_error e.
Proof.
  unfold unflatten. intros H. err_cases;
    try (unfold python_error; auto; fail).
  - eapply reshape_F_error; eassumption.
  - eapply infer_shape_error; eassumption.
Qed.

Lemma new_LUT_error cls t nm dom cms e :
  new_LUT cls t nm dom cms = Err e -> python_error e.
Proof. unfold new_LUT, python_error. intros H. err_cases. auto. Qed.

Lemma shaper_bounds_error p e : shaper_bounds p = Err e -> python_error e.
Proof.
  unfold shaper_bounds. intros H. err_cases.
  eapply reshape_error; eassumption.
Qed.

Lemma row_error a k e : row a k = Err e -> python_error e.
Proof.
  unfold row, python_error. intros H.
  destruct (shape a); err_cases; auto.
Qed.

Lemma tstack_error a b c e : tstack a b c = Err e -> python_error e.
Proof. unfold tstack, python_error. intros H. err_cases. auto. Qed.

Lemma stack_rows_error p i j k e :
  stack_rows p i j k = Err e -> python_error e.
Proof.
  unfold stack_rows. intros H. err_cases;
    eauto using row_error, tstack_error.
Qed.

Lemma broadcast_error op a v e : broadcast op a v = Err e -> python_error e.
Proof.
  unfold broadcast, python_error. intros H.
  destruct (rev (shape a)) as [|k ?]; [err_cases; auto|].
  destruct (shape v) as [|k' [|? ?]]; err_cases; auto.
Qed.

Lemma assemble_shaped_error lib s e :
  assemble_shaped lib s = Err e -> python_error e.
Proof.
  unfold assemble_shaped. intros H.
  err_cases;
    eauto using stack_rows_error, unflatten_error, row_error, broadcast_error,
      new_LUT_error.
Qed.

(** The assembly raises nothing but what Python raises by itself. *)
Lemma assemble_error lib s e : assemble lib s = Err e -> python_error e.
Proof.
  unfold assemble. intros H.
  err_cases;
    eauto using unflatten_error, shaper_bounds_error, assemble_shaped_error,
      new_LUT_error.
Qed.

Section Read.

Variable lib : LUTlib.
Variables (fs : filesystem) (path content : str).
Hypothesis Hfile : fs path = Some content.

Lemma read_unfold :
  read_LUT_Cinespace lib fs path
  = (s <- read_sections content ;;
     _ <- rassert (product (table_size s)
                   =? Z.of_nat (len (flat_table s)))%Z
                  TableSizeMismatchError ;;
     assemble lib s)%result.
Proof. unfold read_LUT_Cinespace. rewrite Hfile. reflexivity. Qed.

Lemma read_checked s :
  read_sections content = Ok s ->
  product (table_size s) = Z.of_nat (len (flat_table s)) ->
  read_LUT_Cinespace lib fs path = assemble lib s.
Proof.
  intros Hs Hp. rewrite read_unfold, Hs. simpl rbind.
  apply Z.eqb_eq in Hp. rewrite Hp. reflexivity.
Qed.

End Read.

(** ** C8 *)

(** C8.  What the code does: a file without any line fails with
    [EmptyFileError]; a file that has lines, all of them blank, passes that
    check and fails at [lines[0]] with [IndexError]. *)
Theorem C8_blank_file_index_error
  (lib : LUTlib) (fs : filesystem) (path content : str) :
  fs path = Some content ->
  (content = [] -> read_LUT_Cinespace lib fs path = Err EmptyFileError)
  /\ (readlines content <> [] ->
      normalise_lines (readlines content) = [] ->
      read_LUT_Cinespace lib fs path = Err IndexError).
Proof.
  intros Hfile. rewrite (read_unfold lib fs path content Hfile). split.
  - intros ->. reflexivity.
  - intros Hne Hblank. unfold read_sections.
    assert ((0 <? List.length (readlines content)) = true) as ->
      by (destruct (readlines content); [congruence | reflexivity]).
    simpl rassert. simpl rbind.
    change (map strip
              (filter (fun line => negb (str_eqb (strip line) []))
                      (readlines content)))
      with (normalise_lines (readlines content)).
    rewrite Hblank. reflexivity.
Qed.

Lemma C8_witness :
  read_LUT_Cinespace sample_lib (fun _ => Some [LF; " "%char; LF])
    (txt "blank.csp")
  = Err IndexError.
Proof.
  apply (proj2 (C8_blank_file_index_error sample_lib
                  (fun _ => Some [LF; " "%char; LF]) (txt "blank.csp")
                  [LF; " "%char; LF] eq_refl)).
  - vm_compute. discriminate.
  - reflexivity.
Defined.

(** ** C7 *)

Lemma size_checked
  (lib : LUTlib) (fs : filesystem) (path content : str) (s : sections) :
  fs path = Some content ->
  read_sections content = Ok s ->
  read_LUT_Cinespace lib fs path = Err TableSizeMismatchError
  <-> product (table_size s) <> Z.of_nat (len (flat_table s)).
Proof.
  intros Hfile Hs.
  destruct (Z.eq_dec (product (table_size s)) (Z.of_nat (len (flat_table s))))
    as [Heq | Hne].
  - rewrite (read_checked lib fs path content Hfile s Hs Heq). split.
    + intros H. apply assemble_error in H.
      unfold python_error in H. intuition discriminate.
    + intros H. contradiction.
  - split; [intros _; exact Hne|]. intros _.
    rewrite (read_unfold lib fs path content Hfile), Hs. simpl rbind.
    apply Z.eqb_neq in Hne. rewrite Hne. reflexivity.
Qed.

(** A file of kind 1D whose size line is [6 -6148914691236517205] and that
    has two rows.  The product of the two integers is [- (2^65 - 2)]; cut
    down to 64 bits it is 2. *)
Definition wrapped_size_file : str :=
  unlines (map txt
    [ "CSPLUTV100"; "1D"; "";
      "BEGIN METADATA"; "wrapped"; "END METADATA"; "";
      "2"; "0.0 1.0"; "0.0 1.0";
      "2"; "0.0 1.0"; "0.0 1.0";
      "2"; "0.0 1.0"; "0.0 1.0"; "";
      "6 -6148914691236517205"; "0.0 0.0 0.0"; "1.0 1.0 1.0" ]%string).

(** C7, counterexample.  The integers of the size line are 6 and
    -6148914691236517205, their product is not 2, the table has two rows,
    and the file is read to a LUT. *)
Lemma C7_counterexample :
  exists s l,
    read_sections wrapped_size_file = Ok s
    /\ table_size s = [6; -6148914691236517205]%Z
    /\ len (flat_table s) = 2
    /\ (fold_right Z.mul 1 (table_size s) =? Z.of_nat (len (flat_table s)))%Z
       = false
    /\ read_LUT_Cinespace sample_lib (fun _ => Some wrapped_size_file)
         (txt "wrapped.csp")
       = Ok (Single l).
Proof.
  do 2 eexists. split; [vm_compute; reflexivity|].
  repeat split; vm_compute; reflexivity.
Qed.

(** C7, as amended.  Once the sections of a file are parsed, the reader
    fails with [TableSizeMismatchError] exactly when the product of the
    integers of the size line, cut down to 64 bits as [np.product] of an
    [int64] array leaves it, differs from the number of table rows; when
    they are equal it goes on to assemble the LUT.  When the product of the
    integers fits 64 bits, the error is raised exactly when that product
    differs from the number of rows. *)
Theorem C7_table_size_check
  (lib : LUTlib) (fs : filesystem) (path content : str) (s : sections) :
  fs path = Some content ->
  read_sections content = Ok s ->
  (read_LUT_Cinespace lib fs path = Err TableSizeMismatchError
   <-> wrap64 (fold_right Z.mul 1%Z (table_size s))
       <> Z.of_nat (len (flat_table s)))
  /\ (wrap64 (fold_right Z.mul 1%Z (table_size s))
      = Z.of_nat (len (flat_table s)) ->
      read_LUT_Cinespace lib fs path = assemble lib s)
  /\ (in_int64 (fold_right Z.mul 1%Z (table_size s)) = true ->
      (read_LUT_Cinespace lib fs path = Err TableSizeMismatchError
       <-> fold_right Z.mul 1%Z (table_size s)
           <> Z.of_nat (len (flat_table s)))).
Proof.
  intros Hfile Hs.
  pose proof (size_checked lib fs path content s Hfile Hs) as Hiff.
  pose proof (product_wraps (table_size s)) as Hw.
  split; [|split].
  - rewrite <- Hw. exact Hiff.
  - rewrite <- Hw. exact (read_checked lib fs path content Hfile s Hs).
  - intros Hfit. rewrite <- (product_small _ Hfit). exact Hiff.
Qed.

(** A file of kind 1D whose size line says 3 and that has two rows. *)
Definition short_table_file : str :=
  unlines (map txt
    [ "CSPLUTV100"; "1D"; "";
      "BEGIN METADATA"; "short"; "END METADATA"; "";
      "2"; "0.0 1.0"; "0.0 1.0";
      "2"; "0.0 1.0"; "0.0 1.0";
      "2"; "0.0 1.0"; "0.0 1.0"; "";
      "3"; "0.0 0.0 0.0"; "1.0 1.0 1.0" ]%string).

Lemma C7_witness :
  read_LUT_Cinespace sample_lib (fun _ => Some short_table_file)
    (txt "short.csp")
  = Err TableSizeMismatchError.
Proof.
  destruct (read_sections short_table_file) as [s|e] eqn:E;
    [|vm_compute in E; discriminate E].
  apply (proj1 (C7_table_size_check sample_lib
                  (fun _ => Some short_table_file) (txt "short.csp")
                  short_table_file s eq_refl E)).
  vm_compute in E. injection E as <-. vm_compute. discriminate.
Defined.

End ReaderChecks.

(** * Claims on how the reader assembles a LUT *)

(** Sample [j] of row [k] of the pre-LUT matrix.  The rows are, in order:
    the domain and the table samples of the red channel, then of the green
    one, then of the blue one. *)
Definition sample (p : ndarray) (k j : nat) : float :=
  nth (k * nth 1 (shape p) 0 + j) (data p) nan.

(** The table samples of the three channels are [0, 1], as [==] compares
    numbers. *)
Definition table_rows_unity (p : ndarray) : Prop :=
  forall c, c < 3 ->
    PrimFloat.eqb (sample p (2 * c + 1) 0) 0 = true
    /\ PrimFloat.eqb (sample p (2 * c + 1) 1) 1 = true.

(** The condition as the claim words it: the domain samples and the table
    samples of every channel are [0, 1]. *)
Definition claimed_unity_pairs (p : ndarray) : bool :=
  shape_eqb (shape p) [6; 2]
  && forallb (fun k => PrimFloat.eqb (sample p k 0) 0
                       && PrimFloat.eqb (sample p k 1) 1)
             (seq 0 6).

(** The domain made of the first and of the second domain sample of each
    channel. *)
Definition bounds_of (p : ndarray) : ndarray :=
  {| shape := [2; 3];
     data := [sample p 0 0; sample p 2 0; sample p 4 0;
              sample p 0 1; sample p 2 1; sample p 4 1] |}.

(** The single LUT a file with a trivial shaper collapses to, when the
    table can be unflattened (kind 3D) and the class takes it. *)
Definition collapsed (s : sections) : result csp_value :=
  (tbl <- (if is_3D s then unflatten (table_size s) (flat_table s)
           else Ok (flat_table s)) ;;
   l <- new_LUT (if is_3D s then LUT3D else LUT3x1D) tbl (title s)
          (bounds_of (pre_LUT s)) (meta_comments s) ;;
   Ok (Single l))%result.

(** A file of kind 3D whose shaper has the domain [-0.1, 1.5] for the red
    channel and the table [0, 1] for every channel. *)
Definition wide_domain_file : str :=
  PyFacts.unlines (map txt
    [ "CSPLUTV100"; "3D"; "";
      "BEGIN METADATA"; "wide"; "END METADATA"; "";
      "2"; "-0.1 1.5"; "0.0 1.0";
      "2"; "0.0 1.0"; "0.0 1.0";
      "2"; "0.0 1.0"; "0.0 1.0"; "";
      "2 2 2";
      "0.0 0.0 0.0"; "1.0 0.0 0.0"; "0.0 1.0 0.0"; "1.0 1.0 0.0";
      "0.0 0.0 1.0"; "1.0 0.0 1.0"; "0.0 1.0 1.0"; "1.0 1.0 1.0" ]%string).

(** A file of kind 3D with a trivial shaper and a [4 4 4] table of 64 rows;
    row [k] is [k 0 0]. *)
Definition cube_444_file : str :=
  PyFacts.unlines
    (map txt
       [ "CSPLUTV100"; "3D"; "";
         "BEGIN METADATA"; "cube"; "END METADATA"; "";
         "2"; "0.0 1.0"; "0.0 1.0";
         "2"; "0.0 1.0"; "0.0 1.0";
         "2"; "0.0 1.0"; "0.0 1.0"; "";
         "4 4 4" ]%string
     ++ map (fun k => str_of_nat k ++ txt " 0 0") (seq 0 64)).

(** A file of kind 1D with a three-sample shaper and a two-row table. *)
Definition rescale_file : str :=
  PyFacts.unlines (map txt
    [ "CSPLUTV100"; "1D"; "";
      "BEGIN METADATA"; "rescale"; "a comment"; "END METADATA"; "";
      "3"; "0.0 0.5 1.0"; "0.0 0.25 1.0";
      "3"; "0.0 0.5 1.0"; "0.0 0.5 1.0";
      "3"; "0.0 0.5 1.0"; "0.0 0.75 1.0"; "";
      "2"; "0.5 0.5 0.5"; "2.0 3.0 4.0" ]%string).

Module ReaderShape.

Import Py Np PyFacts NpFacts ReaderChecks.

Lemma rbind_Ok_inv {A B} (r : result A) (k : A -> result B) b :
  rbind r k = Ok b -> exists a, r = Ok a /\ k a = Ok b.
Proof. destruct r as [a|e]; simpl; [eauto | discriminate]. Qed.

Lemma rbind_Ok {A B} (a : A) (k : A -> result B) : rbind (Ok a) k = k a.
Proof. reflexivity. Qed.

Lemma rassert_Ok_inv b e u : rassert b e = Ok u -> b = true.
Proof. destruct b; simpl; [reflexivity | discriminate]. Qed.

Lemma of_option_Ok_inv {A} (o : option A) e a :
  of_option o e = Ok a -> o = Some a.
Proof. destruct o; simpl; congruence. Qed.

(** Take the first step of a chain of binds that succeeded. *)
Ltac ok_step H x E :=
  apply rbind_Ok_inv in H; destruct H as (x & E & H); cbv beta in H.

(** ** What the sections of a parsed file look like *)

Lemma rmap_Forall2 {A B} (f : A -> result B) l : forall l',
  rmap f l = Ok l' -> Forall2 (fun x y => f x = Ok y) l l'.
Proof.
  induction l as [|x l IH]; intros l' H; simpl in H.
  - injection H as <-. constructor.
  - destruct (f x) as [y|] eqn:E; [|discriminate].
    destruct (rmap f l) as [ys|]; [|discriminate].
    injection H as <-. constructor; auto.
Qed.

Lemma rmap_length {A B} (f : A -> result B) l l' :
  rmap f l = Ok l' -> List.length l' = List.length l.
Proof.
  intros H. symmetry. eapply Forall2_length, rmap_Forall2, H.
Qed.

Lemma rmap_ok {A B} (f : A -> result B) (g : A -> B) l :
  (forall x, In x l -> f x = Ok (g x)) -> rmap f l = Ok (map g l).
Proof.
  induction l as [|x l IH]; intros H; [reflexivity|].
  simpl. rewrite (H x (or_introl eq_refl)), IH; [reflexivity|].
  intros y Hy. apply H. right; exact Hy.
Qed.

Lemma pad_row_length w r x :
  pad_row w r = Ok x -> List.length x = Z.to_nat w.
Proof.
  unfold pad_row. intros H.
  destruct (Z.of_nat (List.length (data r)) =? w)%Z eqn:E1.
  - injection H as <-. apply Z.eqb_eq in E1. lia.
  - destruct (Z.of_nat (List.length (data r)) <? w)%Z eqn:E2; [|discriminate].
    injection H as <-. apply Z.ltb_lt in E2.
    rewrite length_app, repeat_length. lia.
Qed.

Lemma concat_length_uniform {A} (ls : list (list A)) n :
  Forall (fun l => List.length l = n) ls ->
  List.length (concat ls) = List.length ls * n.
Proof.
  induction 1 as [|l ls Hl H IH]; [reflexivity|].
  simpl. rewrite length_app, IH, Hl. reflexivity.
Qed.

(** The pre-LUT is a matrix of six rows. *)
Definition six_rows (p : ndarray) : Prop :=
  exists n, shape p = [6; n] /\ List.length (data p) = 6 * n.

Lemma parse_domain_six_rows lines p :
  _parse_domain_section lines = Ok p -> six_rows p.
Proof.
  unfold _parse_domain_section. intros H.
  ok_step H sizes E1. ok_step H width E2. ok_step H rws E3.
  ok_step H padded E4. injection H as <-.
  exists (Z.to_nat width). simpl.
  pose proof (rmap_length _ _ _ E3) as L3.
  pose proof (rmap_length _ _ _ E4) as L4. simpl in L3.
  rewrite L4, L3. split; [reflexivity|].
  rewrite (concat_length_uniform padded (Z.to_nat width)); [lia|].
  apply rmap_Forall2 in E4.
  clear - E4. induction E4; constructor; eauto using pad_row_length.
Qed.

Lemma as_float_array2_wf rws t : as_float_array2 rws = Ok t -> wf t.
Proof.
  unfold as_float_array2, wf. intros H.
  destruct rws as [|r0 rws]; [injection H as <-; reflexivity|].
  destruct (forallb _ _) eqn:E; [|discriminate].
  ok_step H xs E0. injection H as <-. simpl shape. simpl data.
  rewrite (rmap_length _ _ _ E0).
  rewrite (concat_length_uniform (r0 :: rws) (List.length r0)).
  - simpl. lia.
  - apply Forall_forall. intros r Hr.
    rewrite forallb_forall in E. apply Nat.eqb_eq, E, Hr.
Qed.

Lemma read_sections_wf content s :
  read_sections content = Ok s ->
  six_rows (pre_LUT s) /\ wf (flat_table s).
Proof.
  unfold read_sections. intros H.
  ok_step H u0 E0. ok_step H header E1. ok_step H u1 E2.
  ok_step H kind E3. ok_step H u2 E4.
  destruct (scan_metadata _ _ _ _) as [i metadata].
  destruct (_parse_metadata_section metadata) as [t c].
  ok_step H p E5. ok_step H st E6. destruct st as [sz tb].
  injection H as <-. simpl.
  split; [eapply parse_domain_six_rows; eassumption|].
  unfold _parse_table_section in E6.
  ok_step E6 l0 E7. ok_step E6 sz' E8. ok_step E6 tb' E9.
  injection E6 as _ <-. eapply as_float_array2_wf; eassumption.
Qed.

(** The table block: no row at all and an array of one axis, or rows and
    an array of two. *)
Lemma as_float_array2_axes rws t :
  as_float_array2 rws = Ok t ->
  (rws = [] /\ shape t = [0])
  \/ (exists n w, List.length rws = S n /\ shape t = [S n; w]).
Proof.
  unfold as_float_array2. intros H.
  destruct rws as [|r0 rws]; [injection H as <-; left; split; reflexivity|].
  destruct (forallb _ _); [|discriminate].
  ok_step H xs E0. injection H as <-. right.
  exists (List.length rws), (List.length r0). split; reflexivity.
Qed.

Lemma flat_table_axes content s :
  read_sections content = Ok s ->
  shape (flat_table s) = [0]
  \/ (exists n w, shape (flat_table s) = [S n; w]).
Proof.
  unfold read_sections. intros H.
  ok_step H u0 E0. ok_step H header E1. ok_step H u1 E2.
  ok_step H kind E3. ok_step H u2 E4.
  destruct (scan_metadata _ _ _ _) as [i metadata].
  destruct (_parse_metadata_section metadata) as [t c].
  ok_step H p E5. ok_step H st E6. destruct st as [sz tb].
  injection H as <-. simpl.
  unfold _parse_table_section in E6.
  ok_step E6 l0 E7. ok_step E6 sz' E8. ok_step E6 tb' E9.
  injection E6 as _ <-.
  destruct (as_float_array2_axes _ _ E9) as [[_ H0] | (n & w & _ & H1)];
    [left; exact H0 | right; exists n, w; exact H1].
Qed.

(** A table that has rows is one the class [LUT3x1D] takes. *)
Lemma rows_two_axes content s :
  read_sections content = Ok s -> len (flat_table s) <> 0 ->
  List.length (shape (flat_table s)) = 2.
Proof.
  intros Hs Hlen. unfold len in Hlen.
  destruct (flat_table_axes content s Hs) as [H | (n & w & H)];
    rewrite H in *; [simpl in Hlen; congruence | reflexivity].
Qed.

Lemma no_row_one_axis content s :
  read_sections content = Ok s -> len (flat_table s) = 0 ->
  List.length (shape (flat_table s)) = 1.
Proof.
  intros Hs Hlen. unfold len in Hlen.
  destruct (flat_table_axes content s Hs) as [H | (n & w & H)];
    rewrite H in *; [reflexivity | simpl in Hlen; discriminate].
Qed.

Lemma new_LUT_axes cls t nm dom cms :
  List.length (shape t) = table_axes cls ->
  new_LUT cls t nm dom cms = Ok (mk_LUT cls t nm dom cms).
Proof.
  intros H. unfold new_LUT. apply Nat.eqb_eq in H. rewrite H. reflexivity.
Qed.

Lemma new_LUT_refused cls t nm dom cms :
  List.length (shape t) <> table_axes cls ->
  new_LUT cls t nm dom cms = Err AssertionError.
Proof.
  intros H. unfold new_LUT. apply Nat.eqb_neq in H. rewrite H. reflexivity.
Qed.

Lemma new_LUT_inv cls t nm dom cms l :
  new_LUT cls t nm dom cms = Ok l -> l = mk_LUT cls t nm dom cms.
Proof.
  unfold new_LUT. intros H. ok_step H u E. injection H as <-. reflexivity.
Qed.

(** What [unflatten] returns has four axes. *)
Lemma unflatten_axes sz a t :
  unflatten sz a = Ok t -> List.length (shape t) = 4.
Proof.
  unfold unflatten. intros H.
  ok_step H s0 E0. ok_step H s1 E1. ok_step H s2 E2. ok_step H new E3.
  unfold reshape_F in H.
  destruct (size_of new =? List.length (data a)); [|discriminate].
  injection H as <-. cbn [shape].
  unfold infer_shape in E3.
  destruct (1 <? _); [discriminate|].
  destruct (known_size _ _); [|discriminate].
  destruct (existsb _ _).
  - destruct (_ || _)%bool; [discriminate|]. injection E3 as <-.
    reflexivity.
  - destruct (_ =? _)%Z; [|discriminate]. injection E3 as <-. reflexivity.
Qed.

(** ** The rows of a six-row matrix *)

Lemma firstn_skipn_length {A} (l : list A) a n :
  a + n <= List.length l -> List.length (firstn n (skipn a l)) = n.
Proof. intros H. rewrite length_firstn, length_skipn. lia. Qed.

Lemma nth_firstn_skipn {A} (l : list A) a n j d :
  j < n -> nth j (firstn n (skipn a l)) d = nth (a + j) l d.
Proof.
  intros H. rewrite nth_firstn.
  apply Nat.ltb_lt in H. rewrite H.
  rewrite nth_skipn. reflexivity.
Qed.

Lemma row_six p n k :
  shape p = [6; n] -> k < 6 ->
  row p k = Ok {| shape := [n];
                  data := firstn n (skipn (k * n) (data p)) |}.
Proof.
  intros Hs Hk. unfold row. rewrite Hs.
  apply Nat.ltb_lt in Hk. rewrite Hk. simpl size_of.
  rewrite Nat.mul_1_r. reflexivity.
Qed.

Lemma stack_rows_six p n i j k :
  shape p = [6; n] -> i < 6 -> j < 6 -> k < 6 ->
  stack_rows p i j k
  = Ok {| shape := [n; 3];
          data := interleave3 (firstn n (skipn (i * n) (data p)))
                    (firstn n (skipn (j * n) (data p)))
                    (firstn n (skipn (k * n) (data p))) |}.
Proof.
  intros Hs Hi Hj Hk. unfold stack_rows.
  rewrite (row_six p n i Hs Hi), (row_six p n j Hs Hj), (row_six p n k Hs Hk).
  simpl rbind. unfold tstack. simpl shape.
  unfold shape_eqb. destruct (list_eq_dec Nat.eq_dec [n] [n]); [|congruence].
  reflexivity.
Qed.

Lemma interleave3_length a b c n :
  List.length a = n -> List.length b = n -> List.length c = n ->
  List.length (interleave3 a b c) = n * 3.
Proof.
  revert a b c. induction n as [|n IH]; intros [|x a] [|y b] [|z c];
    simpl; intros; try discriminate; try reflexivity.
  rewrite IH by congruence. lia.
Qed.

Lemma interleave3_nth a b c : forall j i d,
  j < List.length a -> List.length b = List.length a ->
  List.length c = List.length a -> i < 3 ->
  nth (j * 3 + i) (interleave3 a b c) d
  = nth j (match i with 0 => a | 1 => b | _ => c end) d.
Proof.
  revert b c. induction a as [|x a IH]; intros [|y b] [|z c] j i d Hj Hb Hc Hi;
    simpl in *; try lia; try discriminate.
  destruct j as [|j].
  - destruct i as [|[|[|i]]]; try reflexivity; lia.
  - simpl. rewrite (IH b c j i d) by lia.
    destruct i as [|[|[|i]]]; reflexivity.
Qed.

(** ** C2 *)

Tactic Notation "list_of_length" ident(d) hyp(H) integer(n) :=
  simpl in H;
  do n (destruct d as [|? d]; [discriminate H|]);
  destruct d; [|discriminate H].

Lemma two_sample_shaper p :
  shape p = [6; 2] -> List.length (data p) = 12 ->
  shaper_bounds p = Ok (bounds_of p)
  /\ (trivial_shaper p = true <-> table_rows_unity p).
Proof.
  destruct p as [sh d]. simpl. intros -> Hlen.
  list_of_length d Hlen 12.
  split; [reflexivity|].
  unfold table_rows_unity, sample. simpl shape. simpl data. simpl nth at 2 4.
  assert (trivial_shaper {| shape := [6; 2];
                            data := [f; f0; f1; f2; f3; f4; f5; f6; f7; f8;
                                     f9; f10] |}
          = PrimFloat.eqb f1 0
            && (PrimFloat.eqb f5 0
                && (PrimFloat.eqb f9 0
                    && (PrimFloat.eqb f2 1
                        && (PrimFloat.eqb f6 1
                            && (PrimFloat.eqb f10 1 && true))))))
    as ->.
  { vm_compute. reflexivity. }
  rewrite !andb_true_iff. split.
  - intros (H1 & H5 & H9 & H2 & H6 & H10 & _) c Hc.
    destruct c as [|[|[|c]]]; simpl; auto; lia.
  - intros H.
    destruct (H 0 ltac:(lia)) as [A0 B0].
    destruct (H 1 ltac:(lia)) as [A1 B1].
    destruct (H 2 ltac:(lia)) as [A2 B2].
    simpl in *. auto 10.
Qed.

Lemma trivial_shaper_two p n :
  shape p = [6; n] -> trivial_shaper p = true -> n = 2.
Proof.
  unfold trivial_shaper. intros -> H.
  apply andb_prop in H as [H _]. unfold shape_eqb in H.
  destruct (list_eq_dec Nat.eq_dec [6; n] [6; 2]) as [E|]; [|discriminate].
  congruence.
Qed.

(** C2, counterexample.  The file is of kind 3D, the domain samples of its
    red channel are [-0.1, 1.5], not [0, 1], and the reader collapses it to
    a single [LUT3D]: the condition of the claim is false and the collapse
    takes place. *)
Lemma C2_counterexample :
  (exists s, read_sections wide_domain_file = Ok s
             /\ claimed_unity_pairs (pre_LUT s) = false
             /\ read_LUT_Cinespace sample_lib
                  (fun _ => Some wide_domain_file) (txt "wide.csp")
                = collapsed s)
  /\ exists l, read_LUT_Cinespace sample_lib
                 (fun _ => Some wide_domain_file) (txt "wide.csp")
               = Ok (Single l)
               /\ class_of l = LUT3D.
Proof.
  split.
  - eexists. split; [vm_compute; reflexivity|].
    split; vm_compute; reflexivity.
  - eexists. split; vm_compute; reflexivity.
Qed.

(** C2, as amended.  For a file whose sections parse and whose table size
    is right, the reader collapses to a single [LUT3D] (kind 3D) or a
    single [LUT3x1D] (otherwise) exactly when the pre-LUT has 2 samples per
    channel and the table samples of every channel are [0, 1]; the domain
    samples are free, and they become the domain of the LUT returned.  The
    collapse gives a LUT when the table can be unflattened (kind 3D) or has
    a row (kind 1D); a file of kind 1D without a table row is refused by
    the class [LUT3x1D] with [AssertionError].  In every other case the
    result is that of steps 2 to 4. *)
Theorem C2_collapse_condition
  (lib : LUTlib) (fs : filesystem) (path content : str) (s : sections) :
  fs path = Some content ->
  read_sections content = Ok s ->
  product (table_size s) = Z.of_nat (len (flat_table s)) ->
  (trivial_shaper (pre_LUT s) = true
   <-> nth 1 (shape (pre_LUT s)) 0 = 2 /\ table_rows_unity (pre_LUT s))
  /\ (trivial_shaper (pre_LUT s) = true ->
      read_LUT_Cinespace lib fs path = collapsed s)
  /\ (trivial_shaper (pre_LUT s) = true -> is_3D s = true ->
      read_LUT_Cinespace lib fs path
      = (tbl <- unflatten (table_size s) (flat_table s) ;;
         Ok (Single (mk_LUT LUT3D tbl (title s) (bounds_of (pre_LUT s))
                       (meta_comments s))))%result)
  /\ (trivial_shaper (pre_LUT s) = true -> is_3D s = false ->
      read_LUT_Cinespace lib fs path
      = if (len (flat_table s) =? 0)%nat then Err AssertionError
        else Ok (Single (mk_LUT LUT3x1D (flat_table s) (title s)
                           (bounds_of (pre_LUT s)) (meta_comments s))))
  /\ (trivial_shaper (pre_LUT s) = false ->
      read_LUT_Cinespace lib fs path = assemble_shaped lib s).
Proof.
  intros Hfile Hs Hp.
  rewrite (read_checked lib fs path content Hfile s Hs Hp).
  destruct (read_sections_wf content s Hs) as [(n & Hsh & Hlen) _].
  assert (n = 2 -> shaper_bounds (pre_LUT s) = Ok (bounds_of (pre_LUT s))
                   /\ (trivial_shaper (pre_LUT s) = true
                       <-> table_rows_unity (pre_LUT s))) as Htwo.
  { intros ->. apply two_sample_shaper; [exact Hsh | rewrite Hlen; reflexivity]. }
  assert (trivial_shaper (pre_LUT s) = true ->
          assemble lib s = collapsed s) as Hcol.
  { intros Ht. pose proof (trivial_shaper_two _ _ Hsh Ht) as Hn.
    destruct (Htwo Hn) as [Hb _].
    unfold assemble, collapsed. rewrite Ht, Hb.
    destruct (is_3D s); simpl andb; cbv iota.
    - destruct (unflatten _ _); reflexivity.
    - reflexivity. }
  split; [|split; [|split; [|split]]].
  - rewrite Hsh. simpl nth. split.
    + intros Ht. pose proof (trivial_shaper_two _ _ Hsh Ht) as Hn.
      split; [exact Hn|]. apply (Htwo Hn), Ht.
    + intros [Hn Hu]. apply (Htwo Hn), Hu.
  - exact Hcol.
  - intros Ht H3. rewrite (Hcol Ht). unfold collapsed. rewrite H3.
    destruct (unflatten (table_size s) (flat_table s)) as [tbl|e] eqn:Eu;
      [|reflexivity].
    rewrite !rbind_Ok. cbv beta.
    rewrite new_LUT_axes by (apply (unflatten_axes _ _ _ Eu)).
    reflexivity.
  - intros Ht H1. rewrite (Hcol Ht). unfold collapsed. rewrite H1.
    rewrite rbind_Ok. cbv beta.
    destruct (len (flat_table s) =? 0)%nat eqn:El.
    + apply Nat.eqb_eq in El.
      rewrite new_LUT_refused; [reflexivity|].
      rewrite (no_row_one_axis content s Hs El). discriminate.
    + apply Nat.eqb_neq in El.
      rewrite new_LUT_axes by (apply (rows_two_axes content s Hs El)).
      reflexivity.
  - intros Ht. unfold assemble. rewrite Ht, !andb_false_r. reflexivity.
Qed.

Lemma C2_witness :
  read_LUT_Cinespace sample_lib (fun _ => Some wide_domain_file)
    (txt "wide.csp")
  = match read_sections wide_domain_file with
    | Ok s => collapsed s
    | Err e => Err e
    end.
Proof.
  destruct (read_sections wide_domain_file) as [s|e] eqn:E;
    [|vm_compute in E; discriminate E].
  apply (proj1 (proj2 (C2_collapse_condition sample_lib
                         (fun _ => Some wide_domain_file) (txt "wide.csp")
                         wide_domain_file s eq_refl E
                         ltac:(vm_compute in E; injection E as <-;
                               reflexivity)))).
  vm_compute in E. injection E as <-. reflexivity.
Defined.

(** ** C4 *)

Lemma combine_seq_nth_error {A} (d : list A) : forall a q,
  nth_error (combine (seq a (List.length d)) d) q
  = option_map (fun x => (a + q, x)) (nth_error d q).
Proof.
  induction d as [|x d IH]; intros a q; simpl.
  - destruct q; reflexivity.
  - destruct q as [|q]; simpl.
    + rewrite Nat.add_0_r. reflexivity.
    + rewrite IH. rewrite Nat.add_succ_r. reflexivity.
Qed.

Lemma broadcast_rows op a v n :
  shape a = [n; 3] -> shape v = [3] ->
  exists b, broadcast op a v = Ok b
            /\ shape b = [n; 3]
            /\ List.length (data b) = List.length (data a)
            /\ forall j i x, i < 3 ->
                 nth_error (data a) (j * 3 + i) = Some x ->
                 nth_error (data b) (j * 3 + i)
                 = Some (op x (nth i (data v) nan)).
Proof.
  intros Ha Hv. unfold broadcast. rewrite Ha, Hv. simpl rev.
  simpl Nat.eqb. cbv iota.
  eexists. split; [reflexivity|]. simpl shape. simpl data.
  split; [reflexivity|]. split.
  - rewrite length_map, length_combine, length_seq. lia.
  - intros j i x Hi Hx.
    rewrite nth_error_map, combine_seq_nth_error, Hx.
    unfold option_map. cbv beta iota. rewrite Nat.add_0_l.
    do 2 f_equal.
    change (nth ((j * 3 + i) mod 3) (data v) nan = nth i (data v) nan).
    rewrite (Nat.add_comm (j * 3) i), Nat.Div0.mod_add, Nat.mod_small
      by exact Hi.
    reflexivity.
Qed.

Lemma get2_inv a j i v :
  get2 a j i = Ok v ->
  exists r c, shape a = [r; c] /\ j < r /\ i < c
              /\ nth_error (data a) (j * c + i) = Some v.
Proof.
  unfold get2. intros H.
  destruct (shape a) as [|r [|c [|? ?]]]; try discriminate.
  destruct ((j <? r) && (i <? c)) eqn:E; [|discriminate].
  apply andb_prop in E as [E1 E2]. apply Nat.ltb_lt in E1, E2.
  apply of_option_Ok_inv in H. eauto 8.
Qed.

Lemma get2_rows a n j i v :
  shape a = [n; 3] -> j < n -> i < 3 ->
  nth_error (data a) (j * 3 + i) = Some v -> get2 a j i = Ok v.
Proof.
  intros Hs Hj Hi H. unfold get2. rewrite Hs.
  apply Nat.ltb_lt in Hj, Hi. rewrite Hj, Hi. simpl andb. cbv iota.
  rewrite H. reflexivity.
Qed.

(** C4.  For a file of kind 1D whose shaper is not trivial and whose table
    block is two rows of three numbers, the reader returns a single
    [LUT3x1D] with the title, the pre-LUT domain and the comments of the
    file; each sample [v] of its table, in channel [i], is the pre-LUT table
    sample rescaled as [v * (hi - lo) + lo], where [lo] and [hi] are the
    numbers of channel [i] in the first and in the second row of the table
    block. *)
Theorem C4_rescale_folded
  (lib : LUTlib) (fs : filesystem) (path content : str) (s : sections) :
  fs path = Some content ->
  read_sections content = Ok s ->
  product (table_size s) = Z.of_nat (len (flat_table s)) ->
  is_3D s = false ->
  trivial_shaper (pre_LUT s) = false ->
  shape (flat_table s) = [2; 3] ->
  exists pre_domain pre_table tbl,
    stack_rows (pre_LUT s) 0 2 4 = Ok pre_domain
    /\ stack_rows (pre_LUT s) 1 3 5 = Ok pre_table
    /\ read_LUT_Cinespace lib fs path
       = Ok (Single (mk_LUT LUT3x1D tbl (title s) pre_domain
                       (meta_comments s)))
    /\ shape tbl = shape pre_table
    /\ forall j i v lo hi,
         get2 pre_table j i = Ok v ->
         get2 (flat_table s) 0 i = Ok lo ->
         get2 (flat_table s) 1 i = Ok hi ->
         get2 tbl j i = Ok (v * (hi - lo) + lo)%float.
Proof.
  intros Hfile Hs Hp H1D Ht Hshape.
  rewrite (read_checked lib fs path content Hfile s Hs Hp).
  destruct (read_sections_wf content s Hs) as [(n & Hsh & Hlen) Hwf].
  unfold assemble. rewrite H1D, Ht. simpl andb. cbv iota.
  unfold assemble_shaped. rewrite H1D.
  rewrite (stack_rows_six _ n 0 2 4 Hsh) by lia.
  rewrite (stack_rows_six _ n 1 3 5 Hsh) by lia.
  rewrite ?rbind_Ok; cbv beta. rewrite Hshape.
  change (shape_eqb [2; 3] [2; 3]) with true. cbv iota.
  unfold wf in Hwf. rewrite Hshape in Hwf.
  destruct (flat_table s) as [fsh fd] eqn:Eflat. simpl in Hshape, Hwf.
  subst fsh. list_of_length fd Hwf 6.
  rename f into a0, f0 into a1, f1 into a2, f2 into b0, f3 into b1,
         f4 into b2.
  set (pre_table := {| shape := [n; 3];
                       data := interleave3
                                 (firstn n (skipn (1 * n) (data (pre_LUT s))))
                                 (firstn n (skipn (3 * n) (data (pre_LUT s))))
                                 (firstn n (skipn (5 * n) (data (pre_LUT s)))) |}).
  set (tmin := {| shape := [3]; data := [a0; a1; a2] |}).
  set (scale := {| shape := [3];
                   data := [b0 - a0; b1 - a1; b2 - a2]%float |}).
  assert (row {| shape := [2; 3]; data := [a0; a1; a2; b0; b1; b2] |} 1
          = Ok {| shape := [3]; data := [b0; b1; b2] |}) as -> by reflexivity.
  assert (row {| shape := [2; 3]; data := [a0; a1; a2; b0; b1; b2] |} 0
          = Ok tmin) as -> by reflexivity.
  rewrite ?rbind_Ok; cbv beta.
  assert (broadcast PrimFloat.sub {| shape := [3]; data := [b0; b1; b2] |} tmin
          = Ok scale) as -> by reflexivity.
  rewrite ?rbind_Ok; cbv beta.
  destruct (broadcast_rows PrimFloat.mul pre_table scale n eq_refl eq_refl)
    as (m & Hm & Hms & Hml & Hmv).
  rewrite Hm. rewrite ?rbind_Ok; cbv beta.
  destruct (broadcast_rows PrimFloat.add m tmin n Hms eq_refl)
    as (t & Htb & Hts & Htl & Htv).
  rewrite Htb. rewrite ?rbind_Ok; cbv beta.
  rewrite new_LUT_axes by (rewrite Hts; reflexivity).
  rewrite ?rbind_Ok; cbv beta.
  exists
    {| shape := [n; 3];
       data := interleave3
                 (firstn n (skipn (0 * n) (data (pre_LUT s))))
                 (firstn n (skipn (2 * n) (data (pre_LUT s))))
                 (firstn n (skipn (4 * n) (data (pre_LUT s)))) |},
    pre_table, t.
  split; [reflexivity|]. split; [reflexivity|]. split; [reflexivity|].
  split; [exact Hts|].
  intros j i v lo hi Hv Hlo Hhi.
  apply get2_inv in Hv as (r & c & Hrc & Hj & Hi & Hv).
  simpl in Hrc. injection Hrc as <- <-.
  apply (get2_rows t n j i _ Hts Hj Hi).
  rewrite (Htv j i _ Hi (Hmv j i v Hi Hv)).
  assert (nth i (data scale) nan = (hi - lo)%float /\ nth i (data tmin) nan = lo)
    as [-> ->]; [|reflexivity].
  destruct i as [|[|[|i]]]; [| | |lia];
    vm_compute in Hlo, Hhi; injection Hlo as <-; injection Hhi as <-;
    split; reflexivity.
Qed.

Lemma C4_witness :
  exists pre_domain pre_table tbl,
    read_LUT_Cinespace sample_lib (fun _ => Some rescale_file)
      (txt "rescale.csp")
    = Ok (Single (mk_LUT LUT3x1D tbl (txt "rescale") pre_domain
                    [txt "a comment"]))
    /\ shape tbl = shape pre_table
    /\ get2 pre_table 1 0 = Ok 0.25%float
    /\ get2 tbl 1 0 = Ok (0.25 * (2 - 0.5) + 0.5)%float.
Proof.
  destruct (read_sections rescale_file) as [s|e] eqn:E;
    [|vm_compute in E; discriminate E].
  destruct (C4_rescale_folded sample_lib (fun _ => Some rescale_file)
              (txt "rescale.csp") rescale_file s eq_refl E
              ltac:(vm_compute in E; injection E as <-; reflexivity)
              ltac:(vm_compute in E; injection E as <-; reflexivity)
              ltac:(vm_compute in E; injection E as <-; reflexivity)
              ltac:(vm_compute in E; injection E as <-; reflexivity))
    as (pre_domain & pre_table & tbl & Hd & Ht & Hr & Hsh & Hv).
  exists pre_domain, pre_table, tbl.
  vm_compute in E. injection E as <-.
  vm_compute in Ht. injection Ht as <-.
  split; [exact Hr|]. split; [exact Hsh|]. split; [reflexivity|].
  apply (Hv 1 0 0.25%float 0.5%float 2%float); reflexivity.
Defined.

End ReaderShape.

(** * What the writer writes *)

(** Channel [i] of an array of rows of three numbers. *)
Definition column (a : ndarray) (i : nat) : list float :=
  map (fun j => nth (j * 3 + i) (data a) nan) (seq 0 (len a)).

(** The samples of channel [i] that are not NaN. *)
Definition ragged (a : ndarray) (i : nat) : nat :=
  len a - List.length (filter PrimFloat.is_nan (column a i)).

(** The three numbers of a row, as [_format_array] writes them. *)
Definition row_text (d : nat) (x y z : float) : str :=
  format_f d x ++ txt " " ++ format_f d y ++ txt " " ++ format_f d z.

(** The lines up to and including the metadata block. *)
Definition head_text (kind name : str) (comments : list str) : str :=
  txt "CSPLUTV100" ++ nl ++ kind ++ nl ++ nl
  ++ txt "BEGIN METADATA" ++ nl ++ name ++ nl
  ++ concat (map (fun c => c ++ nl) comments)
  ++ txt "END METADATA" ++ nl ++ nl.

(** The shaper block of a shaper with an explicit domain: every table
    sample is written as [(v - lo) / (hi - lo)]. *)
Definition shaper_text (d : nat) (l0 : LUT) (lo hi : float) : str :=
  concat (map (fun i =>
    str_of_nat (ragged (domain l0) i) ++ nl
    ++ concat (map (fun j =>
                      format_f d (nth (j * 3 + i) (data (domain l0)) nan)
                      ++ txt " ")
                   (seq 0 (ragged (domain l0) i)))
    ++ nl
    ++ concat (map (fun j =>
                      format_f d
                        ((nth (j * 3 + i) (data (table l0)) nan - lo)
                         / (hi - lo))%float
                      ++ txt " ")
                   (seq 0 (ragged (domain l0) i)))
    ++ nl) (seq 0 3)).

(** The file written for a shaper with an explicit domain: the table block
    is the pair of rows [lo lo lo] and [hi hi hi]. *)
Definition non_uniform_text (d : nat) (kind name : str)
  (comments : list str) (l0 : LUT) (lo hi : float) : str :=
  head_text kind name comments
  ++ shaper_text d l0 lo hi
  ++ nl ++ txt "2" ++ nl
  ++ row_text d lo lo lo ++ nl
  ++ row_text d hi hi hi ++ nl.

(** A shaper with an explicit, ragged domain; its channels have different
    ranges. *)
Definition ragged_shaper : LUT :=
  mk_LUT LUT3x1D
    {| shape := [3; 3];
       data := [0; 0.25; 0.5;  0.5; 0.75; 1;  1; 1.25; 1.5]%float |}
    (txt "ragged")
    {| shape := [3; 3];
       data := [0; 0; 0;  0.5; 0.5; 0.5;  1; 1; nan]%float |}
    [].

(** The flag [non_uniform] of the writer, read off its input: a lone
    [LUT1D] or [LUT3x1D] with an explicit domain, or a sequence whose first
    stage is a [LUT1D] with an explicit domain. *)
Definition non_uniform_input (h : heap) (ref : loc) : bool :=
  match deref h ref with
  | Some (ObjLUT l) =>
      match class_of l with
      | LUT3D => false
      | _ => is_domain_explicit l
      end
  | Some (ObjLUTSequence [p0; _]) =>
      match lut_at h p0 with
      | Some l0 => isinstance l0 LUT1D && is_domain_explicit l0
      | None => false
      end
  | _ => false
  end.

Module WriterOutput.

Import Py Np PyFacts NumFacts NpFacts Dispatch WriterClaims ReaderShape.

(** ** The buffer *)

Definition emits (m : W unit) (out : str) : Prop :=
  forall buf, m buf = (buf ++ out, Ok tt).

Lemma emits_write s : emits (write s) s.
Proof. intros buf. reflexivity. Qed.

Lemma emits_ret : emits (wret tt) [].
Proof. intros buf. unfold wret. rewrite app_nil_r. reflexivity. Qed.

Lemma emits_bind m (k : unit -> W unit) a b :
  emits m a -> emits (k tt) b -> emits (wbind m k) (a ++ b).
Proof.
  intros Hm Hk buf. unfold wbind. rewrite Hm, Hk, app_assoc. reflexivity.
Qed.

Lemma emits_lift {A} (r : result A) (k : A -> W unit) a out :
  r = Ok a -> emits (k a) out -> emits (wbind (wlift r) k) out.
Proof. intros -> Hk buf. unfold wbind, wlift. apply Hk. Qed.

Lemma emits_for_each {A} (l : list A) (body : A -> W unit) f :
  (forall x, In x l -> emits (body x) (f x)) ->
  emits (for_each l body) (concat (map f l)).
Proof.
  induction l as [|x l IH]; intros H.
  - apply emits_ret.
  - simpl for_each. simpl map. simpl concat.
    apply emits_bind.
    + apply H. left; reflexivity.
    + apply IH. intros y Hy. apply H. right; exact Hy.
Qed.

Lemma emits_eq m a b : emits m a -> a = b -> emits m b.
Proof. intros H <-. exact H. Qed.

(** ** Arrays of rows of three numbers *)

Lemma get2_nth a n j i :
  shape a = [n; 3] -> wf a -> j < n -> i < 3 ->
  get2 a j i = Ok (nth (j * 3 + i) (data a) nan).
Proof.
  intros Hs Hw Hj Hi. apply (get2_rows a n j i _ Hs Hj Hi).
  apply nth_error_nth'. unfold wf in Hw. rewrite Hs in Hw. simpl in Hw. lia.
Qed.

Lemma filter_length_le {A} (f : A -> bool) l :
  List.length (filter f l) <= List.length l.
Proof.
  induction l as [|x l IH]; simpl; [lia|]. destruct (f x); simpl; lia.
Qed.

Lemma ragged_le a i : ragged a i <= len a.
Proof. unfold ragged. lia. Qed.

Lemma ragged_size_rows a n :
  shape a = [n; 3] ->
  _ragged_size a
  = Ok [Z.of_nat (ragged a 0); Z.of_nat (ragged a 1); Z.of_nat (ragged a 2)].
Proof.
  intros Hs. unfold _ragged_size, tsplit. rewrite Hs.
  change (rev [n; 3]) with [3; n]. cbv beta iota.
  change (seq 0 3) with [0; 1; 2]. change (rev [n]) with [n].
  change (size_of [n]) with (n * 1). rewrite Nat.mul_1_r.
  unfold map at 1. rewrite rbind_Ok. cbv beta iota.
  unfold last_dim. unfold shape at 1 2 3. change (rev [n]) with [n].
  cbv beta iota. rewrite !rbind_Ok. cbv beta.
  unfold ragged, column, count_nan, len. rewrite Hs.
  unfold data at 1 3 5. change (hd 0 [n; 3]) with n.
  assert (forall i,
            List.length (filter PrimFloat.is_nan
              (map (fun j => nth (j * 3 + i) (data a) nan) (seq 0 n))) <= n)
    as Hle.
  { intros i. etransitivity; [apply filter_length_le|].
    rewrite length_map, length_seq. lia. }
  pose proof (Hle 0). pose proof (Hle 1). pose proof (Hle 2).
  repeat f_equal; lia.
Qed.

Lemma str_of_Z_nat n : str_of_Z (Z.of_nat n) = str_of_nat n.
Proof.
  unfold str_of_Z, str_of_nat.
  replace (Z.of_nat n <? 0)%Z with false by (symmetry; apply Z.ltb_ge; lia).
  rewrite <- nat_N_Z, N2Z.id. reflexivity.
Qed.

(** ** The shaper block of an explicit domain *)

Section NonUniform.

Variables (d : nat) (l0 : LUT) (n : nat).
Hypothesis Hexplicit : is_domain_explicit l0 = true.
Hypothesis Hdom : shape (domain l0) = [n; 3].
Hypothesis Hdom_wf : wf (domain l0).
Hypothesis Htab : shape (table l0) = [n; 3].
Hypothesis Htab_wf : wf (table l0).

Lemma emits_shaper lo hi :
  emits (write_shaper d true l0 (Some (lo, hi))) (shaper_text d l0 lo hi).
Proof.
  unfold write_shaper, shaper_text.
  apply emits_for_each. intros i Hi. apply in_seq in Hi.
  rewrite Hexplicit.
  assert (ragged (domain l0) i <= n) as Hr
    by (pose proof (ragged_le (domain l0) i) as H; unfold len in H;
        rewrite Hdom in H; exact H).
  eapply emits_lift.
  { rewrite (ragged_size_rows _ n Hdom). rewrite rbind_Ok. cbv beta.
    assert (nth_error [Z.of_nat (ragged (domain l0) 0);
                       Z.of_nat (ragged (domain l0) 1);
                       Z.of_nat (ragged (domain l0) 2)] i
            = Some (Z.of_nat (ragged (domain l0) i))) as ->
      by (destruct i as [|[|[|i]]]; [reflexivity ..| lia]).
    reflexivity. }
  rewrite str_of_Z_nat, Nat2Z.id.
  eapply emits_eq.
  - apply emits_bind; [apply emits_write|].
    apply emits_bind.
    { apply emits_for_each with
        (f := fun j => format_f d (nth (j * 3 + i) (data (domain l0)) nan)
                       ++ txt " ").
      intros j Hj. apply in_seq in Hj.
      eapply emits_lift; [|apply emits_write].
      apply (get2_nth _ n); (assumption || lia). }
    apply emits_bind; [apply emits_write|].
    apply emits_bind; [|apply emits_write].
    apply emits_for_each with
      (f := fun j => format_f d
                       ((nth (j * 3 + i) (data (table l0)) nan - lo)
                        / (hi - lo))%float ++ txt " ").
    intros j Hj. apply in_seq in Hj.
    eapply emits_lift; [apply (get2_nth _ n); (assumption || lia)|].
    eapply emits_lift; [reflexivity|]. apply emits_write.
  - repeat rewrite <- app_assoc. reflexivity.
Qed.

Lemma serialise_non_uniform c l1 :
  has_3x1D c = true -> non_uniform c = true ->
  serialise d c l0 l1 []
  = (non_uniform_text d (if has_3D c then txt "3D" else txt "1D")
       (lut_name c) (comments l0 ++ comments l1) l0
       (nanmin (table l0)) (nanmax (table l0)),
     Ok tt).
Proof.
  intros H3x1D Hnon.
  assert (emits (serialise d c l0 l1)
            (non_uniform_text d (if has_3D c then txt "3D" else txt "1D")
               (lut_name c) (comments l0 ++ comments l1) l0
               (nanmin (table l0)) (nanmax (table l0)))) as H;
    [|exact (H [])].
  unfold serialise. rewrite H3x1D, Hnon, Hexplicit, orb_true_r.
  simpl andb. cbv iota zeta.
  eapply emits_eq.
  - apply emits_bind; [apply emits_write|].
    apply emits_bind.
    { instantiate (1 := (if has_3D c then txt "3D" else txt "1D") ++ nl ++ nl).
      destruct (has_3D c); apply emits_write. }
    apply emits_bind; [apply emits_write|].
    apply emits_bind; [apply emits_write|].
    apply emits_bind;
      [apply emits_for_each with (f := fun cm => cm ++ nl);
       intros; apply emits_write|].
    apply emits_bind;
      [apply emits_for_each with (f := fun cm => cm ++ nl);
       intros; apply emits_write|].
    apply emits_bind; [apply emits_write|].
    apply emits_bind; [apply emits_shaper|].
    apply emits_bind; [apply emits_write|].
    eapply emits_lift; [reflexivity|]. cbv iota beta.
    eapply emits_lift; [reflexivity|].
    apply emits_bind; [apply emits_write|].
    eapply emits_lift; [reflexivity|]. apply emits_write.
  - unfold non_uniform_text, head_text, row_text, str_of_nat.
    rewrite map_app, concat_app.
    change (str_of_N (N.of_nat 2)) with (txt "2").
    repeat rewrite <- app_assoc. reflexivity.
Qed.

End NonUniform.

(** [np.nanmin] and [np.nanmax] pick an entry of the whole table that is not
    NaN, whatever its channel; they are NaN only when every entry is. *)
Lemma nan_fold_entry better a :
  (In (nan_fold better a) (data a)
   /\ PrimFloat.is_nan (nan_fold better a) = false)
  \/ (nan_fold better a = nan
      /\ forall x, In x (data a) -> PrimFloat.is_nan x = true).
Proof.
  unfold nan_fold.
  set (step := fun acc x =>
                 if PrimFloat.is_nan x then acc
                 else match acc with
                      | None => Some x
                      | Some m => Some (if better x m then x else m)
                      end).
  assert (forall l acc,
            match fold_left step l acc with
            | Some m => (In m l \/ acc = Some m) /\ PrimFloat.is_nan m = false
                        \/ acc = Some m
            | None => acc = None
                      /\ forall x, In x l -> PrimFloat.is_nan x = true
            end) as H.
  { induction l as [|x l IH]; intros acc; simpl.
    - destruct acc; [right; reflexivity | split; [reflexivity | tauto]].
    - specialize (IH (step acc x)).
      destruct (fold_left step l (step acc x)) as [m|].
      + unfold step in IH at 1 2. 
        destruct (PrimFloat.is_nan x) eqn:Ex.
        * destruct IH as [[[Hin | Hacc] Hm] | Hacc]; auto.
        * destruct acc as [m0|].
          -- destruct IH as [[[Hin | Hacc] Hm] | Hacc]; auto.
             ++ injection Hacc as <-.
                destruct (better x m0); auto.
             ++ injection Hacc as <-.
                destruct (better x m0); auto.
          -- destruct IH as [[[Hin | Hacc] Hm] | Hacc]; auto.
             ++ injection Hacc as <-. auto.
             ++ injection Hacc as <-. auto.
      + destruct IH as [Hacc Hall]. unfold step in Hacc.
        destruct (PrimFloat.is_nan x) eqn:Ex.
        * split; [exact Hacc|]. intros y [<- | Hy]; auto.
        * destruct acc; discriminate. }
  specialize (H (data a) None).
  destruct (fold_left step (data a) None) as [m|].
  - left. destruct H as [[[Hin | Hacc] Hm] | Hacc]; try discriminate. auto.
  - right. destruct H as [_ Hall]. auto.
Qed.

(** The order of the binary64 numbers: [<] is transitive and irreflexive
    (a comparison with NaN is false). *)
Lemma SFltb_trans a b c :
  SFltb a b = true -> SFltb b c = true -> SFltb a c = true.
Proof.
  unfold SFltb, SFcompare.
  destruct a as [sa|sa| |sa ma ea], b as [sb|sb| |sb mb eb],
    c as [sc|sc| |sc mc ec];
    try discriminate; try reflexivity;
    try (destruct sa, sb, sc; (discriminate || reflexivity)).
  change (Pos.compare_cont Eq) with Pos.compare.
  destruct sa, sb, sc; try discriminate; try reflexivity;
    destruct (Z.compare_spec ea eb), (Z.compare_spec eb ec),
      (Z.compare_spec ea ec);
    try discriminate; try reflexivity; try lia;
    destruct (Pos.compare_spec ma mb), (Pos.compare_spec mb mc),
      (Pos.compare_spec ma mc);
    try discriminate; try reflexivity; lia.
Qed.

Lemma SFltb_irrefl a : SFltb a a = false.
Proof.
  unfold SFltb, SFcompare. destruct a as [s|s| |s m e]; try reflexivity.
  - destruct s; reflexivity.
  - change (Pos.compare_cont Eq) with Pos.compare.
    rewrite Z.compare_refl, Pos.compare_refl. destruct s; reflexivity.
Qed.

Lemma ltb_trans x y z :
  PrimFloat.ltb x y = true -> PrimFloat.ltb y z = true ->
  PrimFloat.ltb x z = true.
Proof. rewrite !ltb_spec. apply SFltb_trans. Qed.

Lemma ltb_irrefl x : PrimFloat.ltb x x = false.
Proof. rewrite ltb_spec. apply SFltb_irrefl. Qed.

(** No entry that is not NaN is better than the one [nan_fold] returns. *)
Lemma nan_fold_best better a :
  (forall x, better x x = false) ->
  (forall x y z, better x y = true -> better y z = true ->
                 better x z = true) ->
  forall y, In y (data a) -> PrimFloat.is_nan y = false ->
    better y (nan_fold better a) = false.
Proof.
  intros Hirr Htrans. unfold nan_fold.
  set (step := fun acc x =>
                 if PrimFloat.is_nan x then acc
                 else match acc with
                      | None => Some x
                      | Some m => Some (if better x m then x else m)
                      end).
  assert (forall l acc,
            (forall m0, acc = Some m0 ->
               exists m, fold_left step l acc = Some m
                         /\ (m = m0 \/ better m m0 = true))
            /\ (forall y, In y l -> PrimFloat.is_nan y = false ->
                  exists m, fold_left step l acc = Some m
                            /\ better y m = false)) as H.
  { induction l as [|x l IH]; intros acc.
    - split; [|intros y []].
      intros m0 ->. exists m0. split; [reflexivity | left; reflexivity].
    - destruct (IH (step acc x)) as [IHa IHb]. cbn [fold_left]. split.
      + intros m0 ->.
        assert (exists m1, step (Some m0) x = Some m1
                           /\ (m1 = m0 \/ better m1 m0 = true))
          as (m1 & E1 & H1).
        { unfold step. destruct (PrimFloat.is_nan x).
          - exists m0. split; [reflexivity | left; reflexivity].
          - destruct (better x m0) eqn:Eb.
            + exists x. split; [reflexivity | right; exact Eb].
            + exists m0. split; [reflexivity | left; reflexivity]. }
        destruct (IHa m1 E1) as (m & Hm & Hle). exists m.
        split; [exact Hm|].
        destruct Hle as [-> | Hle]; [exact H1|].
        destruct H1 as [-> | H1]; [right; exact Hle|].
        right. apply (Htrans m m1 m0 Hle H1).
      + intros y [<- | Hy] Hnan; [|apply (IHb y Hy Hnan)].
        assert (exists m1, step acc x = Some m1 /\ better x m1 = false)
          as (m1 & E1 & H1).
        { unfold step. rewrite Hnan. destruct acc as [m0|].
          - destruct (better x m0) eqn:Eb.
            + exists x. split; [reflexivity | apply Hirr].
            + exists m0. split; [reflexivity | exact Eb].
          - exists x. split; [reflexivity | apply Hirr]. }
        destruct (IHa m1 E1) as (m & Hm & Hle). exists m.
        split; [exact Hm|].
        destruct Hle as [-> | Hle]; [exact H1|].
        destruct (better x m) eqn:Eb; [|reflexivity].
        rewrite (Htrans x m m1 Eb Hle) in H1. discriminate. }
  intros y Hy Hnan.
  destruct (proj2 (H (data a) None) y Hy Hnan) as (m & -> & Hm).
  exact Hm.
Qed.

Lemma nanmin_least a y :
  In y (data a) -> PrimFloat.is_nan y = false ->
  PrimFloat.ltb y (nanmin a) = false.
Proof.
  apply (nan_fold_best PrimFloat.ltb a ltb_irrefl ltb_trans).
Qed.

Lemma nanmax_greatest a y :
  In y (data a) -> PrimFloat.is_nan y = false ->
  PrimFloat.ltb (nanmax a) y = false.
Proof.
  apply (nan_fold_best (fun x m => PrimFloat.ltb m x) a).
  - intros x. apply ltb_irrefl.
  - intros x y0 z H1 H2. apply (ltb_trans z y0 x H2 H1).
Qed.

(** ** The flags of the dispatch and the size checks *)

Lemma dispatch_flags lib h ref :
  accepted h ref ->
  exists h1 c l0 l1,
    normalise lib h ref = (h1, Ok c)
    /\ stage h1 (LUT_ref c) 0 = Ok l0 /\ stage h1 (LUT_ref c) 1 = Ok l1
    /\ shaper_stage lib h ref = (if has_3x1D c then Some l0 else None)
    /\ cube_stage h ref = (if has_3D c then Some l1 else None)
    /\ non_uniform c = non_uniform_input h ref
    /\ (non_uniform c = true -> has_3x1D c = true).
Proof.
  intros [[l Hd] | (stages & Hd & p0 & p1 & l0 & l1 & -> & H0 & H1 & Hc0 & Hc1)].
  - destruct (class_of l) eqn:Hc.
    + destruct (normalise_lone_1D lib h ref l Hd Hc) as (Hn & Hs0 & Hs1).
      do 4 eexists. split; [exact Hn|]. split; [exact Hs0|].
      split; [exact Hs1|].
      unfold shaper_stage, cube_stage, non_uniform_input. rewrite Hd, Hc.
      repeat split; reflexivity.
    + destruct (normalise_lone_3x1D lib h ref l Hd Hc) as (Hn & Hs0 & Hs1).
      do 4 eexists. split; [exact Hn|]. split; [exact Hs0|].
      split; [exact Hs1|].
      unfold shaper_stage, cube_stage, non_uniform_input. rewrite Hd, Hc.
      repeat split; reflexivity.
    + destruct (normalise_lone_3D lib h ref l Hd Hc) as (Hn & Hs0 & Hs1).
      do 4 eexists. split; [exact Hn|]. split; [exact Hs0|].
      split; [exact Hs1|].
      unfold shaper_stage, cube_stage, non_uniform_input. rewrite Hd, Hc.
      repeat split; try reflexivity. discriminate.
  - destruct (normalise_sequence lib h ref p0 p1 l0 l1 Hd H0 H1 Hc0 Hc1)
      as (Hn & Hs0 & Hs1).
    do 4 eexists. split; [exact Hn|]. split; [exact Hs0|].
    split; [exact Hs1|].
    unfold shaper_stage, cube_stage, non_uniform_input. rewrite Hd, H0, H1.
    repeat split; reflexivity.
Qed.

Lemma validate_ok c l0 l1 :
  (has_3x1D c = true -> shaper_size_ok l0) ->
  (has_3D c = true -> cube_size_ok l1) ->
  validate c l0 l1 = Ok tt.
Proof.
  unfold validate, shaper_size_ok, cube_size_ok. intros H0 H1.
  destruct (has_3x1D c).
  - specialize (H0 eq_refl).
    replace ((2 <=? Z.of_nat (size l0)) && (Z.of_nat (size l0) <=? 65536))%Z
      with true
      by (symmetry; apply andb_true_intro; split; apply Z.leb_le; lia).
    simpl. destruct (has_3D c); [|reflexivity].
    specialize (H1 eq_refl).
    replace ((2 <=? Z.of_nat (size l1)) && (Z.of_nat (size l1) <=? 256))%Z
      with true
      by (symmetry; apply andb_true_intro; split; apply Z.leb_le; lia).
    reflexivity.
  - simpl. destruct (has_3D c); [|reflexivity].
    specialize (H1 eq_refl).
    replace ((2 <=? Z.of_nat (size l1)) && (Z.of_nat (size l1) <=? 256))%Z
      with true
      by (symmetry; apply andb_true_intro; split; apply Z.leb_le; lia).
    reflexivity.
Qed.

End WriterOutput.

(** * Writing a LUT and reading it back *)

(** Every number of an array replaced by its image under [f]. *)
Definition map_array (f : float -> float) (a : ndarray) : ndarray :=
  {| shape := shape a; data := map f (data a) |}.

(** The LUT with every number of its domain and of its table written with
    [d] decimals and read back. *)
Definition rounded (d : nat) (l : LUT) : LUT :=
  mk_LUT (class_of l) (map_array (reread d) (table l)) (name l)
    (map_array (reread d) (domain l)) (comments l).

(** A name or a comment that survives the metadata block: one line, not
    empty, without white space at its ends, and not one of the markers. *)
Definition metadata_line (l : str) : Prop :=
  PyFacts.plain_line l
  /\ l <> txt "BEGIN METADATA" /\ l <> txt "END METADATA".

(** The sizes the writer accepts, on the shapes of the data model; a grid
    has no empty axis and fewer than [2^63] numbers, as every array in
    memory has. *)
Definition within_bounds (l : LUT) : Prop :=
  match class_of l with
  | LUT1D => False
  | LUT3x1D =>
      exists n, shape (table l) = [n; 3] /\ (2 <= Z.of_nat n <= 65536)%Z
  | LUT3D =>
      exists n0 n1 n2,
        shape (table l) = [n0; n1; n2; 3]
        /\ (2 <= Z.of_nat n0 <= 256)%Z /\ 0 < n1 /\ 0 < n2
        /\ (Z.of_nat (n0 * n1 * n2 * 3) <= int64_max)%Z
  end.

(** The rows of three numbers of a flat list. *)
Fixpoint chunk3 (xs : list float) : list (float * float * float) :=
  match xs with
  | x :: y :: z :: rest => (x, y, z) :: chunk3 rest
  | _ => []
  end.

Definition row_lines (d : nat) (xs : list float) : list str :=
  map (fun '(x, y, z) => row_text d x y z) (chunk3 xs).

(** The three groups of a shaper block that only carries the bounds of a
    domain. *)
Definition bounds_lines (d : nat) (dom : ndarray) (second : str) : list str :=
  concat (map (fun i => [ txt "2";
                          _format_tuple d (nth i (data dom) nan)
                            (nth (3 + i) (data dom) nan);
                          second ])
              (seq 0 3)).

(** The lines of a file. *)
Definition file_lines (kind name : str) (comments shaper : list str)
  (size_line : str) (rows : list str) : list str :=
  [txt "CSPLUTV100"; kind; []]
  ++ [txt "BEGIN METADATA"; name] ++ comments ++ [txt "END METADATA"; []]
  ++ shaper ++ [[]; size_line] ++ rows.

(** A [LUT3x1D] without a name, with one comment. *)
Definition nameless_shaper : LUT :=
  mk_LUT LUT3x1D
    {| shape := [2; 3]; data := [0; 0; 0; 0.5; 0.5; 0.5]%float |}
    [] unity_range [txt "graded"].

(** A [LUT3x1D] and a [LUT3D] with a domain that is not the unit one. *)
Definition sample_shaper : LUT :=
  mk_LUT LUT3x1D
    {| shape := [3; 3];
       data := [0; 0.25; 0.5;  0.5; 0.75; 1;  1; 1.25; 1.5]%float |}
    (txt "My LUT")
    {| shape := [2; 3]; data := [-0.5; -0.25; 0; 1.5; 3; 6]%float |}
    [txt "A first comment."; txt "A second comment."].

Definition sample_cube : LUT :=
  mk_LUT LUT3D
    {| shape := [2; 2; 2; 3]; data := map of_int (seq 0 24) |}
    (txt "My cube")
    {| shape := [2; 3]; data := [-0.5; -0.25; 0; 1.5; 3; 6]%float |}
    [txt "A comment."].

Module RoundTrip.

Import Py Np PyFacts NumFacts NpFacts Dispatch WriterClaims ReaderChecks
  ReaderShape WriterOutput.

(** ** The lines the writer writes *)

Lemma emits_line l : emits (write (l ++ nl)) (unlines [l]).
Proof. intros buf. unfold write, unlines. simpl. rewrite app_nil_r.
  reflexivity. Qed.

Lemma emits_lines (ls : list str) :
  emits (for_each ls (fun l => write (l ++ nl))) (unlines ls).
Proof.
  apply (emits_for_each ls (fun l => write (l ++ nl)) (fun l => l ++ [LF])).
  intros l _. apply emits_write.
Qed.

Lemma emits_bind_lines m (k : unit -> W unit) a b :
  emits m (unlines a) -> emits (k tt) (unlines b) ->
  emits (wbind m k) (unlines (a ++ b)).
Proof. intros Hm Hk. rewrite unlines_app. apply emits_bind; assumption. Qed.

Lemma emits_bind_line m (k : unit -> W unit) l ls :
  emits m (unlines [l]) -> emits (k tt) (unlines ls) ->
  emits (wbind m k) (unlines (l :: ls)).
Proof. intros Hm Hk. apply (emits_bind_lines m k [l] ls Hm Hk). Qed.

Lemma emits_for_each_lines {A} (l : list A) (body : A -> W unit) f :
  (forall x, In x l -> emits (body x) (unlines (f x))) ->
  emits (for_each l body) (unlines (concat (map f l))).
Proof.
  intros H. eapply emits_eq.
  - apply emits_for_each with (f := fun x => unlines (f x)). exact H.
  - clear H. induction l as [|x l IH]; [reflexivity|].
    simpl. rewrite unlines_app, IH. reflexivity.
Qed.

Lemma data_of_2x3 a :
  shape a = [2; 3] -> wf a ->
  exists m0 m1 m2 M0 M1 M2,
    a = {| shape := [2; 3]; data := [m0; m1; m2; M0; M1; M2] |}.
Proof.
  destruct a as [sh d]. unfold wf. simpl. intros -> H.
  list_of_length d H 6. do 6 eexists. reflexivity.
Qed.

Lemma emits_bounds d dom second :
  shape dom = [2; 3] -> wf dom ->
  emits (write_bounds d dom (second ++ nl))
        (unlines (bounds_lines d dom second)).
Proof.
  intros Hs Hw.
  destruct (data_of_2x3 dom Hs Hw) as (m0 & m1 & m2 & M0 & M1 & M2 & ->).
  unfold write_bounds, bounds_lines.
  apply emits_for_each_lines. intros i Hi. apply in_seq in Hi.
  apply emits_bind_line; [apply emits_line|].
  eapply emits_lift.
  { apply (get2_nth _ 2); [reflexivity | reflexivity | lia | lia]. }
  eapply emits_lift.
  { apply (get2_nth _ 2); [reflexivity | reflexivity | lia | lia]. }
  rewrite Nat.mul_0_l, Nat.add_0_l.
  replace (1 * 3 + i) with (3 + i) by lia.
  apply emits_bind_line; apply emits_line.
Qed.

Lemma chunk3_length xs n :
  List.length xs = n * 3 -> List.length (chunk3 xs) = n.
Proof.
  revert xs. induction n as [|n IH]; intros xs H.
  - destruct xs; [reflexivity | discriminate].
  - destruct xs as [|x [|y [|z xs]]]; try discriminate.
    simpl. rewrite IH; [reflexivity|]. simpl in H. lia.
Qed.

Lemma rows_chunk3 n : forall xs,
  List.length xs = n * 3 ->
  rmap (row {| shape := [n; 3]; data := xs |}) (seq 0 n)
  = Ok (map (fun '(x, y, z) => array1 [x; y; z]) (chunk3 xs)).
Proof.
  intros xs Hlen.
  rewrite (rmap_ok (row {| shape := [n; 3]; data := xs |})
             (fun k => {| shape := [3];
                          data := firstn 3 (skipn (k * 3) xs) |})).
  - f_equal. revert xs Hlen. induction n as [|n IH]; intros xs Hlen.
    + destruct xs; [reflexivity | discriminate].
    + destruct xs as [|x [|y [|z xs]]]; try discriminate.
      simpl in Hlen.
      change (seq 0 (S n)) with (0 :: seq 1 n).
      rewrite <- seq_shift, map_cons, map_map.
      cbn [chunk3 map]. f_equal.
      rewrite <- (IH xs) by lia.
      apply map_ext. intros k.
      replace (S k * 3) with (3 + k * 3) by lia. reflexivity.
  - intros k Hk. apply in_seq in Hk.
    unfold row. simpl shape. simpl data. cbv beta iota.
    replace (k <? n) with true by (symmetry; apply Nat.ltb_lt; lia).
    reflexivity.
Qed.

Lemma emits_rows d a n :
  shape a = [n; 3] -> wf a ->
  emits (write_rows d a) (unlines (row_lines d (data a))).
Proof.
  destruct a as [sh xs]. unfold wf. simpl. intros -> Hw.
  assert (List.length xs = n * 3) as Hlen by (simpl in Hw; lia).
  unfold write_rows, rows. simpl shape.
  eapply emits_lift; [apply rows_chunk3; exact Hlen|].
  unfold row_lines. simpl data. generalize (chunk3 xs). intros ts.
  eapply emits_eq.
  - apply emits_for_each with
      (f := fun r => match data r with
                     | x :: y :: z :: _ => row_text d x y z ++ nl
                     | _ => []
                     end).
    intros r Hr. apply in_map_iff in Hr as ([[x y] z] & <- & _).
    eapply emits_lift; [reflexivity|]. apply emits_write.
  - unfold unlines. rewrite !map_map. f_equal.
    apply map_ext. intros [[x y] z]. reflexivity.
Qed.

Lemma emits_two_lines l :
  emits (write (l ++ nl ++ nl)) (unlines [l; []]).
Proof.
  intros buf. unfold write, unlines, nl. simpl.
  rewrite <- ?app_assoc. reflexivity.
Qed.

Lemma emits_blank_then l :
  emits (write (nl ++ l ++ nl)) (unlines [[]; l]).
Proof.
  intros buf. unfold write, unlines. simpl. rewrite app_nil_r.
  reflexivity.
Qed.

(** The file of a lone [LUT3x1D] with a min/max domain. *)
Lemma serialise_lone_3x1D d nm ref l0 l1 n :
  shape (domain l0) = [2; 3] -> wf (domain l0) ->
  shape (table l0) = [n; 3] -> wf (table l0) ->
  serialise d (mk_canonical false true false nm ref) l0 l1 []
  = (unlines (file_lines (txt "1D") nm (comments l0 ++ comments l1)
                (bounds_lines d (domain l0) (txt "0.0 1.0"))
                (str_of_nat n) (row_lines d (data (table l0)))),
     Ok tt).
Proof.
  intros Hd Hdw Ht Htw.
  assert (emits (serialise d (mk_canonical false true false nm ref) l0 l1)
            (unlines (file_lines (txt "1D") nm (comments l0 ++ comments l1)
                        (bounds_lines d (domain l0) (txt "0.0 1.0"))
                        (str_of_nat n) (row_lines d (data (table l0))))))
    as H; [|exact (H [])].
  unfold serialise. simpl has_3D. simpl non_uniform. simpl lut_name.
  simpl orb. cbv iota.
  assert (size l0 = n) as -> by (unfold size, len; rewrite Ht; reflexivity).
  eapply emits_eq.
  - apply emits_bind_lines; [apply emits_line|].
    apply emits_bind_lines; [apply emits_two_lines|].
    apply emits_bind_lines; [apply emits_line|].
    apply emits_bind_lines; [apply emits_line|].
    apply emits_bind_lines; [apply emits_lines|].
    apply emits_bind_lines; [apply emits_lines|].
    apply emits_bind_lines; [apply emits_two_lines|].
    apply emits_bind_lines; [apply emits_bounds; assumption|].
    apply emits_bind_lines; [apply emits_blank_then|].
    apply (emits_rows d (table l0) n Ht Htw).
  - unfold file_lines. f_equal. simpl app.
    rewrite <- app_assoc. reflexivity.
Qed.

Lemma join2_text a b : a ++ txt " " ++ b = join_sp [a; b].
Proof. reflexivity. Qed.

Lemma join3_text a b c :
  a ++ txt " " ++ b ++ txt " " ++ c = join_sp [a; b; c].
Proof. reflexivity. Qed.

Lemma app_assoc4 {A} (a b c : list A) : a ++ b ++ c = (a ++ b) ++ c.
Proof. apply app_assoc. Qed.

Lemma emits_size3 a b c :
  emits (write (nl ++ a ++ txt " " ++ b ++ txt " " ++ c ++ nl))
        (unlines [[]; join_sp [a; b; c]]).
Proof.
  intros buf. unfold write. do 2 f_equal.
  unfold unlines, nl. simpl. rewrite app_nil_r.
  repeat (rewrite <- app_assoc; simpl). reflexivity.
Qed.

(** The file of a lone [LUT3D]. *)
Lemma serialise_lone_3D d nm ref l0 l1 n0 n1 n2 t :
  shape (domain l1) = [2; 3] -> wf (domain l1) ->
  shape (table l1) = [n0; n1; n2; 3] -> wf (table l1) ->
  reshape_F_rows3 (table l1) = Ok t ->
  serialise d (mk_canonical true false false nm ref) l0 l1 []
  = (unlines (file_lines (txt "3D") nm (comments l0 ++ comments l1)
                (bounds_lines d (domain l1)
                   (join_sp [format_f d (of_int 0); format_f d (of_int 1)]))
                (join_sp [str_of_nat n0; str_of_nat n1; str_of_nat n2])
                (row_lines d (data t))),
     Ok tt).
Proof.
  intros Hd Hdw Ht Htw Hflat.
  assert (emits (serialise d (mk_canonical true false false nm ref) l0 l1)
            (unlines (file_lines (txt "3D") nm (comments l0 ++ comments l1)
                (bounds_lines d (domain l1)
                   (join_sp [format_f d (of_int 0); format_f d (of_int 1)]))
                (join_sp [str_of_nat n0; str_of_nat n1; str_of_nat n2])
                (row_lines d (data t)))))
    as H; [|exact (H [])].
  destruct (reshape_F_rows (table l1) n0 n1 n2 t Ht Htw Hflat) as [Hts _].
  pose proof Hflat as Hflat'. unfold reshape_F_rows3 in Hflat'.
  destruct (_ =? 0) in Hflat'; [|discriminate].
  pose proof (reshape_F_wf _ _ _ Hflat') as Htwf.
  unfold serialise. simpl has_3D. simpl non_uniform. simpl has_3x1D.
  simpl lut_name. simpl orb. simpl andb. cbv iota zeta.
  rewrite Ht. simpl nth_error. simpl of_option. rewrite Hflat.
  replace (format_f d (of_int 0) ++ txt " " ++ format_f d (of_int 1) ++ nl)
    with (join_sp [format_f d (of_int 0); format_f d (of_int 1)] ++ nl)
    by (rewrite <- join2_text; rewrite <- !app_assoc; reflexivity).
  eapply emits_eq.
  - apply emits_bind_lines; [apply emits_line|].
    apply emits_bind_lines; [apply emits_two_lines|].
    apply emits_bind_lines; [apply emits_line|].
    apply emits_bind_lines; [apply emits_line|].
    apply emits_bind_lines; [apply emits_lines|].
    apply emits_bind_lines; [apply emits_lines|].
    apply emits_bind_lines; [apply emits_two_lines|].
    apply emits_bind_lines; [apply emits_bounds; assumption|].
    eapply emits_lift; [reflexivity|].
    eapply emits_lift; [reflexivity|].
    eapply emits_lift; [reflexivity|].
    apply emits_bind_lines; [apply emits_size3|].
    eapply emits_lift; [reflexivity|].
    apply (emits_rows d t (n0 * n1 * n2) Hts Htwf).
  - unfold file_lines. f_equal. simpl app.
    rewrite <- app_assoc. reflexivity.
Qed.

(** ** Reading the lines back *)

Lemma filter_plain ls :
  Forall plain_line ls -> filter (fun l => negb (str_eqb l [])) ls = ls.
Proof.
  induction 1 as [|l ls [Hne _] H IH]; [reflexivity|].
  simpl. rewrite str_eqb_neq by exact Hne. simpl. rewrite IH. reflexivity.
Qed.

Lemma rassert_true e : rassert true e = Ok tt.
Proof. reflexivity. Qed.

Lemma filter_cons_plain l ls :
  plain_line l ->
  filter (fun l => negb (str_eqb l [])) (l :: ls)
  = l :: filter (fun l => negb (str_eqb l [])) ls.
Proof.
  intros [Hne _]. simpl. rewrite str_eqb_neq by exact Hne. reflexivity.
Qed.

Lemma filter_cons_empty ls :
  filter (fun l => negb (str_eqb l [])) ([] :: ls)
  = filter (fun l => negb (str_eqb l [])) ls.
Proof. reflexivity. Qed.

Lemma plain_txt s :
  s <> [] -> strip s = s -> unbroken s = true -> plain_line s.
Proof. intros; repeat split; assumption. Qed.

Lemma scan_metadata_block ms rest : forall i acc,
  Forall metadata_line ms ->
  scan_metadata (ms ++ txt "END METADATA" :: rest) i true acc
  = (i + List.length ms, acc ++ ms).
Proof.
  induction ms as [|m ms IH]; intros i acc H.
  - simpl. rewrite Nat.add_0_r, app_nil_r. reflexivity.
  - inversion H as [|? ? [(Hne & Hs & _) [Hb He]] H']; subst.
    simpl app. cbn [scan_metadata]. rewrite Hs.
    rewrite (str_eqb_neq _ _ Hb), (str_eqb_neq _ _ He).
    rewrite IH by exact H'. simpl List.length.
    rewrite <- app_assoc. simpl app. f_equal. lia.
Qed.

Lemma scan_metadata_begin rest i b acc :
  scan_metadata (txt "BEGIN METADATA" :: rest) i b acc
  = scan_metadata rest (S i) true acc.
Proof. reflexivity. Qed.

Section Lines.

Variables (kind nm : str) (cms shaper : list str) (size_line : str)
  (rws : list str).
Hypothesis Hkind : kind = txt "1D" \/ kind = txt "3D".
Hypothesis Hname : metadata_line nm.
Hypothesis Hcms : Forall metadata_line cms.
Hypothesis Hshaper : Forall plain_line shaper.
Hypothesis Hnine : List.length shaper = 9.
Hypothesis Hsize : plain_line size_line.
Hypothesis Hrows : Forall plain_line rws.

Let content : str := unlines (file_lines kind nm cms shaper size_line rws).

Let kept : list str :=
  [txt "CSPLUTV100"; kind; txt "BEGIN METADATA"; nm] ++ cms
  ++ [txt "END METADATA"] ++ shaper ++ [size_line] ++ rws.

Lemma plain_kind : plain_line kind.
Proof.
  destruct Hkind as [-> | ->]; apply plain_txt;
    (discriminate || reflexivity).
Qed.

Lemma plain_cms : Forall plain_line cms.
Proof.
  eapply Forall_impl; [|exact Hcms]. intros l [H _]. exact H.
Qed.

Lemma normalised_content :
  ((0 <? List.length (readlines content)) = true)
  /\ normalise_lines (readlines content) = kept.
Proof.
  assert (plain_line (txt "CSPLUTV100")) as P1
    by (apply plain_txt; (discriminate || reflexivity)).
  assert (plain_line (txt "BEGIN METADATA")) as P2
    by (apply plain_txt; (discriminate || reflexivity)).
  assert (plain_line (txt "END METADATA")) as P3
    by (apply plain_txt; (discriminate || reflexivity)).
  pose proof plain_kind as P4. pose proof plain_cms as P5.
  destruct Hname as [P6 _].
  assert (Forall written_line
            (file_lines kind nm cms shaper size_line rws)) as Hw.
  { unfold file_lines.
    repeat (apply Forall_app; split);
      repeat (apply Forall_cons; [(left; reflexivity) || (right; assumption)|]);
      try apply Forall_nil;
      (eapply Forall_impl; [|eassumption]); intros l Hl; right; exact Hl. }
  split.
  - unfold content. rewrite readlines_unlines.
    + unfold file_lines. reflexivity.
    + eapply Forall_impl; [|exact Hw].
      intros l [-> | (_ & _ & Hl)]; [reflexivity | exact Hl].
  - unfold content. rewrite (normalise_written _ Hw).
    unfold file_lines, kept. simpl app.
    rewrite (filter_cons_plain _ _ P1), (filter_cons_plain _ _ P4),
      filter_cons_empty, (filter_cons_plain _ _ P2),
      (filter_cons_plain _ _ P6), filter_app, (filter_plain _ P5),
      (filter_cons_plain _ _ P3), filter_cons_empty, filter_app,
      (filter_plain _ Hshaper), filter_cons_empty,
      (filter_cons_plain _ _ Hsize), (filter_plain _ Hrows).
    reflexivity.
Qed.

Lemma skipn_length_app {A} (a b : list A) k :
  k = List.length a -> skipn k (a ++ b) = b.
Proof.
  intros ->. rewrite skipn_app, skipn_all, Nat.sub_diag. reflexivity.
Qed.

(** The sections of the file: its metadata, and what its shaper block and
    its table block parse to. *)
Lemma read_sections_lines :
  read_sections content
  = (pre_LUT <- _parse_domain_section shaper ;;
     ' (size, table) <- _parse_table_section (size_line :: rws) ;;
     Ok (mk_sections (str_eqb kind (txt "3D")) nm cms pre_LUT size table))%result.
Proof.
  destruct normalised_content as [Hlen Hnorm].
  unfold read_sections. cbv zeta.
  rewrite Hlen. rewrite rassert_true. rewrite rbind_Ok. cbv beta.
  change (map strip
            (filter (fun line => negb (str_eqb (strip line) []))
                    (readlines content)))
    with (normalise_lines (readlines content)).
  rewrite Hnorm.
  assert (line_at kept 0 = Ok (txt "CSPLUTV100")) as -> by reflexivity.
  rewrite rbind_Ok. cbv beta.
  rewrite str_eqb_refl. rewrite rassert_true. rewrite rbind_Ok. cbv beta.
  assert (line_at kept 1 = Ok kind) as -> by reflexivity.
  rewrite rbind_Ok. cbv beta.
  assert ((str_eqb kind (txt "1D") || str_eqb kind (txt "3D")) = true) as ->
    by (destruct Hkind as [-> | ->]; reflexivity).
  rewrite rassert_true. rewrite rbind_Ok. cbv beta.
  assert (skipn 2 kept
          = txt "BEGIN METADATA"
            :: (nm :: cms) ++ txt "END METADATA"
                 :: shaper ++ [size_line] ++ rws) as -> by reflexivity.
  assert (scan_metadata
            (txt "BEGIN METADATA"
             :: (nm :: cms) ++ txt "END METADATA"
                  :: shaper ++ [size_line] ++ rws) 0 false []
          = (1 + List.length (nm :: cms), [] ++ nm :: cms)) as ->.
  { rewrite scan_metadata_begin.
    apply (scan_metadata_block (nm :: cms) (shaper ++ [size_line] ++ rws)
             1 []).
    constructor; assumption. }
  cbv iota. simpl app at 1. unfold _parse_metadata_section. cbv iota.
  assert (skipn (2 + (1 + List.length (nm :: cms)) + 1) kept
          = shaper ++ [size_line] ++ rws) as Hskip.
  { assert (kept = ([txt "CSPLUTV100"; kind; txt "BEGIN METADATA"; nm] ++ cms
                     ++ [txt "END METADATA"])
                    ++ shaper ++ [size_line] ++ rws) as ->
      by (unfold kept; rewrite <- !app_assoc; reflexivity).
    apply skipn_length_app. rewrite !length_app. simpl. lia. }
  rewrite Hskip.
  assert (firstn 9 (shaper ++ [size_line] ++ rws) = shaper) as ->.
  { rewrite <- Hnine, firstn_app, Nat.sub_diag, firstn_all. simpl.
    apply app_nil_r. }
  assert (skipn (2 + (1 + List.length (nm :: cms)) + 1 + 9) kept
          = size_line :: rws) as ->.
  { rewrite Nat.add_comm, <- skipn_skipn, Hskip.
    apply (skipn_length_app shaper (size_line :: rws) 9).
    symmetry. exact Hnine. }
  reflexivity.
Qed.

End Lines.

(** ** Parsing the numbers back *)

Definition parse_token (t : str) : result float :=
  of_option (float_of_str t) ValueError.

Lemma parse_formatted d xs :
  rmap parse_token (map (format_f d) xs) = Ok (map (reread d) xs).
Proof.
  induction xs as [|x xs IH]; [reflexivity|].
  simpl map. cbn [rmap]. unfold parse_token at 1.
  rewrite float_of_str_format_f. simpl of_option. rewrite IH. reflexivity.
Qed.

Lemma tokens_formatted d xs : Forall token (map (format_f d) xs).
Proof.
  apply Forall_forall. intros t Ht.
  apply in_map_iff in Ht as (x & <- & _). apply token_format_f.
Qed.

Lemma as_float_array_formatted d xs :
  as_float_array (split (join_sp (map (format_f d) xs)))
  = Ok (array1 (map (reread d) xs)).
Proof.
  rewrite split_join_sp by apply tokens_formatted.
  unfold as_float_array. fold parse_token.
  change (fun t => of_option (float_of_str t) ValueError) with parse_token.
  rewrite parse_formatted. reflexivity.
Qed.

Lemma of_int_0 : of_int 0 = zero.
Proof. reflexivity. Qed.

Lemma of_int_1 : of_int 1 = one.
Proof. reflexivity. Qed.

Lemma parse_two_sample_lines l1 l2 l4 l5 l7 l8 x1 y1 x2 y2 x4 y4 x5 y5
  x7 y7 x8 y8 :
  as_float_array (split l1) = Ok (array1 [x1; y1]) ->
  as_float_array (split l2) = Ok (array1 [x2; y2]) ->
  as_float_array (split l4) = Ok (array1 [x4; y4]) ->
  as_float_array (split l5) = Ok (array1 [x5; y5]) ->
  as_float_array (split l7) = Ok (array1 [x7; y7]) ->
  as_float_array (split l8) = Ok (array1 [x8; y8]) ->
  _parse_domain_section [txt "2"; l1; l2; txt "2"; l4; l5; txt "2"; l7; l8]
  = Ok {| shape := [6; 2];
          data := [x1; y1; x2; y2; x4; y4; x5; y5; x7; y7; x8; y8] |}.
Proof.
  intros H1 H2 H4 H5 H7 H8. unfold _parse_domain_section.
  assert (rmap (fun i => (l <- line_at [txt "2"; l1; l2; txt "2"; l4; l5;
                                         txt "2"; l7; l8] i ;;
                          of_option (int_of_str l) ValueError)%result)
               [0; 3; 6] = Ok [2; 2; 2]%Z) as -> by reflexivity.
  rewrite rbind_Ok. cbv beta.
  assert (max_list [2; 2; 2]%Z = Ok 2%Z) as -> by reflexivity.
  rewrite rbind_Ok. cbv beta.
  assert (rmap (fun i => (l <- line_at [txt "2"; l1; l2; txt "2"; l4; l5;
                                         txt "2"; l7; l8] i ;;
                          as_float_array (split l))%result)
               [1; 2; 4; 5; 7; 8]
          = Ok [array1 [x1; y1]; array1 [x2; y2]; array1 [x4; y4];
                array1 [x5; y5]; array1 [x7; y7]; array1 [x8; y8]]) as ->.
  { cbn [rmap line_at nth_error of_option rbind].
    rewrite H1, H2, H4, H5, H7, H8. reflexivity. }
  rewrite rbind_Ok. cbv beta. reflexivity.
Qed.

Lemma parse_bounds d dom second :
  shape dom = [2; 3] -> wf dom ->
  as_float_array (split second) = Ok (array1 [zero; one]) ->
  exists p,
    _parse_domain_section (bounds_lines d dom second) = Ok p
    /\ shape p = [6; 2] /\ List.length (data p) = 12
    /\ trivial_shaper p = true
    /\ bounds_of p = map_array (reread d) dom.
Proof.
  intros Hs Hw Hsec.
  destruct (data_of_2x3 dom Hs Hw) as (m0 & m1 & m2 & M0 & M1 & M2 & ->).
  assert (forall a b, as_float_array (split (_format_tuple d a b))
                      = Ok (array1 [reread d a; reread d b])) as Htuple.
  { intros a b. apply (as_float_array_formatted d [a; b]). }
  eexists. split.
  - unfold bounds_lines. cbn [seq map concat app data nth Nat.add].
    apply parse_two_sample_lines; (apply Htuple || exact Hsec).
  - split; [reflexivity|]. split; [reflexivity|].
    split; [|reflexivity].
    match goal with
    | |- trivial_shaper ?p = true =>
        apply (proj2 (two_sample_shaper p eq_refl eq_refl))
    end.
    intros c Hc. destruct c as [|[|[|c]]]; [| | |lia]; split; reflexivity.
Qed.

Lemma plain_token t : token t -> plain_line t.
Proof. intros H. apply (plain_join_sp [t]); [discriminate|]. auto. Qed.

Lemma plain_bounds d dom second :
  plain_line second ->
  Forall plain_line (bounds_lines d dom second)
  /\ List.length (bounds_lines d dom second) = 9.
Proof.
  intros Hsec. split; [|reflexivity].
  unfold bounds_lines. cbn [seq map concat app].
  assert (plain_line (txt "2")) as P2
    by (apply plain_txt; (discriminate || reflexivity)).
  assert (forall a b, plain_line (_format_tuple d a b)) as Pt.
  { intros a b.
    apply (plain_join_sp (map (format_f d) [a; b])); [discriminate|].
    apply tokens_formatted. }
  repeat (apply Forall_cons; [solve [exact P2 | apply Pt | exact Hsec]|]).
  apply Forall_nil.
Qed.

Lemma plain_rows d xs : Forall plain_line (row_lines d xs).
Proof.
  unfold row_lines. apply Forall_forall. intros l Hl.
  apply in_map_iff in Hl as ([[x y] z] & <- & _).
  apply (plain_join_sp (map (format_f d) [x; y; z])); [discriminate|].
  apply tokens_formatted.
Qed.

Lemma chunk3_flat xs n :
  List.length xs = n * 3 ->
  concat (map (fun '(x, y, z) => [x; y; z]) (chunk3 xs)) = xs.
Proof.
  revert xs. induction n as [|n IH]; intros xs H.
  - destruct xs; [reflexivity | discriminate].
  - destruct xs as [|x [|y [|z xs]]]; try discriminate.
    simpl in H. cbn [chunk3 map concat app]. rewrite IH by lia. reflexivity.
Qed.

Lemma as_float_array2_uniform rows k vals :
  rows <> [] -> Forall (fun r : list str => List.length r = k) rows ->
  rmap parse_token (concat rows) = Ok vals ->
  as_float_array2 rows
  = Ok {| shape := [List.length rows; k]; data := vals |}.
Proof.
  intros Hne Hall Hvals. unfold as_float_array2.
  destruct rows as [|r0 rest] eqn:E; [congruence|]. rewrite <- E in *.
  assert (List.length r0 = k) as ->
    by (rewrite E in Hall; inversion Hall; assumption).
  assert (forallb (fun r : list str => List.length r =? k) rows = true) as ->.
  { apply forallb_forall. intros r Hr. apply Nat.eqb_eq.
    apply (proj1 (Forall_forall _ _) Hall r Hr). }
  change (fun t => of_option (float_of_str t) ValueError) with parse_token.
  rewrite Hvals. reflexivity.
Qed.

Lemma parse_rows d xs n :
  List.length xs = n * 3 -> 0 < n ->
  as_float_array2 (map split (row_lines d xs))
  = Ok {| shape := [n; 3]; data := map (reread d) xs |}.
Proof.
  intros Hlen Hn.
  assert (map split (row_lines d xs)
          = map (fun '(x, y, z) => map (format_f d) [x; y; z]) (chunk3 xs))
    as ->.
  { unfold row_lines. rewrite map_map. apply map_ext. intros [[x y] z].
    apply (split_join_sp (map (format_f d) [x; y; z])).
    apply tokens_formatted. }
  pose proof (chunk3_length xs n Hlen) as Hc.
  pose proof (chunk3_flat xs n Hlen) as Hf.
  rewrite <- Hc at 1. rewrite <- (length_map
    (fun '(x, y, z) => map (format_f d) [x; y; z]) (chunk3 xs)).
  apply as_float_array2_uniform.
  - destruct (chunk3 xs); [simpl in Hc; lia | discriminate].
  - apply Forall_forall. intros r Hr.
    apply in_map_iff in Hr as ([[a b] c] & <- & _). reflexivity.
  - assert (concat (map (fun '(x, y, z) => map (format_f d) [x; y; z])
                        (chunk3 xs))
            = map (format_f d) xs) as ->.
    { rewrite <- Hf at 2. rewrite concat_map, map_map.
      f_equal. apply map_ext. intros [[a b] c]. reflexivity. }
    apply parse_formatted.
Qed.

Lemma nat_in_int64 n :
  (Z.of_nat n <= int64_max)%Z -> in_int64 (Z.of_nat n) = true.
Proof.
  intros H. unfold in_int64, int64_min. apply andb_true_intro.
  split; apply Z.leb_le; lia.
Qed.

(** A natural number that fits 64 bits, written and read as an entry of
    an [int64] array. *)
Lemma parse_int64 n :
  (Z.of_nat n <= int64_max)%Z ->
  (z <- of_option (int_of_str (str_of_N (N.of_nat n))) ValueError ;;
   _ <- rassert (in_int64 z) OverflowError ;; Ok z)%result
  = Ok (Z.of_nat n).
Proof.
  intros H. rewrite int_of_str_of_N. cbn [of_option]. rewrite rbind_Ok.
  cbv beta. rewrite nat_N_Z, (nat_in_int64 n H). reflexivity.
Qed.

Lemma parse_size_1 n :
  (Z.of_nat n <= int64_max)%Z ->
  as_int_array (split (str_of_nat n)) = Ok [Z.of_nat n].
Proof.
  intros H. unfold str_of_nat.
  change (str_of_N (N.of_nat n)) with (join_sp [str_of_N (N.of_nat n)]).
  rewrite (split_join_sp [str_of_N (N.of_nat n)])
    by (repeat constructor; apply token_str_of_N).
  unfold as_int_array. cbn [rmap]. rewrite (parse_int64 n H). reflexivity.
Qed.

Lemma parse_size_3 n0 n1 n2 :
  (Z.of_nat n0 <= int64_max)%Z -> (Z.of_nat n1 <= int64_max)%Z ->
  (Z.of_nat n2 <= int64_max)%Z ->
  as_int_array (split (join_sp [str_of_nat n0; str_of_nat n1; str_of_nat n2]))
  = Ok [Z.of_nat n0; Z.of_nat n1; Z.of_nat n2].
Proof.
  intros H0 H1 H2. unfold str_of_nat.
  rewrite split_join_sp
    by (repeat constructor; apply token_str_of_N).
  unfold as_int_array. cbn [rmap].
  rewrite (parse_int64 n0 H0), (parse_int64 n1 H1), (parse_int64 n2 H2).
  reflexivity.
Qed.

(** ** Reading the written file *)

Lemma reshape_F_map f a new b :
  wf a -> reshape_F a new = Ok b ->
  reshape_F (map_array f a) new = Ok (map_array f b).
Proof.
  intros Hw. unfold reshape_F, map_array. cbn [data shape].
  rewrite length_map.
  destruct (size_of new =? List.length (data a)) eqn:E; [|discriminate].
  apply Nat.eqb_eq in E. intros [= <-]. cbn [data shape].
  do 2 f_equal. rewrite map_map. apply map_ext_in. intros c Hc.
  apply in_seq in Hc.
  destruct (there_and_back new (shape a) c) as (_ & Hlt & _).
  - rewrite E. symmetry. exact Hw.
  - lia.
  - rewrite (nth_indep _ nan (f nan)) by (rewrite length_map, Hw; exact Hlt).
    apply map_nth.
Qed.

Lemma written_file_read fs path content :
  fs_write fs path content path = Some content.
Proof. unfold fs_write. rewrite str_eqb_refl. reflexivity. Qed.

Lemma parse_table d sz size_line xs n :
  as_int_array (split size_line) = Ok sz ->
  List.length xs = n * 3 -> 0 < n ->
  _parse_table_section (size_line :: row_lines d xs)
  = Ok (sz, {| shape := [n; 3]; data := map (reread d) xs |}).
Proof.
  intros Hsz Hlen Hn. unfold _parse_table_section.
  change (line_at (size_line :: row_lines d xs) 0) with (Ok size_line).
  rewrite rbind_Ok. cbv beta. rewrite Hsz, rbind_Ok. cbv beta.
  change (tl (size_line :: row_lines d xs)) with (row_lines d xs).
  rewrite (parse_rows d xs n Hlen Hn). reflexivity.
Qed.

Lemma plain_01 : plain_line (txt "0.0 1.0").
Proof. apply plain_txt; (discriminate || reflexivity). Qed.

Lemma parse_01 :
  as_float_array (split (txt "0.0 1.0")) = Ok (array1 [zero; one]).
Proof. vm_compute. reflexivity. Qed.

Lemma parse_formatted_01 d :
  as_float_array
    (split (join_sp [format_f d (of_int 0); format_f d (of_int 1)]))
  = Ok (array1 [zero; one]).
Proof.
  change [format_f d (of_int 0); format_f d (of_int 1)]
    with (map (format_f d) [of_int 0; of_int 1]).
  rewrite (as_float_array_formatted d [of_int 0; of_int 1]).
  cbn [map]. rewrite of_int_0, of_int_1, reread_zero, reread_one.
  reflexivity.
Qed.

(** The file of a lone [LUT3x1D] is read as that LUT, its numbers rounded. *)
Lemma read_back_1D lib fs path d nm cms dom tbl n :
  fs path
  = Some (unlines (file_lines (txt "1D") nm cms
                     (bounds_lines d dom (txt "0.0 1.0"))
                     (str_of_nat n) (row_lines d (data tbl)))) ->
  metadata_line nm -> Forall metadata_line cms ->
  shape dom = [2; 3] -> wf dom -> shape tbl = [n; 3] -> wf tbl -> 0 < n ->
  (Z.of_nat n <= int64_max)%Z ->
  read_LUT_Cinespace lib fs path
  = Ok (Single (mk_LUT LUT3x1D (map_array (reread d) tbl) nm
                  (map_array (reread d) dom) cms)).
Proof.
  intros Hfile Hnm Hcms Hd Hdw Ht Htw Hn Hmax.
  destruct (parse_bounds d dom (txt "0.0 1.0") Hd Hdw parse_01)
    as (p & Hp & Hps & Hpl & Htriv & Hb).
  destruct (plain_bounds d dom (txt "0.0 1.0") plain_01) as [Hpb H9].
  assert (List.length (data tbl) = n * 3) as Hlen
    by (unfold wf in Htw; rewrite Htw, Ht; simpl; lia).
  assert (read_sections
            (unlines (file_lines (txt "1D") nm cms
                        (bounds_lines d dom (txt "0.0 1.0"))
                        (str_of_nat n) (row_lines d (data tbl))))
          = Ok (mk_sections false nm cms p [Z.of_nat n]
                  (map_array (reread d) tbl))) as Hsec.
  { rewrite read_sections_lines;
      [| left; reflexivity | assumption | assumption | assumption
       | assumption | apply plain_token, token_str_of_N | apply plain_rows].
    rewrite Hp, rbind_Ok. cbv beta.
    rewrite (parse_table d _ _ _ n (parse_size_1 n Hmax) Hlen Hn).
    rewrite rbind_Ok. cbv beta iota.
    unfold map_array. rewrite Ht. reflexivity. }
  rewrite (read_checked lib fs path _ Hfile _ Hsec).
  - unfold assemble. cbn [is_3D pre_LUT flat_table title meta_comments].
    rewrite Htriv. cbn [andb negb].
    rewrite (proj1 (two_sample_shaper p Hps Hpl)), rbind_Ok. cbv beta.
    rewrite new_LUT_axes by (unfold map_array; cbn [shape]; rewrite Ht;
                             reflexivity).
    rewrite rbind_Ok. cbv beta.
    rewrite Hb. reflexivity.
  - cbn [table_size flat_table]. unfold len, map_array. cbn [shape].
    rewrite Ht. cbn [hd]. apply (product_nat1 n Hmax).
Qed.

(** A grid without an empty axis, of fewer than [2^63] numbers. *)
Lemma grid_index_sized n0 n1 n2 :
  0 < n0 -> 0 < n1 -> 0 < n2 ->
  (Z.of_nat (n0 * n1 * n2 * 3) <= int64_max)%Z ->
  index_sized [n0; n1; n2; 3]
  /\ (Z.of_nat n0 <= int64_max)%Z /\ (Z.of_nat n1 <= int64_max)%Z
  /\ (Z.of_nat n2 <= int64_max)%Z
  /\ (Z.of_nat (n0 * n1 * n2) <= int64_max)%Z.
Proof.
  intros H0 H1 H2 Hmax. split.
  - apply index_sized_positive.
    + repeat constructor; lia.
    + cbn [size_of fold_right].
      replace (n0 * (n1 * (n2 * (3 * 1)))) with (n0 * n1 * n2 * 3) by lia.
      exact Hmax.
  - assert (1 <= n0 * n1) as A by nia.
    assert (1 <= n1 * n2) as B by nia.
    assert (1 <= n0 * n2) as C by nia.
    assert (n0 <= n0 * n1 * n2) as L0
      by (replace (n0 * n1 * n2) with (n0 * (n1 * n2)) by lia; nia).
    assert (n1 <= n0 * n1 * n2) as L1
      by (replace (n0 * n1 * n2) with (n1 * (n0 * n2)) by lia; nia).
    assert (n2 <= n0 * n1 * n2) as L2
      by (replace (n0 * n1 * n2) with (n2 * (n0 * n1)) by lia; nia).
    repeat split; lia.
Qed.

(** The file of a lone [LUT3D] is read as that LUT, its numbers rounded. *)
Lemma read_back_3D lib fs path d nm cms dom tbl t n0 n1 n2 :
  fs path
  = Some (unlines
            (file_lines (txt "3D") nm cms
               (bounds_lines d dom
                  (join_sp [format_f d (of_int 0); format_f d (of_int 1)]))
               (join_sp [str_of_nat n0; str_of_nat n1; str_of_nat n2])
               (row_lines d (data t)))) ->
  metadata_line nm -> Forall metadata_line cms ->
  shape dom = [2; 3] -> wf dom ->
  shape tbl = [n0; n1; n2; 3] -> wf tbl -> reshape_F_rows3 tbl = Ok t ->
  0 < n0 -> 0 < n1 -> 0 < n2 ->
  (Z.of_nat (n0 * n1 * n2 * 3) <= int64_max)%Z ->
  read_LUT_Cinespace lib fs path
  = Ok (Single (mk_LUT LUT3D (map_array (reread d) tbl) nm
                  (map_array (reread d) dom) cms)).
Proof.
  intros Hfile Hnm Hcms Hd Hdw Ht Htw Hrows H0 H1 H2 Hmax.
  destruct (grid_index_sized n0 n1 n2 H0 H1 H2 Hmax)
    as (Hidx & Hm0 & Hm1 & Hm2 & Hm).
  set (second := join_sp [format_f d (of_int 0); format_f d (of_int 1)])
    in *.
  set (size_line := join_sp [str_of_nat n0; str_of_nat n1; str_of_nat n2])
    in *.
  assert (plain_line second) as Psec.
  { apply (plain_join_sp (map (format_f d) [of_int 0; of_int 1]));
      [discriminate | apply tokens_formatted]. }
  assert (plain_line size_line) as Psize.
  { apply plain_join_sp; [discriminate|].
    repeat constructor; apply token_str_of_N. }
  destruct (parse_bounds d dom second Hd Hdw (parse_formatted_01 d))
    as (p & Hp & Hps & Hpl & Htriv & Hb).
  destruct (plain_bounds d dom second Psec) as [Hpb H9].
  destruct (reshape_F_rows tbl n0 n1 n2 t Ht Htw Hrows) as [Hts _].
  assert (reshape_F tbl [List.length (data tbl) / 3; 3] = Ok t) as Hre.
  { unfold reshape_F_rows3 in Hrows.
    destruct (List.length (data tbl) mod 3 =? 0); [exact Hrows|discriminate]. }
  pose proof (reshape_F_wf _ _ _ Hre) as Htwf.
  pose proof (reshape_F_back _ _ _ Htw Hre) as Hback. rewrite Ht in Hback.
  assert (0 < n0 * n1 * n2) as HN by (apply Nat.mul_pos_pos; [apply Nat.mul_pos_pos|]; assumption).
  assert (List.length (data t) = (n0 * n1 * n2) * 3) as Hlen
    by (unfold wf in Htwf; rewrite Htwf, Hts; simpl; lia).
  assert (read_sections
            (unlines (file_lines (txt "3D") nm cms
                        (bounds_lines d dom second) size_line
                        (row_lines d (data t))))
          = Ok (mk_sections true nm cms p
                  [Z.of_nat n0; Z.of_nat n1; Z.of_nat n2]
                  (map_array (reread d) t))) as Hsec.
  { rewrite read_sections_lines;
      [| right; reflexivity | assumption | assumption | assumption
       | assumption | assumption | apply plain_rows].
    rewrite Hp, rbind_Ok. cbv beta.
    rewrite (parse_table d [Z.of_nat n0; Z.of_nat n1; Z.of_nat n2] size_line
               (data t) (n0 * n1 * n2) (parse_size_3 n0 n1 n2 Hm0 Hm1 Hm2)
               Hlen HN).
    rewrite rbind_Ok. cbv beta iota.
    unfold map_array. rewrite Hts. reflexivity. }
  rewrite (read_checked lib fs path _ Hfile _ Hsec).
  - unfold assemble. cbn [is_3D pre_LUT flat_table title meta_comments
                          table_size].
    rewrite Htriv. cbn [andb].
    rewrite (unflatten_given n0 n1 n2 _ Hidx).
    rewrite (reshape_F_map _ _ _ _ Htwf Hback), rbind_Ok.
    cbv beta.
    rewrite (proj1 (two_sample_shaper p Hps Hpl)), rbind_Ok. cbv beta.
    rewrite new_LUT_axes by (unfold map_array; cbn [shape]; rewrite Ht;
                             reflexivity).
    rewrite rbind_Ok. cbv beta.
    rewrite Hb. reflexivity.
  - cbn [table_size flat_table]. unfold len, map_array. cbn [shape].
    rewrite Hts. cbn [hd]. apply (product_nat3 n0 n1 n2 Hm).
Qed.

Lemma rows3_exists tbl n0 n1 n2 :
  shape tbl = [n0; n1; n2; 3] -> wf tbl ->
  exists t, reshape_F_rows3 tbl = Ok t.
Proof.
  intros Ht Hw. unfold reshape_F_rows3.
  assert (List.length (data tbl) = (n0 * n1 * n2) * 3) as ->
    by (unfold wf in Hw; rewrite Hw, Ht; simpl; lia).
  rewrite Nat.Div0.mod_mul, Nat.div_mul by discriminate.
  rewrite Nat.eqb_refl. apply reshape_F_ok.
  unfold wf in Hw. rewrite Hw, Ht. simpl. lia.
Qed.

Lemma uniform_domain l :
  class_of l <> LUT1D -> shape (domain l) = [2; 3] ->
  is_domain_explicit l = false.
Proof.
  intros Hc Hs. unfold is_domain_explicit. rewrite Hs.
  destruct (class_of l); [congruence | reflexivity | reflexivity].
Qed.

(** C1, as amended.  A lone [LUT3x1D] or [LUT3D] of a size the writer
    accepts, with a min/max domain, whose name and comments are each a non-empty
    single line without white space at its ends and different from the two
    metadata markers, is written without error, and reading the file back
    gives that LUT again with every number of its domain and of its table
    replaced by the number read from its rendering with [d] decimals; the
    name and the comments come back unchanged.  The stage the library puts
    beside the lone LUT carries no comment. *)
Theorem C1_round_trip lib h fs ref path d l :
  deref h ref = Some (ObjLUT l) ->
  within_bounds l -> wf (table l) ->
  shape (domain l) = [2; 3] -> wf (domain l) ->
  metadata_line (name l) -> Forall metadata_line (comments l) ->
  comments (LUT_default lib LUT3D) = [] ->
  comments (LUT_default lib LUT3x1D) = [] ->
  snd (write_LUT_Cinespace lib ref path d (h, fs)) = Ok true
  /\ read_LUT_Cinespace lib
       (snd (fst (write_LUT_Cinespace lib ref path d (h, fs)))) path
     = Ok (Single (rounded d l)).
Proof.
  intros Hd Hb Htw Hds Hdw Hnm Hcms Hc3 Hc1.
  unfold within_bounds in Hb. destruct (class_of l) eqn:Hcls;
    [contradiction | |].
  - destruct Hb as (n & Ht & Hn).
    pose proof (normalise_lone_3x1D lib h ref l Hd Hcls) as Hnorm.
    cbv zeta in Hnorm. destruct Hnorm as (Hnorm & Hs0 & Hs1).
    rewrite (uniform_domain l) in Hnorm by (congruence || assumption).
    assert (validate (mk_canonical false true false (name l)
                        (S (List.length h))) l (LUT_default lib LUT3D)
            = Ok tt) as Hval.
    { apply validate_ok; [|discriminate].
      intros _. unfold shaper_size_ok, size, len. rewrite Ht. exact Hn. }
    rewrite (write_valid lib h fs ref path d _ _ _ _ Hnorm Hs0 Hs1 Hval).
    rewrite (serialise_lone_3x1D d (name l) _ l (LUT_default lib LUT3D) n
               Hds Hdw Ht Htw).
    cbn [fst snd]. split; [reflexivity|].
    rewrite Hc3, app_nil_r.
    rewrite (read_back_1D lib _ path d (name l) (comments l) (domain l)
               (table l) n (written_file_read _ _ _) Hnm Hcms Hds Hdw Ht Htw)
      by (unfold int64_max; lia).
    unfold rounded. rewrite Hcls. reflexivity.
  - destruct Hb as (n0 & n1 & n2 & Ht & Hn & H1 & H2 & Hmax).
    pose proof (normalise_lone_3D lib h ref l Hd Hcls) as Hnorm.
    cbv zeta in Hnorm. destruct Hnorm as (Hnorm & Hs0 & Hs1).
    assert (validate (mk_canonical true false false (name l)
                        (S (List.length h))) (LUT_default lib LUT3x1D) l
            = Ok tt) as Hval.
    { apply validate_ok; [discriminate|].
      intros _. unfold cube_size_ok, size, len. rewrite Ht. exact Hn. }
    destruct (rows3_exists (table l) n0 n1 n2 Ht Htw) as [t Hrows].
    rewrite (write_valid lib h fs ref path d _ _ _ _ Hnorm Hs0 Hs1 Hval).
    rewrite (serialise_lone_3D d (name l) _ (LUT_default lib LUT3x1D) l
               n0 n1 n2 t Hds Hdw Ht Htw Hrows).
    cbn [fst snd]. split; [reflexivity|].
    rewrite Hc1, app_nil_l.
    rewrite (read_back_3D lib _ path d (name l) (comments l) (domain l)
               (table l) t n0 n1 n2 (written_file_read _ _ _) Hnm Hcms
               Hds Hdw Ht Htw Hrows)
      by (assumption || lia).
    unfold rounded. rewrite Hcls. reflexivity.
Qed.

Lemma C1_witness :
  (snd (write_LUT_Cinespace sample_lib 0 (txt "lut.csp") 7
          ([ObjLUT sample_shaper], no_files)) = Ok true
   /\ read_LUT_Cinespace sample_lib
        (snd (fst (write_LUT_Cinespace sample_lib 0 (txt "lut.csp") 7
                     ([ObjLUT sample_shaper], no_files)))) (txt "lut.csp")
      = Ok (Single (rounded 7 sample_shaper)))
  /\ (snd (write_LUT_Cinespace sample_lib 0 (txt "lut.csp") 7
             ([ObjLUT sample_cube], no_files)) = Ok true
      /\ read_LUT_Cinespace sample_lib
           (snd (fst (write_LUT_Cinespace sample_lib 0 (txt "lut.csp") 7
                        ([ObjLUT sample_cube], no_files)))) (txt "lut.csp")
         = Ok (Single (rounded 7 sample_cube))).
Proof.
  split.
  - apply (C1_round_trip sample_lib [ObjLUT sample_shaper] no_files 0
             (txt "lut.csp") 7 sample_shaper); try reflexivity.
    + exists 3. split; [reflexivity | simpl; lia].
    + repeat split; discriminate.
    + repeat (apply Forall_cons; [repeat split; discriminate|]).
      apply Forall_nil.
  - apply (C1_round_trip sample_lib [ObjLUT sample_cube] no_files 0
             (txt "lut.csp") 7 sample_cube); try reflexivity.
    + exists 2, 2, 2. unfold int64_max. repeat split; simpl; lia.
    + repeat split; discriminate.
    + repeat (apply Forall_cons; [repeat split; discriminate|]).
      apply Forall_nil.
Defined.

(** C1, counterexample.  A [LUT3x1D] of size 2 without a name and with one
    comment: the empty name line is dropped with the blank lines when the
    file is read, the comment is taken for the name, and the comments come
    back empty. *)
Lemma C1_counterexample :
  let st := write_LUT_Cinespace sample_lib 0 (txt "lut.csp") 7
              ([ObjLUT nameless_shaper], no_files) in
  snd st = Ok true
  /\ size nameless_shaper = 2
  /\ is_domain_explicit nameless_shaper = false
  /\ rounded 7 nameless_shaper = nameless_shaper
  /\ name nameless_shaper = []
  /\ comments nameless_shaper = [txt "graded"]
  /\ read_LUT_Cinespace sample_lib (snd (fst st)) (txt "lut.csp")
     = Ok (Single (mk_LUT LUT3x1D (table nameless_shaper) (txt "graded")
                     (domain nameless_shaper) [])).
Proof. vm_compute. repeat split. Qed.

End RoundTrip.

(** * Further properties of the reader and of the writer *)

(** The reader from the header to the table section, on the lines it keeps
    (stripped, the blank ones dropped). *)
Definition sections_of_lines (lines : list str) : result sections :=
  (header <- line_at lines 0 ;;
   _ <- rassert (str_eqb header (txt "CSPLUTV100")) InvalidHeaderError ;;
   kind <- line_at lines 1 ;;
   _ <- rassert (str_eqb kind (txt "1D") || str_eqb kind (txt "3D"))
                InvalidKindError ;;
   let is_3D := str_eqb kind (txt "3D") in
   let seek := 2%nat in
   let '(i, metadata) := scan_metadata (skipn 2 lines) 0 false [] in
   let seek := (seek + i)%nat in
   let '(title, comments) := _parse_metadata_section metadata in
   let seek := (seek + 1)%nat in
   pre_LUT <- _parse_domain_section (firstn 9 (skipn seek lines)) ;;
   let seek := (seek + 9)%nat in
   ' (size, table) <- _parse_table_section (skipn seek lines) ;;
   Ok (mk_sections is_3D title comments pre_LUT size table))%result.

(** The lines of a file that the reader keeps. *)
Definition kept_lines (content : str) : list str :=
  PyFacts.normalise_lines (readlines content).

(** A line that is neither of the two metadata markers. *)
Definition no_marker (l : str) : Prop :=
  l <> txt "BEGIN METADATA" /\ l <> txt "END METADATA".

(** A file whose first line is not the magic line, a file without a kind
    line, and a file of kind 2D. *)
Definition bad_header_file : str :=
  PyFacts.unlines (map txt [ "CSPLUTV101"; "1D" ]%string).

Definition header_only_file : str :=
  PyFacts.unlines (map txt [ ""; "  CSPLUTV100  "; "" ]%string).

Definition bad_kind_file : str :=
  PyFacts.unlines (map txt [ "CSPLUTV100"; "2D"; "" ]%string).

(** The lines after the first [BEGIN METADATA], later such lines left out:
    what the metadata loop collects when it meets no [END METADATA]. *)
Fixpoint after_begin (ls : list str) : list str :=
  match ls with
  | [] => []
  | l :: r =>
      if str_eqb l (txt "BEGIN METADATA")
      then filter (fun x => negb (str_eqb x (txt "BEGIN METADATA"))) r
      else after_begin r
  end.

(** A file with a line between the kind and the metadata block, and a file
    with one line in the place of the metadata block. *)
Definition early_line_file : str :=
  PyFacts.unlines (map txt
    [ "CSPLUTV100"; "1D"; "# exported"; "";
      "BEGIN METADATA"; "ramp"; "first"; "END METADATA"; "";
      "2"; "0.0 1.0"; "0.0 1.0";
      "2"; "0.0 1.0"; "0.0 1.0";
      "2"; "0.0 1.0"; "0.0 1.0"; "";
      "2"; "0.0 0.0 0.0"; "1.0 1.0 1.0" ]%string).

Definition open_metadata_file : str :=
  PyFacts.unlines (map txt
    [ "CSPLUTV100"; "1D"; "";
      "a ramp"; "";
      "2"; "0.0 1.0"; "0.0 1.0";
      "2"; "0.0 1.0"; "0.0 1.0";
      "2"; "0.0 1.0"; "0.0 1.0"; "";
      "2"; "0.0 0.0 0.0"; "1.0 1.0 1.0" ]%string).

(** A row of the pre-LUT brought to the width [w] with NaN. *)
Definition padded (w : nat) (x : list float) : list float :=
  x ++ repeat nan (w - List.length x).

(** A shaper block whose red channel has three samples and whose other
    channels have two, and one whose size lines say two although the red
    channel has three samples. *)
Definition ragged_block : list str :=
  map txt [ "3"; "0.0 0.5 1.0"; "0.0 0.25 1.0";
            "2"; "0.0 1.0"; "0.0 1.0";
            "2"; "0.0 1.0"; "0.0 1.0" ]%string.

Definition long_row_block : list str :=
  map txt [ "2"; "0.0 0.5 1.0"; "0.0 0.25 1.0";
            "2"; "0.0 1.0"; "0.0 1.0";
            "2"; "0.0 1.0"; "0.0 1.0" ]%string.

(** A file of kind 3D with a shaper of three samples per channel, a file of
    kind 1D with such a shaper and a table of three rows, and a file of kind
    3D whose size line has one integer. *)
Definition shaper_cube_file : str :=
  PyFacts.unlines (map txt
    [ "CSPLUTV100"; "3D"; "";
      "BEGIN METADATA"; "look"; "graded"; "END METADATA"; "";
      "3"; "0.0 0.5 1.0"; "0.0 0.25 1.0";
      "2"; "0.0 1.0"; "0.0 1.0";
      "2"; "0.0 1.0"; "0.0 1.0"; "";
      "2 2 2";
      "0.0 0.0 0.0"; "1.0 0.0 0.0"; "0.0 1.0 0.0"; "1.0 1.0 0.0";
      "0.0 0.0 1.0"; "1.0 0.0 1.0"; "0.0 1.0 1.0"; "1.0 1.0 1.0" ]%string).

Definition shaper_table_file : str :=
  PyFacts.unlines (map txt
    [ "CSPLUTV100"; "1D"; "";
      "BEGIN METADATA"; "look"; "graded"; "END METADATA"; "";
      "3"; "0.0 0.5 1.0"; "0.0 0.25 1.0";
      "2"; "0.0 1.0"; "0.0 1.0";
      "2"; "0.0 1.0"; "0.0 1.0"; "";
      "3";
      "0.0 0.0 0.0"; "0.5 0.5 0.5"; "1.0 1.0 1.0" ]%string).

Definition one_size_file : str :=
  PyFacts.unlines (map txt
    [ "CSPLUTV100"; "3D"; "";
      "BEGIN METADATA"; "look"; "END METADATA"; "";
      "2"; "0.0 1.0"; "0.0 1.0";
      "2"; "0.0 1.0"; "0.0 1.0";
      "2"; "0.0 1.0"; "0.0 1.0"; "";
      "2";
      "0.0 0.0 0.0"; "1.0 1.0 1.0" ]%string).

(** The file [early_line_file] with other blank lines and other white space
    around its lines. *)
Definition early_line_file_spaced : str :=
  PyFacts.unlines (map txt
    [ ""; "CSPLUTV100"; "  1D"; "# exported  ";
      "BEGIN METADATA"; "  ramp"; "first"; "END METADATA";
      "2"; "0.0 1.0"; "0.0 1.0"; "";
      "2"; "0.0 1.0"; "0.0 1.0"; "";
      "2"; "0.0 1.0"; "0.0 1.0";
      "2"; "  0.0 0.0 0.0"; "  1.0 1.0 1.0"; ""; "" ]%string).

(** The shaper block of a shaper with a min/max domain: for each channel
    the size, the domain samples spread evenly from the lower to the upper
    bound, and the table samples as they are. *)
Definition uniform_shaper_text (d : nat) (l0 : LUT) : str :=
  concat (map (fun i =>
    str_of_nat (size l0) ++ nl
    ++ concat (map (fun j =>
                      format_f d
                        (nth i (data (domain l0)) nan
                         + of_int j
                           * (nth (3 + i) (data (domain l0)) nan
                              - nth i (data (domain l0)) nan)
                           / of_int (size l0 - 1))%float
                      ++ txt " ")
                   (seq 0 (size l0)))
    ++ nl
    ++ concat (map (fun j =>
                      format_f d (nth (j * 3 + i) (data (table l0)) nan)
                      ++ txt " ")
                   (seq 0 (size l0)))
    ++ nl) (seq 0 3)).

(** The table block of a cube: a blank line, the three sizes, and the rows
    [t] of the flattened table. *)
Definition cube_text (d n0 n1 n2 : nat) (t : ndarray) : str :=
  PyFacts.unlines
    ([[]; PyFacts.join_sp [str_of_nat n0; str_of_nat n1; str_of_nat n2]]
     ++ row_lines d (data t)).

(** A [LUT3x1D] whose table has two numbers per row. *)
Definition two_column_shaper : LUT :=
  mk_LUT LUT3x1D
    {| shape := [2; 2]; data := [0; 0; 1; 1]%float |}
    (txt "two columns") unity_range [txt "graded"].

(** Sample [j] of channel [i] of the domain that the writer spreads evenly
    between the bounds of [l0], and that domain, sample by sample. *)
Definition spread (l0 : LUT) (i j : nat) : float :=
  (nth i (data (domain l0)) nan
   + of_int j
     * (nth (3 + i) (data (domain l0)) nan - nth i (data (domain l0)) nan)
     / of_int (size l0 - 1))%float.

Definition spread_domain (l0 : LUT) : ndarray :=
  {| shape := [size l0; 3];
     data := concat (map (fun j => map (fun i => spread l0 i j) (seq 0 3))
                         (seq 0 (size l0))) |}.

(** The lines of the shaper block of a shaper with a min/max domain, as
    they are written (a space after every number) and as the reader keeps
    them. *)
Definition spaced (ts : list str) : str :=
  concat (map (fun t => t ++ txt " ") ts).

Definition shaper_numbers (d : nat) (l0 : LUT) (i : nat)
  : list str * list str :=
  (map (fun j => format_f d (spread l0 i j)) (seq 0 (size l0)),
   map (fun j => format_f d (nth (j * 3 + i) (data (table l0)) nan))
       (seq 0 (size l0))).

Definition shaper_written (d : nat) (l0 : LUT) : list str :=
  concat (map (fun i => [ str_of_nat (size l0);
                          spaced (fst (shaper_numbers d l0 i));
                          spaced (snd (shaper_numbers d l0 i)) ])
              (seq 0 3)).

Definition shaper_kept (d : nat) (l0 : LUT) : list str :=
  concat (map (fun i => [ str_of_nat (size l0);
                          PyFacts.join_sp (fst (shaper_numbers d l0 i));
                          PyFacts.join_sp (snd (shaper_numbers d l0 i)) ])
              (seq 0 3)).

(** A [LUT3x1D] of two rows whose table is [0, 1] and whose domain is not
    the unit one. *)
Definition unit_shaper : LUT :=
  mk_LUT LUT3x1D unity_range (txt "identity")
    {| shape := [2; 3]; data := [-0.5; -0.25; 0; 1.5; 3; 6]%float |}
    [txt "A shaper comment."].

(** A shaper block of [n] samples per channel, sample [j] of the domain of
    channel [i] being [f i j] and that of the table [g i j]: the lines as
    they are written and as the reader keeps them, and the pre-LUT they are
    read as. *)
Definition block_written (d n : nat) (f g : nat -> nat -> float)
  : list str :=
  concat (map (fun i => [ str_of_nat n;
                          spaced (map (fun j => format_f d (f i j)) (seq 0 n));
                          spaced (map (fun j => format_f d (g i j)) (seq 0 n)) ])
              (seq 0 3)).

Definition block_kept (d n : nat) (f g : nat -> nat -> float) : list str :=
  concat (map (fun i => [ str_of_nat n;
                          PyFacts.join_sp
                            (map (fun j => format_f d (f i j)) (seq 0 n));
                          PyFacts.join_sp
                            (map (fun j => format_f d (g i j)) (seq 0 n)) ])
              (seq 0 3)).

Definition block_read (d n : nat) (f g : nat -> nat -> float) : ndarray :=
  {| shape := [6; n];
     data := concat
               (concat
                  (map (fun i => [ map (fun j => reread d (f i j)) (seq 0 n);
                                   map (fun j => reread d (g i j)) (seq 0 n) ])
                       (seq 0 3))) |}.

(** A [LUT3x1D] with an explicit domain of three samples per channel. *)
Definition explicit_shaper : LUT :=
  mk_LUT LUT3x1D
    {| shape := [3; 3];
       data := [0; 0.25; 0.5;  0.5; 0.75; 1;  1; 1.25; 1.5]%float |}
    (txt "explicit")
    {| shape := [3; 3];
       data := [0; 0; 0;  0.25; 0.5; 0.75;  1; 1; 1]%float |}
    [txt "A comment."].

(** What the writer puts in the metadata block, read off its input.  The
    name is that of a lone LUT, or that of the cube of a sequence.  The
    comments are those of the shaper stage and then those of the cube
    stage; where the input has no such stage, those of the LUT the writer
    builds in its place.  The kind is 3D when there is a cube stage. *)
Definition written_name (h : heap) (ref : loc) : str :=
  match deref h ref with
  | Some (ObjLUT l) => name l
  | Some (ObjLUTSequence [_; p1]) =>
      match lut_at h p1 with
      | Some l1 => name l1
      | None => []
      end
  | _ => []
  end.

Definition written_comments (lib : LUTlib) (h : heap) (ref : loc)
  : list str :=
  comments (match shaper_stage lib h ref with
            | Some l0 => l0
            | None => LUT_default lib LUT3x1D
            end)
  ++ comments (match cube_stage h ref with
               | Some l1 => l1
               | None => LUT_default lib LUT3D
               end).

Definition written_kind (h : heap) (ref : loc) : str :=
  match cube_stage h ref with
  | Some _ => txt "3D"
  | None => txt "1D"
  end.

(** A text file as it may come: the lines, each with its own line end, LF,
    CR or CR LF. *)
Definition line_end (e : str) : Prop :=
  e = [LF] \/ e = [CR] \/ e = [CR; LF].

Definition text_with_ends (ls : list (str * str)) : str :=
  concat (map (fun le => fst le ++ snd le) ls).

(** A file of kind 1D written with tabs, blank lines and the three line
    ends. *)
Definition mixed_ends_file : list (str * str) :=
  map (fun le => (txt (fst le), snd le))
    [ ("CSPLUTV100", [CR; LF]); ("  1D", [CR]); ("", [LF]);
      ("BEGIN METADATA", [CR; LF]); ("ramp  ", [CR]);
      ("END METADATA", [LF]); ("", [CR]); ("", [CR; LF]);
      ("2", [CR]); ("0.0 1.0", [CR]); ("0.0 1.0", [CR; LF]);
      ("2", [LF]); ("0.0 1.0", [LF]); ("0.0 1.0", [CR]);
      ("2", [CR]); ("0.0 1.0", [CR; LF]); ("0.0 1.0", [CR; LF]);
      ("", [CR]);
      ("2", [CR]); ("  0.0 0.0 0.0", [CR; LF]); ("  1.0 1.0 1.0", [CR]) ]%string.

(** A LUT under another name. *)
Definition with_name (l : LUT) (nm : str) : LUT :=
  mk_LUT (class_of l) (table l) nm (domain l) (comments l).

Module Coverage.

Import Py Np PyFacts NumFacts NpFacts Dispatch WriterClaims ReaderChecks
  ReaderShape WriterOutput RoundTrip.

(** ** The lines the reader keeps *)

Lemma lstrip_head s :
  lstrip s = [] \/ exists c r, lstrip s = c :: r /\ is_space c = false.
Proof.
  induction s as [|c s IH]; [left; reflexivity|].
  simpl. destruct (is_space c) eqn:E; [exact IH|].
  right. exists c, s. split; [reflexivity | exact E].
Qed.

Lemma lstrip_suffix s : exists sp, s = sp ++ lstrip s.
Proof.
  induction s as [|c s [sp IH]]; [exists []; reflexivity|].
  simpl. destruct (is_space c).
  - exists (c :: sp). simpl. f_equal. exact IH.
  - exists []. reflexivity.
Qed.

(** What [strip] returns is empty, or begins and ends with a character that
    is not white space. *)
Lemma strip_shape s :
  strip s = []
  \/ (exists c, strip s = [c] /\ is_space c = false)
  \/ (exists c m d, strip s = (c :: m) ++ [d]
                    /\ is_space c = false /\ is_space d = false).
Proof.
  unfold strip, rstrip.
  destruct (lstrip_head s) as [-> | (c & r & Hl & Hc)]; [left; reflexivity|].
  rewrite Hl.
  destruct (lstrip_head (rev (c :: r))) as [-> | (d & t & Ht & Hd)];
    [left; reflexivity|].
  rewrite Ht. right.
  destruct (lstrip_suffix (rev (c :: r))) as [sp Hsp]. rewrite Ht in Hsp.
  apply (f_equal (@rev ascii)) in Hsp. rewrite rev_involutive in Hsp.
  rewrite rev_app_distr in Hsp. simpl rev in Hsp |- *.
  destruct (rev t) as [|c' m] eqn:Et.
  - left. exists d. split; [reflexivity | exact Hd].
  - right. simpl in Hsp. injection Hsp as <- _.
    exists c, m, d. repeat split; assumption.
Qed.

Lemma strip_idem s : strip (strip s) = strip s.
Proof.
  destruct (strip_shape s) as [-> | [(c & -> & Hc) | (c & m & d & -> & Hc & Hd)]].
  - reflexivity.
  - apply strip_single. exact Hc.
  - apply strip_tight; assumption.
Qed.

Lemma kept_stripped content :
  Forall (fun l => strip l = l /\ l <> []) (kept_lines content).
Proof.
  unfold kept_lines, normalise_lines. apply Forall_forall. intros l Hl.
  apply in_map_iff in Hl as (x & <- & Hx). apply filter_In in Hx as [_ Hx].
  split; [apply strip_idem|].
  intros E. rewrite E in Hx. discriminate Hx.
Qed.

Lemma kept_nonempty content :
  kept_lines content <> [] -> readlines content <> [].
Proof.
  unfold kept_lines. intros H E. rewrite E in H. apply H. reflexivity.
Qed.

Lemma read_sections_kept content :
  readlines content <> [] ->
  read_sections content = sections_of_lines (kept_lines content).
Proof.
  intros Hne. unfold read_sections. cbv zeta.
  assert ((0 <? List.length (readlines content)) = true) as ->
    by (destruct (readlines content); [congruence | reflexivity]).
  rewrite rassert_true, rbind_Ok. reflexivity.
Qed.

(** ** The errors of the sections *)

Lemma rmap_Err {A B} (f : A -> result B) l e :
  rmap f l = Err e -> exists x, In x l /\ f x = Err e.
Proof.
  induction l as [|x l IH]; simpl; [discriminate|].
  destruct (f x) as [y|e'] eqn:E.
  - destruct (rmap f l) as [ys|e'']; [discriminate|].
    intros [= <-]. destruct (IH eq_refl) as (z & Hz & Ez).
    exists z. split; [right; exact Hz | exact Ez].
  - intros [= <-]. exists x. split; [left; reflexivity | exact E].
Qed.

Lemma line_at_error lines i e : line_at lines i = Err e -> e = IndexError.
Proof.
  unfold line_at. destruct (nth_error lines i); simpl; congruence.
Qed.

Lemma as_float_array_error toks e :
  as_float_array toks = Err e -> e = ValueError.
Proof.
  unfold as_float_array. intros H.
  destruct (rmap _ toks) as [xs|e'] eqn:E; [discriminate|].
  simpl in H. injection H as <-.
  apply rmap_Err in E as (t & _ & Et).
  destruct (float_of_str t); simpl in Et; congruence.
Qed.

Lemma as_float_array2_error rws e :
  as_float_array2 rws = Err e -> e = ValueError.
Proof.
  unfold as_float_array2. intros H. destruct rws as [|r0 rest]; [discriminate|].
  destruct (forallb _ (r0 :: rest)); [|congruence].
  destruct (rmap _ (concat (r0 :: rest))) as [xs|e'] eqn:E; [discriminate|].
  simpl in H. injection H as <-.
  apply rmap_Err in E as (t & _ & Et).
  destruct (float_of_str t); simpl in Et; congruence.
Qed.

Lemma as_int_array_error toks e :
  as_int_array toks = Err e -> e = ValueError \/ e = OverflowError.
Proof.
  unfold as_int_array. intros E.
  apply rmap_Err in E as (t & _ & Et).
  destruct (int_of_str t) as [z|]; simpl in Et; [|left; congruence].
  destruct (in_int64 z); simpl in Et; [discriminate | right; congruence].
Qed.

Lemma pad_row_error w r e : pad_row w r = Err e -> e = ValueError.
Proof.
  unfold pad_row. cbv zeta.
  destruct (_ =? w)%Z; [discriminate|].
  destruct (_ <? w)%Z; [discriminate | congruence].
Qed.

Lemma rbind_Err_inv {A B} (r : result A) (k : A -> result B) e :
  rbind r k = Err e -> r = Err e \/ exists a, r = Ok a /\ k a = Err e.
Proof.
  destruct r as [a|e']; simpl; intros H.
  - right. exists a. split; [reflexivity | exact H].
  - left. injection H as ->. reflexivity.
Qed.

(** Take the first step of a chain of binds that failed. *)
Ltac err_step H a E :=
  apply rbind_Err_inv in H; destruct H as [H | (a & E & H)];
  [|cbv beta in H].

Lemma parse_domain_error lines e :
  _parse_domain_section lines = Err e -> e = IndexError \/ e = ValueError.
Proof.
  unfold _parse_domain_section. intros H.
  err_step H sizes E1.
  { apply rmap_Err in H as (i & _ & Ei). err_step Ei l El.
    - left. exact (line_at_error _ _ _ Ei).
    - destruct (int_of_str l); simpl in Ei; [discriminate|].
      right. congruence. }
  err_step H w E2.
  { destruct sizes; simpl in H; [|discriminate]. right. congruence. }
  err_step H pre E3.
  { apply rmap_Err in H as (i & _ & Ei). err_step Ei l El.
    - left. exact (line_at_error _ _ _ Ei).
    - right. exact (as_float_array_error _ _ Ei). }
  err_step H rows_pd E4; [|discriminate].
  apply rmap_Err in H as (r & _ & Er).
  right. exact (pad_row_error _ _ _ Er).
Qed.

Lemma parse_table_error lines e :
  _parse_table_section lines = Err e ->
  e = IndexError \/ e = ValueError \/ e = OverflowError.
Proof.
  unfold _parse_table_section. intros H.
  err_step H l0 E0; [left; exact (line_at_error _ _ _ H)|].
  err_step H sz E1; [right; exact (as_int_array_error _ _ H)|].
  err_step H t E2; [right; left; exact (as_float_array2_error _ _ H)|].
  discriminate.
Qed.

(** After the kind is accepted, the sections fail only as Python does. *)
Lemma after_kind_error lines i md e :
  (let '(title, comments) := _parse_metadata_section md in
   pre_LUT <- _parse_domain_section (firstn 9 (skipn (2 + i + 1) lines)) ;;
   ' (size, table) <- _parse_table_section (skipn (2 + i + 1 + 9) lines) ;;
   Ok (mk_sections (str_eqb (nth 1 lines []) (txt "3D")) title comments
         pre_LUT size table))%result = Err e ->
  e = IndexError \/ e = ValueError \/ e = OverflowError.
Proof.
  destruct (_parse_metadata_section md) as [t c]. intros H.
  err_step H p E1;
    [destruct (parse_domain_error _ _ H) as [-> | ->]; auto|].
  err_step H st E2; [exact (parse_table_error _ _ H)|].
  destruct st. discriminate.
Qed.

Lemma sections_after_kind header kind rest e :
  str_eqb header (txt "CSPLUTV100") = true ->
  str_eqb kind (txt "1D") || str_eqb kind (txt "3D") = true ->
  sections_of_lines (header :: kind :: rest) = Err e ->
  e = IndexError \/ e = ValueError \/ e = OverflowError.
Proof.
  intros Hh Hk. unfold sections_of_lines.
  change (line_at (header :: kind :: rest) 0) with (Ok header).
  rewrite rbind_Ok. cbv beta. rewrite Hh, rassert_true, rbind_Ok. cbv beta.
  change (line_at (header :: kind :: rest) 1) with (Ok kind).
  rewrite rbind_Ok. cbv beta. rewrite Hk, rassert_true, rbind_Ok.
  cbv beta zeta.
  destruct (scan_metadata _ 0 false []) as [i md].
  apply (after_kind_error (header :: kind :: rest) i md e).
Qed.

(** ** The header and the kind *)

Section Front.

Variable lib : LUTlib.
Variables (fs : filesystem) (path content : str).
Hypothesis Hfile : fs path = Some content.

Lemma read_kept :
  kept_lines content <> [] ->
  read_LUT_Cinespace lib fs path
  = (s <- sections_of_lines (kept_lines content) ;;
     _ <- rassert (product (table_size s)
                   =? Z.of_nat (len (flat_table s)))%Z
                  TableSizeMismatchError ;;
     assemble lib s)%result.
Proof.
  intros Hne. rewrite (read_unfold lib fs path content Hfile).
  rewrite (read_sections_kept content (kept_nonempty content Hne)).
  reflexivity.
Qed.

Lemma read_bad_header h rest :
  kept_lines content = h :: rest -> h <> txt "CSPLUTV100" ->
  read_LUT_Cinespace lib fs path = Err InvalidHeaderError.
Proof.
  intros Hk Hh. rewrite read_kept by (rewrite Hk; discriminate).
  rewrite Hk. unfold sections_of_lines.
  change (line_at (h :: rest) 0) with (Ok h). rewrite rbind_Ok. cbv beta.
  rewrite (str_eqb_neq _ _ Hh). reflexivity.
Qed.

Lemma read_no_kind :
  kept_lines content = [txt "CSPLUTV100"] ->
  read_LUT_Cinespace lib fs path = Err IndexError.
Proof.
  intros Hk. rewrite read_kept by (rewrite Hk; discriminate).
  rewrite Hk. reflexivity.
Qed.

Lemma read_bad_kind kind more :
  kept_lines content = txt "CSPLUTV100" :: kind :: more ->
  kind <> txt "1D" -> kind <> txt "3D" ->
  read_LUT_Cinespace lib fs path = Err InvalidKindError.
Proof.
  intros Hk H1 H3. rewrite read_kept by (rewrite Hk; discriminate).
  rewrite Hk. unfold sections_of_lines.
  change (line_at (txt "CSPLUTV100" :: kind :: more) 0)
    with (Ok (txt "CSPLUTV100")).
  rewrite rbind_Ok. cbv beta. rewrite str_eqb_refl, rassert_true, rbind_Ok.
  cbv beta.
  change (line_at (txt "CSPLUTV100" :: kind :: more) 1) with (Ok kind).
  rewrite rbind_Ok. cbv beta.
  rewrite (str_eqb_neq _ _ H1), (str_eqb_neq _ _ H3). reflexivity.
Qed.

(** Once the header and the kind are accepted, the reader fails only with
    the table size error or as Python does. *)
Lemma read_after_kind kind more e :
  kept_lines content = txt "CSPLUTV100" :: kind :: more ->
  kind = txt "1D" \/ kind = txt "3D" ->
  read_LUT_Cinespace lib fs path = Err e ->
  e = TableSizeMismatchError \/ python_error e.
Proof.
  intros Hk Hkind. rewrite read_kept by (rewrite Hk; discriminate).
  rewrite Hk. intros H.
  err_step H s Es.
  { right.
    destruct (sections_after_kind (txt "CSPLUTV100") kind more e
                (str_eqb_refl _)
                ltac:(destruct Hkind as [-> | ->]; reflexivity) H)
      as [-> | [-> | ->]]; unfold python_error; auto 6. }
  err_step H u Eu.
  { left. destruct (_ =? _)%Z; simpl in H; congruence. }
  right. exact (assemble_error lib s e H).
Qed.

End Front.

(** X1.  When the file has a line that is not blank, the reader fails with
    [InvalidHeaderError] exactly when the first such line, stripped, is not
    [CSPLUTV100]. *)
Theorem X1_header_checked
  (lib : LUTlib) (fs : filesystem) (path content h : str) (rest : list str) :
  fs path = Some content ->
  kept_lines content = h :: rest ->
  (read_LUT_Cinespace lib fs path = Err InvalidHeaderError
   <-> h <> txt "CSPLUTV100").
Proof.
  intros Hfile Hk. split.
  - intros Herr ->. destruct rest as [|kind more].
    + rewrite (read_no_kind lib fs path content Hfile Hk) in Herr.
      discriminate Herr.
    + destruct (list_eq_dec ascii_dec kind (txt "1D")) as [H1 | H1];
        [|destruct (list_eq_dec ascii_dec kind (txt "3D")) as [H3 | H3]].
      * destruct (read_after_kind lib fs path content Hfile kind more _ Hk
                    (or_introl H1) Herr) as [H | H];
          [discriminate H | unfold python_error in H; intuition discriminate].
      * destruct (read_after_kind lib fs path content Hfile kind more _ Hk
                    (or_intror H3) Herr) as [H | H];
          [discriminate H | unfold python_error in H; intuition discriminate].
      * rewrite (read_bad_kind lib fs path content Hfile kind more Hk H1 H3)
          in Herr.
        discriminate Herr.
  - apply (read_bad_header lib fs path content Hfile h rest Hk).
Qed.

Lemma X1_witness :
  read_LUT_Cinespace sample_lib (fun _ => Some bad_header_file)
    (txt "bad.csp")
  = Err InvalidHeaderError.
Proof.
  apply (proj2 (X1_header_checked sample_lib (fun _ => Some bad_header_file)
                  (txt "bad.csp") bad_header_file (txt "CSPLUTV101")
                  [txt "1D"] eq_refl eq_refl)).
  discriminate.
Defined.

(** X2.  After an accepted header: a file without a second line that is
    not blank fails with [IndexError]; with such a line, the reader fails
    with [InvalidKindError] exactly when the line, stripped, is neither [1D]
    nor [3D]. *)
Theorem X2_kind_checked
  (lib : LUTlib) (fs : filesystem) (path content : str) (rest : list str) :
  fs path = Some content ->
  kept_lines content = txt "CSPLUTV100" :: rest ->
  (rest = [] -> read_LUT_Cinespace lib fs path = Err IndexError)
  /\ (forall kind more, rest = kind :: more ->
        (read_LUT_Cinespace lib fs path = Err InvalidKindError
         <-> kind <> txt "1D" /\ kind <> txt "3D")).
Proof.
  intros Hfile Hk. split.
  - intros ->. apply (read_no_kind lib fs path content Hfile Hk).
  - intros kind more ->. split.
    + intros Herr. split; intros ->.
      * destruct (read_after_kind lib fs path content Hfile _ more _ Hk
                    (or_introl eq_refl) Herr) as [H | H];
          [discriminate H | unfold python_error in H; intuition discriminate].
      * destruct (read_after_kind lib fs path content Hfile _ more _ Hk
                    (or_intror eq_refl) Herr) as [H | H];
          [discriminate H | unfold python_error in H; intuition discriminate].
    + intros [H1 H3].
      apply (read_bad_kind lib fs path content Hfile kind more Hk H1 H3).
Qed.

Lemma X2_witness :
  read_LUT_Cinespace sample_lib (fun _ => Some header_only_file)
    (txt "h.csp") = Err IndexError
  /\ read_LUT_Cinespace sample_lib (fun _ => Some bad_kind_file)
       (txt "k.csp") = Err InvalidKindError.
Proof.
  split.
  - apply (proj1 (X2_kind_checked sample_lib (fun _ => Some header_only_file)
                    (txt "h.csp") header_only_file [] eq_refl eq_refl)).
    reflexivity.
  - apply (proj2 (proj2 (X2_kind_checked sample_lib
                           (fun _ => Some bad_kind_file) (txt "k.csp")
                           bad_kind_file [txt "2D"] eq_refl eq_refl)
                    (txt "2D") [] eq_refl)).
    split; discriminate.
Defined.

(** ** The metadata block *)

Lemma scan_before_begin pre rest : forall i acc,
  Forall (fun l => strip l = l /\ no_marker l) pre ->
  scan_metadata (pre ++ rest) i false acc
  = scan_metadata rest (i + List.length pre) false acc.
Proof.
  induction pre as [|l pre IH]; intros i acc H.
  - simpl. rewrite Nat.add_0_r. reflexivity.
  - inversion H as [|? ? [Hs [Hb He]] H']; subst.
    simpl app. cbn [scan_metadata]. rewrite Hs.
    rewrite (str_eqb_neq _ _ Hb), (str_eqb_neq _ _ He).
    rewrite IH by exact H'. simpl List.length. f_equal. lia.
Qed.

Lemma scan_until_end ms rest : forall i acc,
  Forall (fun l => strip l = l /\ no_marker l) ms ->
  scan_metadata (ms ++ txt "END METADATA" :: rest) i true acc
  = (i + List.length ms, acc ++ ms).
Proof.
  induction ms as [|m ms IH]; intros i acc H.
  - simpl. rewrite Nat.add_0_r, app_nil_r. reflexivity.
  - inversion H as [|? ? [Hs [Hb He]] H']; subst.
    simpl app. cbn [scan_metadata]. rewrite Hs.
    rewrite (str_eqb_neq _ _ Hb), (str_eqb_neq _ _ He).
    rewrite IH by exact H'. simpl List.length.
    rewrite <- app_assoc. simpl app. f_equal. lia.
Qed.

Lemma scan_without_end body : forall i b acc,
  Forall (fun l => strip l = l /\ l <> txt "END METADATA") body ->
  scan_metadata body i b acc
  = (0, acc ++ (if b
                then filter (fun x => negb (str_eqb x (txt "BEGIN METADATA")))
                            body
                else after_begin body)).
Proof.
  induction body as [|l body IH]; intros i b acc H.
  - simpl. destruct b; rewrite app_nil_r; reflexivity.
  - inversion H as [|? ? [Hs He] H']; subst.
    cbn [scan_metadata]. rewrite Hs, (str_eqb_neq _ _ He).
    cbn [after_begin filter].
    destruct (str_eqb l (txt "BEGIN METADATA")) eqn:Eb.
    + rewrite IH by exact H'. destruct b; reflexivity.
    + rewrite IH by exact H'. destruct b; cbn [negb].
      * rewrite <- app_assoc. reflexivity.
      * reflexivity.
Qed.

Lemma stripped_sublist content (P : str -> Prop) front ls back :
  kept_lines content = front ++ ls ++ back ->
  Forall P ls -> Forall (fun l => strip l = l /\ P l) ls.
Proof.
  intros Hk HP. pose proof (kept_stripped content) as Hs. rewrite Hk in Hs.
  apply Forall_app in Hs as [_ Hs]. apply Forall_app in Hs as [Hs _].
  apply Forall_forall. intros l Hl. split.
  - apply (proj1 (Forall_forall _ _) Hs l Hl).
  - apply (proj1 (Forall_forall _ _) HP l Hl).
Qed.

Lemma sections_after_scan kind body i md :
  kind = txt "1D" \/ kind = txt "3D" ->
  scan_metadata body 0 false [] = (i, md) ->
  sections_of_lines (txt "CSPLUTV100" :: kind :: body)
  = (pre_LUT <- _parse_domain_section (firstn 9 (skipn (i + 1) body)) ;;
     ' (size, table) <- _parse_table_section (skipn (i + 1 + 9) body) ;;
     Ok (mk_sections (str_eqb kind (txt "3D")) (hd [] md) (tl md)
           pre_LUT size table))%result.
Proof.
  intros Hkind Hscan. unfold sections_of_lines.
  change (line_at (txt "CSPLUTV100" :: kind :: body) 0)
    with (Ok (txt "CSPLUTV100")).
  rewrite rbind_Ok. cbv beta. rewrite str_eqb_refl, rassert_true, rbind_Ok.
  cbv beta.
  change (line_at (txt "CSPLUTV100" :: kind :: body) 1) with (Ok kind).
  rewrite rbind_Ok. cbv beta.
  assert ((str_eqb kind (txt "1D") || str_eqb kind (txt "3D")) = true) as ->
    by (destruct Hkind as [-> | ->]; reflexivity).
  rewrite rassert_true, rbind_Ok. cbv beta zeta.
  change (skipn 2 (txt "CSPLUTV100" :: kind :: body)) with body.
  rewrite Hscan.
  change (skipn (2 + i + 1) (txt "CSPLUTV100" :: kind :: body))
    with (skipn (i + 1) body).
  change (skipn (2 + i + 1 + 9) (txt "CSPLUTV100" :: kind :: body))
    with (skipn (i + 1 + 9) body).
  destruct md; reflexivity.
Qed.

Lemma sections_of_block kind pre ms rest :
  kind = txt "1D" \/ kind = txt "3D" ->
  Forall (fun l => strip l = l /\ no_marker l) pre ->
  Forall (fun l => strip l = l /\ no_marker l) ms ->
  sections_of_lines
    (txt "CSPLUTV100" :: kind
     :: pre ++ txt "BEGIN METADATA" :: ms ++ txt "END METADATA" :: rest)
  = (pre_LUT <- _parse_domain_section (firstn 9 rest) ;;
     ' (size, table) <- _parse_table_section (skipn 9 rest) ;;
     Ok (mk_sections (str_eqb kind (txt "3D")) (hd [] ms) (tl ms)
           pre_LUT size table))%result.
Proof.
  intros Hkind Hpre Hms.
  rewrite (sections_after_scan kind _ (List.length pre + 1 + List.length ms)
             ms Hkind).
  - assert (forall k,
              skipn (List.length pre + 1 + List.length ms + 1 + k)
                (pre ++ txt "BEGIN METADATA" :: ms
                 ++ txt "END METADATA" :: rest)
              = skipn k rest) as Hskip.
    { intros k.
      replace (pre ++ txt "BEGIN METADATA" :: ms
               ++ txt "END METADATA" :: rest)
        with ((pre ++ txt "BEGIN METADATA" :: ms ++ [txt "END METADATA"])
              ++ rest)
        by (rewrite <- !app_assoc; cbn [app]; rewrite <- app_assoc;
            reflexivity).
      rewrite Nat.add_comm, <- skipn_skipn. f_equal.
      apply skipn_length_app.
      rewrite !length_app. cbn [List.length]. rewrite !length_app.
      cbn [List.length]. lia. }
    rewrite (Hskip 9).
    replace (List.length pre + 1 + List.length ms + 1)
      with (List.length pre + 1 + List.length ms + 1 + 0) by lia.
    rewrite (Hskip 0). reflexivity.
  - rewrite (scan_before_begin pre _ 0 [] Hpre).
    rewrite scan_metadata_begin.
    rewrite (scan_until_end ms rest _ [] Hms).
    f_equal. lia.
Qed.

(** X3.  The lines between the kind and [BEGIN METADATA] are passed over.
    The lines between the two markers are the metadata: the first one is
    the title, the others the comments.  The nine lines of the shaper block
    are those that follow [END METADATA], and the table section is what
    follows them. *)
Theorem X3_metadata_block
  (content kind : str) (pre ms rest : list str) :
  kept_lines content
  = [txt "CSPLUTV100"; kind]
    ++ (pre ++ [txt "BEGIN METADATA"] ++ ms ++ [txt "END METADATA"])
    ++ rest ->
  kind = txt "1D" \/ kind = txt "3D" ->
  Forall no_marker pre -> Forall no_marker ms ->
  read_sections content
  = (pre_LUT <- _parse_domain_section (firstn 9 rest) ;;
     ' (size, table) <- _parse_table_section (skipn 9 rest) ;;
     Ok (mk_sections (str_eqb kind (txt "3D")) (hd [] ms) (tl ms)
           pre_LUT size table))%result.
Proof.
  intros Hk Hkind Hpre Hms.
  assert (Forall (fun l => strip l = l /\ no_marker l) pre) as Hpre'.
  { apply (stripped_sublist content no_marker [txt "CSPLUTV100"; kind] pre
             ([txt "BEGIN METADATA"] ++ ms ++ [txt "END METADATA"] ++ rest));
      [|exact Hpre].
    rewrite Hk, <- !app_assoc. reflexivity. }
  assert (Forall (fun l => strip l = l /\ no_marker l) ms) as Hms'.
  { apply (stripped_sublist content no_marker
             ([txt "CSPLUTV100"; kind] ++ pre ++ [txt "BEGIN METADATA"]) ms
             ([txt "END METADATA"] ++ rest));
      [|exact Hms].
    rewrite Hk, <- !app_assoc. reflexivity. }
  assert (kept_lines content
          = txt "CSPLUTV100" :: kind
            :: pre ++ txt "BEGIN METADATA" :: ms
               ++ txt "END METADATA" :: rest) as Hk'.
  { rewrite Hk. cbn [app]. do 2 f_equal.
    rewrite <- !app_assoc. cbn [app]. rewrite <- !app_assoc. reflexivity. }
  rewrite read_sections_kept
    by (apply kept_nonempty; rewrite Hk'; discriminate).
  rewrite Hk'.
  apply (sections_of_block kind pre ms rest Hkind Hpre' Hms').
Qed.

Lemma X3_witness :
  exists p sz t,
    read_sections early_line_file
    = Ok (mk_sections false (txt "ramp") [txt "first"] p sz t).
Proof.
  assert (read_sections early_line_file
          = (pre_LUT <- _parse_domain_section
                          (firstn 9 (map txt
                             [ "2"; "0.0 1.0"; "0.0 1.0";
                               "2"; "0.0 1.0"; "0.0 1.0";
                               "2"; "0.0 1.0"; "0.0 1.0";
                               "2"; "0.0 0.0 0.0"; "1.0 1.0 1.0" ]%string)) ;;
             ' (size, table) <- _parse_table_section
                                  (skipn 9 (map txt
                                     [ "2"; "0.0 1.0"; "0.0 1.0";
                                       "2"; "0.0 1.0"; "0.0 1.0";
                                       "2"; "0.0 1.0"; "0.0 1.0";
                                       "2"; "0.0 0.0 0.0";
                                       "1.0 1.0 1.0" ]%string)) ;;
             Ok (mk_sections (str_eqb (txt "1D") (txt "3D"))
                   (hd [] [txt "ramp"; txt "first"])
                   (tl [txt "ramp"; txt "first"]) pre_LUT size table))%result)
    as H.
  { apply (X3_metadata_block early_line_file (txt "1D") [txt "# exported"]
             [txt "ramp"; txt "first"]).
    - vm_compute. reflexivity.
    - left. reflexivity.
    - repeat constructor; discriminate.
    - repeat constructor; discriminate. }
  rewrite H. vm_compute. do 3 eexists. reflexivity.
Defined.

(** X4.  When no line is [END METADATA], the loop runs to the end without
    moving the cursor: the line after the kind is passed over, the shaper
    block is read from the nine lines after it, and the metadata are all the
    lines after the first [BEGIN METADATA], with no title and no comment
    when there is no such line either. *)
Theorem X4_metadata_not_closed (content kind : str) (body : list str) :
  kept_lines content = [txt "CSPLUTV100"; kind] ++ body ->
  kind = txt "1D" \/ kind = txt "3D" ->
  Forall (fun l => l <> txt "END METADATA") body ->
  read_sections content
  = (pre_LUT <- _parse_domain_section (firstn 9 (skipn 1 body)) ;;
     ' (size, table) <- _parse_table_section (skipn 10 body) ;;
     Ok (mk_sections (str_eqb kind (txt "3D"))
           (hd [] (after_begin body)) (tl (after_begin body))
           pre_LUT size table))%result.
Proof.
  intros Hk Hkind Hbody.
  assert (Forall (fun l => strip l = l /\ l <> txt "END METADATA") body)
    as Hbody'.
  { apply (stripped_sublist content (fun l => l <> txt "END METADATA")
             [txt "CSPLUTV100"; kind] body []); [|exact Hbody].
    rewrite Hk, app_nil_r. reflexivity. }
  rewrite read_sections_kept
    by (apply kept_nonempty; rewrite Hk; discriminate).
  rewrite Hk. cbn [app].
  apply (sections_after_scan kind body 0 (after_begin body) Hkind).
  apply (scan_without_end body 0 false [] Hbody').
Qed.

Lemma X4_witness :
  exists p sz t,
    read_sections open_metadata_file
    = Ok (mk_sections false [] [] p sz t).
Proof.
  assert (Forall (fun l => l <> txt "END METADATA")
            (skipn 2 (kept_lines open_metadata_file))) as Hbody
    by (vm_compute; repeat constructor; discriminate).
  pose proof (X4_metadata_not_closed open_metadata_file (txt "1D")
                (skipn 2 (kept_lines open_metadata_file))
                ltac:(vm_compute; reflexivity) (or_introl eq_refl) Hbody)
    as H.
  rewrite H. vm_compute. do 3 eexists. reflexivity.
Defined.

(** ** The shaper block *)

Section ShaperBlock.

Variables (z0 a0 b0 z1 a1 b1 z2 a2 b2 : str) (s0 s1 s2 : Z)
  (x0 y0 x1 y1 x2 y2 : list float).
Hypothesis Hz0 : int_of_str z0 = Some s0.
Hypothesis Hz1 : int_of_str z1 = Some s1.
Hypothesis Hz2 : int_of_str z2 = Some s2.
Hypothesis Ha0 : as_float_array (split a0) = Ok (array1 x0).
Hypothesis Hb0 : as_float_array (split b0) = Ok (array1 y0).
Hypothesis Ha1 : as_float_array (split a1) = Ok (array1 x1).
Hypothesis Hb1 : as_float_array (split b1) = Ok (array1 y1).
Hypothesis Ha2 : as_float_array (split a2) = Ok (array1 x2).
Hypothesis Hb2 : as_float_array (split b2) = Ok (array1 y2).

Let block : list str := [z0; a0; b0; z1; a1; b1; z2; a2; b2].
Let width : Z := Z.max (Z.max s0 s1) s2.

Lemma shaper_block_rows :
  _parse_domain_section block
  = (pre_LUT_padded <- rmap (pad_row width)
                         [array1 x0; array1 y0; array1 x1; array1 y1;
                          array1 x2; array1 y2] ;;
     Ok {| shape := [List.length pre_LUT_padded; Z.to_nat width];
           data := concat pre_LUT_padded |})%result.
Proof.
  unfold _parse_domain_section.
  assert (rmap (fun i => (l <- line_at block i ;;
                          of_option (int_of_str l) ValueError)%result)
               [0; 3; 6] = Ok [s0; s1; s2]) as ->.
  { unfold block. cbn [rmap line_at nth_error of_option rbind].
    rewrite Hz0, Hz1, Hz2. reflexivity. }
  rewrite rbind_Ok. cbv beta.
  assert (max_list [s0; s1; s2] = Ok width) as -> by reflexivity.
  rewrite rbind_Ok. cbv beta.
  assert (rmap (fun i => (l <- line_at block i ;;
                          as_float_array (split l))%result)
               [1; 2; 4; 5; 7; 8]
          = Ok [array1 x0; array1 y0; array1 x1; array1 y1;
                array1 x2; array1 y2]) as ->.
  { unfold block. cbn [rmap line_at nth_error of_option rbind].
    rewrite Ha0, Hb0, Ha1, Hb1, Ha2, Hb2. reflexivity. }
  rewrite rbind_Ok. cbv beta. reflexivity.
Qed.

End ShaperBlock.

Lemma pad_row_fits w x :
  (Z.of_nat (List.length x) <= w)%Z ->
  pad_row w (array1 x) = Ok (padded (Z.to_nat w) x).
Proof.
  intros H. unfold pad_row, padded. cbn [data array1]. cbv zeta.
  destruct (Z.eqb_spec (Z.of_nat (List.length x)) w) as [E | E].
  - replace (Z.to_nat w - List.length x) with 0 by lia.
    simpl. rewrite app_nil_r. reflexivity.
  - replace (Z.of_nat (List.length x) <? w)%Z with true
      by (symmetry; apply Z.ltb_lt; lia).
    do 3 f_equal. lia.
Qed.

Lemma pad_row_too_long w x :
  (w < Z.of_nat (List.length x))%Z -> pad_row w (array1 x) = Err ValueError.
Proof.
  intros H. unfold pad_row. cbn [data array1]. cbv zeta.
  replace (Z.of_nat (List.length x) =? w)%Z with false
    by (symmetry; apply Z.eqb_neq; lia).
  replace (Z.of_nat (List.length x) <? w)%Z with false
    by (symmetry; apply Z.ltb_ge; lia).
  reflexivity.
Qed.

(** X5.  The pre-LUT of a shaper block whose three size lines are integers
    and whose six sample lines are numbers, none of them with more samples
    than the largest size: a matrix of six rows, as wide as the largest of
    the three sizes, each row being the samples of its line followed by NaN
    up to that width.  The sizes count only through their maximum. *)
Theorem X5_shaper_rows_padded
  (z0 a0 b0 z1 a1 b1 z2 a2 b2 : str) (s0 s1 s2 : Z)
  (x0 y0 x1 y1 x2 y2 : list float) :
  int_of_str z0 = Some s0 -> int_of_str z1 = Some s1 ->
  int_of_str z2 = Some s2 ->
  as_float_array (split a0) = Ok (array1 x0) ->
  as_float_array (split b0) = Ok (array1 y0) ->
  as_float_array (split a1) = Ok (array1 x1) ->
  as_float_array (split b1) = Ok (array1 y1) ->
  as_float_array (split a2) = Ok (array1 x2) ->
  as_float_array (split b2) = Ok (array1 y2) ->
  let w := Z.max (Z.max s0 s1) s2 in
  Forall (fun x => (Z.of_nat (List.length x) <= w)%Z)
         [x0; y0; x1; y1; x2; y2] ->
  _parse_domain_section [z0; a0; b0; z1; a1; b1; z2; a2; b2]
  = Ok {| shape := [6; Z.to_nat w];
          data := concat (map (padded (Z.to_nat w))
                              [x0; y0; x1; y1; x2; y2]) |}.
Proof.
  intros Hz0 Hz1 Hz2 Ha0 Hb0 Ha1 Hb1 Ha2 Hb2 w Hfit.
  rewrite (shaper_block_rows z0 a0 b0 z1 a1 b1 z2 a2 b2 s0 s1 s2
             x0 y0 x1 y1 x2 y2 Hz0 Hz1 Hz2 Ha0 Hb0 Ha1 Hb1 Ha2 Hb2).
  fold w.
  assert (rmap (pad_row w)
            (map array1 [x0; y0; x1; y1; x2; y2])
          = Ok (map (padded (Z.to_nat w)) [x0; y0; x1; y1; x2; y2])) as H.
  { rewrite <- (map_map array1 (fun a => padded (Z.to_nat w) (data a))).
    apply rmap_ok. intros a Ha. apply in_map_iff in Ha as (x & <- & Hx).
    apply pad_row_fits. apply (proj1 (Forall_forall _ _) Hfit x Hx). }
  cbn [map] in H. rewrite H, rbind_Ok. cbv beta. reflexivity.
Qed.

Lemma X5_witness :
  _parse_domain_section ragged_block
  = Ok {| shape := [6; 3];
          data := [0; 0.5; 1;  0; 0.25; 1;  0; 1; nan;  0; 1; nan;
                   0; 1; nan;  0; 1; nan]%float |}.
Proof.
  apply (X5_shaper_rows_padded
           (txt "3") (txt "0.0 0.5 1.0") (txt "0.0 0.25 1.0")
           (txt "2") (txt "0.0 1.0") (txt "0.0 1.0")
           (txt "2") (txt "0.0 1.0") (txt "0.0 1.0") 3 2 2
           [0; 0.5; 1]%float [0; 0.25; 1]%float [0; 1]%float [0; 1]%float
           [0; 1]%float [0; 1]%float);
    try (vm_compute; reflexivity).
  repeat constructor; simpl; lia.
Defined.

(** X6.  When a sample line of the shaper block has more samples than the
    largest of the three sizes, the block is refused with [ValueError]: the
    padding width would be negative. *)
Theorem X6_shaper_row_too_long
  (z0 a0 b0 z1 a1 b1 z2 a2 b2 : str) (s0 s1 s2 : Z)
  (x0 y0 x1 y1 x2 y2 : list float) :
  int_of_str z0 = Some s0 -> int_of_str z1 = Some s1 ->
  int_of_str z2 = Some s2 ->
  as_float_array (split a0) = Ok (array1 x0) ->
  as_float_array (split b0) = Ok (array1 y0) ->
  as_float_array (split a1) = Ok (array1 x1) ->
  as_float_array (split b1) = Ok (array1 y1) ->
  as_float_array (split a2) = Ok (array1 x2) ->
  as_float_array (split b2) = Ok (array1 y2) ->
  Exists (fun x => (Z.max (Z.max s0 s1) s2 < Z.of_nat (List.length x))%Z)
         [x0; y0; x1; y1; x2; y2] ->
  _parse_domain_section [z0; a0; b0; z1; a1; b1; z2; a2; b2]
  = Err ValueError.
Proof.
  intros Hz0 Hz1 Hz2 Ha0 Hb0 Ha1 Hb1 Ha2 Hb2 Hlong.
  rewrite (shaper_block_rows z0 a0 b0 z1 a1 b1 z2 a2 b2 s0 s1 s2
             x0 y0 x1 y1 x2 y2 Hz0 Hz1 Hz2 Ha0 Hb0 Ha1 Hb1 Ha2 Hb2).
  set (w := Z.max (Z.max s0 s1) s2) in *.
  change [array1 x0; array1 y0; array1 x1; array1 y1; array1 x2; array1 y2]
    with (map array1 [x0; y0; x1; y1; x2; y2]).
  destruct (rmap (pad_row w) (map array1 [x0; y0; x1; y1; x2; y2]))
    as [rows|e] eqn:E.
  - apply rmap_Forall2 in E. apply Exists_exists in Hlong as (x & Hx & Hl).
    assert (In (array1 x) (map array1 [x0; y0; x1; y1; x2; y2])) as Hin
      by (apply in_map; exact Hx).
    assert (forall l l', Forall2 (fun a y => pad_row w a = Ok y) l l' ->
              forall a, In a l -> exists y, pad_row w a = Ok y) as Hall.
    { induction 1 as [|a y l l' Hay _ IH]; intros a' [].
      - subst. exists y. exact Hay.
      - apply IH. assumption. }
    destruct (Hall _ _ E _ Hin) as [y Hy].
    rewrite (pad_row_too_long w x Hl) in Hy. discriminate Hy.
  - simpl rbind. apply rmap_Err in E as (a & _ & Ea).
    rewrite (pad_row_error _ _ _ Ea). reflexivity.
Qed.

Lemma X6_witness : _parse_domain_section long_row_block = Err ValueError.
Proof.
  apply (X6_shaper_row_too_long
           (txt "2") (txt "0.0 0.5 1.0") (txt "0.0 0.25 1.0")
           (txt "2") (txt "0.0 1.0") (txt "0.0 1.0")
           (txt "2") (txt "0.0 1.0") (txt "0.0 1.0") 2 2 2
           [0; 0.5; 1]%float [0; 0.25; 1]%float [0; 1]%float [0; 1]%float
           [0; 1]%float [0; 1]%float);
    try (vm_compute; reflexivity).
  apply Exists_cons_hd. simpl. lia.
Defined.

(** X7.  A shaper block of fewer than nine lines is never parsed: the
    section fails with [IndexError], or with [ValueError] when a line met
    before the missing one is malformed. *)
Theorem X7_shaper_block_short (lines : list str) :
  List.length lines < 9 ->
  exists e, _parse_domain_section lines = Err e
            /\ (e = IndexError \/ e = ValueError).
Proof.
  intros Hlen. destruct (_parse_domain_section lines) as [p|e] eqn:E.
  - exfalso. unfold _parse_domain_section in E.
    ok_step E sizes E1. ok_step E w E2. ok_step E pre E3.
    apply rmap_Forall2 in E3.
    repeat match goal with
           | H : Forall2 _ (_ :: _) _ |- _ =>
               inversion H; clear H; subst
           end.
    match goal with
    | H : rbind (line_at lines 8) _ = Ok _ |- _ =>
        apply rbind_Ok_inv in H; destruct H as (l & Hl & _)
    end.
    unfold line_at in Hl.
    destruct (nth_error lines 8) eqn:En; [|discriminate Hl].
    assert (8 < List.length lines)
      by (apply nth_error_Some; rewrite En; discriminate).
    lia.
  - exists e. split; [reflexivity|]. exact (parse_domain_error lines e E).
Qed.

Lemma X7_witness :
  exists e, _parse_domain_section (firstn 8 ragged_block) = Err e
            /\ (e = IndexError \/ e = ValueError).
Proof.
  apply (X7_shaper_block_short (firstn 8 ragged_block)). simpl. lia.
Defined.

(** ** What the reader returns *)

(** The three rows [i0], [i1], [i2] of the pre-LUT stacked: sample [j] of
    channel [c] is sample [j] of the row of that channel. *)
Lemma stacked_entry p n i0 i1 i2 :
  shape p = [6; n] -> List.length (data p) = 6 * n ->
  i0 < 6 -> i1 < 6 -> i2 < 6 ->
  exists a,
    stack_rows p i0 i1 i2 = Ok a
    /\ shape a = [n; 3]
    /\ forall j c, j < n -> c < 3 ->
         get2 a j c = Ok (sample p (nth c [i0; i1; i2] 0) j).
Proof.
  intros Hs Hl H0 H1 H2.
  rewrite (stack_rows_six p n i0 i1 i2 Hs H0 H1 H2).
  eexists. split; [reflexivity|]. split; [reflexivity|].
  intros j c Hj Hc.
  assert (forall k, k < 6 ->
            List.length (firstn n (skipn (k * n) (data p))) = n) as Hrow
    by (intros k Hk; apply firstn_skipn_length; nia).
  match goal with
  | |- get2 ?a _ _ = _ => apply (get2_rows a n j c _ eq_refl Hj Hc)
  end.
  cbn [data].
  rewrite (nth_error_nth' _ nan)
    by (rewrite (interleave3_length _ _ _ n) by (apply Hrow; assumption);
        lia).
  f_equal.
  rewrite interleave3_nth
    by (rewrite ?Hrow by assumption; (assumption || reflexivity)).
  unfold sample. rewrite Hs. cbn [nth].
  destruct c as [|[|[|c]]]; [| | |lia]; cbn [nth];
    apply nth_firstn_skipn; exact Hj.
Qed.

Lemma unflatten_short size a :
  List.length size < 3 -> unflatten size a = Err IndexError.
Proof.
  intros H. destruct size as [|s0 [|s1 [|s2 size]]]; try reflexivity.
  simpl in H. lia.
Qed.

(** X8.  Whatever the reader returns is a single LUT or a sequence of two
    stages, and never a [LUT1D]: a single [LUT3D] (kind 3D) or [LUT3x1D]
    (kind 1D) that has the title and the comments of the file, or a
    [LUT3x1D] followed by a [LUT3D] (kind 3D) or by a [LUT3x1D] (kind 1D),
    named after the title, the comments of the file on the second stage. *)
Theorem X8_result_forms
  (lib : LUTlib) (fs : filesystem) (path content : str) (v : csp_value) :
  fs path = Some content ->
  read_LUT_Cinespace lib fs path = Ok v ->
  exists s,
    read_sections content = Ok s
    /\ ((exists l,
           v = Single l
           /\ class_of l = (if is_3D s then LUT3D else LUT3x1D)
           /\ name l = title s /\ comments l = meta_comments s)
        \/ (exists a b,
              v = LUTSequence [a; b]
              /\ class_of a = LUT3x1D
              /\ class_of b = (if is_3D s then LUT3D else LUT3x1D)
              /\ name a = title s ++ (if is_3D s then txt " - Shaper"
                                      else txt " - PreLUT")
              /\ name b = title s ++ (if is_3D s then txt " - Cube"
                                      else txt " - Table")
              /\ comments b = meta_comments s)).
Proof.
  intros Hfile H. rewrite (read_unfold lib fs path content Hfile) in H.
  ok_step H s Hs. exists s. split; [exact Hs|].
  ok_step H u Hu. unfold assemble in H.
  destruct (is_3D s) eqn:E3; destruct (trivial_shaper (pre_LUT s)) eqn:Et;
    cbn [andb negb] in H.
  - ok_step H t Ht. ok_step H d Hd. ok_step H l Hl. injection H as <-.
    apply new_LUT_inv in Hl. subst l.
    left. eexists. repeat split.
  - unfold assemble_shaped in H. rewrite E3 in H.
    ok_step H pd Hpd. ok_step H pt Hpt. cbv zeta in H. ok_step H t Ht.
    ok_step H a Ha. ok_step H b Hb. injection H as <-.
    apply new_LUT_inv in Ha, Hb. subst a b.
    right. do 2 eexists. repeat split.
  - ok_step H d Hd. ok_step H l Hl. injection H as <-.
    apply new_LUT_inv in Hl. subst l.
    left. eexists. repeat split.
  - unfold assemble_shaped in H. rewrite E3 in H.
    ok_step H pd Hpd. ok_step H pt Hpt.
    destruct (shape_eqb (shape (flat_table s)) [2; 3]).
    + ok_step H tmax Hmax. ok_step H tmin Hmin. ok_step H sc Hsc.
      ok_step H m Hm. ok_step H t Ht. ok_step H l Hl. injection H as <-.
      apply new_LUT_inv in Hl. subst l.
      left. eexists. repeat split.
    + cbv zeta in H. ok_step H a Ha. ok_step H b Hb. injection H as <-.
      apply new_LUT_inv in Ha, Hb. subst a b.
      right. do 2 eexists. repeat split.
Qed.

Lemma X8_witness :
  exists s,
    read_sections shaper_cube_file = Ok s
    /\ ((exists l,
           LUTSequence
             [mk_LUT LUT3x1D
                {| shape := [3; 3];
                   data := [0; 0; 0;  0.25; 1; 1;  1; nan; nan]%float |}
                (txt "look - Shaper")
                {| shape := [3; 3];
                   data := [0; 0; 0;  0.5; 1; 1;  1; nan; nan]%float |} [];
              mk_LUT LUT3D (table (sample_default LUT3D))
                (txt "look - Cube") unity_range [txt "graded"]]
           = Single l
           /\ class_of l = (if is_3D s then LUT3D else LUT3x1D)
           /\ name l = title s /\ comments l = meta_comments s)
        \/ (exists a b,
              LUTSequence
                [mk_LUT LUT3x1D
                   {| shape := [3; 3];
                      data := [0; 0; 0;  0.25; 1; 1;  1; nan; nan]%float |}
                   (txt "look - Shaper")
                   {| shape := [3; 3];
                      data := [0; 0; 0;  0.5; 1; 1;  1; nan; nan]%float |} [];
                 mk_LUT LUT3D (table (sample_default LUT3D))
                   (txt "look - Cube") unity_range [txt "graded"]]
              = LUTSequence [a; b]
              /\ class_of a = LUT3x1D
              /\ class_of b = (if is_3D s then LUT3D else LUT3x1D)
              /\ name a = title s ++ (if is_3D s then txt " - Shaper"
                                      else txt " - PreLUT")
              /\ name b = title s ++ (if is_3D s then txt " - Cube"
                                      else txt " - Table")
              /\ comments b = meta_comments s)).
Proof.
  apply (X8_result_forms sample_lib (fun _ => Some shaper_cube_file)
           (txt "look.csp") shaper_cube_file _ eq_refl).
  vm_compute. reflexivity.
Defined.

(** X9.  A file of kind 3D whose shaper is not trivial, when it is read, is
    a sequence of a [LUT3x1D] and a [LUT3D].  Sample [j] of channel [c] of
    the shaper's domain is sample [j] of row [2 c] of the pre-LUT, and that
    of its table is sample [j] of row [2 c + 1], NaN where the row was
    padded; its comments are those of a [LUT3x1D] built without any.  The
    cube has the unflattened table, the domain of a [LUT3D] built without
    one, and the comments of the file. *)
Theorem X9_shaper_and_cube
  (lib : LUTlib) (fs : filesystem) (path content : str) (s : sections)
  (v : csp_value) :
  fs path = Some content ->
  read_sections content = Ok s ->
  is_3D s = true ->
  trivial_shaper (pre_LUT s) = false ->
  read_LUT_Cinespace lib fs path = Ok v ->
  exists n pre_domain pre_table tbl,
    shape (pre_LUT s) = [6; n]
    /\ v = LUTSequence
             [mk_LUT LUT3x1D pre_table (title s ++ txt " - Shaper")
                pre_domain (comments (LUT_default lib LUT3x1D));
              mk_LUT LUT3D tbl (title s ++ txt " - Cube")
                (domain (LUT_default lib LUT3D)) (meta_comments s)]
    /\ unflatten (table_size s) (flat_table s) = Ok tbl
    /\ shape pre_domain = [n; 3] /\ shape pre_table = [n; 3]
    /\ forall j c, j < n -> c < 3 ->
         get2 pre_domain j c = Ok (sample (pre_LUT s) (2 * c) j)
         /\ get2 pre_table j c = Ok (sample (pre_LUT s) (2 * c + 1) j).
Proof.
  intros Hfile Hs H3 Ht H.
  rewrite (read_unfold lib fs path content Hfile), Hs, rbind_Ok in H.
  cbv beta in H. ok_step H u Hu.
  destruct (read_sections_wf content s Hs) as [(n & Hsh & Hlen) _].
  unfold assemble in H. rewrite H3, Ht in H. cbn [andb negb] in H.
  unfold assemble_shaped in H. rewrite H3 in H.
  destruct (stacked_entry (pre_LUT s) n 0 2 4 Hsh Hlen)
    as (pd & Hpd & Hpds & Hpde); try lia.
  destruct (stacked_entry (pre_LUT s) n 1 3 5 Hsh Hlen)
    as (pt & Hpt & Hpts & Hpte); try lia.
  rewrite Hpd, rbind_Ok in H. cbv beta in H.
  rewrite Hpt, rbind_Ok in H. cbv beta zeta in H.
  ok_step H tbl Htbl. ok_step H a Ha. ok_step H b Hb. injection H as <-.
  apply new_LUT_inv in Ha, Hb. subst a b.
  exists n, pd, pt, tbl. split; [exact Hsh|]. split; [reflexivity|].
  split; [exact Htbl|]. split; [exact Hpds|]. split; [exact Hpts|].
  intros j c Hj Hc. rewrite (Hpde j c Hj Hc), (Hpte j c Hj Hc).
  destruct c as [|[|[|c]]]; [| | |lia]; split; reflexivity.
Qed.

Lemma X9_witness :
  exists n pre_domain pre_table tbl,
    n = 3
    /\ read_LUT_Cinespace sample_lib (fun _ => Some shaper_cube_file)
         (txt "look.csp")
       = Ok (LUTSequence
               [mk_LUT LUT3x1D pre_table (txt "look - Shaper") pre_domain [];
                mk_LUT LUT3D tbl (txt "look - Cube") unity_range
                  [txt "graded"]])
    /\ get2 pre_domain 2 0 = Ok 1%float
    /\ get2 pre_table 1 0 = Ok 0.25%float
    /\ PrimFloat.is_nan (sample pre_domain 2 1) = true.
Proof.
  destruct (read_sections shaper_cube_file) as [s|e] eqn:Es;
    [|vm_compute in Es; discriminate Es].
  destruct (read_LUT_Cinespace sample_lib (fun _ => Some shaper_cube_file)
              (txt "look.csp")) as [v|e] eqn:Ev;
    [|vm_compute in Ev; discriminate Ev].
  destruct (X9_shaper_and_cube sample_lib (fun _ => Some shaper_cube_file)
              (txt "look.csp") shaper_cube_file s v eq_refl Es)
    as (n & pd & pt & tbl & Hn & Hv & Htbl & Hpd & Hpt & Hent);
    [vm_compute in Es; injection Es as <-; reflexivity
    |vm_compute in Es; injection Es as <-; reflexivity
    |exact Ev|].
  vm_compute in Es. injection Es as <-.
  cbn [pre_LUT shape] in Hn. injection Hn as <-.
  exists 3, pd, pt, tbl. split; [reflexivity|].
  split; [rewrite Hv; reflexivity|].
  split; [rewrite (proj1 (Hent 2 0 ltac:(lia) ltac:(lia))); reflexivity|].
  split; [rewrite (proj2 (Hent 1 0 ltac:(lia) ltac:(lia))); reflexivity|].
  vm_compute in Ev. injection Ev as <-. injection Hv as <- <- _.
  reflexivity.
Defined.

(** X10.  A file of kind 1D whose shaper is not trivial and whose table is
    not two rows of three numbers, when the table has a row, is read as a
    sequence of two [LUT3x1D]: the shaper, named [title - PreLUT], built
    from the rows of the pre-LUT as for kind 3D, and the table as it is in
    the file, named [title - Table], with the domain of a [LUT3x1D] built
    without one and the comments of the file.  When the table has no row
    (the size line says 0), the class refuses it with [AssertionError]. *)
Theorem X10_shaper_and_table
  (lib : LUTlib) (fs : filesystem) (path content : str) (s : sections) :
  fs path = Some content ->
  read_sections content = Ok s ->
  product (table_size s) = Z.of_nat (len (flat_table s)) ->
  is_3D s = false ->
  trivial_shaper (pre_LUT s) = false ->
  shape (flat_table s) <> [2; 3] ->
  exists n pre_domain pre_table,
    shape (pre_LUT s) = [6; n]
    /\ read_LUT_Cinespace lib fs path
       = (if (len (flat_table s) =? 0)%nat then Err AssertionError
          else
            Ok (LUTSequence
                  [mk_LUT LUT3x1D pre_table (title s ++ txt " - PreLUT")
                     pre_domain (comments (LUT_default lib LUT3x1D));
                   mk_LUT LUT3x1D (flat_table s) (title s ++ txt " - Table")
                     (domain (LUT_default lib LUT3x1D)) (meta_comments s)]))
    /\ shape pre_domain = [n; 3] /\ shape pre_table = [n; 3]
    /\ forall j c, j < n -> c < 3 ->
         get2 pre_domain j c = Ok (sample (pre_LUT s) (2 * c) j)
         /\ get2 pre_table j c = Ok (sample (pre_LUT s) (2 * c + 1) j).
Proof.
  intros Hfile Hs Hp H1 Ht Hshape.
  rewrite (read_checked lib fs path content Hfile s Hs Hp).
  destruct (read_sections_wf content s Hs) as [(n & Hsh & Hlen) _].
  unfold assemble. rewrite H1, Ht. cbn [andb negb].
  unfold assemble_shaped. rewrite H1.
  destruct (stacked_entry (pre_LUT s) n 0 2 4 Hsh Hlen)
    as (pd & Hpd & Hpds & Hpde); try lia.
  destruct (stacked_entry (pre_LUT s) n 1 3 5 Hsh Hlen)
    as (pt & Hpt & Hpts & Hpte); try lia.
  rewrite Hpd, rbind_Ok. cbv beta. rewrite Hpt, rbind_Ok. cbv beta.
  assert (shape_eqb (shape (flat_table s)) [2; 3] = false) as ->.
  { unfold shape_eqb. destruct (list_eq_dec _ _ _); [contradiction|].
    reflexivity. }
  cbv zeta.
  rewrite (new_LUT_axes LUT3x1D pt) by (rewrite Hpts; reflexivity).
  rewrite rbind_Ok. cbv beta.
  exists n, pd, pt. split; [exact Hsh|]. split.
  { destruct (len (flat_table s) =? 0)%nat eqn:El.
    - apply Nat.eqb_eq in El.
      rewrite new_LUT_refused; [reflexivity|].
      rewrite (no_row_one_axis content s Hs El). discriminate.
    - apply Nat.eqb_neq in El.
      rewrite new_LUT_axes by (apply (rows_two_axes content s Hs El)).
      reflexivity. }
  split; [exact Hpds|]. split; [exact Hpts|].
  intros j c Hj Hc. rewrite (Hpde j c Hj Hc), (Hpte j c Hj Hc).
  destruct c as [|[|[|c]]]; [| | |lia]; split; reflexivity.
Qed.

Lemma X10_witness :
  exists pre_domain pre_table,
    read_LUT_Cinespace sample_lib (fun _ => Some shaper_table_file)
      (txt "look.csp")
    = Ok (LUTSequence
            [mk_LUT LUT3x1D pre_table (txt "look - PreLUT") pre_domain [];
             mk_LUT LUT3x1D
               {| shape := [3; 3];
                  data := [0; 0; 0;  0.5; 0.5; 0.5;  1; 1; 1]%float |}
               (txt "look - Table") unity_range [txt "graded"]]).
Proof.
  destruct (read_sections shaper_table_file) as [s|e] eqn:Es;
    [|vm_compute in Es; discriminate Es].
  destruct (X10_shaper_and_table sample_lib
              (fun _ => Some shaper_table_file) (txt "look.csp")
              shaper_table_file s eq_refl Es)
    as (n & pd & pt & Hn & Hv & _);
    try (vm_compute in Es; injection Es as <-; vm_compute;
         (reflexivity || discriminate)).
  exists pd, pt. rewrite Hv.
  vm_compute in Es. injection Es as <-. reflexivity.
Defined.

(** X11.  A file of kind 3D whose size line has fewer than three integers
    is refused with [IndexError], also when their product is the number of
    rows of the table. *)
Theorem X11_cube_size_line_short
  (lib : LUTlib) (fs : filesystem) (path content : str) (s : sections) :
  fs path = Some content ->
  read_sections content = Ok s ->
  product (table_size s) = Z.of_nat (len (flat_table s)) ->
  is_3D s = true ->
  List.length (table_size s) < 3 ->
  read_LUT_Cinespace lib fs path = Err IndexError.
Proof.
  intros Hfile Hs Hp H3 Hshort.
  rewrite (read_checked lib fs path content Hfile s Hs Hp).
  destruct (read_sections_wf content s Hs) as [(n & Hsh & Hlen) _].
  unfold assemble. rewrite H3. cbn [andb negb].
  destruct (trivial_shaper (pre_LUT s)).
  - rewrite (unflatten_short _ _ Hshort). reflexivity.
  - unfold assemble_shaped. rewrite H3.
    rewrite (stack_rows_six _ n 0 2 4 Hsh) by lia. rewrite rbind_Ok.
    cbv beta.
    rewrite (stack_rows_six _ n 1 3 5 Hsh) by lia. rewrite rbind_Ok.
    cbv beta zeta.
    rewrite (unflatten_short _ _ Hshort). reflexivity.
Qed.

Lemma X11_witness :
  read_LUT_Cinespace sample_lib (fun _ => Some one_size_file)
    (txt "one.csp")
  = Err IndexError.
Proof.
  destruct (read_sections one_size_file) as [s|e] eqn:Es;
    [|vm_compute in Es; discriminate Es].
  apply (X11_cube_size_line_short sample_lib (fun _ => Some one_size_file)
           (txt "one.csp") one_size_file s eq_refl Es);
    vm_compute in Es; injection Es as <-; vm_compute;
    (reflexivity || lia).
Defined.

(** X17.  Flattening a grid as the writer does and unflattening the rows as
    the reader does gives the grid back: [reshape([-1, 3], order='F')] of a
    table of shape [(n0, n1, n2, 3)] has [n0 * n1 * n2] rows, and
    [reshape([n0, n1, n2, 3], order='F')] of these rows is the table.  The
    numbers of the grid can be counted in 64 bits, as those of every array
    in memory. *)
Theorem X17_flatten_unflatten (grid : ndarray) (n0 n1 n2 : nat) :
  shape grid = [n0; n1; n2; 3] -> wf grid ->
  index_sized [n0; n1; n2; 3] ->
  exists t,
    reshape_F_rows3 grid = Ok t
    /\ shape t = [n0 * n1 * n2; 3]
    /\ unflatten [Z.of_nat n0; Z.of_nat n1; Z.of_nat n2] t = Ok grid.
Proof.
  intros Hs Hw Hidx. destruct (rows3_exists grid n0 n1 n2 Hs Hw) as [t Ht].
  exists t. split; [exact Ht|].
  split; [exact (proj1 (reshape_F_rows grid n0 n1 n2 t Hs Hw Ht))|].
  rewrite (unflatten_given n0 n1 n2 t Hidx), <- Hs.
  unfold reshape_F_rows3 in Ht.
  destruct (List.length (data grid) mod 3 =? 0); [|discriminate Ht].
  exact (reshape_F_back grid _ t Hw Ht).
Qed.

Lemma X17_witness :
  exists t,
    reshape_F_rows3 (table sample_cube) = Ok t
    /\ shape t = [2 * 2 * 2; 3]
    /\ unflatten [2; 2; 2]%Z t = Ok (table sample_cube).
Proof.
  apply (X17_flatten_unflatten (table sample_cube) 2 2 2);
    (reflexivity || discriminate).
Defined.

(** ** The ragged size *)

Lemma filter_nan_padded w xs :
  Forall (fun x => PrimFloat.is_nan x = false) xs ->
  List.length (filter PrimFloat.is_nan (padded w xs)) = w - List.length xs.
Proof.
  intros H. unfold padded. rewrite filter_app, length_app.
  assert (filter PrimFloat.is_nan xs = []) as ->.
  { induction H as [|x xs Hx _ IH]; [reflexivity|].
    simpl. rewrite Hx. exact IH. }
  assert (forall k, filter PrimFloat.is_nan (repeat nan k) = repeat nan k)
    as ->.
  { induction k as [|k IH]; [reflexivity|].
    simpl repeat. cbn [filter].
    change (PrimFloat.is_nan nan) with true. cbv iota. rewrite IH.
    reflexivity. }
  rewrite repeat_length. reflexivity.
Qed.

(** X12.  [_ragged_size] undoes the padding of the reader: when channel [i]
    of an array of [n] rows is the samples [xs i], none of them NaN,
    followed by NaN, its ragged size is the number of these samples. *)
Theorem X12_ragged_size_of_padded
  (a : ndarray) (n : nat) (xs : nat -> list float) :
  shape a = [n; 3] ->
  (forall i, i < 3 ->
     column a i = padded n (xs i)
     /\ Forall (fun x => PrimFloat.is_nan x = false) (xs i)
     /\ List.length (xs i) <= n) ->
  _ragged_size a
  = Ok (map (fun i => Z.of_nat (List.length (xs i))) [0; 1; 2]).
Proof.
  intros Hs Hcol. rewrite (ragged_size_rows a n Hs). cbn [map].
  assert (forall i, i < 3 -> ragged a i = List.length (xs i)) as Hr.
  { intros i Hi. destruct (Hcol i Hi) as (Hc & Hx & Hl).
    unfold ragged, len. rewrite Hs, Hc, (filter_nan_padded n (xs i) Hx).
    cbn [hd]. lia. }
  rewrite (Hr 0), (Hr 1), (Hr 2) by lia. reflexivity.
Qed.

Lemma X12_witness :
  _ragged_size (domain ragged_shaper) = Ok [3; 3; 2]%Z.
Proof.
  apply (X12_ragged_size_of_padded (domain ragged_shaper) 3
           (fun i => match i with
                     | 0 | 1 => [0; 0.5; 1]%float
                     | _ => [0; 0.5]%float
                     end) eq_refl).
  intros i Hi. destruct i as [|[|[|i]]]; [| | |lia];
    (split; [reflexivity|]);
    (split; [repeat constructor | simpl; lia]).
Defined.

(** ** What the writer leaves in the file *)

(** A computation that only adds to the buffer. *)
Definition appends {A} (m : W A) : Prop :=
  forall buf, exists out, fst (m buf) = buf ++ out.

Lemma appends_write s : appends (write s).
Proof. intros buf. exists s. reflexivity. Qed.

Lemma appends_lift {A} (r : result A) : appends (wlift r).
Proof. intros buf. exists []. simpl. rewrite app_nil_r. reflexivity. Qed.

Lemma appends_ret {A} (a : A) : appends (wret a).
Proof. intros buf. exists []. simpl. rewrite app_nil_r. reflexivity. Qed.

Lemma appends_bind {A B} (m : W A) (k : A -> W B) :
  appends m -> (forall a, appends (k a)) -> appends (wbind m k).
Proof.
  intros Hm Hk buf. unfold wbind. destruct (Hm buf) as [o1 H1].
  destruct (m buf) as [buf' [a|e]]; simpl in H1; subst buf'.
  - destruct (Hk a (buf ++ o1)) as [o2 H2]. exists (o1 ++ o2).
    rewrite H2, app_assoc. reflexivity.
  - exists o1. reflexivity.
Qed.

Lemma appends_for_each {A} (l : list A) (body : A -> W unit) :
  (forall x, appends (body x)) -> appends (for_each l body).
Proof.
  intros H. induction l as [|x l IH]; simpl.
  - apply appends_ret.
  - apply appends_bind; [apply H | intros _; exact IH].
Qed.

Ltac appends_auto :=
  repeat first
    [ apply appends_write | apply appends_lift | apply appends_ret
    | apply appends_bind; [|intros ?]
    | apply appends_for_each; intros ?
    | match goal with
      | |- appends (if ?b then _ else _) => destruct b
      | |- appends (match ?x with _ => _ end) => destruct x
      end ].

Lemma emits_then {A} (m : W unit) (k : unit -> W A) a buf :
  emits m a -> wbind m k buf = k tt (buf ++ a).
Proof. intros H. unfold wbind. rewrite H. reflexivity. Qed.

(** Whatever else is written, the header, the kind and the metadata block
    are written first. *)
Lemma serialise_head d c l0 l1 :
  exists tail,
    fst (serialise d c l0 l1 [])
    = head_text (if has_3D c then txt "3D" else txt "1D") (lut_name c)
        (comments l0 ++ comments l1) ++ tail.
Proof.
  unfold serialise.
  rewrite (emits_then _ _ _ _ (emits_write _)).
  rewrite (emits_then _ _ ((if has_3D c then txt "3D" else txt "1D")
                           ++ nl ++ nl))
    by (destruct (has_3D c); apply emits_write).
  rewrite (emits_then _ _ _ _ (emits_write _)).
  rewrite (emits_then _ _ _ _ (emits_write _)).
  rewrite (emits_then _ _ _ _ (emits_lines _)).
  rewrite (emits_then _ _ _ _ (emits_lines _)).
  rewrite (emits_then _ _ _ _ (emits_write _)).
  match goal with
  | |- exists tail, fst (?rest ?buf) = _ =>
      assert (appends rest) as Happ; [|destruct (Happ buf) as [out Hout]]
  end.
  { unfold write_shaper, write_bounds, write_rows. cbv zeta.
    appends_auto. }
  exists out. rewrite Hout. unfold head_text, unlines.
  rewrite map_app, concat_app. cbn [app].
  repeat rewrite <- app_assoc. reflexivity.
Qed.

(** The writer once the dispatch has succeeded. *)
Lemma write_normalised lib h fs ref path d h1 c l0 l1 :
  normalise lib h ref = (h1, Ok c) ->
  stage h1 (LUT_ref c) 0 = Ok l0 -> stage h1 (LUT_ref c) 1 = Ok l1 ->
  write_LUT_Cinespace lib ref path d (h, fs)
  = match validate c l0 l1 with
    | Err e => ((h1, fs), Err e)
    | Ok _ =>
        ((h1, fs_write fs path (fst (serialise d c l0 l1 []))),
         match snd (serialise d c l0 l1 []) with
         | Ok _ => Ok true
         | Err e => Err e
         end)
    end.
Proof.
  intros Hn H0 H1. destruct (validate c l0 l1) as [[]|e] eqn:Hv.
  - apply (write_valid lib h fs ref path d h1 c l0 l1 Hn H0 H1 Hv).
  - apply (write_invalid lib h fs ref path d h1 c l0 l1 e Hn H0 H1 Hv).
Qed.

(** An input is accepted by the dispatch, or refused by it with the heap
    as it was. *)
Lemma accepted_or_refused lib h ref :
  accepted h ref \/ exists e, normalise lib h ref = (h, Err e).
Proof.
  unfold accepted, normalise.
  destruct (deref h ref) as [[l | stages | ] | ].
  - left. left. exists l. reflexivity.
  - destruct stages as [|p0 [|p1 [|p2 more]]];
      try (right; eexists; reflexivity).
    unfold stage_isinstance.
    destruct (lut_at h p0) as [l0|] eqn:E0;
      [|right; eexists; reflexivity].
    destruct (lut_at h p1) as [l1|] eqn:E1;
      [|right; rewrite andb_false_r; eexists; reflexivity].
    destruct ((isinstance l0 LUT1D || isinstance l0 LUT3x1D)
              && isinstance l1 LUT3D) eqn:E;
      [|right; eexists; reflexivity].
    left. right. exists [p0; p1]. split; [reflexivity|].
    apply andb_prop in E as [Ea Eb]. apply orb_prop in Ea.
    exists p0, p1, l0, l1. repeat split; try assumption.
    + destruct Ea as [Ea | Ea]; apply isinstance_class in Ea; auto.
    + apply isinstance_class; assumption.
  - right. eexists; reflexivity.
  - right. eexists; reflexivity.
Qed.

(** What the dispatch hands to the serialisation, in terms of the input. *)
Lemma dispatch_metadata lib h ref :
  accepted h ref ->
  exists h1 c l0 l1,
    normalise lib h ref = (h1, Ok c)
    /\ stage h1 (LUT_ref c) 0 = Ok l0 /\ stage h1 (LUT_ref c) 1 = Ok l1
    /\ lut_name c = written_name h ref
    /\ comments l0 ++ comments l1 = written_comments lib h ref
    /\ (if has_3D c then txt "3D" else txt "1D") = written_kind h ref.
Proof.
  intros [[l Hd] | (stages & Hd & p0 & p1 & l0 & l1 & -> & H0 & H1 & Hc0 & Hc1)].
  - destruct (class_of l) eqn:Hc.
    + destruct (normalise_lone_1D lib h ref l Hd Hc) as (Hn & Hs0 & Hs1).
      do 4 eexists. split; [exact Hn|]. split; [exact Hs0|].
      split; [exact Hs1|].
      unfold written_name, written_comments, written_kind, shaper_stage,
        cube_stage.
      rewrite Hd, Hc. repeat split; reflexivity.
    + destruct (normalise_lone_3x1D lib h ref l Hd Hc) as (Hn & Hs0 & Hs1).
      do 4 eexists. split; [exact Hn|]. split; [exact Hs0|].
      split; [exact Hs1|].
      unfold written_name, written_comments, written_kind, shaper_stage,
        cube_stage.
      rewrite Hd, Hc. repeat split; reflexivity.
    + destruct (normalise_lone_3D lib h ref l Hd Hc) as (Hn & Hs0 & Hs1).
      do 4 eexists. split; [exact Hn|]. split; [exact Hs0|].
      split; [exact Hs1|].
      unfold written_name, written_comments, written_kind, shaper_stage,
        cube_stage.
      rewrite Hd, Hc. repeat split; reflexivity.
  - destruct (normalise_sequence lib h ref p0 p1 l0 l1 Hd H0 H1 Hc0 Hc1)
      as (Hn & Hs0 & Hs1).
    do 4 eexists. split; [exact Hn|]. split; [exact Hs0|].
    split; [exact Hs1|].
    unfold written_name, written_comments, written_kind, shaper_stage,
      cube_stage.
    rewrite Hd, H0, H1. repeat split; reflexivity.
Qed.

(** X13.  A call of the writer either fails and leaves the file system as
    it was, or leaves at [path] a file that begins with the header, the
    kind and the metadata block of its input (also when it fails later
    on): the kind is 3D when the input has a cube, the name is that of the
    lone LUT or of the cube of the sequence, and the comments are those of
    the shaper stage followed by those of the cube stage.  No other file is
    touched. *)
Theorem X13_header_first
  (lib : LUTlib) (h : heap) (fs : filesystem) (ref : loc) (path : str)
  (d : nat) :
  (snd (fst (write_LUT_Cinespace lib ref path d (h, fs))) = fs
   /\ exists e, snd (write_LUT_Cinespace lib ref path d (h, fs)) = Err e)
  \/ (exists tail,
        snd (fst (write_LUT_Cinespace lib ref path d (h, fs)))
        = fs_write fs path
            (head_text (written_kind h ref) (written_name h ref)
               (written_comments lib h ref) ++ tail)).
Proof.
  destruct (accepted_or_refused lib h ref) as [Hacc | [e Hn]].
  - destruct (dispatch_metadata lib h ref Hacc)
      as (h1 & c & l0 & l1 & Hn & Hs0 & Hs1 & Hname & Hcms & Hkind).
    rewrite (write_normalised lib h fs ref path d h1 c l0 l1 Hn Hs0 Hs1).
    destruct (validate c l0 l1) as [[]|e].
    + right. destruct (serialise_head d c l0 l1) as [tail Htail].
      exists tail. cbn [fst snd].
      rewrite Htail, Hname, Hcms, Hkind. reflexivity.
    + left. split; [reflexivity | exists e; reflexivity].
  - left. unfold write_LUT_Cinespace. rewrite Hn.
    split; [reflexivity | exists e; reflexivity].
Qed.

(** X14.  Writing a lone [LUT1D] leaves the file, and gives the result, of
    writing its conversion to [LUT3x1D] under the name of the [LUT1D]: the
    name the conversion has is not written. *)
Theorem X14_LUT1D_written_as_conversion
  (lib : LUTlib) (h h' : heap) (fs : filesystem) (ref ref' : loc)
  (path : str) (d : nat) (l : LUT) :
  deref h ref = Some (ObjLUT l) -> class_of l = LUT1D ->
  deref h' ref'
  = Some (ObjLUT (with_name (as_LUT lib l LUT3x1D) (name l))) ->
  class_of (as_LUT lib l LUT3x1D) = LUT3x1D ->
  is_domain_explicit (as_LUT lib l LUT3x1D) = is_domain_explicit l ->
  snd (fst (write_LUT_Cinespace lib ref path d (h, fs)))
  = snd (fst (write_LUT_Cinespace lib ref' path d (h', fs)))
  /\ snd (write_LUT_Cinespace lib ref path d (h, fs))
     = snd (write_LUT_Cinespace lib ref' path d (h', fs)).
Proof.
  intros Hd Hc Hd' Hc' Hexp.
  pose proof (normalise_lone_1D lib h ref l Hd Hc) as H1. cbv zeta in H1.
  destruct H1 as (Hn & Hs0 & Hs1).
  pose proof (normalise_lone_3x1D lib h' ref' _ Hd' Hc') as H2.
  cbv zeta in H2. destruct H2 as (Hn' & Hs0' & Hs1').
  rewrite (write_normalised lib h fs ref path d _ _ _ _ Hn Hs0 Hs1).
  rewrite (write_normalised lib h' fs ref' path d _ _ _ _ Hn' Hs0' Hs1').
  change (is_domain_explicit (with_name (as_LUT lib l LUT3x1D) (name l)))
    with (is_domain_explicit (as_LUT lib l LUT3x1D)).
  change (name (with_name (as_LUT lib l LUT3x1D) (name l))) with (name l).
  rewrite Hexp.
  change (validate (mk_canonical false true (is_domain_explicit l) (name l)
                      (S (List.length h')))
            (with_name (as_LUT lib l LUT3x1D) (name l))
            (LUT_default lib LUT3D))
    with (validate (mk_canonical false true (is_domain_explicit l) (name l)
                      (S (S (List.length h))))
            (as_LUT lib l LUT3x1D) (LUT_default lib LUT3D)).
  change (serialise d (mk_canonical false true (is_domain_explicit l)
                         (name l) (S (List.length h')))
            (with_name (as_LUT lib l LUT3x1D) (name l))
            (LUT_default lib LUT3D))
    with (serialise d (mk_canonical false true (is_domain_explicit l)
                         (name l) (S (S (List.length h))))
            (as_LUT lib l LUT3x1D) (LUT_default lib LUT3D)).
  destruct (validate _ _ _); split; reflexivity.
Qed.

Lemma X14_witness :
  snd (fst (write_LUT_Cinespace sample_lib 0 (txt "ramp.csp") 7
              ([ObjLUT ramp_1D], no_files)))
  = snd (fst (write_LUT_Cinespace sample_lib 0 (txt "ramp.csp") 7
                ([ObjLUT (with_name (sample_as_LUT ramp_1D LUT3x1D)
                            (txt "ramp"))], no_files)))
  /\ snd (write_LUT_Cinespace sample_lib 0 (txt "ramp.csp") 7
            ([ObjLUT ramp_1D], no_files))
     = snd (write_LUT_Cinespace sample_lib 0 (txt "ramp.csp") 7
              ([ObjLUT (with_name (sample_as_LUT ramp_1D LUT3x1D)
                          (txt "ramp"))], no_files)).
Proof.
  apply (X14_LUT1D_written_as_conversion sample_lib [ObjLUT ramp_1D]
           [ObjLUT (with_name (sample_as_LUT ramp_1D LUT3x1D) (txt "ramp"))]
           no_files 0 0 (txt "ramp.csp") 7 ramp_1D);
    reflexivity.
Defined.

(** ** A shaper with a min/max domain before a cube *)

Lemma emits_uniform_shaper d l0 n :
  shape (domain l0) = [2; 3] -> wf (domain l0) ->
  shape (table l0) = [n; 3] -> wf (table l0) ->
  class_of l0 <> LUT1D ->
  emits (write_shaper d false l0 None) (uniform_shaper_text d l0).
Proof.
  intros Hd Hdw Ht Htw Hc.
  assert (size l0 = n) as Hsize by (unfold size, len; rewrite Ht; reflexivity).
  unfold write_shaper, uniform_shaper_text.
  apply emits_for_each. intros i Hi. apply in_seq in Hi.
  rewrite (uniform_domain l0 Hc Hd).
  eapply emits_lift; [reflexivity|].
  rewrite str_of_Z_nat, Nat2Z.id.
  eapply emits_eq.
  - apply emits_bind; [apply emits_write|].
    apply emits_bind.
    { apply emits_for_each with
        (f := fun j =>
                format_f d
                  (nth i (data (domain l0)) nan
                   + of_int j
                     * (nth (3 + i) (data (domain l0)) nan
                        - nth i (data (domain l0)) nan)
                     / of_int (size l0 - 1))%float ++ txt " ").
      intros j Hj.
      eapply emits_lift; [|apply emits_write].
      rewrite (get2_nth (domain l0) 2 0 i Hd Hdw) by lia.
      rewrite (get2_nth (domain l0) 2 1 i Hd Hdw) by lia.
      rewrite !rbind_Ok. cbv beta.
      replace (0 * 3 + i) with i by lia.
      replace (1 * 3 + i) with (3 + i) by lia. reflexivity. }
    apply emits_bind; [apply emits_write|].
    apply emits_bind; [|apply emits_write].
    apply emits_for_each with
      (f := fun j => format_f d (nth (j * 3 + i) (data (table l0)) nan)
                     ++ txt " ").
    intros j Hj. apply in_seq in Hj.
    eapply emits_lift;
      [apply (get2_nth _ n); (assumption || lia)|].
    eapply emits_lift; [reflexivity|]. apply emits_write.
  - repeat rewrite <- app_assoc. reflexivity.
Qed.

Lemma serialise_shaper_cube d nm ref l0 l1 n n0 n1 n2 t :
  class_of l0 = LUT3x1D ->
  shape (domain l0) = [2; 3] -> wf (domain l0) ->
  shape (table l0) = [n; 3] -> wf (table l0) ->
  shape (table l1) = [n0; n1; n2; 3] -> wf (table l1) ->
  reshape_F_rows3 (table l1) = Ok t ->
  serialise d (mk_canonical true true false nm ref) l0 l1 []
  = (head_text (txt "3D") nm (comments l0 ++ comments l1)
     ++ uniform_shaper_text d l0 ++ cube_text d n0 n1 n2 t, Ok tt).
Proof.
  intros Hc0 Hdom Hdomw Ht Htw Hcube Hcubew Hflat.
  assert (emits (serialise d (mk_canonical true true false nm ref) l0 l1)
            (head_text (txt "3D") nm (comments l0 ++ comments l1)
             ++ uniform_shaper_text d l0 ++ cube_text d n0 n1 n2 t)) as Hem;
    [|exact (Hem [])].
  destruct (reshape_F_rows (table l1) n0 n1 n2 t Hcube Hcubew Hflat)
    as [Hts _].
  pose proof Hflat as Hflat'. unfold reshape_F_rows3 in Hflat'.
  destruct (_ =? 0) in Hflat'; [|discriminate].
  pose proof (reshape_F_wf _ _ _ Hflat') as Htwf.
  unfold serialise. cbn [has_3D has_3x1D non_uniform lut_name orb andb].
  rewrite (uniform_domain l0) by (congruence || assumption).
  cbv iota zeta. rewrite Hcube. cbn [nth_error of_option]. rewrite Hflat.
  eapply emits_eq.
  - apply emits_bind; [apply emits_write|].
    apply emits_bind; [apply emits_write|].
    apply emits_bind; [apply emits_write|].
    apply emits_bind; [apply emits_write|].
    apply emits_bind; [apply emits_lines|].
    apply emits_bind; [apply emits_lines|].
    apply emits_bind; [apply emits_write|].
    apply emits_bind;
      [apply (emits_uniform_shaper d l0 n Hdom Hdomw Ht Htw); congruence|].
    eapply emits_lift; [reflexivity|].
    eapply emits_lift; [reflexivity|].
    eapply emits_lift; [reflexivity|].
    apply emits_bind; [apply emits_size3|].
    eapply emits_lift; [reflexivity|].
    apply (emits_rows d t (n0 * n1 * n2) Hts Htwf).
  - unfold head_text, cube_text, unlines.
    rewrite !map_app, !concat_app. cbn [map concat app].
    repeat rewrite <- app_assoc. reflexivity.
Qed.

(** The dispatch and the size checks for a [LUT3x1D] followed by a
    [LUT3D]. *)
Lemma dispatch_shaper_cube lib h ref p0 p1 l0 l1 n n0 n1 n2 :
  deref h ref = Some (ObjLUTSequence [p0; p1]) ->
  lut_at h p0 = Some l0 -> lut_at h p1 = Some l1 ->
  class_of l0 = LUT3x1D -> class_of l1 = LUT3D ->
  shape (table l0) = [n; 3] -> (2 <= Z.of_nat n <= 65536)%Z ->
  shape (table l1) = [n0; n1; n2; 3] -> (2 <= Z.of_nat n0 <= 256)%Z ->
  normalise lib h ref
  = (h, Ok (mk_canonical true true false (name l1) ref))
  /\ stage h ref 0 = Ok l0 /\ stage h ref 1 = Ok l1
  /\ validate (mk_canonical true true false (name l1) ref) l0 l1 = Ok tt.
Proof.
  intros Hd H0 H1 Hc0 Hc1 Ht Hn Hcube Hn0.
  pose proof (normalise_sequence lib h ref p0 p1 l0 l1 Hd H0 H1
                (or_intror Hc0) Hc1) as Hnorm.
  assert (isinstance l0 LUT1D = false) as Hinst
    by (unfold isinstance; rewrite Hc0; reflexivity).
  cbv zeta in Hnorm. rewrite Hinst in Hnorm. cbn [andb] in Hnorm.
  destruct Hnorm as (Hnorm & Hs0 & Hs1).
  repeat split; try assumption.
  apply validate_ok; intros _.
  - unfold shaper_size_ok, size, len. rewrite Ht. exact Hn.
  - unfold cube_size_ok, size, len. rewrite Hcube. exact Hn0.
Qed.

(** X15.  The file of a sequence of a [LUT3x1D] with a min/max domain and a
    [LUT3D], both of accepted sizes: kind 3D, the name of the cube (the
    name of the shaper is not written), the comments of the shaper and then
    those of the cube, the shaper block with domain samples spread evenly
    between the bounds and the table samples as they are, and the cube,
    flattened first axis fastest.  The caller's objects are left as they
    are. *)
Theorem X15_shaper_cube_file
  (lib : LUTlib) (h : heap) (fs : filesystem) (ref p0 p1 : loc) (path : str)
  (d : nat) (l0 l1 : LUT) (n n0 n1 n2 : nat) :
  deref h ref = Some (ObjLUTSequence [p0; p1]) ->
  lut_at h p0 = Some l0 -> lut_at h p1 = Some l1 ->
  class_of l0 = LUT3x1D -> class_of l1 = LUT3D ->
  shape (domain l0) = [2; 3] -> wf (domain l0) ->
  shape (table l0) = [n; 3] -> wf (table l0) ->
  (2 <= Z.of_nat n <= 65536)%Z ->
  shape (table l1) = [n0; n1; n2; 3] -> wf (table l1) ->
  (2 <= Z.of_nat n0 <= 256)%Z ->
  exists t,
    reshape_F_rows3 (table l1) = Ok t
    /\ write_LUT_Cinespace lib ref path d (h, fs)
       = ((h, fs_write fs path
                (head_text (txt "3D") (name l1) (comments l0 ++ comments l1)
                 ++ uniform_shaper_text d l0 ++ cube_text d n0 n1 n2 t)),
          Ok true).
Proof.
  intros Hd H0 H1 Hc0 Hc1 Hdom Hdomw Ht Htw Hn Hcube Hcubew Hn0.
  destruct (rows3_exists (table l1) n0 n1 n2 Hcube Hcubew) as [t Hflat].
  exists t. split; [exact Hflat|].
  destruct (dispatch_shaper_cube lib h ref p0 p1 l0 l1 n n0 n1 n2
              Hd H0 H1 Hc0 Hc1 Ht Hn Hcube Hn0)
    as (Hnorm & Hs0 & Hs1 & Hval).
  rewrite (write_valid lib h fs ref path d _ _ _ _ Hnorm Hs0 Hs1 Hval).
  rewrite (serialise_shaper_cube d (name l1) ref l0 l1 n n0 n1 n2 t
             Hc0 Hdom Hdomw Ht Htw Hcube Hcubew Hflat).
  reflexivity.
Qed.

Lemma X15_witness :
  exists t,
    reshape_F_rows3 (table sample_cube) = Ok t
    /\ write_LUT_Cinespace sample_lib 2 (txt "look.csp") 3
         ([ObjLUT sample_shaper; ObjLUT sample_cube; ObjLUTSequence [0; 1]],
          no_files)
       = (([ObjLUT sample_shaper; ObjLUT sample_cube; ObjLUTSequence [0; 1]],
           fs_write no_files (txt "look.csp")
             (head_text (txt "3D") (txt "My cube")
                [txt "A first comment."; txt "A second comment.";
                 txt "A comment."]
              ++ uniform_shaper_text 3 sample_shaper
              ++ cube_text 3 2 2 2 t)),
          Ok true).
Proof.
  apply (X15_shaper_cube_file sample_lib
           [ObjLUT sample_shaper; ObjLUT sample_cube; ObjLUTSequence [0; 1]]
           no_files 2 0 1 (txt "look.csp") 3 sample_shaper sample_cube
           3 2 2 2);
    try reflexivity; simpl; lia.
Defined.

(** ** A failure while the file is written *)

(** A computation that adds [out] to the buffer and then fails with [e]. *)
Definition fails_after (m : W unit) (out : str) (e : error) : Prop :=
  forall buf, m buf = (buf ++ out, Err e).

Lemma fails_later m (k : unit -> W unit) a b e :
  emits m a -> fails_after (k tt) b e -> fails_after (wbind m k) (a ++ b) e.
Proof.
  intros Hm Hk buf. unfold wbind. rewrite Hm, Hk, app_assoc. reflexivity.
Qed.

Lemma fails_lifted {A} (r : result A) (k : A -> W unit) a out e :
  r = Ok a -> fails_after (k a) out e -> fails_after (wbind (wlift r) k) out e.
Proof. intros -> Hk buf. unfold wbind, wlift. apply Hk. Qed.

Lemma fails_lift {A} (r : result A) (k : A -> W unit) e :
  r = Err e -> fails_after (wbind (wlift r) k) [] e.
Proof.
  intros -> buf. unfold wbind, wlift. rewrite app_nil_r. reflexivity.
Qed.

Lemma fails_first {A} (x : A) l (body : A -> W unit) out e :
  fails_after (body x) out e -> fails_after (for_each (x :: l) body) out e.
Proof. intros H buf. simpl. unfold wbind. rewrite H. reflexivity. Qed.

(** The first row of a table whose rows have fewer than three numbers
    cannot be formatted. *)
Lemma short_rows_fail d a n k :
  shape a = [n; k] -> 0 < n -> k < 3 ->
  fails_after (write_rows d a) [] IndexError.
Proof.
  intros Hs Hn Hk. unfold write_rows, rows. rewrite Hs.
  destruct n as [|n]; [lia|].
  change (seq 0 (S n)) with (0 :: seq 1 n). cbn [rmap].
  assert (row a 0 = Ok {| shape := [k];
                          data := firstn (k * 1) (skipn 0 (data a)) |}) as ->
    by (unfold row; rewrite Hs; reflexivity).
  destruct (rmap (row a) (seq 1 n)) as [rs|e] eqn:Er.
  - eapply fails_lifted; [reflexivity|].
    apply fails_first. apply fails_lift.
    unfold _format_array. cbn [shape data].
    assert (List.length (firstn (k * 1) (skipn 0 (data a))) < 3) as Hlen
      by (rewrite length_firstn; lia).
    destruct (firstn (k * 1) (skipn 0 (data a))) as [|x [|y [|z r]]];
      try reflexivity.
    simpl in Hlen. lia.
  - exfalso. apply rmap_Err in Er as (j & Hj & Ej). apply in_seq in Hj.
    unfold row in Ej. rewrite Hs in Ej.
    replace (j <? S n) with true in Ej
      by (symmetry; apply Nat.ltb_lt; lia).
    discriminate Ej.
Qed.

(** X16.  A failure while the file is written leaves the file cut short:
    writing a lone [LUT3x1D] of an accepted size, with a min/max domain,
    whose table has fewer than three numbers per row fails with
    [IndexError] at the first row, and the file then holds the header, the
    metadata block, the three bound groups and the size line. *)
Theorem X16_failed_write_leaves_partial_file
  (lib : LUTlib) (h : heap) (fs : filesystem) (ref : loc) (path : str)
  (d : nat) (l : LUT) (n k : nat) :
  deref h ref = Some (ObjLUT l) -> class_of l = LUT3x1D ->
  shape (domain l) = [2; 3] -> wf (domain l) ->
  shape (table l) = [n; k] -> k < 3 ->
  (2 <= Z.of_nat n <= 65536)%Z ->
  snd (write_LUT_Cinespace lib ref path d (h, fs)) = Err IndexError
  /\ snd (fst (write_LUT_Cinespace lib ref path d (h, fs))) path
     = Some (unlines
               (file_lines (txt "1D") (name l)
                  (comments l ++ comments (LUT_default lib LUT3D))
                  (bounds_lines d (domain l) (txt "0.0 1.0"))
                  (str_of_nat n) [])).
Proof.
  intros Hd Hc Hdom Hdomw Ht Hk Hn.
  pose proof (normalise_lone_3x1D lib h ref l Hd Hc) as Hnorm.
  cbv zeta in Hnorm. destruct Hnorm as (Hnorm & Hs0 & Hs1).
  rewrite (uniform_domain l) in Hnorm by (congruence || assumption).
  assert (validate (mk_canonical false true false (name l)
                      (S (List.length h))) l (LUT_default lib LUT3D)
          = Ok tt) as Hval.
  { apply validate_ok; [|discriminate].
    intros _. unfold shaper_size_ok, size, len. rewrite Ht. exact Hn. }
  rewrite (write_valid lib h fs ref path d _ _ _ _ Hnorm Hs0 Hs1 Hval).
  assert (fails_after
            (serialise d (mk_canonical false true false (name l)
                            (S (List.length h))) l (LUT_default lib LUT3D))
            (unlines
               (file_lines (txt "1D") (name l)
                  (comments l ++ comments (LUT_default lib LUT3D))
                  (bounds_lines d (domain l) (txt "0.0 1.0"))
                  (str_of_nat n) []))
            IndexError) as Hfail.
  { unfold serialise. cbn [has_3D has_3x1D non_uniform lut_name orb].
    cbv iota.
    assert (size l = n) as -> by (unfold size, len; rewrite Ht; reflexivity).
    assert (forall m out, fails_after m out IndexError ->
              forall out', out = out' -> fails_after m out' IndexError)
      as Heq by (intros m out H out' <-; exact H).
    eapply Heq.
    - apply fails_later; [apply emits_line|].
      apply fails_later; [apply emits_two_lines|].
      apply fails_later; [apply emits_line|].
      apply fails_later; [apply emits_line|].
      apply fails_later; [apply emits_lines|].
      apply fails_later; [apply emits_lines|].
      apply fails_later; [apply emits_two_lines|].
      apply fails_later; [apply emits_bounds; assumption|].
      apply fails_later; [apply emits_blank_then|].
      apply (short_rows_fail d (table l) n k Ht); [lia | exact Hk].
    - unfold file_lines. rewrite !app_nil_r, <- !unlines_app.
      f_equal. cbn [app]. rewrite <- !app_assoc. reflexivity. }
  rewrite (Hfail []). cbn [fst snd app].
  split; [reflexivity | apply written_file_read].
Qed.

Lemma X16_witness :
  snd (write_LUT_Cinespace sample_lib 0 (txt "cut.csp") 1
         ([ObjLUT two_column_shaper], no_files)) = Err IndexError
  /\ snd (fst (write_LUT_Cinespace sample_lib 0 (txt "cut.csp") 1
                 ([ObjLUT two_column_shaper], no_files))) (txt "cut.csp")
     = Some (unlines (map txt
               [ "CSPLUTV100"; "1D"; "";
                 "BEGIN METADATA"; "two columns"; "graded"; "END METADATA";
                 "";
                 "2"; "0.0 1.0"; "0.0 1.0";
                 "2"; "0.0 1.0"; "0.0 1.0";
                 "2"; "0.0 1.0"; "0.0 1.0"; "";
                 "2" ]%string)).
Proof.
  apply (X16_failed_write_leaves_partial_file sample_lib
           [ObjLUT two_column_shaper] no_files 0 (txt "cut.csp") 1
           two_column_shaper 2 2);
    try reflexivity; simpl; lia.
Defined.

(** ** Reading back a shaper and a cube *)

(** The lines kept of a list of lines. *)
Definition kept_of (ls : list str) : list str :=
  filter (fun l => negb (str_eqb l [])) (map strip ls).

Lemma kept_unlines ls :
  Forall (fun l => unbroken l = true) ls -> kept_lines (unlines ls) = kept_of ls.
Proof.
  intros H. unfold kept_lines, kept_of. rewrite readlines_unlines by exact H.
  unfold normalise_lines. clear H.
  induction ls as [|l ls IH]; [reflexivity|].
  assert (is_space LF = true) as HLF by reflexivity.
  cbn [map filter]. rewrite (strip_snoc_space _ _ HLF).
  destruct (str_eqb (strip l) []); cbn [negb map].
  - exact IH.
  - rewrite (strip_snoc_space _ _ HLF), IH. reflexivity.
Qed.

Lemma kept_of_app a b : kept_of (a ++ b) = kept_of a ++ kept_of b.
Proof. unfold kept_of. rewrite map_app, filter_app. reflexivity. Qed.

Lemma kept_of_blank ls : kept_of ([] :: ls) = kept_of ls.
Proof. reflexivity. Qed.

Lemma kept_of_line l k ls :
  strip l = k -> k <> [] -> kept_of (l :: ls) = k :: kept_of ls.
Proof.
  intros Hs Hk. unfold kept_of. cbn [map filter].
  rewrite Hs, (str_eqb_neq _ _ Hk). reflexivity.
Qed.

Lemma kept_of_plain_line l ls :
  plain_line l -> kept_of (l :: ls) = l :: kept_of ls.
Proof. intros (Hne & Hs & _). apply kept_of_line; assumption. Qed.

Lemma kept_plain ls : Forall plain_line ls -> kept_of ls = ls.
Proof.
  induction 1 as [|l ls Hl _ IH]; [reflexivity|].
  rewrite (kept_of_plain_line l ls Hl), IH. reflexivity.
Qed.

(** ** Line ends, blank lines and white space around the lines *)

Lemma universal_newlines_prefix l rest :
  unbroken l = true ->
  universal_newlines (l ++ rest) = l ++ universal_newlines rest.
Proof.
  induction l as [|c l IH]; intros H; [reflexivity|].
  simpl in H; apply andb_prop in H as [Hc Hl].
  apply negb_true_iff, not_break in Hc as [_ Hc].
  simpl. rewrite Hc, IH by assumption. reflexivity.
Qed.

(** The lines kept of a text that is handed over by the file. *)
Lemma kept_translated_line l y :
  unbroken l = true ->
  normalise_lines (readlines_from [] (l ++ LF :: y))
  = kept_of [l] ++ normalise_lines (readlines_from [] y).
Proof.
  intros H. rewrite (readlines_from_line l [] y H). cbn [rev app].
  unfold normalise_lines, kept_of. cbn [map filter].
  assert (is_space LF = true) as HLF by reflexivity.
  rewrite (strip_snoc_space _ _ HLF).
  destruct (str_eqb (strip l) []); cbn [negb map app]; [reflexivity|].
  rewrite (strip_snoc_space _ _ HLF). reflexivity.
Qed.

(** A line feed at the head of a text is a blank line. *)
Lemma kept_after_LF r : kept_lines (LF :: r) = kept_lines r.
Proof.
  unfold kept_lines, readlines.
  change (universal_newlines (LF :: r)) with (LF :: universal_newlines r).
  apply (kept_translated_line [] (universal_newlines r) eq_refl).
Qed.

Lemma kept_line_with_end l e rest :
  unbroken l = true -> line_end e ->
  kept_lines ((l ++ e) ++ rest) = kept_of [l] ++ kept_lines rest.
Proof.
  intros Hl He. rewrite <- app_assoc.
  unfold kept_lines at 1. unfold readlines.
  rewrite (universal_newlines_prefix l _ Hl).
  destruct He as [-> | [-> | ->]].
  - change (universal_newlines ([LF] ++ rest))
      with (LF :: universal_newlines rest).
    apply (kept_translated_line l _ Hl).
  - destruct rest as [|c r].
    + change (universal_newlines ([CR] ++ [])) with [LF].
      rewrite (kept_translated_line l [] Hl). reflexivity.
    + destruct (Ascii.eqb c LF) eqn:E.
      * apply Ascii.eqb_eq in E. subst c.
        change (universal_newlines ([CR] ++ LF :: r))
          with (LF :: universal_newlines r).
        rewrite (kept_translated_line l _ Hl), kept_after_LF. reflexivity.
      * assert (universal_newlines ([CR] ++ c :: r)
                = LF :: universal_newlines (c :: r)) as ->
          by (cbn [app universal_newlines];
              change (Ascii.eqb CR CR) with true; cbv iota; rewrite E;
              reflexivity).
        apply (kept_translated_line l _ Hl).
  - change (universal_newlines ([CR; LF] ++ rest))
      with (LF :: universal_newlines rest).
    apply (kept_translated_line l _ Hl).
Qed.

(** The reader keeps of a text the lines that are not blank, stripped,
    whatever the line ends. *)
Lemma kept_text_with_ends ls :
  Forall (fun le => unbroken (fst le) = true /\ line_end (snd le)) ls ->
  kept_lines (text_with_ends ls) = kept_of (map fst ls).
Proof.
  induction 1 as [|[l e] ls [Hl He] _ IH]; [reflexivity|].
  unfold text_with_ends. cbn [map concat fst snd].
  fold (text_with_ends ls).
  rewrite (kept_line_with_end l e _ Hl He), IH.
  change (l :: map fst ls) with ([l] ++ map fst ls).
  rewrite kept_of_app. reflexivity.
Qed.

Lemma unbroken_lstrip s : unbroken s = true -> unbroken (lstrip s) = true.
Proof.
  induction s as [|c s IH]; intros H; [reflexivity|].
  simpl. destruct (is_space c); [|exact H].
  simpl in H. apply andb_prop in H as [_ H]. apply IH, H.
Qed.

Lemma unbroken_rev s : unbroken (rev s) = unbroken s.
Proof.
  induction s as [|c s IH]; [reflexivity|].
  simpl. rewrite unbroken_app, IH. simpl. rewrite andb_true_r.
  apply andb_comm.
Qed.

Lemma unbroken_strip s : unbroken s = true -> unbroken (strip s) = true.
Proof.
  intros H. unfold strip, rstrip. rewrite unbroken_rev.
  apply unbroken_lstrip. rewrite unbroken_rev.
  apply unbroken_lstrip, H.
Qed.

(** The lines kept of unbroken lines are plain. *)
Lemma kept_of_plain ls :
  Forall (fun l => unbroken l = true) ls -> Forall plain_line (kept_of ls).
Proof.
  intros H. unfold kept_of. apply Forall_forall. intros k Hk.
  apply filter_In in Hk as [Hin Hne].
  apply in_map_iff in Hin as (l & <- & Hl).
  pose proof (proj1 (Forall_forall _ _) H l Hl) as Hu. cbv beta in Hu.
  repeat split.
  - intros E. rewrite E in Hne. discriminate Hne.
  - apply strip_idem.
  - apply unbroken_strip, Hu.
Qed.

(** X18.  Line ends, blank lines and white space around the lines are
    immaterial: a file whose lines end with LF, CR or CR LF, in any mix, is
    read as the file made of its lines that are not blank, stripped and
    each ended by LF, when there is such a line. *)
Theorem X18_line_ends_and_blanks_ignored
  (lib : LUTlib) (fs1 fs2 : filesystem) (path1 path2 : str)
  (ls : list (str * str)) :
  Forall (fun le => unbroken (fst le) = true /\ line_end (snd le)) ls ->
  kept_of (map fst ls) <> [] ->
  fs1 path1 = Some (text_with_ends ls) ->
  fs2 path2 = Some (unlines (kept_of (map fst ls))) ->
  read_LUT_Cinespace lib fs1 path1 = read_LUT_Cinespace lib fs2 path2.
Proof.
  intros Hls Hne H1 H2.
  pose proof (kept_text_with_ends ls Hls) as Hk1.
  assert (Forall (fun l => unbroken l = true) (map fst ls)) as Hu.
  { apply Forall_forall. intros l Hl.
    apply in_map_iff in Hl as (le & <- & Hle).
    apply (proj1 (proj1 (Forall_forall _ _) Hls le Hle)). }
  pose proof (kept_of_plain _ Hu) as Hplain.
  assert (kept_lines (unlines (kept_of (map fst ls)))
          = kept_of (map fst ls)) as Hk2.
  { rewrite kept_unlines.
    - apply kept_plain, Hplain.
    - eapply Forall_impl; [|exact Hplain].
      intros l (_ & _ & Hl). exact Hl. }
  rewrite (read_kept lib fs1 path1 _ H1) by (rewrite Hk1; exact Hne).
  rewrite (read_kept lib fs2 path2 _ H2) by (rewrite Hk2; exact Hne).
  rewrite Hk1, Hk2. reflexivity.
Qed.

Lemma X18_witness :
  read_LUT_Cinespace sample_lib
    (fun _ => Some (text_with_ends mixed_ends_file)) (txt "a.csp")
  = read_LUT_Cinespace sample_lib
      (fun _ => Some (unlines (kept_of (map fst mixed_ends_file))))
      (txt "b.csp").
Proof.
  apply (X18_line_ends_and_blanks_ignored sample_lib
           (fun _ => Some (text_with_ends mixed_ends_file))
           (fun _ => Some (unlines (kept_of (map fst mixed_ends_file))))
           (txt "a.csp") (txt "b.csp") mixed_ends_file);
    try reflexivity.
  - unfold mixed_ends_file, line_end.
    repeat (apply Forall_cons; [split; [reflexivity | auto]|]).
    apply Forall_nil.
  - vm_compute. discriminate.
Defined.

Lemma spaced_cons t ts : spaced (t :: ts) = t ++ txt " " ++ spaced ts.
Proof. unfold spaced. simpl. rewrite <- app_assoc. reflexivity. Qed.

Lemma spaced_join ts : ts <> [] -> spaced ts = join_sp ts ++ txt " ".
Proof.
  induction ts as [|t ts IH]; [congruence|]. intros _.
  rewrite spaced_cons. destruct ts as [|t' ts].
  - reflexivity.
  - rewrite IH by discriminate.
    rewrite (join_sp_cons t (t' :: ts)) by discriminate.
    rewrite <- !app_assoc. reflexivity.
Qed.

Lemma strip_spaced ts :
  ts <> [] -> Forall token ts ->
  strip (spaced ts) = join_sp ts /\ unbroken (spaced ts) = true.
Proof.
  intros Hne Ht. rewrite (spaced_join ts Hne). split.
  - change (txt " ") with [" "%char].
    rewrite strip_snoc_space by reflexivity. apply strip_join_sp. exact Ht.
  - rewrite unbroken_app, (unbroken_join_sp ts Ht). reflexivity.
Qed.

Lemma head_text_lines kind nm cms :
  head_text kind nm cms
  = unlines ([txt "CSPLUTV100"; kind; []; txt "BEGIN METADATA"; nm]
             ++ cms ++ [txt "END METADATA"; []]).
Proof.
  unfold head_text, unlines, nl. rewrite !map_app, !concat_app.
  cbn [map concat]. rewrite !app_nil_r.
  repeat (rewrite <- app_assoc; cbn [app]). reflexivity.
Qed.

Lemma uniform_shaper_lines d l0 :
  uniform_shaper_text d l0 = unlines (shaper_written d l0).
Proof.
  unfold uniform_shaper_text, shaper_written, shaper_numbers, spaced, spread,
    unlines.
  change (seq 0 3) with [0; 1; 2]. cbn [map concat app fst snd].
  rewrite !map_map. repeat rewrite <- app_assoc. reflexivity.
Qed.

Lemma tokens_numbers d l0 i :
  Forall token (fst (shaper_numbers d l0 i))
  /\ Forall token (snd (shaper_numbers d l0 i)).
Proof.
  unfold shaper_numbers. cbn [fst snd].
  split; apply Forall_forall; intros t Ht;
    apply in_map_iff in Ht as (j & <- & _); apply token_format_f.
Qed.

Lemma numbers_nonempty d l0 i :
  0 < size l0 ->
  fst (shaper_numbers d l0 i) <> [] /\ snd (shaper_numbers d l0 i) <> [].
Proof.
  intros H. unfold shaper_numbers. cbn [fst snd].
  destruct (size l0) as [|n]; [lia|].
  change (seq 0 (S n)) with (0 :: seq 1 n). split; discriminate.
Qed.

(** The lines the reader keeps of the file of a shaper and a cube. *)
Lemma kept_shaper_cube d nm cms l0 n0 n1 n2 t :
  0 < size l0 ->
  metadata_line nm -> Forall metadata_line cms ->
  kept_lines (head_text (txt "3D") nm cms
              ++ uniform_shaper_text d l0 ++ cube_text d n0 n1 n2 t)
  = txt "CSPLUTV100" :: txt "3D"
    :: [] ++ txt "BEGIN METADATA" :: (nm :: cms)
       ++ txt "END METADATA"
       :: (shaper_kept d l0
           ++ join_sp [str_of_nat n0; str_of_nat n1; str_of_nat n2]
           :: row_lines d (data t)).
Proof.
  intros Hsize Hnm Hcms.
  rewrite head_text_lines, uniform_shaper_lines. unfold cube_text.
  rewrite <- !unlines_app.
  assert (plain_line (join_sp [str_of_nat n0; str_of_nat n1; str_of_nat n2]))
    as Psize.
  { apply plain_join_sp; [discriminate|].
    repeat constructor; apply token_str_of_N. }
  assert (Forall plain_line cms) as Pcms
    by (eapply Forall_impl; [|exact Hcms]; intros l [Hl _]; exact Hl).
  pose proof (plain_rows d (data t)) as Prows.
  assert (forall l, plain_line l -> unbroken l = true) as Punbroken
    by (intros l (_ & _ & Hl); exact Hl).
  assert (Forall (fun l => unbroken l = true) (shaper_written d l0)
          /\ kept_of (shaper_written d l0) = shaper_kept d l0) as [Hwn Hwk].
  { unfold shaper_written, shaper_kept. change (seq 0 3) with [0; 1; 2].
    cbn [map concat app].
    assert (plain_line (str_of_nat (size l0))) as Pn
      by (apply plain_token, token_str_of_N).
    assert (forall i,
              let a := fst (shaper_numbers d l0 i) in
              let b := snd (shaper_numbers d l0 i) in
              (strip (spaced a) = join_sp a /\ unbroken (spaced a) = true
               /\ join_sp a <> [])
              /\ (strip (spaced b) = join_sp b /\ unbroken (spaced b) = true
                  /\ join_sp b <> [])) as Hnum.
    { intros i a b. destruct (tokens_numbers d l0 i) as [Ta Tb].
      destruct (numbers_nonempty d l0 i Hsize) as [Na Nb].
      destruct (strip_spaced _ Na Ta) as [Sa La].
      destruct (strip_spaced _ Nb Tb) as [Sb Lb].
      repeat split; try assumption; apply join_sp_nonempty; assumption. }
    cbv zeta in Hnum.
    destruct (Hnum 0) as [(A0 & B0 & C0) (D0 & E0 & F0)].
    destruct (Hnum 1) as [(A1 & B1 & C1) (D1 & E1 & F1)].
    destruct (Hnum 2) as [(A2 & B2 & C2) (D2 & E2 & F2)].
    split.
    - repeat (apply Forall_cons; [(assumption || apply Punbroken, Pn)|]).
      apply Forall_nil.
    - rewrite (kept_of_plain_line _ _ Pn), (kept_of_line _ _ _ A0 C0),
        (kept_of_line _ _ _ D0 F0).
      rewrite (kept_of_plain_line _ _ Pn), (kept_of_line _ _ _ A1 C1),
        (kept_of_line _ _ _ D1 F1).
      rewrite (kept_of_plain_line _ _ Pn), (kept_of_line _ _ _ A2 C2),
        (kept_of_line _ _ _ D2 F2).
      reflexivity. }
  assert (plain_line (txt "CSPLUTV100")) as P1
    by (apply plain_txt; (discriminate || reflexivity)).
  assert (plain_line (txt "3D")) as P2
    by (apply plain_txt; (discriminate || reflexivity)).
  assert (plain_line (txt "BEGIN METADATA")) as P3
    by (apply plain_txt; (discriminate || reflexivity)).
  assert (plain_line (txt "END METADATA")) as P4
    by (apply plain_txt; (discriminate || reflexivity)).
  destruct Hnm as [Pnm _].
  rewrite kept_unlines.
  - rewrite !kept_of_app.
    rewrite (kept_of_plain_line _ _ P1), (kept_of_plain_line _ _ P2),
      kept_of_blank, (kept_of_plain_line _ _ P3),
      (kept_of_plain_line _ _ Pnm), (kept_plain cms Pcms),
      (kept_of_plain_line _ _ P4), kept_of_blank, Hwk, kept_of_blank,
      (kept_of_plain_line _ _ Psize), (kept_plain _ Prows).
    change (kept_of []) with (@nil str).
    cbn [app]. rewrite <- !app_assoc. reflexivity.
  - rewrite !Forall_app. repeat split;
      first
        [ exact Hwn
        | eapply Forall_impl; [|exact Pcms]; exact Punbroken
        | eapply Forall_impl; [|exact Prows]; exact Punbroken
        | repeat (apply Forall_cons;
                  [first [reflexivity | apply Punbroken; assumption]|]);
          apply Forall_nil ].
Qed.

Lemma padded_full w x : List.length x = w -> padded w x = x.
Proof.
  intros <-. unfold padded. rewrite Nat.sub_diag. apply app_nil_r.
Qed.

Lemma block_of_concat {A} (rws : list (list A)) n : forall k,
  Forall (fun r => List.length r = n) rws ->
  firstn n (skipn (k * n) (concat rws)) = nth k rws [].
Proof.
  induction rws as [|r rws IH]; intros k H.
  - simpl. rewrite skipn_nil, firstn_nil. destruct k; reflexivity.
  - inversion H as [|? ? Hr H']; subst. destruct k as [|k].
    + simpl. rewrite firstn_app, Nat.sub_diag, firstn_all. simpl.
      apply app_nil_r.
    + cbn [concat nth]. rewrite <- (IH k H').
      replace (S k * List.length r) with (k * List.length r + List.length r)
        by lia.
      rewrite <- skipn_skipn.
      rewrite (skipn_length_app r (concat rws) _ eq_refl). reflexivity.
Qed.

Lemma interleave3_seq {A} (f g h : A -> float) l :
  interleave3 (map f l) (map g l) (map h l)
  = concat (map (fun j => [f j; g j; h j]) l).
Proof.
  induction l as [|x l IH]; [reflexivity|].
  simpl. rewrite IH. reflexivity.
Qed.

Lemma rows_of_data n : forall (xs : list float),
  List.length xs = n * 3 ->
  concat (map (fun j => [nth (j * 3 + 0) xs nan; nth (j * 3 + 1) xs nan;
                         nth (j * 3 + 2) xs nan]) (seq 0 n))
  = xs.
Proof.
  induction n as [|n IH]; intros xs H.
  - destruct xs; [reflexivity | discriminate].
  - destruct xs as [|x [|y [|z xs]]]; try discriminate.
    simpl in H.
    change (seq 0 (S n)) with (0 :: seq 1 n).
    rewrite <- seq_shift, map_cons, map_map. cbn [concat].
    cbn [Nat.mul Nat.add nth app]. rewrite (IH xs) by lia. reflexivity.
Qed.

(** The shaper block read back: six rows, as many samples as the shaper has
    rows, nothing padded. *)
Lemma parse_shaper_kept d l0 n :
  size l0 = n ->
  _parse_domain_section (shaper_kept d l0)
  = Ok {| shape := [6; n];
          data := concat
                    (concat
                       (map (fun i =>
                               [ map (fun j => reread d (spread l0 i j))
                                     (seq 0 n);
                                 map (fun j => reread d
                                                 (nth (j * 3 + i)
                                                      (data (table l0)) nan))
                                     (seq 0 n) ])
                            (seq 0 3))) |}.
Proof.
  intros Hn. unfold shaper_kept. change (seq 0 3) with [0; 1; 2].
  cbn [map concat app]. rewrite Hn.
  assert (int_of_str (str_of_nat n) = Some (Z.of_nat n)) as Hint
    by (unfold str_of_nat; rewrite int_of_str_of_N, nat_N_Z; reflexivity).
  assert (forall i,
            as_float_array (split (join_sp (fst (shaper_numbers d l0 i))))
            = Ok (array1 (map (fun j => reread d (spread l0 i j)) (seq 0 n)))
            /\ as_float_array
                 (split (join_sp (snd (shaper_numbers d l0 i))))
               = Ok (array1 (map (fun j =>
                                    reread d (nth (j * 3 + i)
                                                  (data (table l0)) nan))
                                 (seq 0 n)))) as Hrow.
  { intros i. unfold shaper_numbers. cbn [fst snd]. rewrite Hn. split.
    - rewrite <- (map_map (spread l0 i) (format_f d)).
      rewrite as_float_array_formatted, map_map. reflexivity.
    - rewrite <- (map_map (fun j => nth (j * 3 + i) (data (table l0)) nan)
                    (format_f d)).
      rewrite as_float_array_formatted, map_map. reflexivity. }
  rewrite (shaper_block_rows _ _ _ _ _ _ _ _ _ _ _ _ _ _ _ _ _ _
             Hint Hint Hint
             (proj1 (Hrow 0)) (proj2 (Hrow 0)) (proj1 (Hrow 1))
             (proj2 (Hrow 1)) (proj1 (Hrow 2)) (proj2 (Hrow 2))).
  rewrite !Z.max_id.
  assert (forall x, List.length x = n ->
            pad_row (Z.of_nat n) (array1 x) = Ok x) as Hpad.
  { intros x Hx. rewrite pad_row_fits by lia.
    rewrite Nat2Z.id, (padded_full n x Hx). reflexivity. }
  cbn [rmap].
  rewrite !Hpad by (rewrite length_map, length_seq; reflexivity).
  rewrite rbind_Ok. cbv beta. rewrite Nat2Z.id. reflexivity.
Qed.

Lemma firstn_length_app {A} (a b : list A) k :
  k = List.length a -> firstn k (a ++ b) = a.
Proof.
  intros ->. rewrite firstn_app, Nat.sub_diag, firstn_all, firstn_O.
  apply app_nil_r.
Qed.

Lemma shaper_kept_length d l0 : List.length (shaper_kept d l0) = 9.
Proof. reflexivity. Qed.

(** The pre-LUT read back from the file of a shaper with a min/max
    domain. *)
Definition shaper_read (d : nat) (l0 : LUT) (n : nat) : ndarray :=
  {| shape := [6; n];
     data := concat
               (concat
                  (map (fun i =>
                          [ map (fun j => reread d (spread l0 i j)) (seq 0 n);
                            map (fun j => reread d
                                            (nth (j * 3 + i)
                                                 (data (table l0)) nan))
                                (seq 0 n) ])
                       (seq 0 3))) |}.

(** The file of a shaper and a cube, up to the assembly. *)
Lemma read_shaper_cube_sections lib fs path d nm cms l0 l1 t n n0 n1 n2 :
  fs path
  = Some (head_text (txt "3D") nm cms
          ++ uniform_shaper_text d l0 ++ cube_text d n0 n1 n2 t) ->
  metadata_line nm -> Forall metadata_line cms ->
  shape (table l0) = [n; 3] -> 0 < n ->
  shape (table l1) = [n0; n1; n2; 3] -> wf (table l1) ->
  reshape_F_rows3 (table l1) = Ok t ->
  0 < n0 -> 0 < n1 -> 0 < n2 ->
  (Z.of_nat (n0 * n1 * n2 * 3) <= int64_max)%Z ->
  read_LUT_Cinespace lib fs path
  = assemble lib (mk_sections true nm cms (shaper_read d l0 n)
                    [Z.of_nat n0; Z.of_nat n1; Z.of_nat n2]
                    (map_array (reread d) t))
  /\ unflatten [Z.of_nat n0; Z.of_nat n1; Z.of_nat n2]
       (map_array (reread d) t)
     = Ok (map_array (reread d) (table l1)).
Proof.
  intros Hfile Hnm Hcms Ht Hn Hcube Hcubew Hflat H0 H1 H2 Hmax.
  destruct (grid_index_sized n0 n1 n2 H0 H1 H2 Hmax)
    as (Hidx & Hm0 & Hm1 & Hm2 & Hmx).
  assert (size l0 = n) as Hsize
    by (unfold size, len; rewrite Ht; reflexivity).
  pose proof (kept_shaper_cube d nm cms l0 n0 n1 n2 t
                ltac:(rewrite Hsize; lia) Hnm Hcms) as Hk.
  set (rest := shaper_kept d l0
               ++ join_sp [str_of_nat n0; str_of_nat n1; str_of_nat n2]
               :: row_lines d (data t)) in *.
  destruct (reshape_F_rows (table l1) n0 n1 n2 t Hcube Hcubew Hflat)
    as [Hts _].
  assert (reshape_F (table l1) [List.length (data (table l1)) / 3; 3]
          = Ok t) as Hre.
  { unfold reshape_F_rows3 in Hflat.
    destruct (List.length (data (table l1)) mod 3 =? 0);
      [exact Hflat | discriminate]. }
  pose proof (reshape_F_wf _ _ _ Hre) as Htwf.
  pose proof (reshape_F_back _ _ _ Hcubew Hre) as Hback.
  rewrite Hcube in Hback.
  assert (0 < n0 * n1 * n2) as HN
    by (apply Nat.mul_pos_pos; [apply Nat.mul_pos_pos|]; assumption).
  assert (List.length (data t) = (n0 * n1 * n2) * 3) as Hlen
    by (unfold wf in Htwf; rewrite Htwf, Hts; simpl; lia).
  split;
    [|rewrite (unflatten_given n0 n1 n2 _ Hidx);
      apply (reshape_F_map _ _ _ _ Htwf Hback)].
  assert (sections_of_lines
            (kept_lines (head_text (txt "3D") nm cms
                         ++ uniform_shaper_text d l0
                         ++ cube_text d n0 n1 n2 t))
          = Ok (mk_sections true nm cms (shaper_read d l0 n)
                  [Z.of_nat n0; Z.of_nat n1; Z.of_nat n2]
                  (map_array (reread d) t))) as Hsec.
  { rewrite Hk.
    rewrite (sections_of_block (txt "3D") [] (nm :: cms) rest
               (or_intror eq_refl) (Forall_nil _)).
    - assert (firstn 9 rest = shaper_kept d l0) as ->.
      { unfold rest. apply firstn_length_app. reflexivity. }
      assert (skipn 9 rest
              = join_sp [str_of_nat n0; str_of_nat n1; str_of_nat n2]
                :: row_lines d (data t)) as ->
        by (unfold rest; apply skipn_length_app; reflexivity).
      rewrite (parse_shaper_kept d l0 n Hsize), rbind_Ok. cbv beta.
      rewrite (parse_table d [Z.of_nat n0; Z.of_nat n1; Z.of_nat n2]
                 (join_sp [str_of_nat n0; str_of_nat n1; str_of_nat n2])
                 (data t) (n0 * n1 * n2)
                 (parse_size_3 n0 n1 n2 Hm0 Hm1 Hm2) Hlen HN).
      rewrite rbind_Ok. cbv beta iota.
      unfold map_array. rewrite Hts. reflexivity.
    - apply Forall_cons.
      + destruct Hnm as [(_ & Hs & _) Hm]. split; assumption.
      + eapply Forall_impl; [|exact Hcms].
        intros l [(_ & Hs & _) Hm]. split; assumption. }
  rewrite (read_kept lib fs path _ Hfile)
    by (rewrite Hk; discriminate).
  rewrite Hsec, rbind_Ok. cbv beta.
  cbn [table_size flat_table].
  assert ((product [Z.of_nat n0; Z.of_nat n1; Z.of_nat n2]
           =? Z.of_nat (len (map_array (reread d) t)))%Z = true) as ->.
  { apply Z.eqb_eq. unfold len, map_array. cbn [shape]. rewrite Hts.
    cbn [hd]. apply (product_nat3 n0 n1 n2 Hmx). }
  rewrite rassert_true, rbind_Ok. reflexivity.
Qed.

(** The file of a shaper of three rows or more and a cube, read. *)
Lemma read_back_shaper_cube lib fs path d nm cms l0 l1 t n n0 n1 n2 :
  fs path
  = Some (head_text (txt "3D") nm cms
          ++ uniform_shaper_text d l0 ++ cube_text d n0 n1 n2 t) ->
  metadata_line nm -> Forall metadata_line cms ->
  shape (table l0) = [n; 3] -> wf (table l0) -> 3 <= n ->
  shape (table l1) = [n0; n1; n2; 3] -> wf (table l1) ->
  reshape_F_rows3 (table l1) = Ok t ->
  0 < n0 -> 0 < n1 -> 0 < n2 ->
  (Z.of_nat (n0 * n1 * n2 * 3) <= int64_max)%Z ->
  read_LUT_Cinespace lib fs path
  = Ok (LUTSequence
          [mk_LUT LUT3x1D (map_array (reread d) (table l0))
             (nm ++ txt " - Shaper") (map_array (reread d) (spread_domain l0))
             (comments (LUT_default lib LUT3x1D));
           mk_LUT LUT3D (map_array (reread d) (table l1))
             (nm ++ txt " - Cube") (domain (LUT_default lib LUT3D)) cms]).
Proof.
  intros Hfile Hnm Hcms Ht Htw Hn Hcube Hcubew Hflat H0 H1 H2 Hmax.
  assert (size l0 = n) as Hsize
    by (unfold size, len; rewrite Ht; reflexivity).
  assert (List.length (data (table l0)) = n * 3) as Hlen0
    by (unfold wf in Htw; rewrite Htw, Ht; simpl; lia).
  destruct (read_shaper_cube_sections lib fs path d nm cms l0 l1 t n n0 n1 n2
              Hfile Hnm Hcms Ht ltac:(lia) Hcube Hcubew Hflat H0 H1 H2 Hmax)
    as [-> Hun].
  unfold assemble. cbn [is_3D pre_LUT flat_table title meta_comments
                        table_size].
  assert (trivial_shaper (shaper_read d l0 n) = false) as ->.
  { unfold trivial_shaper, shaper_read. cbn [shape]. unfold shape_eqb.
    destruct (list_eq_dec Nat.eq_dec [6; n] [6; 2]) as [E | _];
      [injection E as E; lia | reflexivity]. }
  cbn [andb negb]. unfold assemble_shaped.
  cbn [is_3D pre_LUT flat_table title meta_comments table_size].
  rewrite (stack_rows_six (shaper_read d l0 n) n 0 2 4 eq_refl) by lia.
  rewrite rbind_Ok. cbv beta.
  rewrite (stack_rows_six (shaper_read d l0 n) n 1 3 5 eq_refl) by lia.
  rewrite rbind_Ok. cbv beta zeta.
  rewrite Hun, rbind_Ok. cbv beta.
  rewrite new_LUT_axes by reflexivity. rewrite rbind_Ok. cbv beta.
  rewrite new_LUT_axes
    by (unfold map_array; cbn [shape]; rewrite Hcube; reflexivity).
  rewrite rbind_Ok. cbv beta.
  assert (Forall (fun r : list float => List.length r = n)
            (concat
               (map (fun i =>
                       [ map (fun j => reread d (spread l0 i j)) (seq 0 n);
                         map (fun j => reread d
                                         (nth (j * 3 + i)
                                              (data (table l0)) nan))
                             (seq 0 n) ])
                    (seq 0 3)))) as Hrows.
  { change (seq 0 3) with [0; 1; 2]. cbn [map concat app].
    repeat (apply Forall_cons;
            [rewrite length_map, length_seq; reflexivity|]).
    apply Forall_nil. }
  unfold shaper_read. cbn [data].
  rewrite !(block_of_concat _ n _ Hrows).
  change (seq 0 3) with [0; 1; 2]. cbn [map concat app nth].
  rewrite !interleave3_seq.
  assert ({| shape := [n; 3];
             data := concat
                       (map (fun j =>
                               [reread d (nth (j * 3 + 0)
                                              (data (table l0)) nan);
                                reread d (nth (j * 3 + 1)
                                              (data (table l0)) nan);
                                reread d (nth (j * 3 + 2)
                                              (data (table l0)) nan)])
                            (seq 0 n)) |}
          = map_array (reread d) (table l0)) as ->.
  { unfold map_array. rewrite Ht. f_equal.
    transitivity
      (map (reread d)
           (concat (map (fun j => [nth (j * 3 + 0) (data (table l0)) nan;
                                   nth (j * 3 + 1) (data (table l0)) nan;
                                   nth (j * 3 + 2) (data (table l0)) nan])
                        (seq 0 n)))).
    - rewrite concat_map, map_map. reflexivity.
    - f_equal. apply (rows_of_data n (data (table l0)) Hlen0). }
  assert ({| shape := [n; 3];
             data := concat
                       (map (fun j =>
                               [reread d (spread l0 0 j);
                                reread d (spread l0 1 j);
                                reread d (spread l0 2 j)])
                            (seq 0 n)) |}
          = map_array (reread d) (spread_domain l0)) as ->.
  { unfold map_array, spread_domain. rewrite Hsize. cbn [shape data].
    f_equal. rewrite concat_map, map_map. reflexivity. }
  reflexivity.
Qed.

(** The file of a shaper of two rows whose table is [0, 1] and a cube,
    read: the shaper is taken for no shaper. *)
Lemma read_back_unit_shaper lib fs path d nm cms l0 l1 t n0 n1 n2 :
  fs path
  = Some (head_text (txt "3D") nm cms
          ++ uniform_shaper_text d l0 ++ cube_text d n0 n1 n2 t) ->
  metadata_line nm -> Forall metadata_line cms ->
  table l0 = unity_range ->
  shape (table l1) = [n0; n1; n2; 3] -> wf (table l1) ->
  reshape_F_rows3 (table l1) = Ok t ->
  0 < n0 -> 0 < n1 -> 0 < n2 ->
  (Z.of_nat (n0 * n1 * n2 * 3) <= int64_max)%Z ->
  read_LUT_Cinespace lib fs path
  = Ok (Single (mk_LUT LUT3D (map_array (reread d) (table l1)) nm
                  (map_array (reread d) (spread_domain l0)) cms)).
Proof.
  intros Hfile Hnm Hcms Ht Hcube Hcubew Hflat H0 H1 H2 Hmax.
  assert (size l0 = 2) as Hsize
    by (unfold size, len; rewrite Ht; reflexivity).
  destruct (read_shaper_cube_sections lib fs path d nm cms l0 l1 t 2 n0 n1 n2
              Hfile Hnm Hcms ltac:(rewrite Ht; reflexivity) ltac:(lia)
              Hcube Hcubew Hflat H0 H1 H2 Hmax)
    as [-> Hun].
  assert (shaper_read d l0 2
          = {| shape := [6; 2];
               data := [reread d (spread l0 0 0); reread d (spread l0 0 1);
                        zero; one;
                        reread d (spread l0 1 0); reread d (spread l0 1 1);
                        zero; one;
                        reread d (spread l0 2 0); reread d (spread l0 2 1);
                        zero; one] |}) as Hpre.
  { unfold shaper_read. rewrite Ht. f_equal.
    change (seq 0 3) with [0; 1; 2]. change (seq 0 2) with [0; 1].
    cbn [map concat app data unity_range nth Nat.mul Nat.add].
    rewrite !reread_zero, !reread_one. reflexivity. }
  unfold assemble. cbn [is_3D pre_LUT flat_table title meta_comments
                        table_size].
  rewrite Hpre.
  match goal with
  | |- context [trivial_shaper ?p] =>
      destruct (two_sample_shaper p eq_refl eq_refl) as [Hb Htriv];
      rewrite (proj2 Htriv), Hb
  end.
  - cbn [andb]. rewrite Hun, !rbind_Ok. cbv beta.
    rewrite new_LUT_axes
      by (unfold map_array; cbn [shape]; rewrite Hcube; reflexivity).
    rewrite rbind_Ok. cbv beta.
    unfold bounds_of, sample, map_array, spread_domain.
    rewrite Hsize. reflexivity.
  - intros c Hc. destruct c as [|[|[|c]]]; [| | |lia]; split; reflexivity.
Qed.

(** X19.  A sequence of a [LUT3x1D] with a min/max domain, of at least
    three rows, and a [LUT3D], written and read back, is again a sequence
    of a [LUT3x1D] and a [LUT3D], with every number replaced by the number
    read from its rendering with [d] decimals.  The tables come back.  The
    shaper comes back with the domain spread out sample by sample, and the
    cube with the domain of a [LUT3D] built without one: its own domain is
    not written.  Both stages are named after the cube, the name of the
    shaper is lost, and all the comments end up on the cube. *)
Theorem X19_sequence_round_trip
  (lib : LUTlib) (h : heap) (fs : filesystem) (ref p0 p1 : loc) (path : str)
  (d : nat) (l0 l1 : LUT) (n n0 n1 n2 : nat) :
  deref h ref = Some (ObjLUTSequence [p0; p1]) ->
  lut_at h p0 = Some l0 -> lut_at h p1 = Some l1 ->
  class_of l0 = LUT3x1D -> class_of l1 = LUT3D ->
  shape (domain l0) = [2; 3] -> wf (domain l0) ->
  shape (table l0) = [n; 3] -> wf (table l0) ->
  (3 <= Z.of_nat n <= 65536)%Z ->
  shape (table l1) = [n0; n1; n2; 3] -> wf (table l1) ->
  (2 <= Z.of_nat n0 <= 256)%Z -> 0 < n1 -> 0 < n2 ->
  (Z.of_nat (n0 * n1 * n2 * 3) <= int64_max)%Z ->
  metadata_line (name l1) ->
  Forall metadata_line (comments l0 ++ comments l1) ->
  read_LUT_Cinespace lib
    (snd (fst (write_LUT_Cinespace lib ref path d (h, fs)))) path
  = Ok (LUTSequence
          [mk_LUT LUT3x1D (map_array (reread d) (table l0))
             (name l1 ++ txt " - Shaper")
             (map_array (reread d) (spread_domain l0))
             (comments (LUT_default lib LUT3x1D));
           mk_LUT LUT3D (map_array (reread d) (table l1))
             (name l1 ++ txt " - Cube") (domain (LUT_default lib LUT3D))
             (comments l0 ++ comments l1)]).
Proof.
  intros Hd H0 H1 Hc0 Hc1 Hdom Hdomw Ht Htw Hn Hcube Hcubew Hn0 Hn1 Hn2
    Hmax Hname Hcms.
  destruct (rows3_exists (table l1) n0 n1 n2 Hcube Hcubew) as [t Hflat].
  destruct (dispatch_shaper_cube lib h ref p0 p1 l0 l1 n n0 n1 n2
              Hd H0 H1 Hc0 Hc1 Ht ltac:(lia) Hcube Hn0)
    as (Hnorm & Hs0 & Hs1 & Hval).
  rewrite (write_valid lib h fs ref path d _ _ _ _ Hnorm Hs0 Hs1 Hval).
  rewrite (serialise_shaper_cube d (name l1) ref l0 l1 n n0 n1 n2 t
             Hc0 Hdom Hdomw Ht Htw Hcube Hcubew Hflat).
  cbn [fst snd].
  apply (read_back_shaper_cube lib _ path d (name l1)
           (comments l0 ++ comments l1) l0 l1 t n n0 n1 n2
           (written_file_read _ _ _) Hname Hcms Ht Htw ltac:(lia)
           Hcube Hcubew Hflat);
    (assumption || lia).
Qed.

Lemma X19_witness :
  read_LUT_Cinespace sample_lib
    (snd (fst (write_LUT_Cinespace sample_lib 2 (txt "look.csp") 3
                 ([ObjLUT sample_shaper; ObjLUT sample_cube;
                   ObjLUTSequence [0; 1]], no_files))))
    (txt "look.csp")
  = Ok (LUTSequence
          [mk_LUT LUT3x1D (map_array (reread 3) (table sample_shaper))
             (txt "My cube - Shaper")
             (map_array (reread 3) (spread_domain sample_shaper)) [];
           mk_LUT LUT3D (map_array (reread 3) (table sample_cube))
             (txt "My cube - Cube") unity_range
             [txt "A first comment."; txt "A second comment.";
              txt "A comment."]]).
Proof.
  apply (X19_sequence_round_trip sample_lib
           [ObjLUT sample_shaper; ObjLUT sample_cube; ObjLUTSequence [0; 1]]
           no_files 2 0 1 (txt "look.csp") 3 sample_shaper sample_cube
           3 2 2 2);
    try reflexivity; try (unfold int64_max; simpl; lia).
  - repeat split; discriminate.
  - repeat (apply Forall_cons; [repeat split; discriminate|]).
    apply Forall_nil.
Defined.

(** X20.  A sequence whose shaper has two rows and the table [0, 1], with a
    min/max domain, does not come back as a sequence: the reader takes its
    shaper block for the bounds of a lone cube and returns a single [LUT3D]
    with the table of the cube, the name of the cube, all the comments, and
    the domain of the shaper. *)
Theorem X20_unit_shaper_read_as_cube
  (lib : LUTlib) (h : heap) (fs : filesystem) (ref p0 p1 : loc) (path : str)
  (d : nat) (l0 l1 : LUT) (n0 n1 n2 : nat) :
  deref h ref = Some (ObjLUTSequence [p0; p1]) ->
  lut_at h p0 = Some l0 -> lut_at h p1 = Some l1 ->
  class_of l0 = LUT3x1D -> class_of l1 = LUT3D ->
  shape (domain l0) = [2; 3] -> wf (domain l0) ->
  table l0 = unity_range ->
  shape (table l1) = [n0; n1; n2; 3] -> wf (table l1) ->
  (2 <= Z.of_nat n0 <= 256)%Z -> 0 < n1 -> 0 < n2 ->
  (Z.of_nat (n0 * n1 * n2 * 3) <= int64_max)%Z ->
  metadata_line (name l1) ->
  Forall metadata_line (comments l0 ++ comments l1) ->
  read_LUT_Cinespace lib
    (snd (fst (write_LUT_Cinespace lib ref path d (h, fs)))) path
  = Ok (Single (mk_LUT LUT3D (map_array (reread d) (table l1)) (name l1)
                  (map_array (reread d) (spread_domain l0))
                  (comments l0 ++ comments l1))).
Proof.
  intros Hd H0 H1 Hc0 Hc1 Hdom Hdomw Ht Hcube Hcubew Hn0 Hn1 Hn2 Hmax
    Hname Hcms.
  assert (shape (table l0) = [2; 3]) as Hts by (rewrite Ht; reflexivity).
  assert (wf (table l0)) as Htw by (rewrite Ht; reflexivity).
  destruct (rows3_exists (table l1) n0 n1 n2 Hcube Hcubew) as [t Hflat].
  destruct (dispatch_shaper_cube lib h ref p0 p1 l0 l1 2 n0 n1 n2
              Hd H0 H1 Hc0 Hc1 Hts ltac:(lia) Hcube Hn0)
    as (Hnorm & Hs0 & Hs1 & Hval).
  rewrite (write_valid lib h fs ref path d _ _ _ _ Hnorm Hs0 Hs1 Hval).
  rewrite (serialise_shaper_cube d (name l1) ref l0 l1 2 n0 n1 n2 t
             Hc0 Hdom Hdomw Hts Htw Hcube Hcubew Hflat).
  cbn [fst snd].
  apply (read_back_unit_shaper lib _ path d (name l1)
           (comments l0 ++ comments l1) l0 l1 t n0 n1 n2
           (written_file_read _ _ _) Hname Hcms Ht Hcube Hcubew Hflat);
    (assumption || lia).
Qed.

Lemma X20_witness :
  read_LUT_Cinespace sample_lib
    (snd (fst (write_LUT_Cinespace sample_lib 2 (txt "look.csp") 3
                 ([ObjLUT unit_shaper; ObjLUT sample_cube;
                   ObjLUTSequence [0; 1]], no_files))))
    (txt "look.csp")
  = Ok (Single (mk_LUT LUT3D (map_array (reread 3) (table sample_cube))
                  (txt "My cube")
                  (map_array (reread 3) (spread_domain unit_shaper))
                  [txt "A shaper comment."; txt "A comment."])).
Proof.
  apply (X20_unit_shaper_read_as_cube sample_lib
           [ObjLUT unit_shaper; ObjLUT sample_cube; ObjLUTSequence [0; 1]]
           no_files 2 0 1 (txt "look.csp") 3 unit_shaper sample_cube 2 2 2);
    try reflexivity; try (unfold int64_max; simpl; lia).
  - repeat split; discriminate.
  - repeat (apply Forall_cons; [repeat split; discriminate|]).
    apply Forall_nil.
Defined.

(** ** A shaper with an explicit domain, written and read back *)

Section Block.

Variables (d n : nat) (f g : nat -> nat -> float).
Hypothesis Hn : 0 < n.

Lemma block_tokens (k : nat -> float) :
  Forall token (map (fun j => format_f d (k j)) (seq 0 n))
  /\ map (fun j => format_f d (k j)) (seq 0 n) <> [].
Proof.
  split.
  - apply Forall_forall. intros t Ht.
    apply in_map_iff in Ht as (j & <- & _). apply token_format_f.
  - destruct n as [|m]; [lia|]. change (seq 0 (S m)) with (0 :: seq 1 m).
    discriminate.
Qed.

Lemma block_line (k : nat -> float) :
  strip (spaced (map (fun j => format_f d (k j)) (seq 0 n)))
  = join_sp (map (fun j => format_f d (k j)) (seq 0 n))
  /\ unbroken (spaced (map (fun j => format_f d (k j)) (seq 0 n))) = true
  /\ join_sp (map (fun j => format_f d (k j)) (seq 0 n)) <> [].
Proof.
  destruct (block_tokens k) as [Ht Hne].
  destruct (strip_spaced _ Hne Ht) as [Hs Hl].
  repeat split; try assumption. apply join_sp_nonempty; assumption.
Qed.

Lemma kept_block :
  Forall (fun l => unbroken l = true) (block_written d n f g)
  /\ kept_of (block_written d n f g) = block_kept d n f g.
Proof.
  unfold block_written, block_kept. change (seq 0 3) with [0; 1; 2].
  cbn [map concat app].
  assert (plain_line (str_of_nat n)) as Pn
    by (apply plain_token, token_str_of_N).
  assert (unbroken (str_of_nat n) = true) as Ln by (destruct Pn as (_ & _ & H); exact H).
  destruct (block_line (f 0)) as (A0 & B0 & C0).
  destruct (block_line (g 0)) as (D0 & E0 & F0).
  destruct (block_line (f 1)) as (A1 & B1 & C1).
  destruct (block_line (g 1)) as (D1 & E1 & F1).
  destruct (block_line (f 2)) as (A2 & B2 & C2).
  destruct (block_line (g 2)) as (D2 & E2 & F2).
  split.
  - repeat (apply Forall_cons; [assumption|]). apply Forall_nil.
  - rewrite (kept_of_plain_line _ _ Pn), (kept_of_line _ _ _ A0 C0),
      (kept_of_line _ _ _ D0 F0).
    rewrite (kept_of_plain_line _ _ Pn), (kept_of_line _ _ _ A1 C1),
      (kept_of_line _ _ _ D1 F1).
    rewrite (kept_of_plain_line _ _ Pn), (kept_of_line _ _ _ A2 C2),
      (kept_of_line _ _ _ D2 F2).
    reflexivity.
Qed.

Lemma parse_block :
  _parse_domain_section (block_kept d n f g) = Ok (block_read d n f g).
Proof.
  unfold block_kept, block_read. change (seq 0 3) with [0; 1; 2].
  cbn [map concat app].
  assert (int_of_str (str_of_nat n) = Some (Z.of_nat n)) as Hint
    by (unfold str_of_nat; rewrite int_of_str_of_N, nat_N_Z; reflexivity).
  assert (forall k : nat -> float,
            as_float_array
              (split (join_sp (map (fun j => format_f d (k j)) (seq 0 n))))
            = Ok (array1 (map (fun j => reread d (k j)) (seq 0 n)))) as Hrow.
  { intros k. rewrite <- (map_map k (format_f d)).
    rewrite as_float_array_formatted, map_map. reflexivity. }
  rewrite (shaper_block_rows _ _ _ _ _ _ _ _ _ _ _ _ _ _ _ _ _ _
             Hint Hint Hint (Hrow (f 0)) (Hrow (g 0)) (Hrow (f 1))
             (Hrow (g 1)) (Hrow (f 2)) (Hrow (g 2))).
  rewrite !Z.max_id.
  assert (forall x, List.length x = n ->
            pad_row (Z.of_nat n) (array1 x) = Ok x) as Hpad.
  { intros x Hx. rewrite pad_row_fits by lia.
    rewrite Nat2Z.id, (padded_full n x Hx). reflexivity. }
  cbn [rmap].
  rewrite !Hpad by (rewrite length_map, length_seq; reflexivity).
  rewrite rbind_Ok. cbv beta. rewrite Nat2Z.id. reflexivity.
Qed.

Lemma block_stacked :
  stack_rows (block_read d n f g) 0 2 4
  = Ok {| shape := [n; 3];
          data := concat (map (fun j => [reread d (f 0 j); reread d (f 1 j);
                                         reread d (f 2 j)]) (seq 0 n)) |}
  /\ stack_rows (block_read d n f g) 1 3 5
     = Ok {| shape := [n; 3];
             data := concat (map (fun j => [reread d (g 0 j);
                                            reread d (g 1 j);
                                            reread d (g 2 j)]) (seq 0 n)) |}.
Proof.
  assert (Forall (fun r : list float => List.length r = n)
            (concat
               (map (fun i => [ map (fun j => reread d (f i j)) (seq 0 n);
                                map (fun j => reread d (g i j)) (seq 0 n) ])
                    (seq 0 3)))) as Hrows.
  { change (seq 0 3) with [0; 1; 2]. cbn [map concat app].
    repeat (apply Forall_cons;
            [rewrite length_map, length_seq; reflexivity|]).
    apply Forall_nil. }
  rewrite (stack_rows_six (block_read d n f g) n 0 2 4 eq_refl) by lia.
  rewrite (stack_rows_six (block_read d n f g) n 1 3 5 eq_refl) by lia.
  unfold block_read. cbn [data].
  rewrite !(block_of_concat _ n _ Hrows).
  change (seq 0 3) with [0; 1; 2]. cbn [map concat app nth].
  rewrite !interleave3_seq. split; reflexivity.
Qed.

End Block.

(** The lines kept of a file made of a header block, a shaper block and a
    table block. *)
Lemma kept_file kind nm cms blockw blockk size_line rws :
  plain_line kind -> metadata_line nm -> Forall metadata_line cms ->
  Forall (fun l => unbroken l = true) blockw -> kept_of blockw = blockk ->
  plain_line size_line -> Forall plain_line rws ->
  kept_lines (head_text kind nm cms ++ unlines blockw
              ++ unlines ([[]; size_line] ++ rws))
  = txt "CSPLUTV100" :: kind
    :: [] ++ txt "BEGIN METADATA" :: (nm :: cms)
       ++ txt "END METADATA" :: (blockk ++ size_line :: rws).
Proof.
  intros Pkind [Pnm _] Hcms Hwn Hwk Psize Prows.
  rewrite head_text_lines, <- !unlines_app.
  assert (Forall plain_line cms) as Pcms
    by (eapply Forall_impl; [|exact Hcms]; intros l [Hl _]; exact Hl).
  assert (forall l, plain_line l -> unbroken l = true) as Punbroken
    by (intros l (_ & _ & Hl); exact Hl).
  assert (plain_line (txt "CSPLUTV100")) as P1
    by (apply plain_txt; (discriminate || reflexivity)).
  assert (plain_line (txt "BEGIN METADATA")) as P3
    by (apply plain_txt; (discriminate || reflexivity)).
  assert (plain_line (txt "END METADATA")) as P4
    by (apply plain_txt; (discriminate || reflexivity)).
  rewrite kept_unlines.
  - rewrite !kept_of_app.
    rewrite (kept_of_plain_line _ _ P1), (kept_of_plain_line _ _ Pkind),
      kept_of_blank, (kept_of_plain_line _ _ P3),
      (kept_of_plain_line _ _ Pnm), (kept_plain cms Pcms),
      (kept_of_plain_line _ _ P4), kept_of_blank, Hwk, kept_of_blank,
      (kept_of_plain_line _ _ Psize), (kept_plain _ Prows).
    change (kept_of []) with (@nil str).
    cbn [app]. rewrite <- !app_assoc. reflexivity.
  - rewrite !Forall_app. repeat split;
      first
        [ exact Hwn
        | eapply Forall_impl; [|exact Pcms]; exact Punbroken
        | eapply Forall_impl; [|exact Prows]; exact Punbroken
        | repeat (apply Forall_cons;
                  [first [reflexivity | apply Punbroken; assumption]|]);
          apply Forall_nil ].
Qed.

Lemma ragged_full a n i :
  shape a = [n; 3] -> wf a ->
  Forall (fun x => PrimFloat.is_nan x = false) (data a) -> i < 3 ->
  ragged a i = n.
Proof.
  intros Hs Hw Hnan Hi. unfold ragged, column, len. rewrite Hs. cbn [hd].
  assert (filter PrimFloat.is_nan
            (map (fun j => nth (j * 3 + i) (data a) nan) (seq 0 n)) = [])
    as ->; [|simpl; lia].
  assert (forall l, Forall (fun x => PrimFloat.is_nan x = false) l ->
            filter PrimFloat.is_nan l = []) as Hnone.
  { induction 1 as [|x l Hx _ IH]; [reflexivity|].
    simpl. rewrite Hx. exact IH. }
  apply Hnone. apply Forall_forall. intros x Hx.
  apply in_map_iff in Hx as (j & <- & Hj). apply in_seq in Hj.
  apply (proj1 (Forall_forall _ _) Hnan). apply nth_In.
  unfold wf in Hw. rewrite Hw, Hs. simpl. lia.
Qed.

Section Explicit.

Variables (d : nat) (l : LUT) (n : nat) (lo hi : float).
Hypothesis Hdom : shape (domain l) = [n; 3].
Hypothesis Hdomw : wf (domain l).
Hypothesis Hfull : Forall (fun x => PrimFloat.is_nan x = false)
                          (data (domain l)).
Hypothesis Htab : shape (table l) = [n; 3].
Hypothesis Htabw : wf (table l).

(** The samples of the shaper block: the domain as it is, the table
    brought to [0, 1]. *)
Let f (i j : nat) : float := nth (j * 3 + i) (data (domain l)) nan.
Let g (i j : nat) : float :=
  ((nth (j * 3 + i) (data (table l)) nan - lo) / (hi - lo))%float.

Lemma non_uniform_lines kind nm cms :
  non_uniform_text d kind nm cms l lo hi
  = head_text kind nm cms ++ unlines (block_written d n f g)
    ++ unlines ([[]; txt "2"] ++ row_lines d [lo; lo; lo; hi; hi; hi]).
Proof.
  unfold non_uniform_text. f_equal.
  unfold shaper_text, block_written, spaced, unlines, row_lines, f, g.
  change (seq 0 3) with [0; 1; 2]. cbn [map concat app chunk3].
  rewrite !(ragged_full (domain l) n _ Hdom Hdomw Hfull) by lia.
  rewrite !map_map. unfold nl.
  repeat (rewrite <- app_assoc; cbn [app]). reflexivity.
Qed.

(** The file of a shaper with an explicit domain, read: one [LUT3x1D], the
    rescale folded in. *)
Lemma read_back_explicit lib fs path nm cms :
  fs path = Some (non_uniform_text d (txt "1D") nm cms l lo hi) ->
  metadata_line nm -> Forall metadata_line cms ->
  3 <= n ->
  exists tbl,
    read_LUT_Cinespace lib fs path
    = Ok (Single (mk_LUT LUT3x1D tbl nm (map_array (reread d) (domain l))
                    cms))
    /\ shape tbl = [n; 3]
    /\ forall j i, j < n -> i < 3 ->
         get2 tbl j i
         = Ok (reread d ((nth (j * 3 + i) (data (table l)) nan - lo)
                         / (hi - lo))
               * (reread d hi - reread d lo) + reread d lo)%float.
Proof.
  intros Hfile Hnm Hcms Hn.
  assert (0 < n) as Hpos by lia.
  destruct (kept_block d n f g Hpos) as [Hwn Hwk].
  assert (plain_line (txt "1D")) as P1D
    by (apply plain_txt; (discriminate || reflexivity)).
  assert (plain_line (txt "2")) as P2
    by (apply plain_txt; (discriminate || reflexivity)).
  pose proof (kept_file (txt "1D") nm cms _ _ (txt "2")
                (row_lines d [lo; lo; lo; hi; hi; hi])
                P1D Hnm Hcms Hwn Hwk P2 (plain_rows d _)) as Hk.
  rewrite <- non_uniform_lines in Hk.
  set (flat := {| shape := [2; 3];
                  data := map (reread d) [lo; lo; lo; hi; hi; hi] |}).
  assert (sections_of_lines
            (kept_lines (non_uniform_text d (txt "1D") nm cms l lo hi))
          = Ok (mk_sections false nm cms (block_read d n f g) [2%Z] flat))
    as Hsec.
  { rewrite Hk.
    rewrite (sections_of_block (txt "1D") [] (nm :: cms) _
               (or_introl eq_refl) (Forall_nil _)).
    - rewrite (firstn_length_app (block_kept d n f g) _ 9 eq_refl).
      rewrite (skipn_length_app (block_kept d n f g) _ 9 eq_refl).
      rewrite (parse_block d n f g Hpos), rbind_Ok. cbv beta.
      rewrite (parse_table d [2%Z] (txt "2") [lo; lo; lo; hi; hi; hi] 2
                 (parse_size_1 2 ltac:(discriminate)) eq_refl ltac:(lia)).
      rewrite rbind_Ok. reflexivity.
    - apply Forall_cons.
      + destruct Hnm as [(_ & Hs & _) Hm]. split; assumption.
      + eapply Forall_impl; [|exact Hcms].
        intros x [(_ & Hs & _) Hm]. split; assumption. }
  rewrite (read_kept lib fs path _ Hfile) by (rewrite Hk; discriminate).
  rewrite Hsec, rbind_Ok. cbv beta. cbn [table_size flat_table].
  change ((product [2%Z] =? Z.of_nat (len flat))%Z) with true.
  rewrite rassert_true, rbind_Ok. cbv beta.
  unfold assemble. cbn [is_3D pre_LUT flat_table title meta_comments
                        table_size andb negb].
  assert (trivial_shaper (block_read d n f g) = false) as ->.
  { unfold trivial_shaper, block_read. cbn [shape]. unfold shape_eqb.
    destruct (list_eq_dec Nat.eq_dec [6; n] [6; 2]) as [E | _];
      [injection E as E; lia | reflexivity]. }
  cbv iota. unfold assemble_shaped.
  cbn [is_3D pre_LUT flat_table title meta_comments table_size].
  destruct (block_stacked d n f g Hpos) as [-> ->].
  rewrite !rbind_Ok. cbv beta.
  change (shape_eqb (shape flat) [2; 3]) with true. cbv iota.
  set (pre_table := {| shape := [n; 3];
                       data := concat
                                 (map (fun j => [reread d (g 0 j);
                                                 reread d (g 1 j);
                                                 reread d (g 2 j)])
                                      (seq 0 n)) |}).
  set (tmin := {| shape := [3];
                  data := [reread d lo; reread d lo; reread d lo] |}).
  set (scale := {| shape := [3];
                   data := [reread d hi - reread d lo;
                            reread d hi - reread d lo;
                            reread d hi - reread d lo]%float |}).
  assert (row flat 1
          = Ok {| shape := [3];
                  data := [reread d hi; reread d hi; reread d hi] |}) as ->
    by reflexivity.
  assert (row flat 0 = Ok tmin) as -> by reflexivity.
  rewrite !rbind_Ok. cbv beta.
  assert (broadcast PrimFloat.sub
            {| shape := [3];
               data := [reread d hi; reread d hi; reread d hi] |} tmin
          = Ok scale) as -> by reflexivity.
  rewrite rbind_Ok. cbv beta.
  destruct (broadcast_rows PrimFloat.mul pre_table scale n eq_refl eq_refl)
    as (m & Hm & Hms & Hml & Hmv).
  rewrite Hm, rbind_Ok. cbv beta.
  destruct (broadcast_rows PrimFloat.add m tmin n Hms eq_refl)
    as (t & Htb & Hts & Htl & Htv).
  rewrite Htb, rbind_Ok. cbv beta.
  rewrite new_LUT_axes by (rewrite Hts; reflexivity).
  rewrite rbind_Ok. cbv beta.
  exists t. split; [|split; [exact Hts|]].
  - do 3 f_equal. unfold map_array. rewrite Hdom. f_equal.
    transitivity
      (map (reread d)
           (concat (map (fun j => [nth (j * 3 + 0) (data (domain l)) nan;
                                   nth (j * 3 + 1) (data (domain l)) nan;
                                   nth (j * 3 + 2) (data (domain l)) nan])
                        (seq 0 n)))).
    + rewrite concat_map, map_map. reflexivity.
    + f_equal. apply rows_of_data.
      unfold wf in Hdomw. rewrite Hdomw, Hdom. simpl. lia.
  - intros j i Hj Hi.
    apply (get2_rows t n j i _ Hts Hj Hi).
    assert (nth_error (data pre_table) (j * 3 + i)
            = Some (reread d (g i j))) as Hv.
    { unfold pre_table. cbn [data].
      assert (List.length
                (concat (map (fun j0 => [reread d (g 0 j0);
                                         reread d (g 1 j0);
                                         reread d (g 2 j0)]) (seq 0 n)))
              = n * 3) as Hlen.
      { rewrite <- interleave3_seq.
        apply interleave3_length; rewrite length_map, length_seq;
          reflexivity. }
      rewrite (nth_error_nth' _ nan) by (rewrite Hlen; lia). f_equal.
      rewrite <- interleave3_seq.
      rewrite interleave3_nth
        by (rewrite ?length_map, ?length_seq; (lia || reflexivity)).
      destruct i as [|[|[|i]]]; [| | |lia]; cbv iota;
        match goal with
        | |- nth j (map ?k (seq 0 n)) nan = _ =>
            rewrite (NpFacts.nth_map_seq k n j nan Hj)
        end; reflexivity. }
    rewrite (Htv j i _ Hi (Hmv j i _ Hi Hv)).
    assert (nth i (data scale) nan = (reread d hi - reread d lo)%float
            /\ nth i (data tmin) nan = reread d lo) as [-> ->]
      by (destruct i as [|[|[|i]]]; [| | |lia]; split; reflexivity).
    reflexivity.
Qed.

End Explicit.

(** X21.  A lone [LUT3x1D] with an explicit domain of [n >= 3] rows without
    NaN is written in the non-uniform form and read back as one [LUT3x1D]:
    the name and the comments are kept, the domain comes back number by
    number as read from its rendering, and the table does not come back as
    written: each sample [v] was written as [(v - lo) / (hi - lo)] with
    [lo], [hi] the least and greatest sample of the whole table, and is read
    as that rendered number times [hi' - lo'] plus [lo'], with [lo'], [hi']
    the renderings of [lo] and [hi] read back. *)
Theorem X21_explicit_domain_round_trip lib h fs ref path d l n :
  deref h ref = Some (ObjLUT l) -> class_of l = LUT3x1D ->
  shape (domain l) = [n; 3] -> wf (domain l) ->
  Forall (fun x => PrimFloat.is_nan x = false) (data (domain l)) ->
  shape (table l) = [n; 3] -> wf (table l) ->
  3 <= n -> (Z.of_nat n <= 65536)%Z ->
  metadata_line (name l) ->
  Forall metadata_line (comments l ++ comments (LUT_default lib LUT3D)) ->
  let lo := nanmin (table l) in
  let hi := nanmax (table l) in
  snd (write_LUT_Cinespace lib ref path d (h, fs)) = Ok true
  /\ exists tbl,
       read_LUT_Cinespace lib
         (snd (fst (write_LUT_Cinespace lib ref path d (h, fs)))) path
       = Ok (Single (mk_LUT LUT3x1D tbl (name l)
                       (map_array (reread d) (domain l))
                       (comments l ++ comments (LUT_default lib LUT3D))))
       /\ shape tbl = [n; 3]
       /\ forall j i, j < n -> i < 3 ->
            get2 tbl j i
            = Ok (reread d ((nth (j * 3 + i) (data (table l)) nan - lo)
                            / (hi - lo))
                  * (reread d hi - reread d lo) + reread d lo)%float.
Proof.
  intros Hd Hc Hdom Hdomw Hfull Htab Htabw Hn Hmax Hnm Hcms lo hi.
  assert (is_domain_explicit l = true) as Hex.
  { unfold is_domain_explicit. rewrite Hc, Hdom. unfold shape_eqb.
    destruct (list_eq_dec Nat.eq_dec [n; 3] [2; 3]) as [E | _];
      [injection E as E; lia | reflexivity]. }
  pose proof (normalise_lone_3x1D lib h ref l Hd Hc) as Hnorm.
  cbv zeta in Hnorm. destruct Hnorm as (Hnorm & Hs0 & Hs1).
  rewrite Hex in Hnorm.
  assert (validate (mk_canonical false true true (name l)
                      (S (List.length h))) l (LUT_default lib LUT3D)
          = Ok tt) as Hval.
  { apply validate_ok; [|discriminate].
    intros _. unfold shaper_size_ok, size, len. rewrite Htab. simpl. lia. }
  rewrite (write_valid lib h fs ref path d _ _ _ _ Hnorm Hs0 Hs1 Hval).
  rewrite (serialise_non_uniform d l n Hex Hdom Hdomw Htab Htabw
             (mk_canonical false true true (name l) (S (List.length h)))
             (LUT_default lib LUT3D) eq_refl eq_refl).
  cbn [fst snd has_3D lut_name]. split; [reflexivity|].
  apply (read_back_explicit d l n lo hi Hdom Hdomw Hfull lib _ path
           (name l) _ (written_file_read _ _ _) Hnm Hcms Hn).
Qed.

Lemma X21_witness :
  let lo := nanmin (table explicit_shaper) in
  let hi := nanmax (table explicit_shaper) in
  snd (write_LUT_Cinespace sample_lib 0 (txt "shaper.csp") 3
         ([ObjLUT explicit_shaper], no_files)) = Ok true
  /\ exists tbl,
       read_LUT_Cinespace sample_lib
         (snd (fst (write_LUT_Cinespace sample_lib 0 (txt "shaper.csp") 3
                      ([ObjLUT explicit_shaper], no_files))))
         (txt "shaper.csp")
       = Ok (Single (mk_LUT LUT3x1D tbl (name explicit_shaper)
                       (map_array (reread 3) (domain explicit_shaper))
                       (comments explicit_shaper
                        ++ comments (LUT_default sample_lib LUT3D))))
       /\ shape tbl = [3; 3]
       /\ forall j i, j < 3 -> i < 3 ->
            get2 tbl j i
            = Ok (reread 3
                    ((nth (j * 3 + i) (data (table explicit_shaper)) nan
                      - lo) / (hi - lo))
                  * (reread 3 hi - reread 3 lo) + reread 3 lo)%float.
Proof.
  apply (X21_explicit_domain_round_trip sample_lib [ObjLUT explicit_shaper]
           no_files 0 (txt "shaper.csp") 3 explicit_shaper 3);
    try reflexivity; try (simpl; lia).
  - repeat (apply Forall_cons; [reflexivity|]). apply Forall_nil.
  - repeat split; discriminate.
  - repeat (apply Forall_cons; [repeat split; discriminate|]).
    apply Forall_nil.
Defined.

End Coverage.
(** * The order of the cube rows, and the range of a shaper that is written
      with its explicit domain *)

(** The shaper block of a shaper with an explicit domain that is written
    without the flag [non_uniform]: the domain samples, and the table
    samples as they are. *)
Definition raw_shaper_text (d : nat) (l0 : LUT) : str :=
  concat (map (fun i =>
    str_of_nat (ragged (domain l0) i) ++ nl
    ++ concat (map (fun j =>
                      format_f d (nth (j * 3 + i) (data (domain l0)) nan)
                      ++ txt " ")
                   (seq 0 (ragged (domain l0) i)))
    ++ nl
    ++ concat (map (fun j =>
                      format_f d (nth (j * 3 + i) (data (table l0)) nan)
                      ++ txt " ")
                   (seq 0 (ragged (domain l0) i)))
    ++ nl) (seq 0 3)).

(** The heap of a caller that holds the sequence of [explicit_shaper] and
    [sample_cube]. *)
Definition explicit_sequence : heap :=
  [ObjLUT explicit_shaper; ObjLUT sample_cube; ObjLUTSequence [0; 1]].

Module CubeOrder.

Import Py Np PyFacts NumFacts NpFacts Dispatch WriterClaims ReaderChecks
  ReaderShape WriterOutput RoundTrip Coverage.

(** ** The rows of a table, line by line *)

Lemma row_lines_nth d n : forall xs k,
  List.length xs = n * 3 -> k < n ->
  nth_error (row_lines d xs) k
  = Some (row_text d (nth (k * 3) xs nan) (nth (k * 3 + 1) xs nan)
            (nth (k * 3 + 2) xs nan)).
Proof.
  unfold row_lines.
  induction n as [|n IH]; intros xs k Hlen Hk; [lia|].
  destruct xs as [|x [|y [|z xs]]]; try discriminate.
  cbn [chunk3 map]. destruct k as [|k].
  - reflexivity.
  - cbn [nth_error]. rewrite (IH xs k) by (simpl in Hlen; lia).
    replace (S k * 3) with (S (S (S (k * 3)))) by lia.
    reflexivity.
Qed.

Lemma row_lines_length d n xs :
  List.length xs = n * 3 -> List.length (row_lines d xs) = n.
Proof.
  intros H. unfold row_lines. rewrite length_map. apply chunk3_length, H.
Qed.

(** ** What is written last *)

(** When a write that only appends is followed by one that writes [X], and
    the two succeed, the text ends with [X]. *)
Lemma wbind_tail (m : W unit) (k : unit -> W unit) X buf u :
  appends m -> emits (k tt) X ->
  snd (wbind m k buf) = Ok u ->
  exists o, fst (wbind m k buf) = buf ++ o ++ X.
Proof.
  intros Hm Hk. unfold wbind. destruct (Hm buf) as [o Ho].
  destruct (m buf) as [buf' [[]|e]]; cbn [fst] in Ho; subst buf'.
  - intros _. exists o. rewrite Hk. cbn [fst]. rewrite app_assoc.
    reflexivity.
  - discriminate.
Qed.

(** The cube block, as the writer emits it. *)
Lemma emits_cube d l1 n0 n1 n2 t :
  shape (table l1) = [n0; n1; n2; 3] -> wf (table l1) ->
  reshape_F_rows3 (table l1) = Ok t ->
  emits (wbind (wlift (of_option (nth_error (shape (table l1)) 0) IndexError))
           (fun a =>
            wbind (wlift (of_option (nth_error (shape (table l1)) 1)
                            IndexError))
              (fun b =>
               wbind (wlift (of_option (nth_error (shape (table l1)) 2)
                               IndexError))
                 (fun c =>
                  wbind (write (nl ++ str_of_nat a ++ txt " "
                                ++ str_of_nat b ++ txt " "
                                ++ str_of_nat c ++ nl))
                    (fun _ =>
                     wbind (wlift (reshape_F_rows3 (table l1)))
                       (fun table => write_rows d table))))))
        (cube_text d n0 n1 n2 t).
Proof.
  intros Hcube Hcubew Hflat.
  destruct (reshape_F_rows (table l1) n0 n1 n2 t Hcube Hcubew Hflat)
    as [Hts _].
  pose proof Hflat as Hflat'. unfold reshape_F_rows3 in Hflat'.
  destruct (_ =? 0) in Hflat'; [|discriminate].
  pose proof (reshape_F_wf _ _ _ Hflat') as Htwf.
  rewrite Hcube. cbn [nth_error of_option]. rewrite Hflat.
  eapply emits_eq.
  - eapply emits_lift; [reflexivity|].
    eapply emits_lift; [reflexivity|].
    eapply emits_lift; [reflexivity|].
    apply emits_bind; [apply emits_size3|].
    eapply emits_lift; [reflexivity|].
    apply (emits_rows d t (n0 * n1 * n2) Hts Htwf).
  - unfold cube_text. rewrite unlines_app. reflexivity.
Qed.

(** Whatever the shaper block is, a serialisation that succeeds with a
    cube and without the flag [non_uniform] ends with the cube block. *)
Lemma serialise_cube_tail d c l0 l1 n0 n1 n2 t u :
  has_3D c = true -> non_uniform c = false ->
  shape (table l1) = [n0; n1; n2; 3] -> wf (table l1) ->
  reshape_F_rows3 (table l1) = Ok t ->
  snd (serialise d c l0 l1 []) = Ok u ->
  exists front,
    fst (serialise d c l0 l1 []) = front ++ cube_text d n0 n1 n2 t.
Proof.
  intros H3D Hnon Hcube Hcubew Hflat.
  unfold serialise.
  rewrite (emits_then _ _ _ _ (emits_write _)).
  rewrite (emits_then _ _ ((if has_3D c then txt "3D" else txt "1D")
                           ++ nl ++ nl))
    by (destruct (has_3D c); apply emits_write).
  rewrite (emits_then _ _ _ _ (emits_write _)).
  rewrite (emits_then _ _ _ _ (emits_write _)).
  rewrite (emits_then _ _ _ _ (emits_lines _)).
  rewrite (emits_then _ _ _ _ (emits_lines _)).
  rewrite (emits_then _ _ _ _ (emits_write _)).
  rewrite H3D, Hnon. cbn [orb]. cbv iota zeta.
  intros Hok.
  match type of Hok with
  | snd (wbind ?m ?k ?buf) = _ =>
      destruct (wbind_tail m k (cube_text d n0 n1 n2 t) buf u) as [o Ho]
  end.
  - destruct (has_3x1D c);
      unfold write_shaper, write_bounds; appends_auto.
  - apply (emits_cube d l1 n0 n1 n2 t Hcube Hcubew Hflat).
  - exact Hok.
  - rewrite Ho. eexists. rewrite app_assoc. reflexivity.
Qed.

(** A write that succeeds was accepted by the dispatch, passed the size
    checks, and left the serialised text at [path]. *)
Lemma write_succeeded lib h fs ref path d h' fs' :
  write_LUT_Cinespace lib ref path d (h, fs) = ((h', fs'), Ok true) ->
  exists c l0 l1 u,
    normalise lib h ref = (h', Ok c)
    /\ stage h' (LUT_ref c) 0 = Ok l0 /\ stage h' (LUT_ref c) 1 = Ok l1
    /\ shaper_stage lib h ref = (if has_3x1D c then Some l0 else None)
    /\ cube_stage h ref = (if has_3D c then Some l1 else None)
    /\ non_uniform c = non_uniform_input h ref
    /\ snd (serialise d c l0 l1 []) = Ok u
    /\ fs' = fs_write fs path (fst (serialise d c l0 l1 [])).
Proof.
  intros H.
  destruct (accepted_or_refused lib h ref) as [Hacc | [e Hn]].
  - destruct (dispatch_flags lib h ref Hacc)
      as (h1 & c & l0 & l1 & Hn & Hs0 & Hs1 & Hsh & Hcu & Hflag & _).
    rewrite (write_normalised lib h fs ref path d h1 c l0 l1 Hn Hs0 Hs1)
      in H.
    destruct (validate c l0 l1) as [[]|e]; [|discriminate H].
    destruct (snd (serialise d c l0 l1 [])) as [u|e] eqn:Es;
      [|discriminate H].
    injection H as <- <-.
    exists c, l0, l1, u. repeat split; assumption.
  - unfold write_LUT_Cinespace in H. rewrite Hn in H. discriminate H.
Qed.

(** C3.  The cube of a file of kind 3D is laid out first axis fastest, by
    the reader and by the writer alike.

    Reading: for a file of kind 3D whose size line is [n0 n1 n2] and whose
    table has [n0 * n1 * n2] rows of three numbers, the reader returns a
    [LUT3D] (alone, or as the second stage of a sequence) whose table has
    the shape [(n0, n1, n2, 3)] and holds row [k] of the file at the grid
    position [(k mod n0, (k / n0) mod n1, k / (n0 * n1))].

    Writing: when [write_LUT_Cinespace] succeeds on an input with a cube of
    shape [(n0, n1, n2, 3)] and without the flag [non_uniform], the file
    ends with a blank line, the line [n0 n1 n2] and [n0 * n1 * n2] rows,
    and row [k] is the three numbers of the cell at that same grid position,
    each written with [d] decimals.

    The table has fewer than [2^63] numbers, as every array in memory. *)
Theorem C3_column_major (lib : LUTlib) (n0 n1 n2 : nat) :
  (forall (fs : filesystem) (path content : str) (s : sections),
     fs path = Some content ->
     read_sections content = Ok s ->
     is_3D s = true ->
     table_size s = [Z.of_nat n0; Z.of_nat n1; Z.of_nat n2] ->
     shape (flat_table s) = [n0 * n1 * n2; 3] ->
     (Z.of_nat (n0 * n1 * n2 * 3) <= int64_max)%Z ->
     exists l,
       (read_LUT_Cinespace lib fs path = Ok (Single l)
        \/ exists a,
             read_LUT_Cinespace lib fs path = Ok (LUTSequence [a; l]))
       /\ class_of l = LUT3D
       /\ shape (table l) = [n0; n1; n2; 3]
       /\ forall k c, k < n0 * n1 * n2 -> c < 3 ->
            get4 (table l) (k mod n0) ((k / n0) mod n1) (k / (n0 * n1)) c
            = nth_error (data (flat_table s)) (k * 3 + c))
  /\ (forall (h h' : heap) (fs fs' : filesystem) (ref : loc) (path : str)
             (d : nat) (l1 : LUT),
        write_LUT_Cinespace lib ref path d (h, fs) = ((h', fs'), Ok true) ->
        cube_stage h ref = Some l1 ->
        non_uniform_input h ref = false ->
        shape (table l1) = [n0; n1; n2; 3] -> wf (table l1) ->
        exists front rows,
          fs' path
          = Some (front
                  ++ unlines
                       ([[]; join_sp [str_of_nat n0; str_of_nat n1;
                                      str_of_nat n2]] ++ rows))
          /\ List.length rows = n0 * n1 * n2
          /\ forall k, k < n0 * n1 * n2 ->
               exists x y z,
                 nth_error rows k = Some (row_text d x y z)
                 /\ get4 (table l1) (k mod n0) ((k / n0) mod n1)
                      (k / (n0 * n1)) 0 = Some x
                 /\ get4 (table l1) (k mod n0) ((k / n0) mod n1)
                      (k / (n0 * n1)) 1 = Some y
                 /\ get4 (table l1) (k mod n0) ((k / n0) mod n1)
                      (k / (n0 * n1)) 2 = Some z).
Proof.
  split.
  - intros fs path content s Hfile Hs H3D Hsize Hshape Hmax.
    destruct (read_sections_wf content s Hs) as [(n & Hsh & Hlen) Hwf].
    assert (List.length (data (flat_table s)) = n0 * n1 * n2 * 3) as Hdata
      by (unfold wf in Hwf; rewrite Hshape in Hwf; simpl in Hwf; lia).
    assert (0 < n0 * n1 * n2) as Hrows.
    { destruct (flat_table_axes content s Hs) as [E | (m & w & E)];
        rewrite Hshape in E; [discriminate E|].
      injection E as E _. lia. }
    assert (0 < n0 /\ 0 < n1 /\ 0 < n2) as (P0 & P1 & P2) by nia.
    destruct (grid_index_sized n0 n1 n2 P0 P1 P2 Hmax)
      as (Hidx & _ & _ & _ & Hm).
    assert (product (table_size s) = Z.of_nat (len (flat_table s))) as Hp.
    { rewrite Hsize. unfold len. rewrite Hshape. cbn [hd].
      apply (product_nat3 n0 n1 n2 Hm). }
    rewrite (read_checked lib fs path content Hfile s Hs Hp).
    destruct (reshape_F_ok (flat_table s) [n0; n1; n2; 3]) as [g Hg];
      [simpl; lia|].
    pose proof (reshape_F_grid (flat_table s) (n0 * n1 * n2) n0 n1 n2 g
                  Hshape Hwf eq_refl Hg) as Hgrid.
    pose proof (reshape_F_shape _ _ _ Hg) as Hgs.
    unfold assemble. rewrite H3D. simpl andb. simpl negb.
    destruct (trivial_shaper (pre_LUT s)) eqn:Ht.
    + pose proof (trivial_shaper_two _ _ Hsh Ht) as ->.
      destruct (two_sample_shaper (pre_LUT s) Hsh
                  ltac:(rewrite Hlen; reflexivity)) as [Hb _].
      rewrite Hsize, (unflatten_given n0 n1 n2 _ Hidx), Hg, Hb.
      rewrite !rbind_Ok. cbv beta.
      rewrite new_LUT_axes by (rewrite Hgs; reflexivity).
      rewrite rbind_Ok. cbv beta.
      eexists. split; [left; reflexivity|].
      repeat split; assumption.
    + unfold assemble_shaped. rewrite H3D.
      rewrite (stack_rows_six _ n 0 2 4 Hsh) by lia.
      rewrite (stack_rows_six _ n 1 3 5 Hsh) by lia.
      rewrite !rbind_Ok. cbv beta zeta.
      rewrite Hsize, (unflatten_given n0 n1 n2 _ Hidx), Hg.
      rewrite rbind_Ok. cbv beta.
      rewrite new_LUT_axes by reflexivity. rewrite rbind_Ok. cbv beta.
      rewrite new_LUT_axes by (rewrite Hgs; reflexivity).
      rewrite rbind_Ok. cbv beta.
      eexists. split; [right; eexists; reflexivity|].
      repeat split; assumption.
  - intros h h' fs fs' ref path d l1 Hw Hcu Hnon Hcube Hcubew.
    destruct (write_succeeded lib h fs ref path d h' fs' Hw)
      as (c & l0 & l1' & u & _ & _ & _ & _ & Hcu' & Hflag & Hok & ->).
    rewrite Hcu in Hcu'. rewrite Hnon in Hflag.
    destruct (has_3D c) eqn:H3D; [|discriminate Hcu'].
    injection Hcu' as <-.
    destruct (rows3_exists (table l1) n0 n1 n2 Hcube Hcubew) as [t Hflat].
    destruct (serialise_cube_tail d c l0 l1 n0 n1 n2 t u H3D Hflag Hcube
                Hcubew Hflat Hok) as [front Hfront].
    destruct (reshape_F_rows (table l1) n0 n1 n2 t Hcube Hcubew Hflat)
      as [Hts Hcell].
    assert (wf t) as Htwf.
    { unfold reshape_F_rows3 in Hflat.
      destruct (_ =? 0) in Hflat; [|discriminate].
      apply (reshape_F_wf _ _ _ Hflat). }
    assert (List.length (data t) = n0 * n1 * n2 * 3) as Hlen
      by (unfold wf in Htwf; rewrite Htwf, Hts; simpl; lia).
    exists front, (row_lines d (data t)).
    split; [rewrite written_file_read, Hfront; reflexivity|].
    split; [apply (row_lines_length d _ _ Hlen)|].
    intros k Hk.
    exists (nth (k * 3) (data t) nan), (nth (k * 3 + 1) (data t) nan),
      (nth (k * 3 + 2) (data t) nan).
    split; [apply (row_lines_nth d _ _ _ Hlen Hk)|].
    rewrite <- (Hcell k 0 Hk) by lia.
    rewrite <- (Hcell k 1 Hk) by lia.
    rewrite <- (Hcell k 2 Hk) by lia.
    rewrite Nat.add_0_r.
    repeat split; apply nth_error_nth'; lia.
Qed.

Lemma C3_witness :
  (exists l,
     (read_LUT_Cinespace sample_lib (fun _ => Some cube_444_file)
        (txt "cube.csp") = Ok (Single l)
      \/ exists a, read_LUT_Cinespace sample_lib
                     (fun _ => Some cube_444_file) (txt "cube.csp")
                   = Ok (LUTSequence [a; l]))
     /\ class_of l = LUT3D
     /\ shape (table l) = [4; 4; 4; 3]
     /\ forall k c, k < 4 * 4 * 4 -> c < 3 ->
          get4 (table l) (k mod 4) ((k / 4) mod 4) (k / (4 * 4)) c
          = nth_error (match read_sections cube_444_file with
                       | Ok s => data (flat_table s)
                       | Err _ => []
                       end) (k * 3 + c))
  /\ (exists front rows,
        snd (fst (write_LUT_Cinespace sample_lib 0 (txt "cube.csp") 3
                    ([ObjLUT sample_cube], no_files))) (txt "cube.csp")
        = Some (front ++ unlines ([[]; txt "2 2 2"] ++ rows))
        /\ List.length rows = 2 * 2 * 2
        /\ forall k, k < 2 * 2 * 2 ->
             exists x y z,
               nth_error rows k = Some (row_text 3 x y z)
               /\ get4 (table sample_cube) (k mod 2) ((k / 2) mod 2)
                    (k / (2 * 2)) 0 = Some x
               /\ get4 (table sample_cube) (k mod 2) ((k / 2) mod 2)
                    (k / (2 * 2)) 1 = Some y
               /\ get4 (table sample_cube) (k mod 2) ((k / 2) mod 2)
                    (k / (2 * 2)) 2 = Some z).
Proof.
  split.
  - destruct (read_sections cube_444_file) as [s|e] eqn:E;
      [|vm_compute in E; discriminate E].
    apply (proj1 (C3_column_major sample_lib 4 4 4)
             (fun _ => Some cube_444_file) (txt "cube.csp") cube_444_file s
             eq_refl E);
      try (vm_compute in E; injection E as <-; reflexivity).
    vm_compute. discriminate.
  - destruct (write_LUT_Cinespace sample_lib 0 (txt "cube.csp") 3
                ([ObjLUT sample_cube], no_files)) as [[h' fs'] r] eqn:E.
    assert (r = Ok true) as -> by (vm_compute in E; congruence).
    apply (proj2 (C3_column_major sample_lib 2 2 2)
             [ObjLUT sample_cube] h' no_files fs' 0 (txt "cube.csp") 3
             sample_cube E);
      reflexivity.
Defined.

End CubeOrder.

Module ShaperRange.

Import Py Np PyFacts NumFacts NpFacts Dispatch WriterClaims ReaderChecks
  ReaderShape WriterOutput RoundTrip Coverage CubeOrder.

(** ** The shaper block of an explicit domain, without the flag *)

Section Raw.

Variables (d : nat) (l0 : LUT) (n : nat).
Hypothesis Hexplicit : is_domain_explicit l0 = true.
Hypothesis Hdom : shape (domain l0) = [n; 3].
Hypothesis Hdom_wf : wf (domain l0).
Hypothesis Htab : shape (table l0) = [n; 3].
Hypothesis Htab_wf : wf (table l0).

Lemma emits_raw_shaper bounds :
  emits (write_shaper d false l0 bounds) (raw_shaper_text d l0).
Proof.
  unfold write_shaper, raw_shaper_text.
  apply emits_for_each. intros i Hi. apply in_seq in Hi.
  rewrite Hexplicit.
  assert (ragged (domain l0) i <= n) as Hr
    by (pose proof (ragged_le (domain l0) i) as H; unfold len in H;
        rewrite Hdom in H; exact H).
  eapply emits_lift.
  { rewrite (ragged_size_rows _ n Hdom). rewrite rbind_Ok. cbv beta.
    assert (nth_error [Z.of_nat (ragged (domain l0) 0);
                       Z.of_nat (ragged (domain l0) 1);
                       Z.of_nat (ragged (domain l0) 2)] i
            = Some (Z.of_nat (ragged (domain l0) i))) as ->
      by (destruct i as [|[|[|i]]]; [reflexivity ..| lia]).
    reflexivity. }
  rewrite str_of_Z_nat, Nat2Z.id.
  eapply emits_eq.
  - apply emits_bind; [apply emits_write|].
    apply emits_bind.
    { apply emits_for_each with
        (f := fun j => format_f d (nth (j * 3 + i) (data (domain l0)) nan)
                       ++ txt " ").
      intros j Hj. apply in_seq in Hj.
      eapply emits_lift; [|apply emits_write].
      apply (get2_nth _ n); (assumption || lia). }
    apply emits_bind; [apply emits_write|].
    apply emits_bind; [|apply emits_write].
    apply emits_for_each with
      (f := fun j => format_f d (nth (j * 3 + i) (data (table l0)) nan)
                     ++ txt " ").
    intros j Hj. apply in_seq in Hj.
    eapply emits_lift; [apply (get2_nth _ n); (assumption || lia)|].
    eapply emits_lift; [reflexivity|]. apply emits_write.
  - repeat rewrite <- app_assoc. reflexivity.
Qed.

(** The file of a shaper with an explicit domain and a cube, written
    without the flag. *)
Lemma serialise_explicit_cube c l1 n0 n1 n2 t :
  has_3D c = true -> has_3x1D c = true -> non_uniform c = false ->
  shape (table l1) = [n0; n1; n2; 3] -> wf (table l1) ->
  reshape_F_rows3 (table l1) = Ok t ->
  serialise d c l0 l1 []
  = (head_text (txt "3D") (lut_name c) (comments l0 ++ comments l1)
     ++ raw_shaper_text d l0 ++ cube_text d n0 n1 n2 t, Ok tt).
Proof.
  intros H3D H3x Hnon Hcube Hcubew Hflat.
  assert (emits (serialise d c l0 l1)
            (head_text (txt "3D") (lut_name c) (comments l0 ++ comments l1)
             ++ raw_shaper_text d l0 ++ cube_text d n0 n1 n2 t)) as Hem;
    [|exact (Hem [])].
  unfold serialise. rewrite H3D, H3x, Hnon, Hexplicit.
  cbn [orb andb]. cbv iota zeta.
  eapply emits_eq.
  - apply emits_bind; [apply emits_write|].
    apply emits_bind; [apply emits_write|].
    apply emits_bind; [apply emits_write|].
    apply emits_bind; [apply emits_write|].
    apply emits_bind; [apply emits_lines|].
    apply emits_bind; [apply emits_lines|].
    apply emits_bind; [apply emits_write|].
    apply emits_bind; [apply emits_raw_shaper|].
    apply (emits_cube d l1 n0 n1 n2 t Hcube Hcubew Hflat).
  - unfold head_text, unlines.
    rewrite !map_app, !concat_app. cbn [map concat app].
    repeat rewrite <- app_assoc. reflexivity.
Qed.

End Raw.

(** The dispatch of an accepted input: the flags, the stages, and what
    goes into the metadata block. *)
Lemma dispatch_facts lib h ref :
  accepted h ref ->
  exists h1 c l0 l1,
    normalise lib h ref = (h1, Ok c)
    /\ stage h1 (LUT_ref c) 0 = Ok l0 /\ stage h1 (LUT_ref c) 1 = Ok l1
    /\ shaper_stage lib h ref = (if has_3x1D c then Some l0 else None)
    /\ cube_stage h ref = (if has_3D c then Some l1 else None)
    /\ non_uniform c = non_uniform_input h ref
    /\ (non_uniform c = true -> has_3x1D c = true)
    /\ lut_name c = written_name h ref
    /\ comments l0 ++ comments l1 = written_comments lib h ref
    /\ (if has_3D c then txt "3D" else txt "1D") = written_kind h ref.
Proof.
  intros Hacc.
  destruct (dispatch_flags lib h ref Hacc)
    as (h1 & c & l0 & l1 & Hn & Hs0 & Hs1 & Hsh & Hcu & Hflag & H3x).
  destruct (dispatch_metadata lib h ref Hacc)
    as (h1' & c' & l0' & l1' & Hn' & Hs0' & Hs1' & Hname & Hcms & Hkind).
  rewrite Hn in Hn'. injection Hn' as <- <-.
  rewrite Hs0 in Hs0'. injection Hs0' as <-.
  rewrite Hs1 in Hs1'. injection Hs1' as <-.
  exists h1, c, l0, l1. repeat split; assumption.
Qed.

(** C10, counterexample.  The shaper has an explicit domain and is the
    first stage of a sequence.  The least and the greatest sample of its
    table are 0 and 1.5; the samples of the red channel, 0, 0.5 and 1, are
    written as they are (renormalised they would be 0.000, 0.333 and
    0.667), and the table block is the whole cube, not the two rows of the
    range. *)
Lemma C10_counterexample :
  let st := write_LUT_Cinespace sample_lib 2 (txt "look.csp") 3
              (explicit_sequence, no_files) in
  shaper_stage sample_lib explicit_sequence 2 = Some explicit_shaper
  /\ is_domain_explicit explicit_shaper = true
  /\ nanmin (table explicit_shaper) = 0%float
  /\ nanmax (table explicit_shaper) = 1.5%float
  /\ snd st = Ok true
  /\ option_map kept_lines (snd (fst st) (txt "look.csp"))
     = Some (map txt
               [ "CSPLUTV100"; "3D";
                 "BEGIN METADATA"; "My cube"; "A comment."; "A comment.";
                 "END METADATA";
                 "3"; "0.000 0.250 1.000"; "0.000 0.500 1.000";
                 "3"; "0.000 0.500 1.000"; "0.250 0.750 1.250";
                 "3"; "0.000 0.750 1.000"; "0.500 1.000 1.500";
                 "2 2 2";
                 "0.000 1.000 2.000"; "12.000 13.000 14.000";
                 "6.000 7.000 8.000"; "18.000 19.000 20.000";
                 "3.000 4.000 5.000"; "15.000 16.000 17.000";
                 "9.000 10.000 11.000"; "21.000 22.000 23.000" ]%string).
Proof. vm_compute. repeat split. Qed.

(** C10, as amended.  The shaper stage of the input has an explicit domain
    of [n] rows and a table of [n] rows.

    When the input sets the flag [non_uniform] (a lone [LUT1D] or
    [LUT3x1D] with an explicit domain, or a sequence whose first stage is
    a [LUT1D] with an explicit domain), the file the writer writes is
    [non_uniform_text] with [lo = np.nanmin] and [hi = np.nanmax] of the
    whole shaper table: every table sample of every channel is written as
    [(v - lo) / (hi - lo)] with that one pair, and the table block is the
    two rows [lo lo lo] and [hi hi hi].

    When the input does not set the flag (the shaper is the first stage of
    a sequence and was handed in as a [LUT3x1D]), the table samples are
    written as they are and the table block is the cube.

    [lo] and [hi] are entries of the table that are not NaN, of whatever
    channel (NaN only if every entry is), and no entry of the table that is
    not NaN is less than [lo] or greater than [hi]. *)
Theorem C10_global_range
  (lib : LUTlib) (h : heap) (fs : filesystem) (ref : loc) (path : str)
  (decimals : nat) (l0 : LUT) (n : nat) :
  accepted h ref ->
  shaper_stage lib h ref = Some l0 ->
  is_domain_explicit l0 = true ->
  shape (domain l0) = [n; 3] -> wf (domain l0) ->
  shape (table l0) = [n; 3] -> wf (table l0) ->
  shaper_size_ok l0 ->
  let lo := nanmin (table l0) in
  let hi := nanmax (table l0) in
  (non_uniform_input h ref = true ->
   (forall l1, cube_stage h ref = Some l1 -> cube_size_ok l1) ->
   exists h',
     write_LUT_Cinespace lib ref path decimals (h, fs)
     = ((h', fs_write fs path
               (non_uniform_text decimals (written_kind h ref)
                  (written_name h ref) (written_comments lib h ref)
                  l0 lo hi)),
        Ok true))
  /\ (non_uniform_input h ref = false ->
      forall l1 n0 n1 n2 t,
        cube_stage h ref = Some l1 -> cube_size_ok l1 ->
        shape (table l1) = [n0; n1; n2; 3] -> wf (table l1) ->
        reshape_F_rows3 (table l1) = Ok t ->
        exists h',
          write_LUT_Cinespace lib ref path decimals (h, fs)
          = ((h', fs_write fs path
                    (head_text (txt "3D") (written_name h ref)
                       (written_comments lib h ref)
                     ++ raw_shaper_text decimals l0
                     ++ cube_text decimals n0 n1 n2 t)),
             Ok true))
  /\ ((In lo (data (table l0)) /\ PrimFloat.is_nan lo = false)
      \/ (lo = nan
          /\ forall x, In x (data (table l0)) -> PrimFloat.is_nan x = true))
  /\ ((In hi (data (table l0)) /\ PrimFloat.is_nan hi = false)
      \/ (hi = nan
          /\ forall x, In x (data (table l0)) -> PrimFloat.is_nan x = true))
  /\ (forall x, In x (data (table l0)) -> PrimFloat.is_nan x = false ->
        PrimFloat.ltb x lo = false /\ PrimFloat.ltb hi x = false).
Proof.
  intros Hacc Hsh Hex Hd Hdw Ht Htw Hsize lo hi.
  destruct (dispatch_facts lib h ref Hacc)
    as (h1 & c & l0' & l1 & Hn & Hs0 & Hs1 & Hshaper & Hcu & Hflag & H3x
        & Hname & Hcms & Hkind).
  rewrite Hsh in Hshaper.
  destruct (has_3x1D c) eqn:E3x; [|discriminate Hshaper].
  injection Hshaper as <-.
  split; [|split;
           [|split; [apply nan_fold_entry|split; [apply nan_fold_entry|]]]].
  - intros Hnon Hcube. rewrite Hnon in Hflag.
    assert (validate c l0 l1 = Ok tt) as Hv.
    { apply validate_ok; [intros _; exact Hsize|].
      intros H3. apply Hcube. rewrite Hcu, H3. reflexivity. }
    rewrite (write_valid lib h fs ref path decimals h1 c l0 l1 Hn Hs0 Hs1 Hv).
    rewrite (serialise_non_uniform decimals l0 n Hex Hd Hdw Ht Htw c l1
               E3x Hflag).
    cbn [fst snd]. rewrite Hname, Hcms, Hkind. exists h1. reflexivity.
  - intros Hnon l1' n0 n1 n2 t Hcube Hcsize Hcs Hcw Hflat.
    rewrite Hnon in Hflag. rewrite Hcube in Hcu.
    destruct (has_3D c) eqn:E3; [|discriminate Hcu].
    injection Hcu as <-.
    assert (validate c l0 l1' = Ok tt) as Hv
      by (apply validate_ok; intros _; assumption).
    rewrite (write_valid lib h fs ref path decimals h1 c l0 l1' Hn Hs0 Hs1
               Hv).
    rewrite (serialise_explicit_cube decimals l0 n Hex Hd Hdw Ht Htw c l1'
               n0 n1 n2 t E3 E3x Hflag Hcs Hcw Hflat).
    cbn [fst snd]. rewrite Hname, Hcms. exists h1. reflexivity.
  - intros x Hx Hnan. split;
      [apply nanmin_least | apply nanmax_greatest]; assumption.
Qed.

Lemma C10_witness :
  (exists h',
     write_LUT_Cinespace sample_lib 0 (txt "out.csp") 3
       ([ObjLUT ragged_shaper], no_files)
     = ((h', fs_write no_files (txt "out.csp")
               (non_uniform_text 3 (txt "1D") (txt "ragged") []
                  ragged_shaper (nanmin (table ragged_shaper))
                  (nanmax (table ragged_shaper)))),
        Ok true))
  /\ (exists h' t,
        reshape_F_rows3 (table sample_cube) = Ok t
        /\ write_LUT_Cinespace sample_lib 2 (txt "look.csp") 3
             (explicit_sequence, no_files)
           = ((h', fs_write no_files (txt "look.csp")
                     (head_text (txt "3D") (txt "My cube")
                        [txt "A comment."; txt "A comment."]
                      ++ raw_shaper_text 3 explicit_shaper
                      ++ cube_text 3 2 2 2 t)),
              Ok true)).
Proof.
  split.
  - assert (accepted [ObjLUT ragged_shaper] 0) as Hacc
      by (left; exists ragged_shaper; reflexivity).
    apply (proj1 (C10_global_range sample_lib [ObjLUT ragged_shaper]
                    no_files 0 (txt "out.csp") 3 ragged_shaper 3 Hacc
                    eq_refl eq_refl eq_refl eq_refl eq_refl eq_refl
                    ltac:(unfold shaper_size_ok; vm_compute;
                          split; discriminate))
             eq_refl ltac:(intros l1 H; discriminate H)).
  - assert (accepted explicit_sequence 2) as Hacc.
    { right. exists [0; 1]. split; [reflexivity|].
      exists 0, 1, explicit_shaper, sample_cube.
      repeat split; auto. }
    destruct (rows3_exists (table sample_cube) 2 2 2 eq_refl eq_refl)
      as [t Ht].
    destruct (proj1 (proj2 (C10_global_range sample_lib explicit_sequence
                              no_files 2 (txt "look.csp") 3 explicit_shaper
                              3 Hacc eq_refl eq_refl eq_refl eq_refl eq_refl
                              eq_refl
                              ltac:(unfold shaper_size_ok; vm_compute;
                                    split; discriminate)))
                eq_refl sample_cube 2 2 2 t eq_refl
                ltac:(unfold cube_size_ok; vm_compute; split; discriminate)
                eq_refl eq_refl Ht) as [h' Hw].
    exists h', t. split; [exact Ht | exact Hw].
Defined.

End ShaperRange.
